(** * DeepSeek-Thinking-Update: agentic iteration engine and tool server manager

    A shallow embedding of the parts of the proxy that the specification
    talks about:

    - [mcp_servers/__init__.py]: the on-disk registry (side file
      [enabled.txt], descriptor scan);
    - [mcp_servers/mcp_client.py]: the three transport adapters'
      [call_tool], the manager's tool map, [call_tool] dispatch and
      [_load_from_directory];
    - [gemini_proxy_server.py]: history rewriting, the retry wrapper, the
      final-reply builder and the buffered loop [process_request];
    - [proxy_server.py]: the tool merge and the buffered loop of the
      DeepSeek dialect.

    Python values that the code treats as open-ended JSON (dicts, lists,
    strings) are modelled by the type [json]; a Python [dict] is an
    association list in insertion order.  Code that can raise returns in
    the monad [py]; I/O (the upstream HTTP API, the tool servers) is a
    [World] threaded through the calls. *)

From Stdlib Require Import ZArith List String Ascii Lia Bool.
From stdpp Require Import base option list strings pretty gmap sets sorting.

Open Scope string_scope.
Open Scope list_scope.
Open Scope stdpp_scope.

Set Warnings "-register-all".

(* ================================================================= *)
(** * Python values and exceptions *)

(** A computation that either returns or raises the named exception. *)
Inductive py (A : Type) : Type :=
| Ret (a : A)
| Raise (exc : string).
Arguments Ret {A} a.
Arguments Raise {A} exc.

Definition py_bind {A B} (m : py A) (k : A -> py B) : py B :=
  match m with
  | Ret a => k a
  | Raise e => Raise e
  end.

Notation "'let!' x ':=' m 'in' k" := (py_bind m (fun x => k))
  (at level 10, x name, m at level 100, k at level 200).
Notation "'let!' ' pat ':=' m 'in' k" :=
  (py_bind m (fun x => let 'pat := x in k))
  (at level 10, pat pattern, m at level 100, k at level 200).

Definition returns {A} (m : py A) : bool :=
  match m with Ret _ => true | Raise _ => false end.

(** A loop body that may raise, run over a list. *)
Fixpoint py_map {A B} (f : A -> py B) (l : list A) : py (list B) :=
  match l with
  | [] => Ret []
  | a :: rest =>
      let! b := f a in
      let! bs := py_map f rest in
      Ret (b :: bs)
  end.

Definition nl : string := String (ascii_of_nat 10) "".

(** [sep.join(parts)] *)
Fixpoint join (sep : string) (parts : list string) : string :=
  match parts with
  | [] => ""
  | [p] => p
  | p :: rest => p +:+ sep +:+ join sep rest
  end.

(** ** A Python [dict] with string keys: an association list in insertion
    order, each key at most once. *)
Section Dict.
Context {V : Type}.

(** [d.get(k)] *)
Fixpoint dict_get (k : string) (d : list (string * V)) : option V :=
  match d with
  | [] => None
  | (k', v) :: rest => if String.eqb k k' then Some v else dict_get k rest
  end.

(** [d[k] = v]: an existing key keeps its position. *)
Fixpoint dict_set (k : string) (v : V) (d : list (string * V))
  : list (string * V) :=
  match d with
  | [] => [(k, v)]
  | (k', v') :: rest =>
      if String.eqb k k' then (k', v) :: rest
      else (k', v') :: dict_set k v rest
  end.

(** [k in d] *)
Definition dict_has (k : string) (d : list (string * V)) : bool :=
  match dict_get k d with Some _ => true | None => false end.

(** [d.get(k, default)] *)
Definition dict_get_or (k : string) (default : V)
           (d : list (string * V)) : V :=
  match dict_get k d with Some v => v | None => default end.

(** [del d[k]] *)
Fixpoint dict_del (k : string) (d : list (string * V)) : list (string * V) :=
  match d with
  | [] => []
  | (k', v) :: rest =>
      if String.eqb k k' then rest else (k', v) :: dict_del k rest
  end.

(** [d.keys()], [d.values()] *)
Definition dict_keys (d : list (string * V)) : list string := map fst d.
Definition dict_values (d : list (string * V)) : list V := map snd d.
End Dict.

Module Json.

(** A decoded JSON document, as Python's [json] module produces it:
    [None], [bool], [int], [float] (kept as its lexeme), [str], [list],
    [dict] (insertion ordered). *)
Inductive json : Type :=
| JNull
| JBool (b : bool)
| JInt (n : Z)
| JFloat (lexeme : string)
| JStr (s : string)
| JArr (items : list json)
| JObj (fields : list (string * json)).

(** [isinstance(v, dict)] *)
Definition is_dict (v : json) : bool :=
  match v with JObj _ => true | _ => false end.

(** [isinstance(p, dict) and k in p] *)
Definition dict_with (k : string) (p : json) : bool :=
  match p with JObj d => dict_has k d | _ => false end.

(** [v.get(k, default)]: only a dict has [get]. *)
Definition py_get (v : json) (k : string) (default : json) : py json :=
  match v with
  | JObj d => Ret (dict_get_or k default d)
  | _ => Raise "AttributeError"
  end.

(** [for x in v]: a list yields its items, a dict its keys, a string its
    characters; the other values are not iterable. *)
Definition py_iter (v : json) : py (list json) :=
  match v with
  | JArr l => Ret l
  | JObj d => Ret (map (fun kv => JStr (fst kv)) d)
  | JStr s => Ret (map (fun c => JStr (String c "")) (list_ascii_of_string s))
  | _ => Raise "TypeError"
  end.

(** Truth value of a Python object. *)
Definition truthy (v : json) : bool :=
  match v with
  | JNull => false
  | JBool b => b
  | JInt n => negb (Z.eqb n 0)
  | JFloat _ => true
  | JStr s => negb (String.eqb s "")
  | JArr l => match l with [] => false | _ => true end
  | JObj d => match d with [] => false | _ => true end
  end.

(** ** [json.loads]: the strict JSON grammar of Python's decoder.

    Whitespace is space, tab, LF and CR; strings reject raw control
    characters; comments are not part of the grammar. *)

Definition is_ws (c : ascii) : bool :=
  let n := nat_of_ascii c in
  Nat.eqb n 32 || Nat.eqb n 9 || Nat.eqb n 10 || Nat.eqb n 13.

Fixpoint skip_ws (s : string) : string :=
  match s with
  | String c r => if is_ws c then skip_ws r else s
  | EmptyString => s
  end.

Definition is_digit (c : ascii) : bool :=
  let n := nat_of_ascii c in Nat.leb 48 n && Nat.leb n 57.

Definition hex_val (c : ascii) : option N :=
  let n := N_of_ascii c in
  if N.leb 48 n && N.leb n 57 then Some (n - 48)%N
  else if N.leb 97 n && N.leb n 102 then Some (n - 87)%N
  else if N.leb 65 n && N.leb n 70 then Some (n - 55)%N
  else None.

(** Four hex digits of a [\uXXXX] escape. *)
Definition hex4 (s : string) : option (N * string) :=
  match s with
  | String a (String b (String c (String d r))) =>
      match hex_val a, hex_val b, hex_val c, hex_val d with
      | Some x, Some y, Some z, Some w =>
          Some ((x * 4096 + y * 256 + z * 16 + w)%N, r)
      | _, _, _, _ => None
      end
  | _ => None
  end.

Definition byte (n : N) : ascii := ascii_of_N n.

(** The double quote and the backslash. *)
Definition dquote : ascii := ascii_of_nat 34.
Definition backslash : ascii := ascii_of_nat 92.

(** UTF-8 encoding of a code point (strings are kept as UTF-8 bytes). *)
Definition utf8_encode (cp : N) : string :=
  if N.ltb cp 128 then String (byte cp) ""
  else if N.ltb cp 2048 then
    String (byte (192 + cp / 64)) (String (byte (128 + cp mod 64)) "")
  else if N.ltb cp 65536 then
    String (byte (224 + cp / 4096))
      (String (byte (128 + (cp / 64) mod 64))
         (String (byte (128 + cp mod 64)) ""))
  else
    String (byte (240 + cp / 262144))
      (String (byte (128 + (cp / 4096) mod 64))
         (String (byte (128 + (cp / 64) mod 64))
            (String (byte (128 + cp mod 64)) ""))).

Definition is_high_surrogate (n : N) : bool := N.leb 55296 n && N.leb n 56319.
Definition is_low_surrogate (n : N) : bool := N.leb 56320 n && N.leb n 57343.

(** The code point of a [\u] escape, joining a surrogate pair. *)
Definition scan_unicode (s : string) : option (N * string) :=
  match hex4 s with
  | Some (hi, r) =>
      if is_high_surrogate hi then
        match r with
        | String b (String "u" r2) =>
            if negb (Ascii.eqb b backslash) then Some (hi, r) else
            match hex4 r2 with
            | Some (lo, r3) =>
                if is_low_surrogate lo
                then Some ((65536 + (hi - 55296) * 1024 + (lo - 56320))%N, r3)
                else Some (hi, r)
            | None => Some (hi, r)
            end
        | _ => Some (hi, r)
        end
      else Some (hi, r)
  | None => None
  end.

(** The body of a string literal, after its opening quote. *)
Fixpoint scan_string (fuel : nat) (s : string) (acc : string)
  : option (string * string) :=
  match fuel with
  | O => None
  | S fuel' =>
      match s with
      | EmptyString => None
      | String c r =>
          if Ascii.eqb c dquote then Some (acc, r)
          else if Ascii.eqb c backslash then
            match r with
            | String e r' =>
                let lit (x : N) := scan_string fuel' r' (acc +:+ String (byte x) "") in
                if Ascii.eqb e dquote then lit 34%N
                else if Ascii.eqb e backslash then lit 92%N
                else if Ascii.eqb e "/" then lit 47%N
                else if Ascii.eqb e "b" then lit 8%N
                else if Ascii.eqb e "f" then lit 12%N
                else if Ascii.eqb e "n" then lit 10%N
                else if Ascii.eqb e "r" then lit 13%N
                else if Ascii.eqb e "t" then lit 9%N
                else if Ascii.eqb e "u" then
                  match scan_unicode r' with
                  | Some (cp, r2) => scan_string fuel' r2 (acc +:+ utf8_encode cp)
                  | None => None
                  end
                else None
            | EmptyString => None
            end
          else if Nat.ltb (nat_of_ascii c) 32 then None
          else scan_string fuel' r (acc +:+ String c "")
      end
  end.

Fixpoint take_digits (s : string) : string * string :=
  match s with
  | String c r =>
      if is_digit c then let '(d, r') := take_digits r in (String c d, r')
      else ("", s)
  | EmptyString => ("", s)
  end.

Fixpoint digits_value (s : string) (acc : Z) : Z :=
  match s with
  | String c r => digits_value r (acc * 10 + (Z.of_nat (nat_of_ascii c) - 48))
  | EmptyString => acc
  end.

(** The integer part: an optional minus, then 0 or a digit string
    without leading zero. *)
Definition scan_integer (s : string) : option (string * string) :=
  let '(sign, body) :=
    match s with
    | String "-" r => ("-", r)
    | _ => ("", s)
    end in
  match body with
  | String "0" r => Some (sign +:+ "0", r)
  | String c _ =>
      if is_digit c then
        let '(d, r) := take_digits body in Some (sign +:+ d, r)
      else None
  | EmptyString => None
  end.

(** The optional fraction: a dot and at least one digit. *)
Definition scan_frac (s : string) : string * string :=
  match s with
  | String "." r =>
      match take_digits r with
      | ("", _) => ("", s)
      | (d, r') => ("." +:+ d, r')
      end
  | _ => ("", s)
  end.

(** The optional exponent: e or E, an optional sign, at least one digit. *)
Definition scan_exp (s : string) : string * string :=
  match s with
  | String e r =>
      if Ascii.eqb e "e" || Ascii.eqb e "E" then
        let '(sg, r1) :=
          match r with
          | String "-" r1 => ("-", r1)
          | String "+" r1 => ("+", r1)
          | _ => ("", r)
          end in
        match take_digits r1 with
        | ("", _) => ("", s)
        | (d, r') => (String e "" +:+ sg +:+ d, r')
        end
      else ("", s)
  | EmptyString => ("", s)
  end.

Definition int_of_lexeme (s : string) : Z :=
  match s with
  | String "-" r => (- digits_value r 0)%Z
  | _ => digits_value s 0
  end.

Definition scan_number (s : string) : option (json * string) :=
  match scan_integer s with
  | Some (i, r) =>
      let '(f, r1) := scan_frac r in
      let '(e, r2) := scan_exp r1 in
      if String.eqb f "" && String.eqb e ""
      then Some (JInt (int_of_lexeme i), r2)
      else Some (JFloat (i +:+ f +:+ e), r2)
  | None => None
  end.

(** [prefix p s] strips the literal [p] from the front of [s]. *)
Fixpoint strip_prefix (p s : string) : option string :=
  match p, s with
  | EmptyString, _ => Some s
  | String a p', String b s' => if Ascii.eqb a b then strip_prefix p' s' else None
  | String _ _, EmptyString => None
  end.

Definition scan_literal (s : string) : option (json * string) :=
  match strip_prefix "null" s with
  | Some r => Some (JNull, r)
  | None =>
  match strip_prefix "true" s with
  | Some r => Some (JBool true, r)
  | None =>
  match strip_prefix "false" s with
  | Some r => Some (JBool false, r)
  | None =>
  match scan_number s with
  | Some res => Some res
  | None =>
  match strip_prefix "NaN" s with
  | Some r => Some (JFloat "NaN", r)
  | None =>
  match strip_prefix "Infinity" s with
  | Some r => Some (JFloat "Infinity", r)
  | None =>
  match strip_prefix "-Infinity" s with
  | Some r => Some (JFloat "-Infinity", r)
  | None => None
  end end end end end end end.

(** [scan_once]: one value at the head of [s]; [scan_members] and
    [scan_elements] are the loops of the object and array decoders,
    entered after the opening bracket and the whitespace behind it. *)
Fixpoint scan_once (fuel : nat) (s : string) : option (json * string) :=
  match fuel with
  | O => None
  | S fuel' =>
      match s with
      | String c r =>
          if Ascii.eqb c dquote then
            match scan_string (String.length r + 1) r "" with
            | Some (str, r') => Some (JStr str, r')
            | None => None
            end
          else if Ascii.eqb c "{" then
            match skip_ws r with
            | String "}" r' => Some (JObj [], r')
            | r' => scan_members fuel' r' []
            end
          else if Ascii.eqb c "[" then
            match skip_ws r with
            | String "]" r' => Some (JArr [], r')
            | r' => scan_elements fuel' r' []
            end
          else scan_literal s
      | EmptyString => None
      end
  end

with scan_members (fuel : nat) (s : string) (acc : list (string * json))
  : option (json * string) :=
  match fuel with
  | O => None
  | S fuel' =>
      match s with
      | String c r =>
          if negb (Ascii.eqb c dquote) then None else
          match scan_string (String.length r + 1) r "" with
          | Some (key, r1) =>
              match skip_ws r1 with
              | String ":" r2 =>
                  match scan_once fuel' (skip_ws r2) with
                  | Some (v, r3) =>
                      let acc' := dict_set key v acc in
                      match skip_ws r3 with
                      | String "}" r4 => Some (JObj acc', r4)
                      | String "," r4 => scan_members fuel' (skip_ws r4) acc'
                      | _ => None
                      end
                  | None => None
                  end
              | _ => None
              end
          | None => None
          end
      | EmptyString => None
      end
  end

with scan_elements (fuel : nat) (s : string) (acc : list json)
  : option (json * string) :=
  match fuel with
  | O => None
  | S fuel' =>
      match scan_once fuel' s with
      | Some (v, r) =>
          match skip_ws r with
          | String "]" r' => Some (JArr (acc ++ [v]), r')
          | String "," r' => scan_elements fuel' (skip_ws r') (acc ++ [v])
          | _ => None
          end
      | None => None
      end
  end.

(** [json.loads(text)]: [None] stands for [JSONDecodeError]. *)
Definition json_loads (text : string) : option json :=
  let s := skip_ws text in
  match scan_once (2 * String.length s + 2) s with
  | Some (v, r) =>
      match skip_ws r with
      | EmptyString => Some v
      | _ => None
      end
  | None => None
  end.

(** [v == s] for a string constant [s]. *)
Definition json_eqb_str (v : json) (s : string) : bool :=
  match v with JStr s' => String.eqb s' s | _ => false end.

(** [k in v] *)
Definition py_contains (k : string) (v : json) : py bool :=
  match v with
  | JObj d => Ret (dict_has k d)
  | JArr l => Ret (existsb (fun x => json_eqb_str x k) l)
  | JStr s => Ret (match String.index 0 k s with Some _ => true | None => false end)
  | _ => Raise "TypeError"
  end.

(** [v[k]] *)
Definition py_getitem (v : json) (k : string) : py json :=
  match v with
  | JObj d =>
      match dict_get k d with
      | Some x => Ret x
      | None => Raise "KeyError"
      end
  | _ => Raise "TypeError"
  end.

(** ** [json.dumps] with the default separators *)

Definition hex_digit (n : N) : ascii :=
  if N.ltb n 10 then byte (48 + n) else byte (87 + n).

(** [\uXXXX] with four lower-case hex digits. *)
Definition u_escape (n : N) : string :=
  String backslash (String "u"
    (String (hex_digit ((n / 4096) mod 16))
       (String (hex_digit ((n / 256) mod 16))
          (String (hex_digit ((n / 16) mod 16))
             (String (hex_digit (n mod 16)) ""))))).

(** A code point above the basic plane is written as a surrogate pair. *)
Definition u_escape_any (cp : N) : string :=
  if N.ltb cp 65536 then u_escape cp
  else
    let v := (cp - 65536)%N in
    u_escape (55296 + v / 1024) +:+ u_escape (56320 + v mod 1024).

Definition cont (c : ascii) : N := (N_of_ascii c - 128)%N.

(** The characters of a string literal between its quotes.  With
    [ensure_ascii] every character outside space..~ is escaped, without
    it only the control characters, the quote and the backslash. *)
Fixpoint escape_body (ensure_ascii : bool) (s : string) : string :=
  match s with
  | EmptyString => ""
  | String c r =>
      let n := N_of_ascii c in
      if N.eqb n 34 then String backslash (String dquote (escape_body ensure_ascii r))
      else if N.eqb n 92 then String backslash (String backslash (escape_body ensure_ascii r))
      else if N.eqb n 10 then String backslash ("n" +:+ escape_body ensure_ascii r)
      else if N.eqb n 13 then String backslash ("r" +:+ escape_body ensure_ascii r)
      else if N.eqb n 9 then String backslash ("t" +:+ escape_body ensure_ascii r)
      else if N.eqb n 8 then String backslash ("b" +:+ escape_body ensure_ascii r)
      else if N.eqb n 12 then String backslash ("f" +:+ escape_body ensure_ascii r)
      else if N.ltb n 32 then u_escape n +:+ escape_body ensure_ascii r
      else if N.ltb n 127 || negb ensure_ascii
      then String c (escape_body ensure_ascii r)
      else if N.ltb n 192 then u_escape n +:+ escape_body ensure_ascii r
      else
        match r with
        | EmptyString => u_escape n
        | String c2 r2 =>
            if N.ltb n 224
            then u_escape_any ((n - 192) * 64 + cont c2)
                 +:+ escape_body ensure_ascii r2
            else
              match r2 with
              | EmptyString => u_escape n +:+ u_escape (N_of_ascii c2)
              | String c3 r3 =>
                  if N.ltb n 240
                  then u_escape_any ((n - 224) * 4096 + cont c2 * 64 + cont c3)
                       +:+ escape_body ensure_ascii r3
                  else
                    match r3 with
                    | EmptyString =>
                        u_escape n +:+ u_escape (N_of_ascii c2)
                        +:+ u_escape (N_of_ascii c3)
                    | String c4 r4 =>
                        u_escape_any ((n - 240) * 262144 + cont c2 * 4096
                                      + cont c3 * 64 + cont c4)
                        +:+ escape_body ensure_ascii r4
                    end
              end
        end
  end.

Definition dumps_string (ensure_ascii : bool) (s : string) : string :=
  String dquote (escape_body ensure_ascii s) +:+ String dquote "".

(** [json.dumps(v, ensure_ascii=...)] *)
Fixpoint json_dumps (ensure_ascii : bool) (v : json) : string :=
  match v with
  | JNull => "null"
  | JBool true => "true"
  | JBool false => "false"
  | JInt n => pretty n
  | JFloat lexeme => lexeme
  | JStr s => dumps_string ensure_ascii s
  | JArr items =>
      "[" +:+ join ", " (map (json_dumps ensure_ascii) items) +:+ "]"
  | JObj fields =>
      "{" +:+ join ", "
            ((fix members (d : list (string * json)) : list string :=
                match d with
                | [] => []
                | (k, x) :: rest =>
                    (dumps_string ensure_ascii k +:+ ": "
                     +:+ json_dumps ensure_ascii x) :: members rest
                end) fields)
      +:+ "}"
  end.

(** ** Comments, as the specification words them

    The position of a reader in a JSON text: outside every string
    literal, inside one, or behind a backslash inside one. *)
Inductive Lex : Type := Outside | Inside | Escaped.

Definition lex_step (st : Lex) (c : ascii) : Lex :=
  match st with
  | Outside => if Ascii.eqb c dquote then Inside else Outside
  | Inside =>
      if Ascii.eqb c dquote then Outside
      else if Ascii.eqb c backslash then Escaped
      else Inside
  | Escaped => Inside
  end.

(** A [//] or a [/*] begins in [s] outside every string literal, [s]
    being read from the position [st]. *)
Fixpoint comment_from (st : Lex) (s : string) : bool :=
  match s with
  | EmptyString => false
  | String c r =>
      match st, r with
      | Outside, String d _ =>
          (Ascii.eqb c "/" && (Ascii.eqb d "/" || Ascii.eqb d "*"))
          || comment_from (lex_step st c) r
      | _, _ => comment_from (lex_step st c) r
      end
  end.

(** The text carries a line comment or a block comment outside its
    string literals. *)
Definition has_comment (text : string) : bool := comment_from Outside text.

(** The position at the end of [s]; [None] once a slash stands outside
    every string literal. *)
Fixpoint lex (st : Lex) (s : string) : option Lex :=
  match s with
  | EmptyString => Some st
  | String c r =>
      match st with
      | Outside => if Ascii.eqb c "/" then None else lex (lex_step st c) r
      | _ => lex (lex_step st c) r
      end
  end.

(** [s] is [r] behind a prefix that leads from [st] to [st'] and has no
    slash outside string literals. *)
Definition reads (st : Lex) (s r : string) (st' : Lex) : Prop :=
  exists p, s = p +:+ r /\ lex st p = Some st'.

End Json.
Export Json.

(* ================================================================= *)
(** * Effects

    Code that talks to the outside threads a world [W] and leaves a trace
    of what it did: an [io W A] runs from a world to a result (or a raised
    exception), the world afterwards, and the events it emitted. *)

Inductive event : Type :=
| EvIteration (iteration : nat)
    (* a round of an engine's while loop begins *)
| EvPost (model : string) (stream : bool) (payload : json)
    (* requests.post to the upstream generateContent endpoint *)
| EvReply (status : Z) (body : option json)
    (* the response it returned: status_code and response.json() *)
| EvSleep (seconds : Z)
    (* time.sleep *)
| EvChatCreate (model : string) (messages : list json) (tools : option (list json))
    (* client.chat.completions.create *)
| EvConnStart (server : string)
    (* connection.start() *)
| EvRpc (server method : string) (params : json).
    (* connection._send_request *)

(** The replies the upstream gave with status 200, in order. *)
Definition reply_of (e : event) : option json :=
  match e with
  | EvReply status (Some body) => if Z.eqb status 200 then Some body else None
  | _ => None
  end.

Definition replies_of (trace : list event) : list json := omap reply_of trace.

(** The number of upstream attempts that a trace records. *)
Definition is_post (e : event) : bool :=
  match e with EvPost _ _ _ => true | _ => false end.

Definition attempts (trace : list event) : nat :=
  length (List.filter is_post trace).

(** The number of rounds of the engine's loop that a trace records. *)
Definition is_iteration (e : event) : bool :=
  match e with EvIteration _ => true | _ => false end.

Definition iterations (trace : list event) : nat :=
  length (List.filter is_iteration trace).

(** The tool list an upstream call carries: the [tools] argument of the
    chat API, the [tools] entry of the payload posted to Gemini. *)
Definition tools_sent (e : event) : option (option (list json)) :=
  match e with
  | EvChatCreate _ _ tools => Some tools
  | EvPost _ _ (JObj payload) =>
      Some (match dict_get "tools" payload with
            | Some (JArr tools) => Some tools
            | _ => None
            end)
  | _ => None
  end.

(** The client's declarations followed by the manager's, [None] when
    there is none at all. *)
Definition client_then_manager (client : option (list json))
           (manager : list json) : option (list json) :=
  match default [] client ++ manager with
  | [] => None
  | merged => Some merged
  end.

(** The name an OpenAI-style tool declaration declares. *)
Definition declared_name (tool : json) : option string :=
  match tool with
  | JObj d =>
      match dict_get "function" d with
      | Some (JObj f) =>
          match dict_get "name" f with
          | Some (JStr name) => Some name
          | _ => None
          end
      | _ => None
      end
  | _ => None
  end.

Definition io (W A : Type) : Type := W -> py A * W * list event.

Definition io_ret {W A} (a : A) : io W A := fun w => (Ret a, w, []).

Definition io_raise {W A} (exc : string) : io W A := fun w => (Raise exc, w, []).

Definition io_bind {W A B} (m : io W A) (k : A -> io W B) : io W B :=
  fun w =>
    match m w with
    | (Ret a, w1, t1) =>
        let '(r, w2, t2) := k a w1 in (r, w2, t1 ++ t2)
    | (Raise e, w1, t1) => (Raise e, w1, t1)
    end.

Definition io_lift {W A} (m : py A) : io W A := fun w => (m, w, []).

Definition emit {W} (e : event) : io W unit := fun w => (Ret tt, w, [e]).

(** [try: m  except Exception: handler] *)
Definition io_catch {W A} (m : io W A) (handler : io W A) : io W A :=
  fun w =>
    match m w with
    | (Ret a, w1, t1) => (Ret a, w1, t1)
    | (Raise _, w1, t1) => let '(r, w2, t2) := handler w1 in (r, w2, t1 ++ t2)
    end.

Notation "'do!' x ':=' m 'in' k" := (io_bind m (fun x => k))
  (at level 10, x name, m at level 100, k at level 200).
Notation "'do!' ' pat ':=' m 'in' k" := (io_bind m (fun x => let 'pat := x in k))
  (at level 10, pat pattern, m at level 100, k at level 200).

Definition result_of {W A} (r : py A * W * list event) : py A := r.1.1.
Definition world_of {W A} (r : py A * W * list event) : W := r.1.2.
Definition trace_of {W A} (r : py A * W * list event) : list event := r.2.

(** ** Properties of a computation

    [emits P m]: whatever the world, every event [m] leaves satisfies [P]. *)
Definition emits {W A} (P : event -> Prop) (m : io W A) : Prop :=
  forall w, Forall P (trace_of (m w)).

(** [ensures Q m]: whatever the world, a value [m] returns satisfies [Q]. *)
Definition ensures {W A} (Q : A -> Prop) (m : io W A) : Prop :=
  forall w a, result_of (m w) = Ret a -> Q a.

(* ================================================================= *)
(** * [mcp_servers/__init__.py]: the tool registry *)

Module Registry.

(** What [open(path)] finds: no file; a file whose reading raises (it
    cannot be opened, or cannot be decoded from some point on) after
    the text [before] has been read; a file with its text. *)
Inductive file : Type :=
| Missing
| Unreadable (before : string)
| Text (content : string).

(** The directory [MCP_SERVERS_DIR] as the module sees it. *)
Record FS : Type := {
  root : string;                  (* MCP_SERVERS_DIR *)
  listdir : list string;          (* os.listdir(MCP_SERVERS_DIR) *)
  isdir : string -> bool;         (* os.path.isdir(join(root, name)) *)
  config_json : string -> file;   (* <name>/config.json *)
  server_py : string -> bool;     (* os.path.exists(<name>/server.py) *)
  enabled_txt : file;             (* ENABLED_FILE *)
  enabled_writable : bool         (* open(ENABLED_FILE, 'w') succeeds *)
}.

Definition with_enabled_txt (f : file) (fs : FS) : FS :=
  {| root := root fs; listdir := listdir fs; isdir := isdir fs;
     config_json := config_json fs; server_py := server_py fs;
     enabled_txt := f; enabled_writable := enabled_writable fs |}.

(** The same directory with another listing. *)
Definition with_listdir (names : list string) (fs : FS) : FS :=
  {| root := root fs; listdir := names; isdir := isdir fs;
     config_json := config_json fs; server_py := server_py fs;
     enabled_txt := enabled_txt fs; enabled_writable := enabled_writable fs |}.

Definition join_path (dir name : string) : string := dir +:+ "/" +:+ name.

(** ** Text helpers *)

Definition chr (n : nat) : ascii := ascii_of_nat n.
Definition is_chr (n : nat) (c : ascii) : bool := Nat.eqb (nat_of_ascii c) n.

(** The lines a text-mode file yields (universal newlines), without
    their terminators. *)
Fixpoint lines_from (s : string) (cur : string) : list string :=
  match s with
  | EmptyString => if String.eqb cur "" then [] else [cur]
  | String c r =>
      if is_chr 10 c then cur :: lines_from r ""
      else if is_chr 13 c then
        match r with
        | String c' r' =>
            if is_chr 10 c' then cur :: lines_from r' ""
            else cur :: lines_from r ""
        | EmptyString => cur :: lines_from r ""
        end
      else lines_from r (cur +:+ String c "")
  end.

Definition lines (s : string) : list string := lines_from s "".

(** One-byte white space of [str.strip]: TAB..CR, FS..US and space. *)
Definition is_space (c : ascii) : bool :=
  let n := nat_of_ascii c in
  (Nat.leb 9 n && Nat.leb n 13) || (Nat.leb 28 n && Nat.leb n 32).

(** Third byte of the white space characters U+2000..U+200A, U+2028,
    U+2029, U+202F after the bytes E2 80. *)
Definition is_space_e2_80 (c : ascii) : bool :=
  let n := nat_of_ascii c in
  (Nat.leb 128 n && Nat.leb n 138) || Nat.eqb n 168 || Nat.eqb n 169
  || Nat.eqb n 175.

(** [s.lstrip()] on UTF-8 text: also strips U+0085, U+00A0, U+1680,
    U+2000..U+200A, U+2028, U+2029, U+202F, U+205F and U+3000. *)
Fixpoint lstrip (s : string) : string :=
  match s with
  | EmptyString => s
  | String a r =>
      if is_space a then lstrip r
      else
        match r with
        | EmptyString => s
        | String b r2 =>
            if is_chr 194 a && (is_chr 133 b || is_chr 160 b) then lstrip r2
            else
              match r2 with
              | EmptyString => s
              | String c r3 =>
                  if (is_chr 225 a && is_chr 154 b && is_chr 128 c)
                     || (is_chr 226 a && is_chr 128 b && is_space_e2_80 c)
                     || (is_chr 226 a && is_chr 129 b && is_chr 159 c)
                     || (is_chr 227 a && is_chr 128 b && is_chr 128 c)
                  then lstrip r3
                  else s
              end
        end
  end.

Fixpoint string_rev_onto (s acc : string) : string :=
  match s with
  | EmptyString => acc
  | String c r => string_rev_onto r (String c acc)
  end.

Definition string_rev (s : string) : string := string_rev_onto s "".

(** [lstrip] on the reversed text: the same characters, bytes reversed. *)
Fixpoint lstrip_rev (s : string) : string :=
  match s with
  | EmptyString => s
  | String a r =>
      if is_space a then lstrip_rev r
      else
        match r with
        | EmptyString => s
        | String b r2 =>
            if is_chr 194 b && (is_chr 133 a || is_chr 160 a) then lstrip_rev r2
            else
              match r2 with
              | EmptyString => s
              | String c r3 =>
                  if (is_chr 225 c && is_chr 154 b && is_chr 128 a)
                     || (is_chr 226 c && is_chr 128 b && is_space_e2_80 a)
                     || (is_chr 226 c && is_chr 129 b && is_chr 159 a)
                     || (is_chr 227 c && is_chr 128 b && is_chr 128 a)
                  then lstrip_rev r3
                  else s
              end
        end
  end.

Definition rstrip (s : string) : string :=
  string_rev (lstrip_rev (string_rev s)).

(** [s.strip()] *)
Definition strip (s : string) : string := rstrip (lstrip s).

(** [s.startswith(c)] for a one-character prefix. *)
Definition startswith (c : ascii) (s : string) : bool :=
  match s with
  | String c' _ => Ascii.eqb c c'
  | EmptyString => false
  end.

(** ** [get_enabled_servers] *)

(** One round of the loop over the lines of the side file. *)
Definition read_enabled_line (enabled : gset string) (line : string)
  : gset string :=
  let line := strip line in
  if String.eqb line "" || startswith "#" line then enabled
  else enabled ∪ {[ line ]}.

Definition get_enabled_servers (fs : FS) : gset string :=
  match enabled_txt fs with
  | Missing => ∅
  | Unreadable before => foldl read_enabled_line ∅ (lines before)
  | Text content => foldl read_enabled_line ∅ (lines content)
  end.

(** ** [save_enabled_servers] *)

(** Python orders strings by code point, which on UTF-8 text is the
    order of the bytes. *)
Definition str_le (a b : string) : Prop := String.leb a b = true.

#[global] Instance str_le_dec (a b : string) : Decision (str_le a b).
Proof. unfold str_le. apply _. Defined.

Definition sorted (names : gset string) : list string :=
  merge_sort str_le (elements names).

Definition enabled_header : string :=
  "# MCP 服务启用列表" +:+ nl
  +:+ "# 每行一个服务文件夹名，以 # 开头的行为注释" +:+ nl
  +:+ "# 不在列表中的服务将不会被启用" +:+ nl +:+ nl.

Fixpoint write_names (names : list string) : string :=
  match names with
  | [] => ""
  | n :: rest => n +:+ nl +:+ write_names rest
  end.

Definition save_enabled_servers (enabled : gset string) (fs : FS) : FS :=
  if enabled_writable fs
  then with_enabled_txt (Text (enabled_header +:+ write_names (sorted enabled))) fs
  else fs.

(** ** [enable_server], [disable_server] *)

Definition enable_server (name : string) (fs : FS) : bool * FS :=
  if negb (isdir fs name) then (false, fs)
  else
    let enabled := get_enabled_servers fs in
    let enabled := enabled ∪ {[ name ]} in
    (true, save_enabled_servers enabled fs).

Definition disable_server (name : string) (fs : FS) : bool * FS :=
  let enabled := get_enabled_servers fs in
  if decide (name ∈ enabled)
  then (true, save_enabled_servers (enabled ∖ {[ name ]}) fs)
  else (true, fs).

(** ** [get_available_servers] *)

(** The value stored under a server's name. *)
Record ServerInfo : Type := {
  info_path : string;
  info_server_file : json;         (* the path of server.py, or None *)
  info_enabled : bool;
  info_config : json;
  info_description : json;
  info_type : json
}.

(** [json.load] of the descriptor; [None] when opening, decoding or
    parsing raises. *)
Definition load_config_json (fs : FS) (name : string) : option json :=
  match config_json fs name with
  | Text content => json_loads content
  | _ => None
  end.

(** The body of the loop over [os.listdir]. *)
Definition scan_entry (fs : FS) (enabled : gset string)
           (servers : list (string * ServerInfo)) (name : string)
  : py (list (string * ServerInfo)) :=
  let server_dir := join_path (root fs) name in
  if negb (isdir fs name) || startswith "_" name || startswith "." name
  then Ret servers
  else
    match config_json fs name with
    | Missing => Ret servers
    | _ =>
        match load_config_json fs name with
        | None => Ret servers
        | Some config =>
            let! server_type := py_get config "type" (JStr "stdio") in
            let server_file := join_path server_dir "server.py" in
            let is_stdio := json_eqb_str server_type "stdio" in
            if is_stdio && negb (server_py fs name) then Ret servers
            else
              let is_enabled := bool_decide (name ∈ enabled) in
              let! description := py_get config "description" (JStr "") in
              Ret (dict_set name
                     {| info_path := server_dir;
                        info_server_file :=
                          if is_stdio then JStr server_file else JNull;
                        info_enabled := is_enabled;
                        info_config := config;
                        info_description := description;
                        info_type := server_type |} servers)
        end
    end.

Fixpoint scan_entries (fs : FS) (enabled : gset string)
         (servers : list (string * ServerInfo)) (names : list string)
  : py (list (string * ServerInfo)) :=
  match names with
  | [] => Ret servers
  | name :: rest =>
      let! servers' := scan_entry fs enabled servers name in
      scan_entries fs enabled servers' rest
  end.

Definition get_available_servers (fs : FS) : py (list (string * ServerInfo)) :=
  scan_entries fs (get_enabled_servers fs) [] (listdir fs).

(** ** Names and entries

    No line terminator of a text-mode file occurs in [s]. *)
Fixpoint no_breaks (s : string) : bool :=
  match s with
  | EmptyString => true
  | String c r => negb (is_chr 10 c) && negb (is_chr 13 c) && no_breaks r
  end.

(** A name that [save_enabled_servers] writes and [get_enabled_servers]
    reads back as it is: one line, nothing to strip, not blank, not a
    comment. *)
Definition clean (name : string) : bool :=
  no_breaks name && String.eqb (strip name) name
  && negb (String.eqb name "") && negb (startswith "#" name).

(** What the scan stores for a server that is not of type stdio has no
    server file. *)
Definition no_file_unless_stdio (info : ServerInfo) : Prop :=
  forall d, info_config info = JObj d ->
            json_eqb_str (dict_get_or "type" (JStr "stdio") d) "stdio" = false ->
            info_server_file info = JNull.

Definition is_enabled (entry : string * ServerInfo) : bool := info_enabled entry.2.

(** [text.split('\n')]: the pieces between the line feeds. *)
Fixpoint split_nl (s : string) : list string :=
  match s with
  | EmptyString => [""]
  | String c rest =>
      if is_chr 10 c then "" :: split_nl rest
      else match split_nl rest with
           | line :: more => String c line :: more
           | [] => [String c ""]
           end
  end.

End Registry.

(* ================================================================= *)
(** * [mcp_servers/mcp_client.py]: transport adapters and the manager *)

(** [str(v)] inside an f-string: a string is itself; what Python prints
    for any other object is left to the runtime. *)
Class Runtime : Type := { py_repr : json -> string }.

Definition py_str `{Runtime} (v : json) : string :=
  match v with
  | JStr s => s
  | _ => py_repr v
  end.

Module McpClient.
Import Registry.

Inductive MCPServerType : Type := STDIO | STREAMABLE_HTTP | SSE.

(** [MCPServerType(value)]; [None] stands for [ValueError]. *)
Definition MCPServerType_of (value : json) : option MCPServerType :=
  match value with
  | JStr s =>
      if String.eqb s "stdio" then Some STDIO
      else if String.eqb s "streamableHttp" then Some STREAMABLE_HTTP
      else if String.eqb s "sse" then Some SSE
      else None
  | _ => None
  end.

Record MCPTool : Type := {
  tool_name : string;
  tool_description : json;
  tool_input_schema : json;
  tool_server_name : string
}.

Record MCPServerConfig : Type := {
  cfg_name : string;
  cfg_server_type : MCPServerType;
  cfg_description : json;
  cfg_enabled : bool;
  cfg_command : json;
  cfg_args : option (list json);
  cfg_env : json;
  cfg_url : json;
  cfg_headers : json
}.

(** What the tool servers do is the world's business. *)
Class ToolServers (W : Type) : Type := {
  (** [connection._send_request(method, params)] *)
  send_request : MCPServerConfig -> string -> json -> W -> py (option json) * W;
  (** The handshake inside [connection.start()] ([initialize], then
      [tools/list]): the cached tools, or [None] when it raised. *)
  handshake : MCPServerConfig -> W -> option (list MCPTool) * W
}.

(** ** The adapters' [call_tool] *)

(** The loop collecting [item.get("text", "")] of the text items. *)
Fixpoint collect_text_parts (content : list json) : py (list json) :=
  match content with
  | [] => Ret []
  | item :: rest =>
      let! ty := py_get item "type" JNull in
      if json_eqb_str ty "text" then
        let! text := py_get item "text" (JStr "") in
        let! tail := collect_text_parts rest in
        Ret (text :: tail)
      else collect_text_parts rest
  end.

(** [sep.join(parts)] raises unless every part is a string. *)
Fixpoint strings_of (parts : list json) : py (list string) :=
  match parts with
  | [] => Ret []
  | JStr s :: rest => let! tail := strings_of rest in Ret (s :: tail)
  | _ :: _ => Raise "TypeError"
  end.

Definition is_str (v : json) : bool :=
  match v with JStr _ => true | _ => false end.

(** The texts of the items of type [text], in arrival order. *)
Fixpoint text_items (content : list json) : list string :=
  match content with
  | [] => []
  | JObj d :: rest =>
      if json_eqb_str (dict_get_or "type" JNull d) "text" then
        match dict_get_or "text" (JStr "") d with
        | JStr s => s :: text_items rest
        | _ => text_items rest
        end
      else text_items rest
  | _ :: rest => text_items rest
  end.

(** A content item as the protocol describes it: a dict; the text of a
    text item is a string. *)
Definition content_item (item : json) : bool :=
  match item with
  | JObj d =>
      if json_eqb_str (dict_get_or "type" JNull d) "text"
      then is_str (dict_get_or "text" (JStr "") d)
      else true
  | _ => false
  end.

Section Adapters.
Context `{Runtime} {W : Type} `{ToolServers W}.

(** What [call_tool] makes of the reply of [tools/call]; the three
    adapters share this code verbatim. *)
Definition reply_text (response : option json) : py (option string) :=
  match response with
  | None => Ret None
  | Some r =>
      if negb (truthy r) then Ret None
      else
        let! has_result := py_contains "result" r in
        if has_result then
          let! result := py_getitem r "result" in
          let! content := py_get result "content" (JArr []) in
          let! items := py_iter content in
          let! text_parts := collect_text_parts items in
          match text_parts with
          | [] => Ret (Some (json_dumps true content))
          | _ => let! strs := strings_of text_parts in
                 Ret (Some (join nl strs))
          end
        else
          let! has_error := py_contains "error" r in
          if has_error then
            let! err := py_getitem r "error" in
            let! message := py_get err "message" (JStr "未知错误") in
            Ret (Some ("错误: " +:+ py_str message))
          else Ret None
  end.

Definition tools_call (config : MCPServerConfig) (tool : string)
           (arguments : json) : io W (option json) :=
  let params := JObj [("name", JStr tool); ("arguments", arguments)] in
  do! _ := emit (EvRpc (cfg_name config) "tools/call" params) in
  fun w => let '(r, w') := send_request config "tools/call" params w in
           (r, w', []).

Definition MCPHttpConnection_call_tool (config : MCPServerConfig)
           (tool : string) (arguments : json) : io W (option string) :=
  do! response := tools_call config tool arguments in
  io_lift (reply_text response).

Definition MCPStdioConnection_call_tool (config : MCPServerConfig)
           (tool : string) (arguments : json) : io W (option string) :=
  do! response := tools_call config tool arguments in
  io_lift (reply_text response).

Definition MCPSSEConnection_call_tool (config : MCPServerConfig)
           (tool : string) (arguments : json) : io W (option string) :=
  do! response := tools_call config tool arguments in
  io_lift (reply_text response).

(** ** Connections *)

Record Connection : Type := {
  conn_config : MCPServerConfig;
  conn_tools : list MCPTool
}.

(** [create_connection(config)]: one adapter class per server type. *)
Definition create_connection (config : MCPServerConfig) : option Connection :=
  match cfg_server_type config with
  | STREAMABLE_HTTP | STDIO | SSE =>
      Some {| conn_config := config; conn_tools := [] |}
  end.

Definition connection_call_tool (c : Connection) (tool : string)
           (arguments : json) : io W (option string) :=
  match cfg_server_type (conn_config c) with
  | STREAMABLE_HTTP => MCPHttpConnection_call_tool (conn_config c) tool arguments
  | STDIO => MCPStdioConnection_call_tool (conn_config c) tool arguments
  | SSE => MCPSSEConnection_call_tool (conn_config c) tool arguments
  end.

(** [subprocess.Popen([command] + args)] accepts strings only. *)
Definition popen_accepts (config : MCPServerConfig) : bool :=
  is_str (cfg_command config)
  && forallb is_str (default [] (cfg_args config)).

(** The guard of each adapter's [start]: a command that [Popen] accepts,
    or a URL. *)
Definition connection_ready (config : MCPServerConfig) : bool :=
  match cfg_server_type config with
  | STDIO => truthy (cfg_command config) && popen_accepts config
  | STREAMABLE_HTTP | SSE => truthy (cfg_url config)
  end.

(** [connection.start()]: the guard, then the handshake; any exception
    inside makes it return [False]. *)
Definition connection_start (c : Connection) : io W (bool * Connection) :=
  let config := conn_config c in
  do! _ := emit (EvConnStart (cfg_name config)) in
  if connection_ready config then
    fun w =>
      match handshake config w with
      | (Some tools, w') =>
          (Ret (true, {| conn_config := config; conn_tools := tools |}), w', [])
      | (None, w') => (Ret (false, c), w', [])
      end
  else io_ret (false, c).

(** ** [MCPManager] *)

Record MCPManager : Type := {
  servers : list (string * MCPServerConfig);
  connections : list (string * Connection);
  tools : list (string * MCPTool)
}.

Definition empty_manager : MCPManager :=
  {| servers := []; connections := []; tools := [] |}.

Definition qualify (name : string) (tool : MCPTool) : MCPTool :=
  {| tool_name := name +:+ "_" +:+ tool_name tool;
     tool_description := tool_description tool;
     tool_input_schema := tool_input_schema tool;
     tool_server_name := tool_server_name tool |}.

(** The registration loop of [start_server]. *)
Definition register_tools (name : string) (new_tools : list MCPTool)
           (registered : list (string * MCPTool)) : list (string * MCPTool) :=
  foldl (fun acc tool =>
           let full := qualify name tool in
           dict_set (tool_name full) full acc)
        registered new_tools.

Definition start_server (name : string) (m : MCPManager)
  : io W (bool * MCPManager) :=
  match dict_get name (servers m) with
  | None => io_ret (false, m)
  | Some config =>
      if dict_has name (connections m) then io_ret (true, m)
      else
        match create_connection config with
        | None => io_ret (false, m)
        | Some connection =>
            do! '(started, connection) := connection_start connection in
            if started then
              let renamed :=
                {| conn_config := conn_config connection;
                   conn_tools := map (qualify name) (conn_tools connection) |} in
              io_ret (true,
                      {| servers := servers m;
                         connections := dict_set name renamed (connections m);
                         tools := register_tools name (conn_tools connection)
                                                 (tools m) |})
            else io_ret (false, m)
        end
  end.

(** The loop of [start_enabled_servers] over [self.servers.items()]. *)
Fixpoint start_each (items : list (string * MCPServerConfig))
         (m : MCPManager) : io W MCPManager :=
  match items with
  | [] => io_ret m
  | (name, server) :: rest =>
      if cfg_enabled server then
        do! '(_, m') := start_server name m in
        start_each rest m'
      else start_each rest m
  end.

Definition start_enabled_servers (m : MCPManager) : io W MCPManager :=
  start_each (servers m) m.

(** [get_openai_tools] *)
Definition get_openai_tools (m : MCPManager) : list json :=
  map (fun tool =>
         JObj [("type", JStr "function");
               ("function",
                JObj [("name", JStr (tool_name tool));
                      ("description", tool_description tool);
                      ("parameters", tool_input_schema tool)])])
      (dict_values (tools m)).

(** [s.replace(old, "", 1)] *)
Fixpoint remove_first (old s : string) : string :=
  match strip_prefix old s with
  | Some r => r
  | None =>
      match s with
      | String c r => String c (remove_first old r)
      | EmptyString => ""
      end
  end.

(** [MCPManager.call_tool] *)
Definition call_tool (tool_name : string) (arguments : json) (m : MCPManager)
  : io W (option string) :=
  match dict_get tool_name (tools m) with
  | None => io_ret (Some ("工具不存在: " +:+ tool_name))
  | Some tool =>
      let server_name := tool_server_name tool in
      match dict_get server_name (connections m) with
      | None => io_ret (Some ("服务器未连接: " +:+ server_name))
      | Some connection =>
          let original_name := remove_first (server_name +:+ "_") tool_name in
          connection_call_tool connection original_name arguments
      end
  end.

(** ** [_load_from_directory] *)

(** [a + b] for a list [a]. *)
Definition list_concat (a : list json) (b : json) : py (list json) :=
  match b with
  | JArr l => Ret (a ++ l)
  | _ => Raise "TypeError"
  end.

Definition server_config_of (name : string) (info : ServerInfo)
  : py MCPServerConfig :=
  let config := info_config info in
  let! server_type_str := py_get config "type" (JStr "stdio") in
  let server_type :=
    match MCPServerType_of server_type_str with
    | Some t => t
    | None => STDIO
    end in
  match server_type with
  | STDIO =>
      let! description := py_get config "description" (JStr "") in
      let! command := py_get config "command" (JStr "python") in
      let! extra := py_get config "args" (JArr []) in
      let! args := list_concat [info_server_file info] extra in
      let! env := py_get config "env" JNull in
      Ret {| cfg_name := name; cfg_server_type := server_type;
             cfg_description := description; cfg_enabled := true;
             cfg_command := command; cfg_args := Some args;
             cfg_env := env; cfg_url := JNull; cfg_headers := JNull |}
  | _ =>
      let! description := py_get config "description" (JStr "") in
      let! url := py_get config "url" JNull in
      let! headers := py_get config "headers" JNull in
      Ret {| cfg_name := name; cfg_server_type := server_type;
             cfg_description := description; cfg_enabled := true;
             cfg_command := JNull; cfg_args := None;
             cfg_env := JNull; cfg_url := url; cfg_headers := headers |}
  end.

(** A descriptor that gives its [args], if at all, as a list. *)
Definition args_listed (info : ServerInfo) : bool :=
  match info_config info with
  | JObj d =>
      match dict_get_or "args" (JArr []) d with
      | JArr _ => true
      | _ => false
      end
  | _ => false
  end.

(** The loop over [servers.items()]: the number of loaded servers, or
    the exception that ended it, and [self.servers] as it stands. *)
Fixpoint load_servers (items : list (string * ServerInfo))
         (loaded_count : nat) (table : list (string * MCPServerConfig))
  : py nat * list (string * MCPServerConfig) :=
  match items with
  | [] => (Ret loaded_count, table)
  | (name, info) :: rest =>
      if negb (info_enabled info) then load_servers rest loaded_count table
      else
        match server_config_of name info with
        | Ret config =>
            load_servers rest (S loaded_count) (dict_set name config table)
        | Raise e => (Raise e, table)
        end
  end.

Definition with_servers (table : list (string * MCPServerConfig))
           (m : MCPManager) : MCPManager :=
  {| servers := table; connections := connections m; tools := tools m |}.

Definition _load_from_directory (fs : FS) (m : MCPManager)
  : io W (bool * MCPManager) :=
  match get_available_servers fs with
  | Raise _ => io_ret (false, m)
  | Ret available =>
      match load_servers available 0 (servers m) with
      | (Ret loaded_count, table) =>
          if Nat.ltb 0 loaded_count then
            do! m' := start_enabled_servers (with_servers table m) in
            io_ret (true, m')
          else io_ret (true, with_servers table m)
      | (Raise _, table) => io_ret (false, with_servers table m)
      end
  end.

End Adapters.

(** A configuration stored under its own name and switched on. *)
Definition named_and_enabled (entry : string * MCPServerConfig) : Prop :=
  cfg_name entry.2 = entry.1 /\ cfg_enabled entry.2 = true.

(** ** Stopping servers *)

(** What stopping a tool server does is the world's business too:
    [process.terminate()] and the wait for the process to end. *)
Class Processes (W : Type) : Type := {
  terminate : MCPServerConfig -> W -> W
}.

Section Lifecycle.
Context `{Runtime} {W : Type} `{ToolServers W} `{Processes W}.

(** [connection.stop()]: the HTTP and SSE adapters forget their session,
    the stdio adapter ends its process; the connection's tool list is
    rebound to an empty one. *)
Definition connection_stop (c : Connection) : io W Connection :=
  let stopped := {| conn_config := conn_config c; conn_tools := [] |} in
  match cfg_server_type (conn_config c) with
  | STDIO => fun w => (Ret stopped, terminate (conn_config c) w, [])
  | STREAMABLE_HTTP | SSE => io_ret stopped
  end.

(** [{k: v for k, v in self.tools.items() if v.server_name != name}] *)
Definition tools_without (name : string) (registered : list (string * MCPTool))
  : list (string * MCPTool) :=
  List.filter (fun kv => negb (String.eqb (tool_server_name kv.2) name)) registered.

(** [MCPManager.stop_server] *)
Definition stop_server (name : string) (m : MCPManager) : io W MCPManager :=
  match dict_get name (connections m) with
  | Some connection =>
      do! _ := connection_stop connection in
      io_ret {| servers := servers m;
                connections := dict_del name (connections m);
                tools := tools_without name (tools m) |}
  | None => io_ret m
  end.

(** The loop of [stop_all_servers] over [list(self.connections.keys())]. *)
Fixpoint stop_each (names : list string) (m : MCPManager) : io W MCPManager :=
  match names with
  | [] => io_ret m
  | name :: rest =>
      do! m' := stop_server name m in
      stop_each rest m'
  end.

Definition stop_all_servers (m : MCPManager) : io W MCPManager :=
  stop_each (dict_keys (connections m)) m.

(** [MCPManager.reload_config]: the three tables are cleared between the
    stops and the load. *)
Definition reload_config (fs : FS) (m : MCPManager) : io W MCPManager :=
  do! _ := stop_all_servers m in
  do! '(_, m') := _load_from_directory fs empty_manager in
  io_ret m'.

(** [MCPManager.enable_server]: the side file first, then the reload. *)
Definition manager_enable_server (name : string) (fs : FS) (m : MCPManager)
  : io W (bool * FS * MCPManager) :=
  let '(enabled, fs') := Registry.enable_server name fs in
  if enabled then
    do! m' := reload_config fs' m in
    io_ret (true, fs', m')
  else io_ret (false, fs', m).

(** [MCPManager.disable_server]: the side file first, then the stop. *)
Definition manager_disable_server (name : string) (fs : FS) (m : MCPManager)
  : io W (bool * FS * MCPManager) :=
  let '(disabled, fs') := Registry.disable_server name fs in
  if disabled then
    do! m' := stop_server name m in
    io_ret (true, fs', m')
  else io_ret (false, fs', m).

(** One entry of [get_status]. *)
Record ServerStatus : Type := {
  status_type : MCPServerType;
  status_enabled : bool;
  status_running : bool;
  status_description : json;
  status_tools_count : nat
}.

(** The entry [get_status] makes for one server. *)
Definition status_of (m : MCPManager) (name : string) (server : MCPServerConfig)
  : ServerStatus :=
  {| status_type := cfg_server_type server;
     status_enabled := cfg_enabled server;
     status_running := dict_has name (connections m);
     status_description := cfg_description server;
     status_tools_count :=
       length (List.filter (fun t => String.eqb (tool_server_name t) name)
                           (dict_values (tools m))) |}.

(** [MCPManager.get_status] *)
Definition get_status (m : MCPManager) : list (string * ServerStatus) :=
  foldl (fun status '(name, server) => dict_set name (status_of m name server) status)
        [] (servers m).

(** ** The manager's tables *)

(** The tools a successful start caches belong to the server started, as
    [_list_tools] builds them. *)
Definition tools_named_after_server : Prop :=
  forall config w tools w',
    handshake config w = (Some tools, w') ->
    Forall (fun t => tool_server_name t = cfg_name config) tools.

(** The managers the methods make of a new one. *)
Inductive built : MCPManager -> Prop :=
| built_new : built empty_manager
| built_load fs m w loaded m' w' t :
    built m ->
    _load_from_directory fs m w = (Ret (loaded, m'), w', t) ->
    built m'
| built_start name m w started m' w' t :
    built m ->
    start_server name m w = (Ret (started, m'), w', t) ->
    built m'
| built_stop name m w m' w' t :
    built m ->
    stop_server name m w = (Ret m', w', t) ->
    built m'
| built_stop_all m w m' w' t :
    built m ->
    stop_all_servers m w = (Ret m', w', t) ->
    built m'
| built_reload fs m w m' w' t :
    built m ->
    reload_config fs m w = (Ret m', w', t) ->
    built m'
| built_enable name fs m w enabled fs' m' w' t :
    built m ->
    manager_enable_server name fs m w = (Ret (enabled, fs', m'), w', t) ->
    built m'
| built_disable name fs m w disabled fs' m' w' t :
    built m ->
    manager_disable_server name fs m w = (Ret (disabled, fs', m'), w', t) ->
    built m'.

(** The tables are dicts; every configuration is switched on and stored,
    as every connection is, under its own name; every registered tool is
    stored under a name that starts with its server's, and the server of
    every registered tool is connected. *)
Record consistent (m : MCPManager) : Prop := {
  servers_keyed : NoDup (dict_keys (servers m));
  connections_keyed : NoDup (dict_keys (connections m));
  tools_keyed : NoDup (dict_keys (tools m));
  servers_named : forall name config,
      dict_get name (servers m) = Some config ->
      cfg_name config = name /\ cfg_enabled config = true;
  connections_named : forall name c,
      dict_get name (connections m) = Some c -> cfg_name (conn_config c) = name;
  tools_connected : forall key tool,
      dict_get key (tools m) = Some tool ->
      dict_has (tool_server_name tool) (connections m) = true
      /\ exists original, key = tool_server_name tool +:+ "_" +:+ original
}.

End Lifecycle.

(** ** Server-sent events

    How the HTTP adapter and the SSE adapter read the reply to a request
    out of an event stream. *)

(** [line[5:].strip()] of a stripped line that starts with [data:]. *)
Definition data_of (line : string) : option string :=
  match strip_prefix "data:" line with
  | Some rest => Some (strip rest)
  | None => None
  end.

(** The update of [result] by a parsed document: the document replaces
    it when [result] or [error] is in it. *)
Definition keep_reply (parsed : json) (result : option json) : py (option json) :=
  let! has_result := py_contains "result" parsed in
  if has_result then Ret (Some parsed)
  else
    let! has_error := py_contains "error" parsed in
    if has_error then Ret (Some parsed) else Ret result.

(** [json.loads(data)] under [except json.JSONDecodeError], then the
    update. *)
Definition take_document (data : string) (result : option json)
  : py (option json) :=
  match json_loads data with
  | Some parsed => keep_reply parsed result
  | None => Ret result
  end.

(** The loop of [MCPHttpConnection._parse_sse_response]. *)
Fixpoint parse_sse_lines (lines : list string) (result : option json)
  : py (option json) :=
  match lines with
  | [] => Ret result
  | line :: rest =>
      match data_of (strip line) with
      | Some (String c data) =>
          let! result := take_document (String c data) result in
          parse_sse_lines rest result
      | _ => parse_sse_lines rest result
      end
  end.

(** [MCPHttpConnection._parse_sse_response] *)
Definition _parse_sse_response (sse_text : string) : py (option json) :=
  parse_sse_lines (split_nl sse_text) None.

(** What [response.iter_lines] hands to the loop of the SSE adapter: a
    line, or an exception (of the connection, or of the decoding of the
    line). *)
Inductive StreamItem : Type :=
| Line (text : string)
| Broken.

(** What is done with the buffered data at the end of an event; [None]
    when that raises. *)
Definition flush (data_buffer : list string) (result : option json)
  : option (option json) :=
  match data_buffer with
  | [] => Some result
  | _ =>
      match take_document (join nl data_buffer) result with
      | Ret result' => Some result'
      | Raise _ => None
      end
  end.

(** The loop of [MCPSSEConnection._parse_sse_stream] and the handling of
    the last data after it; the [except] around both returns [result]
    as it stands. *)
Fixpoint parse_sse_events (items : list StreamItem) (data_buffer : list string)
         (result : option json) : option json :=
  match items with
  | [] =>
      match flush data_buffer result with
      | Some result' => result'
      | None => result
      end
  | Broken :: _ => result
  | Line text :: rest =>
      let line := strip text in
      if String.eqb line "" then
        match flush data_buffer result with
        | Some result' => parse_sse_events rest [] result'
        | None => result
        end
      else if String.prefix "event:" line then
        parse_sse_events rest data_buffer result
      else
        match data_of line with
        | Some (String c data) =>
            parse_sse_events rest (data_buffer ++ [String c data]) result
        | _ => parse_sse_events rest data_buffer result
        end
  end.

(** [MCPSSEConnection._parse_sse_stream] *)
Definition _parse_sse_stream (items : list StreamItem) : option json :=
  parse_sse_events items [] None.

(** An event stream in which every event is one line, followed by an
    empty line. *)
Definition one_line_events (events : list string) : list string :=
  flat_map (fun event => [event; ""]) events.

End McpClient.

(* ================================================================= *)
(** * [gemini_proxy_server.py]: the Gemini dialect of the engine *)
(* ================================================================= *)
(** * The settings of the two proxies

    [load_config] of [gemini_proxy_server.py] and of [proxy_server.py]
    are the same code up to the defaults. *)

Module Jsonc.
Import Registry.

(** ** Comments *)

(** Whether the end of a block comment occurs in the text. *)
Fixpoint closes (s : string) : bool :=
  match s with
  | EmptyString => false
  | String c rest =>
      match rest with
      | String c' _ => (is_chr 42 c && is_chr 47 c') || closes rest
      | EmptyString => false
      end
  end.

(** [re.sub(r'/\*.*?\*/', '', content, flags=re.DOTALL)], read from
    left to right: a slash and a star start a match where a star and a
    slash follow somewhere, and the match ends with the first such
    pair. *)
Fixpoint remove_from (inside : bool) (s : string) : string :=
  match s with
  | EmptyString => ""
  | String c rest =>
      match rest with
      | String c' rest' =>
          if inside then
            if is_chr 42 c && is_chr 47 c' then remove_from false rest'
            else remove_from true rest
          else if is_chr 47 c && is_chr 42 c' && closes rest'
               then remove_from true rest'
               else String c (remove_from false rest)
      | EmptyString => if inside then "" else String c ""
      end
  end.

Definition remove_block_comments (content : string) : string :=
  remove_from false content.

(** [char] is one of the two quote characters, double and single. *)
Definition is_quote (char : ascii) : bool := is_chr 34 char || is_chr 39 char.

(** [i == 0] or [line[i-1]] is no backslash, for [previous] the
    character before the one at [i], if any. *)
Definition unescaped (previous : option ascii) : bool :=
  match previous with
  | None => true
  | Some c => negb (is_chr 92 c)
  end.

(** [i < len(line) - 1 and line[i+1] == '/'], for [rest] the text after
    the character at [i]. *)
Definition slash_follows (rest : string) : bool :=
  match rest with
  | String c _ => is_chr 47 c
  | EmptyString => false
  end.

Definition same_quote (quote_char : option ascii) (char : ascii) : bool :=
  match quote_char with
  | Some q => Ascii.eqb char q
  | None => false
  end.

(** The loop over [enumerate(line)] from the index [i] on: the index at
    which it breaks, if it does. *)
Fixpoint find_comment (i : nat) (previous : option ascii) (in_string : bool)
         (quote_char : option ascii) (rest : string) : option nat :=
  match rest with
  | EmptyString => None
  | String char rest' =>
      if is_quote char && unescaped previous then
        if negb in_string then
          find_comment (S i) (Some char) true (Some char) rest'
        else if same_quote quote_char char then
          find_comment (S i) (Some char) false None rest'
        else find_comment (S i) (Some char) in_string quote_char rest'
      else if is_chr 47 char && slash_follows rest' && negb in_string then Some i
      else find_comment (S i) (Some char) in_string quote_char rest'
  end.

(** ['//' in line] *)
Definition has_slashes (line : string) : bool :=
  match String.index 0 "//" line with Some _ => true | None => false end.

(** The body of the loop over the lines. *)
Definition strip_line_comment (line : string) : string :=
  if has_slashes line then
    match find_comment 0 None false None line with
    | Some comment_pos => String.substring 0 comment_pos line
    | None => line
    end
  else line.

(** The text handed to [json.loads]. *)
Definition strip_comments (content : string) : string :=
  join nl (map strip_line_comment (split_nl (remove_block_comments content))).

(** ** [load_config] *)

(** [config[key] = value] *)
Definition py_setitem (config : json) (key : string) (value : json) : py json :=
  match config with
  | JObj d => Ret (JObj (dict_set key value d))
  | _ => Raise "TypeError"
  end.

(** [if key in config: print(f"...{config[key]}")] *)
Definition shown (key : string) (config : json) : py unit :=
  let! present := py_contains key config in
  if present then
    let! _ := py_getitem config key in
    Ret tt
  else Ret tt.

(** The loop over [default_config.items()]. *)
Fixpoint merge_defaults (items : list (string * json)) (config : json) : py json :=
  match items with
  | [] => Ret config
  | (key, value) :: rest =>
      let! present := py_contains key config in
      if present then merge_defaults rest config
      else
        let! config' := py_setitem config key value in
        merge_defaults rest config'
  end.

(** The body of the [try]. *)
Definition parse_and_merge (default_config : list (string * json))
           (content : string) : py json :=
  match json_loads (strip_comments content) with
  | None => Raise "JSONDecodeError"
  | Some config =>
      let! _ := shown "port" config in
      let! _ := shown "host" config in
      merge_defaults default_config config
  end.

(** [load_config]: [Missing] is a path that does not exist, [Unreadable]
    a file that [open] or [read] fails on, [Text] what [f.read()]
    returns. *)
Definition load_config (default_config : list (string * json)) (settings : file)
  : json :=
  match settings with
  | Missing => JObj default_config
  | Unreadable _ => JObj default_config
  | Text content =>
      match parse_and_merge default_config content with
      | Ret config => config
      | Raise _ => JObj default_config
      end
  end.

(** ** Spec-level shapes *)

(** A text without quotes, slashes and backslashes. *)
Fixpoint plain (s : string) : bool :=
  match s with
  | EmptyString => true
  | String c rest =>
      negb (is_quote c) && negb (is_chr 47 c) && negb (is_chr 92 c) && plain rest
  end.

(** A text without double quotes and backslashes. *)
Fixpoint quotable (s : string) : bool :=
  match s with
  | EmptyString => true
  | String c rest => negb (is_chr 34 c) && negb (is_chr 92 c) && quotable rest
  end.

Definition double_quote : string := String (chr 34) "".

(** Plain texts alternating with texts in double quotes. *)
Fixpoint code_line (segments : list (string * string)) (last : string) : string :=
  match segments with
  | [] => last
  | (text, quoted) :: rest =>
      text +:+ double_quote +:+ quoted +:+ double_quote +:+ code_line rest last
  end.

Definition code_segment (segment : string * string) : bool :=
  plain segment.1 && quotable segment.2.

(** The text has no start of a block comment. *)
Fixpoint no_block_start (s : string) : bool :=
  match s with
  | EmptyString => true
  | String c rest =>
      negb (is_chr 47 c && match rest with
                          | String c' _ => is_chr 42 c'
                          | EmptyString => false
                          end)
      && no_block_start rest
  end.

End Jsonc.

Module Gemini.
Import Registry McpClient.

(** The settings the engine reads from the global [CONFIG]; a key is
    absent or holds an integer. *)
Record Config : Type := {
  max_iterations : option Z;
  api_retry_count : option Z;
  api_retry_delay : option Z
}.

(** A [requests.Response]: [response_json] is what [response.json()]
    returns, [None] when it raises. *)
Record Response : Type := {
  status_code : Z;
  response_json : option json;
  response_text : string
}.

(** [requests.post] returns a response or raises one of the two
    exceptions the engine handles. *)
Inductive PostOutcome : Type :=
| Responded (response : Response)
| TimedOut (message : string)
| RequestException (message : string).

Class Upstream (W : Type) : Type := {
  requests_post : string -> bool -> json -> W -> PostOutcome * W
}.

(** ** Small helpers of [GeminiProxy] *)

Definition _format_tool_call_text `{Runtime} (tool_name : json)
           (arguments : string) : string :=
  nl +:+ nl +:+ "「调用工具：" +:+ py_str tool_name +:+ "|内容："
     +:+ arguments +:+ "」" +:+ nl +:+ nl.

(** [any(isinstance(p, dict) and 'functionResponse' in p for p in parts)] *)
Definition has_function_response (parts : json) : py bool :=
  let! ps := py_iter parts in
  Ret (existsb (dict_with "functionResponse") ps).

(** The test of the first loop of [_replace_old_tool_results]: a dict
    with role [user] one of whose parts carries a [functionResponse]. *)
Definition is_tool_result (content : json) : py bool :=
  match content with
  | JObj d =>
      if json_eqb_str (dict_get_or "role" JNull d) "user"
      then has_function_response (dict_get_or "parts" (JArr []) d)
      else Ret false
  | _ => Ret false
  end.

(** The first loop: [i] runs from [len(contents) - 1] down to
    [original_contents_length]; [k] counts the indices still to visit.
    [None] is the source's [-1]. *)
Fixpoint last_function_response_index (contents : list json)
         (original_contents_length k : nat) : py (option nat) :=
  match k with
  | O => Ret None
  | S k' =>
      let i := original_contents_length + k' in
      match contents !! i with
      | Some content =>
          let! found := is_tool_result content in
          if found then Ret (Some i)
          else last_function_response_index contents original_contents_length k'
      | None => Raise "IndexError"
      end
  end.

Definition placeholder : json := JObj [("result", JStr "调用完毕")].

(** [part['functionResponse']['response'] = {'result': '调用完毕'}] under
    its guard. *)
Definition blank_part (part : json) : py json :=
  match part with
  | JObj d =>
      match dict_get "functionResponse" d with
      | Some (JObj fr) =>
          Ret (JObj (dict_set "functionResponse"
                              (JObj (dict_set "response" placeholder fr)) d))
      | Some _ => Raise "TypeError"
      | None => Ret part
      end
  | _ => Ret part
  end.

(** [for part in parts: ...]: the parts of a list are rewritten in
    place; the keys of a dict and the characters of a string are not
    dicts. *)
Definition blank_parts (parts : json) : py json :=
  match parts with
  | JArr ps => let! ps' := py_map blank_part ps in Ret (JArr ps')
  | JObj _ | JStr _ => Ret parts
  | _ => Raise "TypeError"
  end.

Definition blank_content (content : json) : py json :=
  match content with
  | JObj d =>
      if json_eqb_str (dict_get_or "role" JNull d) "user" then
        match dict_get "parts" d with
        | Some parts =>
            let! parts' := blank_parts parts in
            Ret (JObj (dict_set "parts" parts' d))
        | None => Ret content
        end
      else Ret content
  | _ => Ret content
  end.

(** The second loop, over the messages from index [i] on. *)
Fixpoint replace_from (i : nat) (last : option nat) (tail : list json)
  : py (list json) :=
  match tail with
  | [] => Ret []
  | content :: rest =>
      let! content' :=
        if bool_decide (last = Some i) then Ret content
        else blank_content content in
      let! rest' := replace_from (S i) last rest in
      Ret (content' :: rest')
  end.

(** [_replace_old_tool_results]: the list after the in-place update. *)
Definition _replace_old_tool_results (contents : list json)
           (original_contents_length : nat) : py (list json) :=
  let! last :=
    last_function_response_index contents original_contents_length
      (length contents - original_contents_length) in
  let! tail :=
    replace_from original_contents_length last
                 (drop original_contents_length contents) in
  Ret (take original_contents_length contents ++ tail).







(** [enumerate(parts)] from index [i]. *)
Fixpoint function_calls_from (i : nat) (parts : list json) : py (list json) :=
  match parts with
  | [] => Ret []
  | part :: rest =>
      match part with
      | JObj d =>
          match dict_get "functionCall" d with
          | Some (JObj fc) =>
              let fc := dict_set "_part_index" (JInt (Z.of_nat i)) fc in
              let fc :=
                match dict_get "thoughtSignature" d with
                | Some sig => dict_set "_thought_signature" sig fc
                | None => fc
                end in
              let! tail := function_calls_from (S i) rest in
              Ret (JObj fc :: tail)
          | Some (JArr _) => Raise "TypeError"
          | Some _ => Raise "AttributeError"
          | None => function_calls_from (S i) rest
          end
      | _ => function_calls_from (S i) rest
      end
  end.

Definition _get_function_calls (content : json) : py (list json) :=
  let! parts := py_get content "parts" (JArr []) in
  let! ps := py_iter parts in
  function_calls_from 0 ps.

(** [combined_tools]: the client's list, then the manager's tools. *)
Definition combine_tools (tools : option (list json)) (mcp_tools : list json)
  : option (list json) :=
  let combined :=
    match tools with
    | Some (t :: ts) => t :: ts
    | _ => []
    end ++ mcp_tools in
  match combined with
  | [] => None
  | _ => Some combined
  end.

Definition function_declaration (tool : MCPTool) : json :=
  let decl := [("name", JStr (tool_name tool));
               ("description", tool_description tool)] in
  JObj (if truthy (tool_input_schema tool)
        then dict_set "parameters" (tool_input_schema tool) decl
        else decl).

Definition _get_mcp_tools_as_gemini_format (mcp_manager : option MCPManager)
  : list json :=
  match mcp_manager with
  | None => []
  | Some m =>
      match map function_declaration (dict_values (tools m)) with
      | [] => []
      | decls => [JObj [("functionDeclarations", JArr decls)]]
      end
  end.

(** [tool_name in self.mcp_manager.tools]: a list or a dict is not
    hashable. *)
Definition _is_mcp_tool (mcp_manager : option MCPManager) (tool_name : json)
  : py bool :=
  match mcp_manager with
  | None => Ret false
  | Some m =>
      match tool_name with
      | JStr s => Ret (dict_has s (tools m))
      | JArr _ | JObj _ => Raise "TypeError"
      | _ => Ret false
      end
  end.

(** ** The final reply *)

(** The loop keeping the thought texts that are not blank. *)
Fixpoint kept_thoughts (texts : list json) : py (list string) :=
  match texts with
  | [] => Ret []
  | JStr text :: rest =>
      let! tail := kept_thoughts rest in
      Ret (if negb (String.eqb (strip text) "") then text :: tail else tail)
  | _ :: _ => Raise "AttributeError"
  end.

(** The parts of the last result that are neither thoughts nor function
    calls. *)
Fixpoint visible_parts (parts : list json) : list json :=
  match parts with
  | [] => []
  | JObj d :: rest =>
      if truthy (dict_get_or "thought" JNull d) then visible_parts rest
      else if dict_has "functionCall" d then visible_parts rest
      else JObj d :: visible_parts rest
  | _ :: rest => visible_parts rest
  end.

(** [v[0]] of a value already known to be truthy. *)
Definition py_first (v : json) : py json :=
  match v with
  | JArr (x :: _) => Ret x
  | JArr [] => Raise "IndexError"
  | JStr (String c _) => Ret (JStr (String c ""))
  | JStr EmptyString => Raise "IndexError"
  | JObj _ => Raise "KeyError"
  | _ => Raise "TypeError"
  end.

Definition copy_field (k : string) (src dst : list (string * json))
  : list (string * json) :=
  match dict_get k src with
  | Some v => dict_set k v dst
  | None => dst
  end.

Definition _build_final_response_with_accumulated_thoughts
           (last_result : list (string * json))
           (accumulated_thought_texts : list json)
           (accumulated_tool_texts : list string) : py json :=
  let! thoughts := kept_thoughts accumulated_thought_texts in
  let thought_sections :=
    match accumulated_tool_texts with
    | [] => thoughts
    | _ => thoughts ++ [join nl accumulated_tool_texts]
    end in
  let final_parts :=
    match thought_sections with
    | [] => []
    | _ => [JObj [("text", JStr (join (nl +:+ nl) thought_sections));
                  ("thought", JBool true)]]
    end in
  let candidates := dict_get_or "candidates" (JArr []) last_result in
  let! final_parts :=
    if truthy candidates then
      let! candidate := py_first candidates in
      let! content := py_get candidate "content" (JObj []) in
      let! parts := py_get content "parts" (JArr []) in
      let! ps := py_iter parts in
      Ret (final_parts ++ visible_parts ps)
    else Ret final_parts in
  let candidate0 :=
    [("content", JObj [("parts", JArr final_parts); ("role", JStr "model")]);
     ("index", JInt 0)] in
  let! candidate0 :=
    if truthy candidates then
      let! candidate := py_first candidates in
      let! reason := py_get candidate "finishReason" (JStr "STOP") in
      Ret (dict_set "finishReason" reason candidate0)
    else Ret candidate0 in
  let final_result := [("candidates", JArr [JObj candidate0])] in
  let final_result := copy_field "usageMetadata" last_result final_result in
  let final_result := copy_field "modelVersion" last_result final_result in
  let final_result := copy_field "responseId" last_result final_result in
  Ret (JObj final_result).

Section Engine.
Context `{Runtime} {W : Type} `{ToolServers W} `{Upstream W}.
Variable CONFIG : Config.

(** ** Upstream calls *)

Definition request_payload (contents : list json)
           (tools : option (list json)) (generation_config : json)
           (system_instruction : option string) : json :=
  let payload := [("contents", JArr contents)] in
  let payload :=
    match tools with
    | Some (t :: ts) => dict_set "tools" (JArr (t :: ts)) payload
    | _ => payload
    end in
  let payload :=
    if truthy generation_config
    then dict_set "generationConfig" generation_config payload
    else payload in
  let payload :=
    match system_instruction with
    | Some (String c text) =>
        dict_set "systemInstruction"
                 (JObj [("parts", JArr [JObj [("text", JStr (String c text))]])])
                 payload
    | _ => payload
    end in
  JObj payload.

Definition outcome_event (o : PostOutcome) : list event :=
  match o with
  | Responded r => [EvReply (status_code r) (response_json r)]
  | _ => []
  end.

Definition _make_gemini_request (model : string) (contents : list json)
           (tools : option (list json)) (generation_config : json)
           (system_instruction : option string) (stream : bool)
  : io W PostOutcome :=
  let payload := request_payload contents tools generation_config
                                 system_instruction in
  fun w =>
    let '(o, w') := requests_post model stream payload w in
    (Ret o, w', EvPost model stream payload :: outcome_event o).

(** [time.sleep(seconds)]: a negative length raises. *)
Definition time_sleep (seconds : Z) : io W unit :=
  if Z.ltb seconds 0 then io_raise "ValueError" else emit (EvSleep seconds).

(** The [for retry in range(max_retries)] loop, entered with the
    failed [response]. *)
Fixpoint retry_loop (retries : nat) (retry_delay : Z)
         (request : io W PostOutcome) (response : Response)
  : io W PostOutcome :=
  match retries with
  | O => io_ret (Responded response)
  | S retries' =>
      do! _ := time_sleep retry_delay in
      do! o := request in
      match o with
      | Responded response' =>
          if Z.eqb (status_code response') 200
          then io_ret (Responded response')
          else retry_loop retries' retry_delay request response'
      | _ => io_ret o
      end
  end.

Definition _make_gemini_request_with_retry (model : string)
           (contents : list json) (tools : option (list json))
           (generation_config : json) (system_instruction : option string)
           (stream : bool) (is_internal_call : bool) : io W PostOutcome :=
  let max_retries := default 2%Z (api_retry_count CONFIG) in
  let retry_delay := default 5%Z (api_retry_delay CONFIG) in
  let request := _make_gemini_request model contents tools generation_config
                                      system_instruction stream in
  do! o := request in
  match o with
  | Responded response =>
      if is_internal_call && negb (Z.eqb (status_code response) 200)
      then retry_loop (Z.to_nat max_retries) retry_delay request response
      else io_ret o
  | _ => io_ret o
  end.

(** ** What a reply holds

    The parts of the first candidate of a reply; nothing when the reply
    has no candidate or its parts are not a list. *)
Definition reply_parts (result : json) : list json :=
  match result with
  | JObj d =>
      match dict_get_or "candidates" (JArr []) d with
      | JArr (JObj candidate :: _) =>
          match dict_get_or "content" (JObj []) candidate with
          | JObj content =>
              match dict_get_or "parts" (JArr []) content with
              | JArr ps => ps
              | _ => []
              end
          | _ => []
          end
      | _ => []
      end
  | _ => []
  end.

(** The function calls among the parts. *)
Fixpoint calls_of (parts : list json) : list (list (string * json)) :=
  match parts with
  | [] => []
  | JObj d :: rest =>
      match dict_get "functionCall" d with
      | Some (JObj fc) => fc :: calls_of rest
      | _ => calls_of rest
      end
  | _ :: rest => calls_of rest
  end.

Definition call_name (fc : list (string * json)) : json :=
  dict_get_or "name" (JStr "") fc.

(** The placeholder of each function call among the parts. *)
Definition placeholders `{Runtime} (parts : list json) : list string :=
  map (fun fc => _format_tool_call_text
                   (call_name fc)
                   (json_dumps false (dict_get_or "args" (JObj []) fc)))
      (calls_of parts).

(** A name the manager has a tool for. *)
Definition registered (mcp_manager : option MCPManager) (name : json) : bool :=
  match mcp_manager, name with
  | Some m, JStr s => dict_has s (tools m)
  | _, _ => false
  end.

(** The name a [functionResponse] part answers. *)
Definition response_name (part : json) : json :=
  match part with
  | JObj d =>
      match dict_get "functionResponse" d with
      | Some (JObj fr) => dict_get_or "name" JNull fr
      | _ => JNull
      end
  | _ => JNull
  end.

(** What one attempt answered with [response] leaves in the trace. *)
Definition attempt (model : string) (stream : bool) (payload : json)
           (response : Response) : list event :=
  [EvPost model stream payload;
   EvReply (status_code response) (response_json response)].

(** A status outside 200..299. *)
Definition non_2xx (response : Response) : Prop :=
  ~ (200 <= status_code response < 300)%Z.

(** ** The buffered loop *)

(** [_execute_mcp_tool]; the manager's [tool_name not in self.tools]
    raises on a name that is not hashable and fails on any other name
    that is not a string. *)
Definition _execute_mcp_tool (mcp_manager : option MCPManager)
           (tool_name : json) (arguments : json) : io W (option string) :=
  match mcp_manager with
  | None => io_ret None
  | Some m =>
      match tool_name with
      | JStr s => call_tool s arguments m
      | JArr _ | JObj _ => io_raise "TypeError"
      | _ => io_ret (Some ("工具不存在: " +:+ py_str tool_name))
      end
  end.

(** The local variables of [process_request] that change in the loop. *)
Record Loop : Type := {
  contents_copy : list json;
  iteration : nat;
  accumulated_thought_texts : list json;
  accumulated_tool_texts : list string
}.

(** How [process_request] returned; [returned] is the dict itself. *)
Inductive Exit : Type :=
| UpstreamError (envelope : json)
| Unchanged (result : json)
| Final (reply : json)
| MaxIterations (reply : json).

Definition returned (e : Exit) : json :=
  match e with
  | UpstreamError r | Unchanged r | Final r | MaxIterations r => r
  end.

Inductive Step : Type :=
| Return (e : Exit)
| Continue (st : Loop).

Definition error_envelope (code : Z) (message status : string) : json :=
  JObj [("_status_code", JInt code);
        ("_response",
         JObj [("error", JObj [("code", JInt code);
                               ("message", JStr message);
                               ("status", JStr status)])])].

(** [part.get('thought') and 'text' in part] collected from the reply. *)
Fixpoint thought_texts (parts : list json) : list json :=
  match parts with
  | [] => []
  | JObj d :: rest =>
      if truthy (dict_get_or "thought" JNull d) then
        match dict_get "text" d with
        | Some text => text :: thought_texts rest
        | None => thought_texts rest
        end
      else thought_texts rest
  | _ :: rest => thought_texts rest
  end.

Definition tool_call_text (fc : json) : py string :=
  let! name := py_get fc "name" (JStr "") in
  let! args := py_get fc "args" (JObj []) in
  Ret (_format_tool_call_text name (json_dumps false args)).

(** The loop splitting the calls into manager-owned and the rest. *)
Fixpoint split_calls (mcp_manager : option MCPManager)
         (function_calls : list json) : py (list json * list json) :=
  match function_calls with
  | [] => Ret ([], [])
  | fc :: rest =>
      let! tool_name := py_get fc "name" (JStr "") in
      let! mine := _is_mcp_tool mcp_manager tool_name in
      let! '(mcp, non_mcp) := split_calls mcp_manager rest in
      Ret (if mine then (fc :: mcp, non_mcp) else (mcp, fc :: non_mcp))
  end.

(** The loop executing the manager-owned calls. *)
Fixpoint execute_calls (mcp_manager : option MCPManager)
         (mcp_tool_calls : list json) : io W (list json) :=
  match mcp_tool_calls with
  | [] => io_ret []
  | fc :: rest =>
      do! name := io_lift (py_get fc "name" (JStr "")) in
      do! args := io_lift (py_get fc "args" (JObj [])) in
      do! result_data := _execute_mcp_tool mcp_manager name args in
      let text :=
        match result_data with
        | Some (String c r) => String c r
        | _ => "工具执行失败"
        end in
      let function_response :=
        JObj [("functionResponse",
               JObj [("name", name);
                     ("response", JObj [("result", JStr text)])])] in
      do! tail := execute_calls mcp_manager rest in
      io_ret (function_response :: tail)
  end.

(** The branch [if mcp_tool_calls:]: the reply of the model is appended
    to the conversation, the calls are executed, their results are
    appended as one user message, and the loop goes on with the next
    round. *)
Definition execute_and_continue (mcp_manager : option MCPManager)
           (content parts : json) (mcp_tool_calls : list json) (st : Loop)
  : io W Step :=
  do! role := io_lift (py_get content "role" (JStr "model")) in
  let model_content := JObj [("role", role); ("parts", parts)] in
  do! function_responses := execute_calls mcp_manager mcp_tool_calls in
  io_ret (Continue
    {| contents_copy :=
         contents_copy st
         ++ [model_content;
             JObj [("role", JStr "user");
                   ("parts", JArr function_responses)]];
       iteration := S (iteration st);
       accumulated_thought_texts := accumulated_thought_texts st;
       accumulated_tool_texts := accumulated_tool_texts st |}).

Definition build_final (result : list (string * json)) (st : Loop)
  : io W Step :=
  do! reply := io_lift (_build_final_response_with_accumulated_thoughts
                          result (accumulated_thought_texts st)
                          (accumulated_tool_texts st)) in
  io_ret (Return (Final reply)).

Definition has_accumulated (st : Loop) : bool :=
  match accumulated_thought_texts st, accumulated_tool_texts st with
  | [], [] => false
  | _, _ => true
  end.

(** One round of [while iteration < max_iterations]. *)
Definition iteration_body (model : string) (tools : option (list json))
           (generation_config : json) (system_instruction : option string)
           (execute_mcp_tools : bool) (mcp_manager : option MCPManager)
           (original_contents_length : nat) (st : Loop) : io W Step :=
  do! contents := io_lift (_replace_old_tool_results
                             (contents_copy st) original_contents_length) in
  do! o := _make_gemini_request_with_retry
             model contents tools generation_config system_instruction
             false (Nat.ltb 0 (iteration st)) in
  match o with
  | TimedOut e =>
      io_ret (Return (UpstreamError
        (error_envelope 504 ("Request timeout: " +:+ e) "DEADLINE_EXCEEDED")))
  | RequestException e =>
      io_ret (Return (UpstreamError
        (error_envelope 503 ("Request failed: " +:+ e) "UNAVAILABLE")))
  | Responded response =>
      if negb (Z.eqb (status_code response) 200) then
        let error_response :=
          match response_json response with
          | Some body => body
          | None => JObj [("error",
                           JObj [("message", JStr (response_text response))])]
          end in
        io_ret (Return (UpstreamError
          (JObj [("_status_code", JInt (status_code response));
                 ("_response", error_response)])))
      else
        match response_json response with
        | None => io_raise "JSONDecodeError"
        | Some (JObj result) =>
            let candidates := dict_get_or "candidates" (JArr []) result in
            if negb (truthy candidates) then
              if has_accumulated st then build_final result st
              else io_ret (Return (Unchanged (JObj result)))
            else
              do! candidate := io_lift (py_first candidates) in
              do! content := io_lift (py_get candidate "content" (JObj [])) in
              do! _ := io_lift (py_get candidate "finishReason" (JStr "")) in
              do! parts := io_lift (py_get content "parts" (JArr [])) in
              do! ps := io_lift (py_iter parts) in
              let st :=
                {| contents_copy := contents;
                   iteration := iteration st;
                   accumulated_thought_texts :=
                     accumulated_thought_texts st ++ thought_texts ps;
                   accumulated_tool_texts := accumulated_tool_texts st |} in
              do! function_calls := io_lift (_get_function_calls content) in
              match function_calls with
              | [] =>
                  if has_accumulated st then build_final result st
                  else io_ret (Return (Unchanged (JObj result)))
              | _ =>
                  do! texts := io_lift (py_map tool_call_text function_calls) in
                  let st :=
                    {| contents_copy := contents_copy st;
                       iteration := iteration st;
                       accumulated_thought_texts := accumulated_thought_texts st;
                       accumulated_tool_texts :=
                         accumulated_tool_texts st ++ texts |} in
                  if execute_mcp_tools && bool_decide (is_Some mcp_manager) then
                    do! '(mcp_tool_calls, _) :=
                      io_lift (split_calls mcp_manager function_calls) in
                    match mcp_tool_calls with
                    | [] => build_final result st
                    | _ => execute_and_continue mcp_manager content parts
                                                mcp_tool_calls st
                    end
                  else build_final result st
              end
        | Some _ => io_raise "AttributeError"
        end
  end.

Definition max_iterations_reply : json :=
  JObj [("candidates",
         JArr [JObj [("content",
                      JObj [("role", JStr "model");
                            ("parts",
                             JArr [JObj [("text",
                                          JStr "[达到最大工具调用迭代次数]")]])]);
                     ("finishReason", JStr "MAX_TOKENS")]])].

(** [while iteration < max_iterations]: [remaining] is
    [max_iterations - iteration]; every round that does not return
    adds one to [iteration]. *)
Fixpoint while_loop (remaining : nat) (body : Loop -> io W Step) (st : Loop)
  : io W Exit :=
  match remaining with
  | O => io_ret (MaxIterations max_iterations_reply)
  | S remaining' =>
      do! _ := emit (EvIteration (iteration st)) in
      do! step := body st in
      match step with
      | Return e => io_ret e
      | Continue st' => while_loop remaining' body st'
      end
  end.

Definition process_request (mcp_manager : option MCPManager)
           (contents : list json) (model : string)
           (tools : option (list json)) (generation_config : json)
           (system_instruction : option string) (execute_mcp_tools : bool)
  : io W Exit :=
  let combined_tools :=
    combine_tools tools (_get_mcp_tools_as_gemini_format mcp_manager) in
  let max_iterations := default 100%Z (max_iterations CONFIG) in
  let original_contents_length := length contents in
  while_loop (Z.to_nat max_iterations)
    (iteration_body model combined_tools generation_config
                    system_instruction execute_mcp_tools mcp_manager
                    original_contents_length)
    {| contents_copy := contents; iteration := 0;
       accumulated_thought_texts := []; accumulated_tool_texts := [] |}.

End Engine.
(** ** What a round and a request leave behind *)

(** [failing] is kept by every attempt, and every attempt made in a world
    that satisfies it is answered with a status outside 200..299. *)
Definition always_fails {W : Type} `{Upstream W} (model : string) (stream : bool)
           (payload : json) (failing : W -> Prop) : Prop :=
  forall w, failing w ->
            exists response w',
              requests_post model stream payload w = (Responded response, w')
              /\ non_2xx response /\ failing w'.


(** A round does not end the request the way the exhausted loop does. *)
Definition not_capped (step : Step) : Prop :=
  match step with
  | Return (MaxIterations _) => False
  | _ => True
  end.

(** [continues body n st w st' w' t]: from the state [st] in the world
    [w], [n] rounds in a row go on to the next one; they end in [st']
    and [w'] and leave the trace [t]. *)
Inductive continues {W : Type} (body : Loop -> io W Step)
  : nat -> Loop -> W -> Loop -> W -> list event -> Prop :=
| continues_O st w : continues body 0 st w st w []
| continues_S n st w st1 w1 t1 st' w' t :
    body st w = (Ret (Continue st1), w1, t1) ->
    continues body n st1 w1 st' w' t ->
    continues body (S n) st w st' w' (EvIteration (iteration st) :: t1 ++ t).

(** The state [process_request] enters its loop with. *)
Definition entered (contents : list json) : Loop :=
  {| contents_copy := contents; iteration := 0;
     accumulated_thought_texts := []; accumulated_tool_texts := [] |}.

(** The name of a call as the loops read it. *)
Definition name_of (fc : json) : json :=
  match fc with
  | JObj d => dict_get_or "name" (JStr "") d
  | _ => JNull
  end.

(** [_get_function_calls] returns the calls of the parts, each with its
    part index (and signature) added. *)
Definition decorates (fc' : json) (fc : list (string * json)) : Prop :=
  exists d, fc' = JObj d
            /\ dict_get "name" d = dict_get "name" fc
            /\ dict_get "args" d = dict_get "args" fc.

(** The reply body the engine goes on to read after an upstream call. *)
Definition consumed (o : PostOutcome) : list json :=
  match o with
  | Responded r =>
      if Z.eqb (status_code r) 200 then
        match response_json r with
        | Some body => [body]
        | None => []
        end
      else []
  | _ => []
  end.

(** The items of a value when it is a list. *)
Definition as_list (v : json) : list json :=
  match v with JArr l => l | _ => [] end.

(** What one round of the loop leaves behind, by the way it ends. *)
Definition round_spec `{Runtime} (mcp_manager : option MCPManager)
           (original_contents_length : nat) (st : Loop) (step : Step)
           (t : list event) : Prop :=
  match step with
  | Return (MaxIterations _) => False
  | Return (UpstreamError _) => True
  | Return (Unchanged r) =>
      replies_of t = [r]
      /\ has_accumulated st = false
      /\ thought_texts (reply_parts r) = []
      /\ calls_of (reply_parts r) = []
  | Return (Final reply) =>
      exists result,
        replies_of t = [JObj result]
        /\ _build_final_response_with_accumulated_thoughts
             result
             (accumulated_thought_texts st ++ thought_texts (reply_parts (JObj result)))
             (accumulated_tool_texts st ++ placeholders (reply_parts (JObj result)))
           = Ret reply
  | Continue st' =>
      exists result contents role responses,
        replies_of t = [JObj result]
        /\ _replace_old_tool_results (contents_copy st) original_contents_length
           = Ret contents
        /\ contents_copy st'
           = contents
               ++ [JObj [("role", role);
                         ("parts", JArr (reply_parts (JObj result)))];
                   JObj [("role", JStr "user"); ("parts", JArr responses)]]
        /\ iteration st' = S (iteration st)
        /\ accumulated_thought_texts st'
           = accumulated_thought_texts st ++ thought_texts (reply_parts (JObj result))
        /\ accumulated_tool_texts st'
           = accumulated_tool_texts st ++ placeholders (reply_parts (JObj result))
        /\ map response_name responses
           = List.filter (registered mcp_manager)
                         (map call_name (calls_of (reply_parts (JObj result))))
        /\ responses <> []
  end.

(** The thought texts and the placeholders of a sequence of replies. *)
Definition all_thoughts (replies : list json) : list json :=
  flat_map (fun r => thought_texts (reply_parts r)) replies.

Definition all_placeholders `{Runtime} (replies : list json) : list string :=
  flat_map (fun r => placeholders (reply_parts r)) replies.

(** The reasoning block of a final reply: the thoughts, then the
    placeholders as one more section. *)
Definition reasoning_block (thoughts tool_texts : list string) : list json :=
  let sections :=
    match tool_texts with
    | [] => thoughts
    | _ => thoughts ++ [join nl tool_texts]
    end in
  match sections with
  | [] => []
  | _ => [JObj [("text", JStr (join (nl +:+ nl) sections)); ("thought", JBool true)]]
  end.

(** What the loop promises on the way it ends, from the state it is
    entered with. *)
Definition loop_spec `{Runtime} (st : Loop) (e : Exit) (t : list event) : Prop :=
  match e with
  | Final reply =>
      exists result,
        last (replies_of t) = Some (JObj result)
        /\ _build_final_response_with_accumulated_thoughts
             result
             (accumulated_thought_texts st ++ all_thoughts (replies_of t))
             (accumulated_tool_texts st ++ all_placeholders (replies_of t))
           = Ret reply
  | Unchanged r =>
      replies_of t = [r]
      /\ has_accumulated st = false
      /\ thought_texts (reply_parts r) = []
      /\ calls_of (reply_parts r) = []
  | _ => True
  end.

(** ** The order of issue *)

(** The fragments a part issues: its thought text, its placeholder. *)
Definition part_fragments `{Runtime} (part : json) : list string :=
  match part with
  | JObj d =>
      (if truthy (dict_get_or "thought" JNull d) then
         match dict_get "text" d with
         | Some (JStr text) => [text]
         | _ => []
         end
       else [])
      ++ match dict_get "functionCall" d with
         | Some (JObj fc) =>
             [_format_tool_call_text
                (call_name fc)
                (json_dumps false (dict_get_or "args" (JObj []) fc))]
         | _ => []
         end
  | _ => []
  end.

(** The fragments of a request in the order they were issued. *)
Definition issued `{Runtime} (trace : list event) : list string :=
  flat_map (fun r => flat_map part_fragments (reply_parts r)) (replies_of trace).

(** What is left of [text] after the first occurrence of [fragment]. *)
Fixpoint after (fragment text : string) : option string :=
  match strip_prefix fragment text with
  | Some rest => Some rest
  | None =>
      match text with
      | EmptyString => None
      | String _ text' => after fragment text'
      end
  end.

(** The fragments occur in [text] one after the other. *)
Fixpoint in_order (fragments : list string) (text : string) : bool :=
  match fragments with
  | [] => true
  | fragment :: rest =>
      match after fragment text with
      | Some text' => in_order rest text'
      | None => false
      end
  end.

(** ** The settings file and the access keys *)

Definition default_config : list (string * json) :=
  [("gemini_api_url", JStr "https://generativelanguage.googleapis.com/v1beta/models");
   ("gemini_models_url", JStr "https://generativelanguage.googleapis.com/v1beta/models");
   ("api_key", JStr "");
   ("access_keys", JArr []);
   ("allow_user_api_key", JBool true);
   ("host", JStr "127.0.0.1");
   ("port", JInt 8003);
   ("debug", JBool false);
   ("mcp_enabled", JBool true);
   ("auto_execute_mcp_tools", JBool true);
   ("max_iterations", JInt 100);
   ("api_retry_count", JInt 2);
   ("api_retry_delay", JInt 5);
   ("api_timeout", JInt 300);
   ("system_prompt", JStr ("## 工具调用注意事项"
       +:+ nl
       +:+ nl
       +:+ "当你使用工具获取信息时，请注意以下几点："
       +:+ nl
       +:+ nl
       +:+ "1. **工具调用结果不会保存在对话历史中**：每次工具调用的原始结果只会在当前回合可见，后续对话中将无法再访问这些原始数据。"
       +:+ nl
       +:+ nl
       +:+ "2. **主动提取和整理信息**：在收到工具返回的结果后，请在你的思考过程中提取所有有用的信息。"
       +:+ nl
       +:+ nl
       +:+ "3. **在回复中复述关键信息**：将提取的重要信息融入你的回复中，这样用户和你都能在后续对话中参考这些信息。"
       +:+ nl
       +:+ nl
       +:+ "4. **结构化输出**：当工具返回大量信息时，请以清晰、结构化的方式呈现，便于理解和后续引用。"))].

(** [load_config], for the settings file at the path given. *)
Definition load_config (settings : file) : json :=
  Jsonc.load_config default_config settings.

(** [validate_access_key]: whether the key is accepted, the API key to
    use upstream and the error message. *)
Definition validate_access_key (CONFIG : list (string * json)) (auth_header : string)
  : py (bool * option json * option string) :=
  let user_key := auth_header in
  let access_keys := dict_get_or "access_keys" (JArr []) CONFIG in
  let allow_user_api_key := dict_get_or "allow_user_api_key" (JBool true) CONFIG in
  let config_api_key := dict_get_or "api_key" (JStr "") CONFIG in
  if negb (truthy access_keys) then
    if truthy allow_user_api_key && truthy (JStr user_key)
    then Ret (true, Some (JStr user_key), None)
    else if truthy config_api_key then Ret (true, Some config_api_key, None)
    else Ret (true, Some (JStr user_key), None)
  else
    let! listed := py_contains user_key access_keys in
    if listed then
      if truthy config_api_key then Ret (true, Some config_api_key, None)
      else Ret (false, None, Some "Server API key not configured")
    else if truthy allow_user_api_key then Ret (true, Some (JStr user_key), None)
    else Ret (false, None, Some "Invalid access key").

(** ** What every upstream request carries *)

(** A request sent upstream whose contents start with [contents]; any
    other event. *)
Definition carries (contents : list json) (e : event) : Prop :=
  match e with
  | EvPost _ _ (JObj payload) =>
      exists rest, dict_get "contents" payload = Some (JArr (contents ++ rest))
  | EvPost _ _ _ => False
  | _ => True
  end.

(** ** The loop as the source writes it *)

Section Written.
Context `{Runtime} {W : Type} `{ToolServers W} `{Upstream W}.
Variable CONFIG : Config.

(** [while iteration < max_iterations: ...] with its test: a round is
    entered when the counter [iteration], which only the rounds
    themselves change, is below the cap.  [fuel] bounds the unfolding
    and has no counterpart in the source; a loop that outlives it
    yields [None]. *)
Fixpoint loop_as_written (fuel : nat) (max_iterations : Z)
         (body : Loop -> io W Step) (st : Loop) {struct fuel}
  : io W (option Exit) :=
  if Z.ltb (Z.of_nat (iteration st)) max_iterations then
    match fuel with
    | O => io_ret None
    | S fuel' =>
        do! _ := emit (EvIteration (iteration st)) in
        do! step := body st in
        match step with
        | Return e => io_ret (Some e)
        | Continue st' => loop_as_written fuel' max_iterations body st'
        end
    end
  else io_ret (Some (MaxIterations max_iterations_reply)).

(** [process_request] around that loop. *)
Definition process_request_as_written (fuel : nat)
           (mcp_manager : option MCPManager)
           (contents : list json) (model : string)
           (tools : option (list json)) (generation_config : json)
           (system_instruction : option string) (execute_mcp_tools : bool)
  : io W (option Exit) :=
  let combined_tools :=
    combine_tools tools (_get_mcp_tools_as_gemini_format mcp_manager) in
  let max_iterations := default 100%Z (max_iterations CONFIG) in
  let original_contents_length := length contents in
  loop_as_written fuel max_iterations
    (iteration_body CONFIG model combined_tools generation_config
                    system_instruction execute_mcp_tools mcp_manager
                    original_contents_length)
    {| contents_copy := contents; iteration := 0;
       accumulated_thought_texts := []; accumulated_tool_texts := [] |}.

End Written.

End Gemini.

(* ================================================================= *)
(** * [proxy_server.py]: the DeepSeek dialect of the engine *)

Module DeepSeek.
Import Registry McpClient.

(** The objects of the OpenAI client library that the engine reads. *)
Record ToolCall : Type := {
  tc_id : string;
  tc_name : string;          (* tc.function.name *)
  tc_arguments : string;     (* tc.function.arguments *)
  tc_type : string;
  tc_index : option Z        (* present when hasattr(tc, 'index') *)
}.

Record Message : Type := {
  msg_role : string;
  msg_content : option string;
  msg_reasoning_content : option string;
  msg_tool_calls : option (list ToolCall)
}.

(** [response.usage]; an optional field is [Some] when the attribute
    exists. *)
Record Usage : Type := {
  prompt_tokens : Z;
  completion_tokens : Z;
  total_tokens : Z;
  cached_tokens : option Z;            (* usage.prompt_tokens_details *)
  reasoning_tokens : option Z;         (* usage.completion_tokens_details *)
  prompt_cache_hit_tokens : option Z;
  prompt_cache_miss_tokens : option Z
}.

Record Choice : Type := {
  choice_message : Message;
  choice_finish_reason : option string
}.

Record ChatCompletion : Type := {
  choices : list Choice;
  usage : option Usage;
  system_fingerprint : option json     (* present when hasattr *)
}.

Class ChatAPI (W : Type) : Type := {
  (** [self.client.chat.completions.create(model, messages, tools)] *)
  chat_create : string -> list json -> option (list json) -> W
                -> py ChatCompletion * W;
  (** [int(time.time())] *)
  clock : W -> Z * W
}.

(** The cap of both loops of [DeepSeekProxy]. *)
Definition max_iterations : nat := 10.

(** ** Messages as dicts *)

Definition tool_call_dict (i : nat) (tc : ToolCall) : json :=
  JObj [("id", JStr (tc_id tc));
        ("function", JObj [("arguments", JStr (tc_arguments tc));
                           ("name", JStr (tc_name tc))]);
        ("type", JStr (tc_type tc));
        ("index", JInt (default (Z.of_nat i) (tc_index tc)))].

(** [[... for i, tc in enumerate(tool_calls)]] *)
Definition tool_call_dicts (tool_calls : list ToolCall) : list json :=
  imap tool_call_dict tool_calls.

Definition nonempty (s : option string) : bool :=
  match s with
  | Some (String _ _) => true
  | _ => false
  end.

Definition _message_to_dict (message : Message) : json :=
  let result := [("role", JStr (msg_role message));
                 ("content", JStr (default "" (msg_content message)))] in
  let result :=
    if nonempty (msg_reasoning_content message)
    then dict_set "reasoning_content"
                  (JStr (default "" (msg_reasoning_content message))) result
    else result in
  let result :=
    match msg_tool_calls message with
    | Some (tc :: tcs) =>
        dict_set "tool_calls" (JArr (tool_call_dicts (tc :: tcs))) result
    | _ => result
    end in
  JObj result.

(** The loop of [_flatten_tool_calls], from index [i]. *)
Fixpoint flatten_from (i : nat) (tool_calls : list json) : py (list json) :=
  match tool_calls with
  | [] => Ret []
  | JObj tc :: rest =>
      let! fn := py_getitem (JObj tc) "function" in
      let! name := py_getitem fn "name" in
      let! arguments := py_getitem fn "arguments" in
      let! tail := flatten_from (S i) rest in
      Ret (JObj [("function", JObj [("name", name); ("arguments", arguments)]);
                 ("type", dict_get_or "type" (JStr "function") tc);
                 ("index", dict_get_or "index" (JInt (Z.of_nat i)) tc)]
           :: tail)
  | _ :: rest => flatten_from (S i) rest
  end.

Definition _flatten_tool_calls (tool_calls : json) : py (list json) :=
  if negb (truthy tool_calls) then Ret []
  else
    let! items := py_iter tool_calls in
    flatten_from 0 items.

(** [while messages and ... messages[-1].get('role') == 'tool': pop()],
    on the reversed list. *)
Fixpoint pop_tool_messages (reversed : list json) : list json :=
  match reversed with
  | JObj d :: rest =>
      if json_eqb_str (dict_get_or "role" JNull d) "tool"
      then pop_tool_messages rest
      else reversed
  | _ => reversed
  end.

(** [a + b] on strings. *)
Definition str_add (a : json) (b : string) : py string :=
  match a with
  | JStr s => Ret (s +:+ b)
  | _ => Raise "TypeError"
  end.

Definition _merge_assistant_message (messages : list json)
           (assistant_msg_index : option nat) (new_reasoning new_content : string)
           (new_tool_calls : option (list ToolCall)) : py (list json) :=
  let messages := rev (pop_tool_messages (rev messages)) in
  match assistant_msg_index with
  | None => Ret messages
  | Some index =>
      match messages !! index with
      | None => Ret messages
      | Some prev_assistant =>
          let! old_reasoning := py_get prev_assistant "reasoning_content" (JStr "") in
          let old_reasoning :=
            if truthy old_reasoning then old_reasoning else JStr "" in
          let! old_tool_calls := py_get prev_assistant "tool_calls" (JArr []) in
          let! old_reasoning :=
            if truthy old_tool_calls then
              let! flattened_tools := _flatten_tool_calls old_tool_calls in
              let tools_json :=
                json_dumps false (JObj [("tool_calls", JArr flattened_tools)]) in
              if truthy old_reasoning then
                let! joined := str_add old_reasoning (nl +:+ nl +:+ tools_json) in
                Ret (JStr joined)
              else Ret (JStr tools_json)
            else Ret old_reasoning in
          match prev_assistant with
          | JObj prev =>
              let! prev :=
                match new_reasoning with
                | String _ _ =>
                    if truthy old_reasoning then
                      let! combined :=
                        str_add old_reasoning (nl +:+ nl +:+ new_reasoning) in
                      Ret (dict_set "reasoning_content" (JStr combined) prev)
                    else Ret (dict_set "reasoning_content" (JStr new_reasoning) prev)
                | EmptyString => Ret prev
                end in
              let prev :=
                match new_tool_calls with
                | Some (tc :: tcs) =>
                    dict_set "tool_calls" (JArr (tool_call_dicts (tc :: tcs))) prev
                | _ => dict_set "content" (JStr new_content)
                                (dict_del "tool_calls" prev)
                end in
              Ret (<[index := JObj prev]> messages)
          | _ => Raise "AttributeError"
          end
      end
  end.

(** ** Token accounting *)

(** [d[k] += n] *)
Definition add_to (k : string) (n : Z) (d : list (string * json))
  : py (list (string * json)) :=
  match dict_get k d with
  | Some (JInt m) => Ret (dict_set k (JInt (m + n)) d)
  | Some _ => Raise "TypeError"
  | None => Raise "KeyError"
  end.

(** [if k not in d: d[k] = 0] and then [d[k] += n] *)
Definition add_optional (k : string) (n : option Z) (d : list (string * json))
  : py (list (string * json)) :=
  match n with
  | None => Ret d
  | Some n => add_to k n (if dict_has k d then d else dict_set k (JInt 0) d)
  end.

(** The same for the counter [inner] of the nested dict [d[k]]. *)
Definition add_detail (k inner : string) (n : option Z)
           (d : list (string * json)) : py (list (string * json)) :=
  match n with
  | None => Ret d
  | Some n =>
      let d := if dict_has k d then d
               else dict_set k (JObj [(inner, JInt 0)]) d in
      match dict_get k d with
      | Some (JObj details) =>
          let! details := add_to inner n details in
          Ret (dict_set k (JObj details) d)
      | _ => Raise "TypeError"
      end
  end.

Definition add_usage (u : option Usage) (total_usage : list (string * json))
  : py (list (string * json)) :=
  match u with
  | None => Ret total_usage
  | Some u =>
      let! t := add_to "prompt_tokens" (prompt_tokens u) total_usage in
      let! t := add_to "completion_tokens" (completion_tokens u) t in
      let! t := add_to "total_tokens" (total_tokens u) t in
      let! t := add_detail "prompt_tokens_details" "cached_tokens"
                           (cached_tokens u) t in
      let! t := add_detail "completion_tokens_details" "reasoning_tokens"
                           (reasoning_tokens u) t in
      let! t := add_optional "prompt_cache_hit_tokens"
                             (prompt_cache_hit_tokens u) t in
      add_optional "prompt_cache_miss_tokens" (prompt_cache_miss_tokens u) t
  end.

Section Engine.
Context `{Runtime} {W : Type} `{ToolServers W} `{ChatAPI W}.

Definition create (model : string) (messages : list json)
           (tools : option (list json)) : io W ChatCompletion :=
  fun w =>
    let '(r, w') := chat_create model messages tools w in
    (r, w', [EvChatCreate model messages tools]).

Definition now : io W Z :=
  fun w => let '(t, w') := clock w in (Ret t, w', []).

Definition _execute_mcp_tool (mcp_manager : option MCPManager)
           (tool_name : string) (arguments : json) : io W (option string) :=
  match mcp_manager with
  | None => io_ret None
  | Some m => call_tool tool_name arguments m
  end.

Definition _is_mcp_tool (mcp_manager : option MCPManager)
           (tool_name : string) : bool :=
  match mcp_manager with
  | None => false
  | Some m => dict_has tool_name (tools m)
  end.

(** [combined_tools]: the client's list, then the manager's tools. *)
Definition combine_tools (tools : option (list json))
           (mcp_manager : option MCPManager) : option (list json) :=
  let combined :=
    match tools with
    | Some (t :: ts) => t :: ts
    | _ => []
    end
    ++ match mcp_manager with
       | Some m => get_openai_tools m
       | None => []
       end in
  match combined with
  | [] => None
  | _ => Some combined
  end.

(** The local variables of [process_request] that change in the loop. *)
Record Loop : Type := {
  messages_copy : list json;
  iteration : nat;
  assistant_msg_index : option nat;
  total_usage : list (string * json)
}.

Inductive Exit : Type :=
| Answer (result : json)
| ClientToolCalls (result : json)
| MaxIterations (result : json).

Definition returned (e : Exit) : json :=
  match e with
  | Answer r | ClientToolCalls r | MaxIterations r => r
  end.

Inductive Step : Type :=
| Return (e : Exit)
| Continue (st : Loop).

Definition opt_str (s : option string) : json :=
  match s with Some x => JStr x | None => JNull end.

(** The dict every return of the loop builds around [message_obj]. *)
Definition completion (model : string) (message_obj : list (string * json))
           (finish_reason : json) (total_usage : list (string * json))
           (response : ChatCompletion) : io W json :=
  do! t1 := now in
  do! t2 := now in
  let result :=
    [("id", JStr ("chatcmpl-" +:+ pretty t1));
     ("object", JStr "chat.completion");
     ("created", JInt t2);
     ("model", JStr model);
     ("choices",
      JArr [JObj [("index", JInt 0);
                  ("message", JObj message_obj);
                  ("logprobs", JNull);
                  ("finish_reason", finish_reason)]]);
     ("usage", JObj total_usage)] in
  io_ret (JObj (match system_fingerprint response with
                | Some fp => dict_set "system_fingerprint" fp result
                | None => result
                end)).

(** [messages_copy[assistant_msg_index]] and the fields read from it. *)
Definition final_message (st : Loop) : py (list (string * json)) :=
  match assistant_msg_index st with
  | None => Raise "TypeError"
  | Some index =>
      match messages_copy st !! index with
      | None => Raise "IndexError"
      | Some final_msg =>
          let! content := py_get final_msg "content" (JStr "") in
          let! reasoning := py_get final_msg "reasoning_content" (JStr "") in
          Ret [("role", JStr "assistant"); ("content", content);
               ("reasoning_content", reasoning)]
      end
  end.

Definition final_tool_calls (st : Loop) : py json :=
  match assistant_msg_index st with
  | None => Raise "TypeError"
  | Some index =>
      match messages_copy st !! index with
      | None => Raise "IndexError"
      | Some final_msg => py_get final_msg "tool_calls" (JArr [])
      end
  end.

(** The loop executing the manager-owned calls, appending one tool
    message each. *)
Fixpoint execute_calls (mcp_manager : option MCPManager)
         (mcp_tool_calls : list ToolCall) (messages : list json)
  : io W (list json) :=
  match mcp_tool_calls with
  | [] => io_ret messages
  | tc :: rest =>
      do! args :=
        match tc_arguments tc with
        | EmptyString => io_ret (JObj [])
        | text =>
            match json_loads text with
            | Some v => io_ret v
            | None => io_raise "JSONDecodeError"
            end
        end in
      do! result := _execute_mcp_tool mcp_manager (tc_name tc) args in
      let content :=
        match result with
        | Some (String c r) => String c r
        | _ => "工具执行失败"
        end in
      execute_calls mcp_manager rest
        (messages ++ [JObj [("role", JStr "tool");
                            ("tool_call_id", JStr (tc_id tc));
                            ("content", JStr content)]])
  end.

(** One round of [while iteration < max_iterations]. *)
Definition iteration_body (model : string) (combined_tools : option (list json))
           (execute_mcp_tools : bool) (mcp_manager : option MCPManager)
           (st : Loop) : io W Step :=
  do! response := create model (messages_copy st) combined_tools in
  match choices response with
  | [] => io_raise "IndexError"
  | choice :: _ =>
      let message := choice_message choice in
      let finish_reason := choice_finish_reason choice in
      do! total := io_lift (add_usage (usage response) (total_usage st)) in
      let new_reasoning := default "" (msg_reasoning_content message) in
      let new_content := default "" (msg_content message) in
      let new_tool_calls := msg_tool_calls message in
      do! st :=
        match iteration st with
        | O =>
            let messages := messages_copy st ++ [_message_to_dict message] in
            io_ret {| messages_copy := messages;
                      iteration := iteration st;
                      assistant_msg_index := Some (length messages - 1);
                      total_usage := total |}
        | S _ =>
            do! messages :=
              io_lift (_merge_assistant_message
                         (messages_copy st) (assistant_msg_index st)
                         new_reasoning new_content new_tool_calls) in
            io_ret {| messages_copy := messages;
                      iteration := iteration st;
                      assistant_msg_index := assistant_msg_index st;
                      total_usage := total |}
        end in
      let with_tool_calls (calls : json) : io W Step :=
        do! message_obj := io_lift (final_message st) in
        do! result := completion model
                        (message_obj ++ [("tool_calls", calls)])
                        (JStr "tool_calls") (total_usage st) response in
        io_ret (Return (ClientToolCalls result)) in
      let forward : io W Step :=
        do! calls := io_lift (final_tool_calls st) in
        with_tool_calls calls in
      match new_tool_calls, finish_reason with
      | None, _ | _, Some "stop" =>
          do! message_obj := io_lift (final_message st) in
          do! result := completion model message_obj (opt_str finish_reason)
                                   (total_usage st) response in
          io_ret (Return (Answer result))
      | Some [], _ => forward
      | Some (tc :: tcs), _ =>
          let calls := tc :: tcs in
          if execute_mcp_tools && bool_decide (is_Some mcp_manager) then
            let mcp_tool_calls :=
              filter (fun c => _is_mcp_tool mcp_manager (tc_name c) = true) calls in
            let non_mcp_tool_calls :=
              filter (fun c => _is_mcp_tool mcp_manager (tc_name c) <> true) calls in
            match mcp_tool_calls with
            | _ :: _ =>
                do! messages := execute_calls mcp_manager mcp_tool_calls
                                              (messages_copy st) in
                io_ret (Continue
                  {| messages_copy := messages;
                     iteration := S (iteration st);
                     assistant_msg_index := assistant_msg_index st;
                     total_usage := total_usage st |})
            | [] =>
                match non_mcp_tool_calls with
                | _ :: _ =>
                    with_tool_calls (JArr (tool_call_dicts non_mcp_tool_calls))
                | [] => forward
                end
            end
          else forward
      end
  end.

Definition max_iterations_reply (model : string)
           (total_usage : list (string * json)) : io W json :=
  do! t1 := now in
  do! t2 := now in
  io_ret (JObj [("id", JStr ("chatcmpl-" +:+ pretty t1));
                ("object", JStr "chat.completion");
                ("created", JInt t2);
                ("model", JStr model);
                ("choices",
                 JArr [JObj [("index", JInt 0);
                             ("message",
                              JObj [("role", JStr "assistant");
                                    ("content", JStr "达到最大迭代次数")]);
                             ("finish_reason", JStr "length")]]);
                ("usage", JObj total_usage)]).

(** [while iteration < max_iterations] with [remaining] rounds left. *)
Fixpoint while_loop (remaining : nat) (model : string)
         (body : Loop -> io W Step) (st : Loop) : io W Exit :=
  match remaining with
  | O => do! reply := max_iterations_reply model (total_usage st) in
         io_ret (MaxIterations reply)
  | S remaining' =>
      do! _ := emit (EvIteration (iteration st)) in
      do! step := body st in
      match step with
      | Return e => io_ret e
      | Continue st' => while_loop remaining' model body st'
      end
  end.

(** [process_request]; the global [CONFIG] is not consulted. *)
Definition process_request (mcp_manager : option MCPManager)
           (messages : list json) (model : string)
           (tools : option (list json)) (execute_mcp_tools : bool)
  : io W Exit :=
  let combined_tools := combine_tools tools mcp_manager in
  do! messages_copy :=
    io_lift (py_map (fun msg => match msg with
                                | JObj _ | JArr _ => Ret msg
                                | _ => Raise "AttributeError"
                                end) messages) in
  while_loop max_iterations model
    (iteration_body model combined_tools execute_mcp_tools mcp_manager)
    {| messages_copy := messages_copy; iteration := 0;
       assistant_msg_index := None;
       total_usage := [("prompt_tokens", JInt 0);
                       ("completion_tokens", JInt 0);
                       ("total_tokens", JInt 0)] |}.

End Engine.
(** A round does not end the request the way the exhausted loop does. *)
Definition not_capped (step : Step) : Prop :=
  match step with
  | Return (MaxIterations _) => False
  | _ => True
  end.

(** [continues body n st w st' w' t]: from the state [st] in the world
    [w], [n] rounds in a row go on to the next one; they end in [st']
    and [w'] and leave the trace [t]. *)
Inductive continues {W : Type} (body : Loop -> io W Step)
  : nat -> Loop -> W -> Loop -> W -> list event -> Prop :=
| continues_O st w : continues body 0 st w st w []
| continues_S n st w st1 w1 t1 st' w' t :
    body st w = (Ret (Continue st1), w1, t1) ->
    continues body n st1 w1 st' w' t ->
    continues body (S n) st w st' w' (EvIteration (iteration st) :: t1 ++ t).

(** The state [process_request] enters its loop with. *)
Definition entered (messages : list json) : Loop :=
  {| messages_copy := messages; iteration := 0;
     assistant_msg_index := None;
     total_usage := [("prompt_tokens", JInt 0);
                     ("completion_tokens", JInt 0);
                     ("total_tokens", JInt 0)] |}.

(** ** The settings file and the access keys *)

Definition default_config : list (string * json) :=
  [("chat_completions_url", JStr "https://api.deepseek.com/v1/chat/completions");
   ("models_url", JStr "https://api.deepseek.com/v1/models");
   ("api_key", JStr "");
   ("access_keys", JArr []);
   ("allow_user_api_key", JBool true);
   ("host", JStr "127.0.0.1");
   ("port", JInt 8002);
   ("debug", JBool false);
   ("mcp_enabled", JBool true);
   ("auto_execute_mcp_tools", JBool true);
   ("system_prompt_enabled", JBool false);
   ("system_prompt", JStr ("## 工具调用注意事项"
       +:+ nl
       +:+ nl
       +:+ "当你使用工具获取信息时，请注意以下几点："
       +:+ nl
       +:+ nl
       +:+ "1. **工具调用结果不会保存在对话历史中**：每次工具调用的原始结果只会在当前回合可见，后续对话中将无法再访问这些原始数据。"
       +:+ nl
       +:+ nl
       +:+ "2. **主动提取和整理信息**：在收到工具返回的结果后，请在你的思考过程中提取所有有用的信息，包括："
       +:+ nl
       +:+ "   - 关键数据和数值"
       +:+ nl
       +:+ "   - 重要的名称、日期、地点等"
       +:+ nl
       +:+ "   - 相关的上下文信息"
       +:+ nl
       +:+ "   - 可能在后续对话中需要引用的内容"
       +:+ nl
       +:+ nl
       +:+ "3. **在回复中复述关键信息**：将提取的重要信息融入你的回复中，这样用户和你都能在后续对话中参考这些信息。"
       +:+ nl
       +:+ nl
       +:+ "4. **结构化输出**：当工具返回大量信息时，请以清晰、结构化的方式呈现，便于理解和后续引用。"))].

(** [load_config], for the settings file at the path given. *)
Definition load_config (settings : file) : json :=
  Jsonc.load_config default_config settings.

(** [chat_url.rsplit('/chat/completions', 1)[0]]: the text before the
    last occurrence of the separator, or the whole text. *)
Fixpoint before_last (sep s : string) : option string :=
  match s with
  | EmptyString => None
  | String c rest =>
      match before_last sep rest with
      | Some head => Some (String c head)
      | None => if String.prefix sep s then Some "" else None
      end
  end.

(** [get_base_url_from_chat_url] *)
Definition get_base_url_from_chat_url (chat_url : string) : string :=
  match before_last "/chat/completions" chat_url with
  | Some base => base
  | None => chat_url
  end.

(** [validate_access_key]: whether the key is accepted, the API key to
    use upstream and the error message. *)
Definition validate_access_key (CONFIG : list (string * json)) (auth_header : string)
  : py (bool * option json * option string) :=
  match strip_prefix "Bearer " auth_header with
  | None => Ret (false, None, Some "Missing or invalid Authorization header")
  | Some user_key =>
      let access_keys := dict_get_or "access_keys" (JArr []) CONFIG in
      let allow_user_api_key := dict_get_or "allow_user_api_key" (JBool true) CONFIG in
      let config_api_key := dict_get_or "api_key" (JStr "") CONFIG in
      if negb (truthy access_keys) then
        if truthy allow_user_api_key && truthy (JStr user_key)
        then Ret (true, Some (JStr user_key), None)
        else if truthy config_api_key then Ret (true, Some config_api_key, None)
        else Ret (true, Some (JStr user_key), None)
      else
        let! listed := py_contains user_key access_keys in
        if listed then
          if truthy config_api_key then Ret (true, Some config_api_key, None)
          else Ret (false, None, Some "Server API key not configured")
        else if truthy allow_user_api_key then Ret (true, Some (JStr user_key), None)
        else Ret (false, None, Some "Invalid access key")
  end.

(** ** Shapes of the working conversation *)

(** A message in the role of a tool. *)
Definition is_tool_message (message : json) : bool :=
  match message with
  | JObj d => json_eqb_str (dict_get_or "role" JNull d) "tool"
  | _ => false
  end.

(** The message the loop appends for a call the manager executed. *)
Definition tool_message (tc : ToolCall) (content : string) : json :=
  JObj [("role", JStr "tool");
        ("tool_call_id", JStr (tc_id tc));
        ("content", JStr content)].

(** The calls of a round that name a tool of the manager. *)
Definition registered_calls (mcp_manager : option MCPManager)
           (calls : list ToolCall) : list ToolCall :=
  List.filter (fun c => match mcp_manager with
                        | Some m => dict_has (tc_name c) (tools m)
                        | None => false
                        end) calls.

(** The chat API never answers in the role of a tool. *)
Definition answers_as_assistant {W : Type} `{ChatAPI W} : Prop :=
  forall model messages tools w completion w' choice rest,
    chat_create model messages tools w = (Ret completion, w') ->
    choices completion = choice :: rest ->
    msg_role (choice_message choice) <> "tool".

(** [message.get('reasoning_content', '')] of a message of the working
    conversation, when it is a string. *)
Definition reasoning_of (message : json) : option string :=
  match message with
  | JObj d =>
      match dict_get_or "reasoning_content" (JStr "") d with
      | JStr text => Some text
      | _ => None
      end
  | _ => None
  end.

(** The working conversation after at least one round: the client's
    messages, one assistant message, the tool messages of the last
    round. *)
Definition one_assistant_message (messages : list json) (st : Loop) : Prop :=
  exists assistant results text,
    messages_copy st = messages ++ JObj assistant :: results
    /\ assistant_msg_index st = Some (length messages)
    /\ is_tool_message (JObj assistant) = false
    /\ reasoning_of (JObj assistant) = Some text
    /\ Forall (fun m => is_tool_message m = true) results.

(** ** Flattened tool calls and token counters *)

(** A tool call of a reply as [_flatten_tool_calls] leaves it: without
    its id. *)
Definition flattened_call (i : nat) (tc : ToolCall) : json :=
  JObj [("function", JObj [("name", JStr (tc_name tc));
                           ("arguments", JStr (tc_arguments tc))]);
        ("type", JStr (tc_type tc));
        ("index", JInt (default (Z.of_nat i) (tc_index tc)))].

(** The count under a key of the usage dict. *)
Definition counter (k : string) (d : list (string * json)) : option Z :=
  match dict_get k d with
  | Some (JInt n) => Some n
  | _ => None
  end.

(** A key that is absent or holds a count. *)
Definition optional_counter (k : string) (d : list (string * json)) : Prop :=
  dict_get k d = None \/ exists n, dict_get k d = Some (JInt n).

(** A key that is absent or holds a dict with a count under [inner]. *)
Definition optional_detail (k inner : string) (d : list (string * json)) : Prop :=
  dict_get k d = None
  \/ exists details n, dict_get k d = Some (JObj details)
                       /\ dict_get inner details = Some (JInt n).

(** The usage dict as the loop keeps it. *)
Record usage_counters (d : list (string * json)) : Prop := {
  counts_prompt : exists n, dict_get "prompt_tokens" d = Some (JInt n);
  counts_completion : exists n, dict_get "completion_tokens" d = Some (JInt n);
  counts_total : exists n, dict_get "total_tokens" d = Some (JInt n);
  counts_cached : optional_detail "prompt_tokens_details" "cached_tokens" d;
  counts_reasoning :
    optional_detail "completion_tokens_details" "reasoning_tokens" d;
  counts_hit : optional_counter "prompt_cache_hit_tokens" d;
  counts_miss : optional_counter "prompt_cache_miss_tokens" d
}.

(** ** The loop as the source writes it *)

(** The number of calls of the chat API that a trace records. *)
Definition is_chat_create (e : event) : bool :=
  match e with EvChatCreate _ _ _ => true | _ => false end.

Definition chat_calls (trace : list event) : nat :=
  length (List.filter is_chat_create trace).

Section Written.
Context `{Runtime} {W : Type} `{ToolServers W} `{ChatAPI W}.

(** [while iteration < max_iterations: ...] with its test: a round is
    entered when the counter [iteration], which only the rounds
    themselves change, is below the cap.  [fuel] bounds the unfolding
    and has no counterpart in the source; a loop that outlives it
    yields [None]. *)
Fixpoint loop_as_written (fuel : nat) (max_iterations : nat) (model : string)
         (body : Loop -> io W Step) (st : Loop) {struct fuel}
  : io W (option Exit) :=
  if Nat.ltb (iteration st) max_iterations then
    match fuel with
    | O => io_ret None
    | S fuel' =>
        do! _ := emit (EvIteration (iteration st)) in
        do! step := body st in
        match step with
        | Return e => io_ret (Some e)
        | Continue st' => loop_as_written fuel' max_iterations model body st'
        end
    end
  else
    do! reply := max_iterations_reply model (total_usage st) in
    io_ret (Some (MaxIterations reply)).

(** [process_request] around that loop. *)
Definition process_request_as_written (fuel : nat)
           (mcp_manager : option MCPManager)
           (messages : list json) (model : string)
           (tools : option (list json)) (execute_mcp_tools : bool)
  : io W (option Exit) :=
  let combined_tools := combine_tools tools mcp_manager in
  do! messages_copy :=
    io_lift (py_map (fun msg => match msg with
                                | JObj _ | JArr _ => Ret msg
                                | _ => Raise "AttributeError"
                                end) messages) in
  loop_as_written fuel max_iterations model
    (iteration_body model combined_tools execute_mcp_tools mcp_manager)
    {| messages_copy := messages_copy; iteration := 0;
       assistant_msg_index := None;
       total_usage := [("prompt_tokens", JInt 0);
                       ("completion_tokens", JInt 0);
                       ("total_tokens", JInt 0)] |}.

End Written.

End DeepSeek.

(* ================================================================= *)
(** * A scripted world for the examples

    The upstream plays back a list of outcomes, the chat API a list of
    completions; every tool server answers [tools/call] with the same
    reply; the clock stands still. *)

Module Scripted.
Import Registry McpClient.

Record World : Type := {
  posts : list Gemini.PostOutcome;
  chats : list DeepSeek.ChatCompletion;
  tool_reply : option json;
  ticks : Z
}.

Definition served (status : Z) (body : option json) : Gemini.PostOutcome :=
  Gemini.Responded {| Gemini.status_code := status;
                      Gemini.response_json := body;
                      Gemini.response_text := "" |}.

Definition next_post (w : World) : Gemini.PostOutcome * World :=
  match posts w with
  | o :: rest =>
      (o, {| posts := rest; chats := chats w;
             tool_reply := tool_reply w; ticks := ticks w |})
  | [] => (served 500 None, w)
  end.

Definition next_chat (w : World) : py DeepSeek.ChatCompletion * World :=
  match chats w with
  | c :: rest =>
      (Ret c, {| posts := posts w; chats := rest;
                 tool_reply := tool_reply w; ticks := ticks w |})
  | [] => (Raise "APIConnectionError", w)
  end.

Definition runtime : Runtime := {| py_repr := fun _ => "<object>" |}.

Definition tool_servers : ToolServers World :=
  {| send_request := fun _ _ _ w => (Ret (tool_reply w), w);
     handshake := fun _ w => (Some [], w) |}.

Definition upstream : Gemini.Upstream World :=
  {| Gemini.requests_post := fun _ _ _ w => next_post w |}.

Definition chat_api : DeepSeek.ChatAPI World :=
  {| DeepSeek.chat_create := fun _ _ _ w => next_chat w;
     DeepSeek.clock := fun w => (ticks w, w) |}.

Definition world (posts : list Gemini.PostOutcome)
           (chats : list DeepSeek.ChatCompletion) (reply : option json) : World :=
  {| posts := posts; chats := chats; tool_reply := reply; ticks := 0 |}.

(** A reply of a tool server whose content is the given texts. *)
Definition text_content (texts : list string) : list json :=
  map (fun t => JObj [("type", JStr "text"); ("text", JStr t)]) texts.

Definition text_result (texts : list string) : list (string * json) :=
  [("content", JArr (text_content texts))].

Definition text_reply (texts : list string) : list (string * json) :=
  [("jsonrpc", JStr "2.0"); ("result", JObj (text_result texts))].

Definition rpc_error (message : string) : list (string * json) :=
  [("code", JInt (-32000)); ("message", JStr message)].

Definition error_reply (message : string) : list (string * json) :=
  [("jsonrpc", JStr "2.0"); ("error", JObj (rpc_error message))].

(** A manager with one connected SSE server [s] offering the tool [t]. *)
Definition server_s : MCPServerConfig :=
  {| cfg_name := "s"; cfg_server_type := SSE; cfg_description := JStr "";
     cfg_enabled := true; cfg_command := JNull; cfg_args := None;
     cfg_env := JNull; cfg_url := JStr "http://localhost:9000/sse";
     cfg_headers := JNull |}.

Definition tool_s_t : MCPTool :=
  {| tool_name := "s_t"; tool_description := JStr "a tool";
     tool_input_schema := JObj []; tool_server_name := "s" |}.

Definition connection_s : Connection :=
  {| conn_config := server_s; conn_tools := [tool_s_t] |}.

Definition manager : MCPManager :=
  {| servers := [("s", server_s)];
     connections := [("s", connection_s)];
     tools := [("s_t", tool_s_t)] |}.

(** A registry directory with one enabled server whose descriptor
    declares a transport type the manager does not know. *)
Definition pigeon_descriptor : list (string * json) :=
  [("type", JStr "pigeon"); ("description", JStr "by carrier");
   ("command", JStr "node"); ("args", JArr [JStr "index.js"])].

Definition pigeon_fs : FS :=
  {| root := "/srv/mcp_servers";
     listdir := ["__init__.py"; "enabled.txt"; "pigeon"];
     isdir := fun name => String.eqb name "pigeon";
     config_json := fun name =>
       if String.eqb name "pigeon"
       then Text (json_dumps true (JObj pigeon_descriptor))
       else Missing;
     server_py := fun _ => false;
     enabled_txt := Text ("pigeon" +:+ nl);
     enabled_writable := true |}.

Definition pigeon_info : ServerInfo :=
  {| info_path := "/srv/mcp_servers/pigeon";
     info_server_file := JNull;
     info_enabled := true;
     info_config := JObj pigeon_descriptor;
     info_description := JStr "by carrier";
     info_type := JStr "pigeon" |}.

(** A registry directory with three SSE servers: the descriptor of
    [plain] is plain JSON, that of [noted] starts with a line comment and
    that of [starred] with a block comment. *)
Definition sse_descriptor : list (string * json) :=
  [("type", JStr "sse"); ("description", JStr "search");
   ("url", JStr "http://localhost:9000/sse")].

Definition commented_fs : FS :=
  {| root := "/srv/mcp_servers";
     listdir := ["noted"; "plain"; "starred"];
     isdir := fun _ => true;
     config_json := fun name =>
       if String.eqb name "plain"
       then Text (json_dumps true (JObj sse_descriptor))
       else if String.eqb name "noted"
       then Text ("// the search server" +:+ nl
                  +:+ json_dumps true (JObj sse_descriptor))
       else if String.eqb name "starred"
       then Text ("/* the search server */ "
                  +:+ json_dumps true (JObj sse_descriptor))
       else Missing;
     server_py := fun _ => false;
     enabled_txt := Missing;
     enabled_writable := true |}.

Definition sse_info (name : string) : ServerInfo :=
  {| info_path := "/srv/mcp_servers/" +:+ name;
     info_server_file := JNull;
     info_enabled := false;
     info_config := JObj sse_descriptor;
     info_description := JStr "search";
     info_type := JStr "sse" |}.

(** A client declaration of a tool named like the manager's [s_t]. *)
Definition client_s_t : json :=
  JObj [("type", JStr "function");
        ("function", JObj [("name", JStr "s_t");
                           ("description", JStr "the client's own")])].

Definition say (role content : string) : json :=
  JObj [("role", JStr role); ("content", JStr content)].

(** A completion that answers with [content] and stops. *)
Definition answers (content : string) : DeepSeek.ChatCompletion :=
  {| DeepSeek.choices :=
       [{| DeepSeek.choice_message :=
             {| DeepSeek.msg_role := "assistant";
                DeepSeek.msg_content := Some content;
                DeepSeek.msg_reasoning_content := None;
                DeepSeek.msg_tool_calls := None |};
           DeepSeek.choice_finish_reason := Some "stop" |}];
     DeepSeek.usage := None;
     DeepSeek.system_fingerprint := None |}.

(** A completion that asks for the tool [name]. *)
Definition asks_for (name : string) : DeepSeek.ChatCompletion :=
  {| DeepSeek.choices :=
       [{| DeepSeek.choice_message :=
             {| DeepSeek.msg_role := "assistant";
                DeepSeek.msg_content := None;
                DeepSeek.msg_reasoning_content := Some "let me look that up";
                DeepSeek.msg_tool_calls :=
                  Some [{| DeepSeek.tc_id := "call_0";
                           DeepSeek.tc_name := name;
                           DeepSeek.tc_arguments := "";
                           DeepSeek.tc_type := "function";
                           DeepSeek.tc_index := None |}] |};
           DeepSeek.choice_finish_reason := Some "tool_calls" |}];
     DeepSeek.usage := None;
     DeepSeek.system_fingerprint := None |}.

(** A [CONFIG] that sets none of the engine's keys. *)
Definition no_settings : Gemini.Config :=
  {| Gemini.max_iterations := None;
     Gemini.api_retry_count := None;
     Gemini.api_retry_delay := None |}.

(** The settings with a cap on the rounds of a request. *)
Definition capped_at (cap : Z) : Gemini.Config :=
  {| Gemini.max_iterations := Some cap;
     Gemini.api_retry_count := None;
     Gemini.api_retry_delay := None |}.

(** The settings with a retry delay. *)
Definition delayed_by (seconds : Z) : Gemini.Config :=
  {| Gemini.max_iterations := None;
     Gemini.api_retry_count := None;
     Gemini.api_retry_delay := Some seconds |}.

(** Every outcome left in the script is a response outside 200..299. *)
Definition all_failing (w : World) : Prop :=
  Forall (fun o => exists r, o = Gemini.Responded r /\ Gemini.non_2xx r) (posts w).

(** ** A side file *)

(** A registry whose side file enables the one server it has. *)
Definition fetch_fs : FS :=
  {| root := "/srv/mcp_servers";
     listdir := ["__init__.py"; "enabled.txt"; "fetch"];
     isdir := fun name => String.eqb name "fetch";
     config_json := fun _ => Missing;
     server_py := fun _ => false;
     enabled_txt := Text ("# enabled" +:+ nl +:+ "fetch" +:+ nl);
     enabled_writable := true |}.

(** ** Conversations with Gemini *)

Definition gemini_reply (parts : list json) : json :=
  JObj [("candidates",
         JArr [JObj [("content", JObj [("role", JStr "model");
                                       ("parts", JArr parts)]);
                     ("finishReason", JStr "STOP")]])].

Definition thought_part (text : string) : json :=
  JObj [("text", JStr text); ("thought", JBool true)].

Definition call_part (name : string) : json :=
  JObj [("functionCall", JObj [("name", JStr name); ("args", JObj [])])].

Definition text_part (text : string) : json := JObj [("text", JStr text)].

Definition user_says (text : string) : json :=
  JObj [("role", JStr "user"); ("parts", JArr [text_part text])].

Definition result_part (name text : string) : json :=
  JObj [("functionResponse",
         JObj [("name", JStr name);
               ("response", JObj [("result", JStr text)])])].

Definition model_says (parts : list json) : json :=
  JObj [("role", JStr "model"); ("parts", JArr parts)].

Definition tool_results (parts : list json) : json :=
  JObj [("role", JStr "user"); ("parts", JArr parts)].

(** A working conversation after two rounds of tool calls; the client
    supplied its first two messages, the second of them a tool result
    of its own. *)
Definition history : list json :=
  [user_says "hi";
   tool_results [result_part "own" "kept"];
   model_says [thought_part "look it up"; call_part "s_t"];
   tool_results [result_part "s_t" "found"];
   model_says [call_part "s_t"];
   tool_results [result_part "s_t" "found again"]].

(** The model thinks and calls [name], then thinks again and answers. *)
Definition two_rounds (name : string) : World :=
  world [served 200 (Some (gemini_reply [thought_part "look it up"; call_part name]));
         served 200 (Some (gemini_reply [thought_part "now answer"; text_part "done"]))]
        [] (Some (JObj (text_reply ["found"]))).

Definition two_rounds_run (name : string)
  : py Gemini.Exit * World * list event :=
  Gemini.process_request (H := runtime) (H0 := tool_servers) (H1 := upstream)
                         no_settings (Some manager) [user_says "hi"]
                         "gemini-2.5-flash" None JNull None true (two_rounds name).

Definition placeholder_s_t : string :=
  Gemini._format_tool_call_text (H := runtime) (JStr "s_t") "{}".

(** The block of the reply to the client when the model called [s_t]. *)
Definition two_rounds_block : string :=
  "look it up" +:+ nl +:+ nl +:+ "now answer" +:+ nl +:+ nl +:+ placeholder_s_t.

Definition two_rounds_reply : json :=
  JObj [("candidates",
         JArr [JObj [("content",
                      JObj [("parts", JArr [thought_part two_rounds_block;
                                            text_part "done"]);
                            ("role", JStr "model")]);
                     ("index", JInt 0);
                     ("finishReason", JStr "STOP")]])].

Definition placeholder_nope : string :=
  Gemini._format_tool_call_text (H := runtime) (JStr "nope") "{}".

(** The reply to the client when the model called [nope]. *)
Definition nope_reply : json :=
  JObj [("candidates",
         JArr [JObj [("content",
                      JObj [("parts",
                             JArr [thought_part ("look it up" +:+ nl +:+ nl
                                                 +:+ placeholder_nope)]);
                            ("role", JStr "model")]);
                     ("index", JInt 0);
                     ("finishReason", JStr "STOP")]])].

(** The tool list of a request that declares no tool of its own. *)
Definition manager_tools : option (list json) :=
  Gemini.combine_tools None (Gemini._get_mcp_tools_as_gemini_format (Some manager)).

(** ** Tool servers that announce a tool *)

(** Every server announces one tool, [t]. *)
Definition announced_t (config : MCPServerConfig) : MCPTool :=
  {| tool_name := "t"; tool_description := JStr "a tool";
     tool_input_schema := JObj []; tool_server_name := cfg_name config |}.

Definition announcing : ToolServers World :=
  {| send_request := fun _ _ _ w => (Ret (tool_reply w), w);
     handshake := fun config w => (Some [announced_t config], w) |}.

Definition processes : Processes World :=
  {| terminate := fun _ w => w |}.

(** A registry whose side file enables the one SSE server it has, [s]. *)
Definition search_fs : FS :=
  {| root := "/srv/mcp_servers";
     listdir := ["enabled.txt"; "s"];
     isdir := fun name => String.eqb name "s";
     config_json := fun name =>
       if String.eqb name "s"
       then Text (json_dumps true (JObj sse_descriptor))
       else Missing;
     server_py := fun _ => false;
     enabled_txt := Text ("s" +:+ nl);
     enabled_writable := true |}.

(** The manager a load of [search_fs] builds. *)
Definition searching : MCPManager :=
  match _load_from_directory (H0 := announcing)
                             search_fs empty_manager (world [] [] None) with
  | (Ret (_, m), _, _) => m
  | _ => empty_manager
  end.

(** ** A chat API that answers as the assistant *)

Definition answers_as_tool (completion : DeepSeek.ChatCompletion) : bool :=
  match DeepSeek.choices completion with
  | choice :: _ =>
      String.eqb (DeepSeek.msg_role (DeepSeek.choice_message choice)) "tool"
  | [] => false
  end.

(** The scripted completions, but for those in the role of a tool, in
    whose place the API reports an error. *)
Definition assistant_api : DeepSeek.ChatAPI World :=
  {| DeepSeek.chat_create := fun _ _ _ w =>
       match next_chat w with
       | (Ret completion, w') =>
           if answers_as_tool completion then (Raise "APIError", w')
           else (Ret completion, w')
       | failed => failed
       end;
     DeepSeek.clock := fun w => (ticks w, w) |}.

(** A conversation after one round: the assistant has thought and has
    called [s_t], and the tool has answered. *)
Definition first_thought : list (string * json) :=
  [("role", JStr "assistant"); ("content", JStr "");
   ("reasoning_content", JStr "let me look that up")].

Definition found : json :=
  JObj [("role", JStr "tool"); ("tool_call_id", JStr "call_0");
        ("content", JStr "found")].

(** ** Rounds that fail, rounds that stand still *)

(** The model calls [s_t]; the upstream then answers 502 once and would
    answer after that. *)
Definition fails_once_in_second_round : World :=
  world [served 200 (Some (gemini_reply [call_part "s_t"]));
         served 502 None;
         served 200 (Some (gemini_reply [text_part "done"]))]
        [] (Some (JObj (text_reply ["found"]))).

(** The state of the loop at the start of its second round, the model
    having called [s_t] in the first. *)
Definition second_round : Gemini.Loop :=
  {| Gemini.contents_copy :=
       [user_says "hi"; model_says [call_part "s_t"];
        tool_results [result_part "s_t" "found"]];
     Gemini.iteration := 1;
     Gemini.accumulated_thought_texts := [];
     Gemini.accumulated_tool_texts := [placeholder_s_t] |}.

(** A round that goes on without adding to [iteration]. *)
Definition idle (st : Gemini.Loop) : io World Gemini.Step :=
  io_ret (Gemini.Continue st).

(** A descriptor with a line comment behind its first member. *)
Definition remarked : string :=
  "{" +:+ dumps_string true "type" +:+ ": " +:+ dumps_string true "sse"
      +:+ ", // the transport" +:+ nl
      +:+ dumps_string true "url" +:+ ": "
      +:+ dumps_string true "http://localhost:9000/sse" +:+ "}".

End Scripted.

(* ================================================================= *)
(** * Proofs *)

Import Registry McpClient.

(** * Facts about dicts *)
Section DictFacts.
Context {V : Type}.
Implicit Types (d : list (string * V)) (k : string) (v : V).

Lemma eqb_refl_str k : String.eqb k k = true.
Proof. apply String.eqb_refl. Qed.

Lemma dict_get_set_eq k v d : dict_get k (dict_set k v d) = Some v.
Proof.
  induction d as [|[k' v'] d IH]; simpl.
  - rewrite String.eqb_refl. reflexivity.
  - destruct (String.eqb k k') eqn:E; simpl; rewrite E; auto.
Qed.

Lemma dict_get_set_ne k k' v d :
  k <> k' -> dict_get k' (dict_set k v d) = dict_get k' d.
Proof.
  intros Hne. induction d as [|[k0 v0] d IH]; simpl.
  - destruct (String.eqb k' k) eqn:E; [|reflexivity].
    apply String.eqb_eq in E. congruence.
  - destruct (String.eqb k k0) eqn:E; simpl.
    + apply String.eqb_eq in E. subst k0.
      destruct (String.eqb k' k) eqn:E'; [|reflexivity].
      apply String.eqb_eq in E'. congruence.
    + destruct (String.eqb k' k0); auto.
Qed.

Lemma dict_keys_set k v d :
  dict_keys (dict_set k v d)
  = if dict_has k d then dict_keys d else dict_keys d ++ [k].
Proof.
  unfold dict_has, dict_keys.
  induction d as [|[k' v'] d IH]; simpl; [reflexivity|].
  destruct (String.eqb k k') eqn:E; simpl; [reflexivity|].
  rewrite IH. destruct (dict_get k d); reflexivity.
Qed.

Lemma dict_get_None_keys k d : dict_get k d = None <-> k ∉ dict_keys d.
Proof.
  unfold dict_keys. induction d as [|[k' v'] d IH]; simpl.
  - split; [intros _; apply not_elem_of_nil | reflexivity].
  - destruct (String.eqb k k') eqn:E.
    + apply String.eqb_eq in E. subst. split; [discriminate|].
      intros Hn. exfalso. apply Hn. left.
    + apply String.eqb_neq in E. rewrite IH, not_elem_of_cons. tauto.
Qed.

Lemma dict_get_Some_elem k v d : dict_get k d = Some v -> (k, v) ∈ d.
Proof.
  induction d as [|[k' v'] d IH]; simpl; [discriminate|].
  destruct (String.eqb k k') eqn:E.
  - apply String.eqb_eq in E. intros [= ->]. subst. left.
  - intros Hg. right. auto.
Qed.

Lemma dict_get_NoDup k v d :
  NoDup (dict_keys d) -> (k, v) ∈ d -> dict_get k d = Some v.
Proof.
  unfold dict_keys. induction d as [|[k' v'] d IH]; simpl; intros Hnd Hin.
  - inversion Hin.
  - apply NoDup_cons in Hnd as [Hk' Hnd].
    apply elem_of_cons in Hin as [[= -> ->]|Hin].
    + rewrite String.eqb_refl. reflexivity.
    + destruct (String.eqb k k') eqn:E.
      * apply String.eqb_eq in E. subst k'. exfalso. apply Hk'.
        apply list_elem_of_In. apply list_elem_of_In in Hin.
        apply (in_map fst) in Hin. exact Hin.
      * auto.
Qed.

Lemma dict_set_NoDup k v d : NoDup (dict_keys d) -> NoDup (dict_keys (dict_set k v d)).
Proof.
  intros Hnd. rewrite dict_keys_set. unfold dict_has.
  destruct (dict_get k d) eqn:E; [assumption|].
  apply NoDup_app. split; [assumption|]. split.
  - intros x Hx Hx'. apply list_elem_of_singleton in Hx'. subst.
    apply dict_get_None_keys in E. contradiction.
  - apply NoDup_singleton.
Qed.

Lemma dict_set_values_Forall (P : V -> Prop) k v d :
  P v -> Forall P (dict_values d) -> Forall P (dict_values (dict_set k v d)).
Proof.
  unfold dict_values. intros Hv. induction d as [|[k' v'] d IH]; simpl; intros Hd.
  - constructor; auto.
  - apply Forall_cons in Hd as [Hv' Hd].
    destruct (String.eqb k k'); simpl; constructor; auto.
Qed.

Lemma dict_set_Forall (P : string * V -> Prop) k v d :
  P (k, v) -> Forall P d -> Forall P (dict_set k v d).
Proof.
  intros Hv. induction d as [|[k' v'] d IH]; simpl; intros Hd.
  - constructor; auto.
  - apply Forall_cons in Hd as [Hv' Hd].
    destruct (String.eqb k k') eqn:E; simpl; constructor; auto.
    apply String.eqb_eq in E. subst. exact Hv.
Qed.
End DictFacts.

(** * Facts about [io] *)
Section IoFacts.
Context {W : Type}.

Lemma io_bind_run {A B} (m : io W A) (k : A -> io W B) (w : W) :
  io_bind m k w
  = match m w with
    | (Ret a, w1, t1) => let '(r, w2, t2) := k a w1 in (r, w2, t1 ++ t2)
    | (Raise e, w1, t1) => (Raise e, w1, t1)
    end.
Proof. reflexivity. Qed.

Lemma io_bind_ret_l {A B} (a : A) (k : A -> io W B) (w : W) :
  io_bind (io_ret a) k w = k a w.
Proof. unfold io_bind, io_ret. destruct (k a w) as [[r w2] t2]. reflexivity. Qed.

Lemma io_bind_lift_ret {A B} (a : A) (k : A -> io W B) (w : W) :
  io_bind (io_lift (Ret a)) k w = k a w.
Proof. unfold io_bind, io_lift. destruct (k a w) as [[r w2] t2]. reflexivity. Qed.

Lemma io_bind_emit {B} (e : event) (k : unit -> io W B) (w : W) :
  io_bind (emit e) k w
  = let '(r, w2, t2) := k tt w in (r, w2, e :: t2).
Proof. reflexivity. Qed.
End IoFacts.

(** * Trace invariants *)

Section Emits.
Context {W : Type} (P : event -> Prop).

Lemma emits_ret {A} (a : A) : emits P (io_ret (W := W) a).
Proof. intros w. constructor. Qed.

Lemma emits_raise {A} (e : string) : emits P (io_raise (W := W) (A := A) e).
Proof. intros w. constructor. Qed.

Lemma emits_lift {A} (m : py A) : emits P (io_lift (W := W) m).
Proof. intros w. constructor. Qed.

Lemma emits_emit (e : event) : P e -> emits P (emit (W := W) e).
Proof. intros He w. repeat constructor. exact He. Qed.

Lemma emits_bind {A B} (m : io W A) (k : A -> io W B) :
  emits P m -> (forall a, emits P (k a)) -> emits P (io_bind m k).
Proof.
  intros Hm Hk w. specialize (Hm w). unfold trace_of, io_bind in *.
  destruct (m w) as [[[a|e] w1] t1]; simpl in *; [|exact Hm].
  specialize (Hk a w1). destruct (k a w1) as [[r w2] t2]. simpl in *.
  apply Forall_app. split; assumption.
Qed.

Lemma emits_silent {A} (m : io W A) :
  (forall w, trace_of (m w) = []) -> emits P m.
Proof. intros Hm w. rewrite Hm. constructor. Qed.
End Emits.

Ltac emits_step :=
  lazymatch goal with
  | |- emits _ (io_bind _ _) => apply emits_bind; [|intros]
  | |- emits _ (io_ret _) => apply emits_ret
  | |- emits _ (io_lift _) => apply emits_lift
  | |- emits _ (io_raise _) => apply emits_raise
  | |- emits _ (emit _) => apply emits_emit
  | |- emits _ (match ?x with _ => _ end) => destruct x
  | |- emits _ (let (_, _) := ?x in _) => destruct x
  end.

Ltac emits_auto := repeat emits_step.

(** * Postconditions *)

Section Ensures.
Context {W : Type}.

Lemma ensures_ret {A} (Q : A -> Prop) (a : A) : Q a -> ensures Q (io_ret (W := W) a).
Proof. intros Ha w a' [= <-]. exact Ha. Qed.

Lemma ensures_raise {A} (Q : A -> Prop) (e : string) :
  ensures Q (io_raise (W := W) (A := A) e).
Proof. intros w a. discriminate. Qed.

Lemma ensures_bind {A B} (Q : B -> Prop) (m : io W A) (k : A -> io W B) :
  (forall a, ensures Q (k a)) -> ensures Q (io_bind m k).
Proof.
  intros Hk w b. unfold result_of, io_bind.
  destruct (m w) as [[[a|e] w1] t1]; simpl; [|discriminate].
  specialize (Hk a w1 b). unfold result_of in Hk.
  destruct (k a w1) as [[r w2] t2]. exact Hk.
Qed.
End Ensures.

Ltac ensures_step :=
  lazymatch goal with
  | |- ensures _ (io_bind _ _) => apply ensures_bind; intros
  | |- ensures _ (io_ret _) => apply ensures_ret
  | |- ensures _ (io_raise _) => apply ensures_raise
  | |- ensures _ (match ?x with _ => _ end) => destruct x
  | |- ensures _ (let (_, _) := ?x in _) => destruct x
  end.

(** * Counting the rounds of a loop *)



(** * Running a bind backwards *)
Section Inversion.
Context {W : Type}.

Lemma io_bind_Ret_inv {A B} (m : io W A) (k : A -> io W B) (w w2 : W)
      (b : B) (t : list event) :
  io_bind m k w = (Ret b, w2, t) ->
  exists a w1 t1 t2,
    m w = (Ret a, w1, t1) /\ k a w1 = (Ret b, w2, t2) /\ t = t1 ++ t2.
Proof.
  unfold io_bind. destruct (m w) as [[[a|e] w1] t1]; [|discriminate].
  destruct (k a w1) as [[r w3] t2] eqn:Hk. intros [= -> -> <-].
  exists a, w1, t1, t2. auto.
Qed.

Lemma io_lift_Ret_inv {A} (m : py A) (w w1 : W) (a : A) (t : list event) :
  io_lift m w = (Ret a, w1, t) -> m = Ret a /\ w1 = w /\ t = [].
Proof. unfold io_lift. intros [= -> -> <-]. auto. Qed.

Lemma io_ret_inv {A} (a a' : A) (w w1 : W) (t : list event) :
  io_ret a w = (Ret a', w1, t) -> a' = a /\ w1 = w /\ t = [].
Proof. unfold io_ret. intros [= -> -> <-]. auto. Qed.

Lemma io_bind_lift_inv {A B} (m : py A) (k : A -> io W B) (w w2 : W)
      (b : B) (t : list event) :
  io_bind (io_lift m) k w = (Ret b, w2, t) ->
  exists a, m = Ret a /\ k a w = (Ret b, w2, t).
Proof.
  intros Hrun. apply io_bind_Ret_inv in Hrun as (a & w1 & t1 & t2 & Hm & Hk & ->).
  apply io_lift_Ret_inv in Hm as (-> & -> & ->). exists a. auto.
Qed.
End Inversion.

Lemma replies_of_app (t1 t2 : list event) :
  replies_of (t1 ++ t2) = replies_of t1 ++ replies_of t2.
Proof. unfold replies_of. apply omap_app. Qed.

Lemma replies_of_none (t : list event) :
  Forall (fun e => reply_of e = None) t -> replies_of t = [].
Proof.
  unfold replies_of. induction 1 as [|e t He _ IH]; simpl; [reflexivity|].
  rewrite He. exact IH.
Qed.

(** * The trace behind the first step of a computation *)
Lemma trace_bind_rest {W A B} (P : event -> Prop) (m : io W A) (k : A -> io W B)
      (w : W) :
  (forall a, emits P (k a)) ->
  exists rest, trace_of (io_bind m k w) = trace_of (m w) ++ rest /\ Forall P rest.
Proof.
  intros Hk. unfold io_bind, trace_of.
  destruct (m w) as [[[a|e] w1] t1]; simpl.
  - specialize (Hk a w1). unfold trace_of in Hk.
    destruct (k a w1) as [[r w2] t2]. exists t2. auto.
  - exists []. rewrite app_nil_r. auto.
Qed.

(* ================================================================= *)
(** * The registry: the side file *)

(** * Strings *)

Lemma append_cons (c : ascii) (a b : string) : String c a +:+ b = String c (a +:+ b).
Proof. reflexivity. Qed.

Lemma append_nil_l (s : string) : "" +:+ s = s.
Proof. reflexivity. Qed.

Lemma append_nil_r (s : string) : s +:+ "" = s.
Proof. induction s as [|c s IH]; [reflexivity|]. rewrite append_cons, IH. reflexivity. Qed.

Lemma append_assoc (a b c : string) : (a +:+ b) +:+ c = a +:+ b +:+ c.
Proof.
  induction a as [|x a IH]; [reflexivity|]. rewrite !append_cons, IH. reflexivity.
Qed.

Lemma length_append (a b : string) :
  String.length (a +:+ b) = String.length a + String.length b.
Proof.
  induction a as [|x a IH]; [reflexivity|]. rewrite append_cons. simpl. rewrite IH.
  reflexivity.
Qed.

Lemma string_strong_ind (P : string -> Prop) :
  (forall s, (forall s', String.length s' < String.length s -> P s') -> P s) ->
  forall s, P s.
Proof.
  intros Hstep s. remember (String.length s) as n eqn:Hn.
  revert s Hn. induction n as [n IH] using lt_wf_ind. intros s ->.
  apply Hstep. intros s' Hlt. eapply IH; [exact Hlt|reflexivity].
Qed.

Lemma string_rev_onto_app (s acc : string) :
  string_rev_onto s acc = string_rev s +:+ acc.
Proof.
  unfold string_rev. revert acc. induction s as [|c s IH]; intros acc; simpl; [reflexivity|].
  rewrite (IH (String c acc)), (IH (String c "")), append_assoc. reflexivity.
Qed.

Lemma string_rev_append (a b : string) :
  string_rev (a +:+ b) = string_rev b +:+ string_rev a.
Proof.
  induction a as [|c a IH]; rewrite ?append_nil_l, ?append_cons.
  - rewrite append_nil_r. reflexivity.
  - unfold string_rev in *. simpl.
    rewrite (string_rev_onto_app (a +:+ b)), (string_rev_onto_app a).
    unfold string_rev. rewrite IH, append_assoc. reflexivity.
Qed.

Lemma string_rev_involutive (s : string) : string_rev (string_rev s) = s.
Proof.
  induction s as [|c s IH]; [reflexivity|].
  unfold string_rev at 2. simpl. rewrite string_rev_onto_app, string_rev_append, IH.
  reflexivity.
Qed.

Lemma length_string_rev (s : string) : String.length (string_rev s) = String.length s.
Proof.
  induction s as [|c s IH]; [reflexivity|].
  unfold string_rev. simpl. rewrite string_rev_onto_app, length_append, IH. simpl. lia.
Qed.

(** * Lines *)

Lemma no_breaks_append (a b : string) :
  no_breaks (a +:+ b) = no_breaks a && no_breaks b.
Proof.
  induction a as [|c a IH]; [reflexivity|]. rewrite append_cons. simpl.
  rewrite IH, !andb_assoc. reflexivity.
Qed.

Lemma no_breaks_string_rev (s : string) : no_breaks (string_rev s) = no_breaks s.
Proof.
  induction s as [|c s IH]; [reflexivity|].
  unfold string_rev. simpl. rewrite string_rev_onto_app, no_breaks_append, IH. simpl.
  rewrite andb_true_r, andb_comm. reflexivity.
Qed.

(** A line that is written with its terminator is read back. *)
Lemma lines_from_line (n rest cur : string) :
  no_breaks n = true ->
  lines_from (n +:+ nl +:+ rest) cur = (cur +:+ n) :: lines_from rest "".
Proof.
  revert cur. induction n as [|c n IH]; intros cur; rewrite ?append_nil_l, ?append_cons; simpl.
  - intros _. rewrite append_nil_r. reflexivity.
  - intros Hn. apply andb_true_iff in Hn as [Hc Hn]. apply andb_true_iff in Hc as [H10 H13].
    apply negb_true_iff in H10, H13. rewrite H10, H13, (IH _ Hn), append_assoc.
    reflexivity.
Qed.

(** The lines of a text hold no terminator. *)
Lemma lines_from_no_breaks (s : string) :
  forall cur, no_breaks cur = true ->
              Forall (fun l => no_breaks l = true) (lines_from s cur).
Proof.
  induction s as [s IH] using string_strong_ind. intros cur Hcur.
  destruct s as [|c r]; simpl.
  - destruct (String.eqb cur ""); repeat constructor; exact Hcur.
  - destruct (is_chr 10 c) eqn:H10.
    { constructor; [exact Hcur|]. apply IH; [simpl; lia|reflexivity]. }
    destruct (is_chr 13 c) eqn:H13.
    + destruct r as [|c' r'].
      * constructor; [exact Hcur|]. simpl. constructor.
      * destruct (is_chr 10 c').
        -- constructor; [exact Hcur|]. apply IH; [simpl; lia|reflexivity].
        -- constructor; [exact Hcur|]. apply IH; [simpl; lia|reflexivity].
    + apply IH; [simpl; lia|].
      rewrite no_breaks_append, Hcur. simpl. rewrite H10, H13. reflexivity.
Qed.

(** * Stripping *)

Ltac split_if :=
  match goal with
  | |- context [if ?b then _ else _] => destruct b eqn:?
  end.

Ltac split_string :=
  match goal with
  | |- context [match ?r with EmptyString => _ | String _ _ => _ end] =>
      is_var r; destruct r
  end.

(** The cases of [lstrip] and [lstrip_rev] on a text that is not empty. *)
Ltac strip_cases := repeat first [split_if | split_string | progress simpl].

Lemma lstrip_length (s : string) : String.length (lstrip s) <= String.length s.
Proof.
  induction s as [s IH] using string_strong_ind.
  destruct s as [|a r]; [simpl; lia|]. strip_cases; try lia;
    match goal with
    | |- String.length (lstrip ?r) <= _ =>
        let Hle := fresh in
        assert (String.length (lstrip r) <= String.length r) as Hle
            by (apply IH; simpl; lia);
        simpl in Hle; lia
    end.
Qed.

Lemma lstrip_rev_length (s : string) : String.length (lstrip_rev s) <= String.length s.
Proof.
  induction s as [s IH] using string_strong_ind.
  destruct s as [|a r]; [simpl; lia|]. strip_cases; try lia;
    match goal with
    | |- String.length (lstrip_rev ?r) <= _ =>
        let Hle := fresh in
        assert (String.length (lstrip_rev r) <= String.length r) as Hle
            by (apply IH; simpl; lia);
        simpl in Hle; lia
    end.
Qed.

Ltac strip_ih IH :=
  match goal with
  | |- context [lstrip ?r] => is_var r; apply IH; simpl; lia
  | |- context [lstrip_rev ?r] => is_var r; apply IH; simpl; lia
  end.

Lemma lstrip_idempotent (s : string) : lstrip (lstrip s) = lstrip s.
Proof.
  induction s as [s IH] using string_strong_ind.
  destruct s as [|a r]; [reflexivity|].
  strip_cases; try congruence; try reflexivity; strip_ih IH.
Qed.

Lemma lstrip_rev_idempotent (s : string) : lstrip_rev (lstrip_rev s) = lstrip_rev s.
Proof.
  induction s as [s IH] using string_strong_ind.
  destruct s as [|a r]; [reflexivity|].
  strip_cases; try congruence; try reflexivity; strip_ih IH.
Qed.

Lemma lstrip_no_breaks (s : string) :
  no_breaks s = true -> no_breaks (lstrip s) = true.
Proof.
  induction s as [s IH] using string_strong_ind.
  destruct s as [|a r]; [reflexivity|].
  strip_cases; intros Hs; try exact Hs;
    repeat match goal with
           | H : _ && _ = true |- _ => apply andb_true_iff in H as [? ?]
           end;
    match goal with
    | |- no_breaks (lstrip ?r) = true => apply IH; [simpl; lia|assumption]
    end.
Qed.

Lemma lstrip_rev_no_breaks (s : string) :
  no_breaks s = true -> no_breaks (lstrip_rev s) = true.
Proof.
  induction s as [s IH] using string_strong_ind.
  destruct s as [|a r]; [reflexivity|].
  strip_cases; intros Hs; try exact Hs;
    repeat match goal with
           | H : _ && _ = true |- _ => apply andb_true_iff in H as [? ?]
           end;
    match goal with
    | |- no_breaks (lstrip_rev ?r) = true => apply IH; [simpl; lia|assumption]
    end.
Qed.

(** What [lstrip_rev] returns is the end of its argument. *)
Lemma lstrip_rev_suffix (s : string) : exists p, s = p +:+ lstrip_rev s.
Proof.
  induction s as [s IH] using string_strong_ind.
  destruct s as [|a r]; [exists ""; reflexivity|].
  strip_cases; try (exists ""; reflexivity);
    match goal with
    | |- exists p, String ?a (String ?b (String ?c ?r)) = p +:+ lstrip_rev ?r =>
        destruct (IH r) as [p Hp]; [simpl; lia|];
        exists (String a (String b (String c p))); rewrite !append_cons, <- Hp; reflexivity
    | |- exists p, String ?a (String ?b ?r) = p +:+ lstrip_rev ?r =>
        destruct (IH r) as [p Hp]; [simpl; lia|];
        exists (String a (String b p)); rewrite !append_cons, <- Hp; reflexivity
    | |- exists p, String ?a ?r = p +:+ lstrip_rev ?r =>
        destruct (IH r) as [p Hp]; [simpl; lia|];
        exists (String a p); rewrite !append_cons, <- Hp; reflexivity
    end.
Qed.

(** A text that [lstrip] leaves alone has no beginning that it would
    shorten. *)
Lemma lstrip_stable_prefix (t q : string) :
  lstrip (t +:+ q) = t +:+ q -> lstrip t = t.
Proof.
  assert (forall r x, lstrip r = x -> String.length x <= String.length r) as Hshort.
  { intros r x <-. apply lstrip_length. }
  assert (forall r x, lstrip r = x -> String.length r < String.length x -> False) as Hno.
  { intros r x Hr Hlt. apply Hshort in Hr. lia. }
  destruct t as [|a t1]; [reflexivity|]. rewrite append_cons. intros Hstable.
  change (lstrip (String a t1)) with
    (if is_space a then lstrip t1
     else match t1 with
          | EmptyString => String a t1
          | String b r2 =>
              if is_chr 194 a && (is_chr 133 b || is_chr 160 b) then lstrip r2
              else
                match r2 with
                | EmptyString => String a t1
                | String c r3 =>
                    if (is_chr 225 a && is_chr 154 b && is_chr 128 c)
                       || (is_chr 226 a && is_chr 128 b && is_space_e2_80 c)
                       || (is_chr 226 a && is_chr 129 b && is_chr 159 c)
                       || (is_chr 227 a && is_chr 128 b && is_chr 128 c)
                    then lstrip r3
                    else String a t1
                end
          end).
  destruct (is_space a) eqn:Ha.
  { exfalso. cbn [lstrip] in Hstable. rewrite Ha in Hstable.
    eapply Hno; [exact Hstable|]. simpl. lia. }
  destruct t1 as [|b t2]; [reflexivity|].
  destruct (is_chr 194 a && (is_chr 133 b || is_chr 160 b)) eqn:Hb.
  { exfalso. rewrite append_cons in Hstable. cbn [lstrip] in Hstable.
    rewrite Ha, Hb in Hstable.
    eapply Hno; [exact Hstable|]. simpl. lia. }
  destruct t2 as [|c t3]; [reflexivity|].
  match goal with
  | |- (if ?cond then _ else _) = _ => destruct cond eqn:Hc
  end; [|reflexivity].
  exfalso. rewrite !append_cons in Hstable. cbn [lstrip] in Hstable.
  rewrite Ha, Hb, Hc in Hstable.
  eapply Hno; [exact Hstable|]. simpl. lia.
Qed.

(** ** [rstrip] and [strip] *)

Lemma rstrip_prefix (s : string) : exists q, s = rstrip s +:+ q.
Proof.
  unfold rstrip. destruct (lstrip_rev_suffix (string_rev s)) as [p Hp].
  exists (string_rev p).
  rewrite <- string_rev_append, <- Hp, string_rev_involutive. reflexivity.
Qed.

Lemma rstrip_idempotent (s : string) : rstrip (rstrip s) = rstrip s.
Proof.
  unfold rstrip. rewrite string_rev_involutive, lstrip_rev_idempotent. reflexivity.
Qed.

Lemma rstrip_no_breaks (s : string) :
  no_breaks s = true -> no_breaks (rstrip s) = true.
Proof.
  intros Hs. unfold rstrip. rewrite no_breaks_string_rev.
  apply lstrip_rev_no_breaks. rewrite no_breaks_string_rev. exact Hs.
Qed.

Lemma strip_idempotent (s : string) : strip (strip s) = strip s.
Proof.
  unfold strip.
  assert (lstrip (rstrip (lstrip s)) = rstrip (lstrip s)) as ->.
  { destruct (rstrip_prefix (lstrip s)) as [q Hq].
    apply (lstrip_stable_prefix _ q). rewrite <- Hq. apply lstrip_idempotent. }
  apply rstrip_idempotent.
Qed.

Lemma strip_no_breaks (s : string) :
  no_breaks s = true -> no_breaks (strip s) = true.
Proof. intros Hs. apply rstrip_no_breaks, lstrip_no_breaks, Hs. Qed.

(** A line that is kept is kept as a clean name. *)
Lemma kept_line_clean (line : string) :
  no_breaks line = true ->
  String.eqb (strip line) "" || startswith "#" (strip line) = false ->
  clean (strip line) = true.
Proof.
  intros Hline Hkept. apply orb_false_iff in Hkept as [Hblank Hcomment].
  unfold clean. rewrite strip_idempotent, String.eqb_refl, Hblank, Hcomment.
  rewrite (strip_no_breaks _ Hline). reflexivity.
Qed.

(** * The side file *)

Lemma clean_read (enabled : gset string) (name : string) :
  clean name = true -> read_enabled_line enabled name = enabled ∪ {[ name ]}.
Proof.
  unfold clean, read_enabled_line. intros Hclean.
  apply andb_true_iff in Hclean as [Hclean Hcomment].
  apply andb_true_iff in Hclean as [Hclean Hblank].
  apply andb_true_iff in Hclean as [_ Hstrip].
  apply String.eqb_eq in Hstrip. rewrite Hstrip.
  apply negb_true_iff in Hblank, Hcomment. rewrite Hblank, Hcomment. reflexivity.
Qed.

Lemma clean_no_breaks (name : string) : clean name = true -> no_breaks name = true.
Proof.
  unfold clean. intros Hclean.
  apply andb_true_iff in Hclean as [Hclean _].
  apply andb_true_iff in Hclean as [Hclean _].
  apply andb_true_iff in Hclean as [Hbreaks _]. exact Hbreaks.
Qed.

Lemma read_clean_lines (names : list string) :
  Forall (fun n => clean n = true) names ->
  forall enabled : gset string,
    foldl read_enabled_line enabled names = enabled ∪ list_to_set names.
Proof.
  induction 1 as [|n names Hn _ IH]; intros enabled; simpl.
  - rewrite (right_id_L ∅ (∪)). reflexivity.
  - rewrite IH, (clean_read _ _ Hn), (assoc_L (∪)). reflexivity.
Qed.

Lemma read_lines_clean (ls : list string) :
  Forall (fun l => no_breaks l = true) ls ->
  forall enabled : gset string,
    set_Forall (fun n => clean n = true) enabled ->
    set_Forall (fun n => clean n = true) (foldl read_enabled_line enabled ls).
Proof.
  induction 1 as [|l ls Hl _ IH]; intros enabled Henabled; simpl; [exact Henabled|].
  apply IH. unfold read_enabled_line.
  destruct (String.eqb (strip l) "" || startswith "#" (strip l)) eqn:Hskip;
    [exact Henabled|].
  apply set_Forall_union; [exact Henabled|].
  apply set_Forall_singleton. apply kept_line_clean; assumption.
Qed.

(** Every name read from the side file is clean. *)
Lemma get_enabled_servers_clean (fs : FS) :
  set_Forall (fun n => clean n = true) (get_enabled_servers fs).
Proof.
  unfold get_enabled_servers.
  destruct (enabled_txt fs) as [|before|content]; [apply set_Forall_empty|..];
    (apply read_lines_clean; [|apply set_Forall_empty]);
    apply lines_from_no_breaks; reflexivity.
Qed.

Lemma lines_write_names (names : list string) :
  Forall (fun n => clean n = true) names ->
  lines (write_names names) = names.
Proof.
  unfold lines. induction 1 as [|n names Hn _ IH]; simpl; [reflexivity|].
  rewrite lines_from_line, IH by (apply clean_no_breaks; exact Hn). reflexivity.
Qed.

Lemma lines_enabled_header (rest : string) :
  lines (enabled_header +:+ rest)
  = "# MCP 服务启用列表"
      :: "# 每行一个服务文件夹名，以 # 开头的行为注释"
      :: "# 不在列表中的服务将不会被启用"
      :: "" :: lines rest.
Proof.
  unfold lines, enabled_header. rewrite !append_assoc.
  rewrite !lines_from_line by reflexivity. reflexivity.
Qed.

Lemma sorted_names (names : gset string) :
  list_to_set (sorted names) = names
  /\ (set_Forall (fun n => clean n = true) names ->
      Forall (fun n => clean n = true) (sorted names)).
Proof.
  unfold sorted. split.
  - rewrite merge_sort_Permutation. apply list_to_set_elements_L.
  - intros Hclean. rewrite merge_sort_Permutation.
    apply Forall_forall. intros n Hn. apply Hclean, elem_of_elements. exact Hn.
Qed.

(** What is saved is read back. *)
Lemma get_saved_servers (names : gset string) (fs : FS) :
  set_Forall (fun n => clean n = true) names ->
  get_enabled_servers (save_enabled_servers names fs)
  = if enabled_writable fs then names else get_enabled_servers fs.
Proof.
  intros Hclean. unfold save_enabled_servers.
  destruct (enabled_writable fs); [|reflexivity].
  destruct (sorted_names names) as [Hset Hsorted]. specialize (Hsorted Hclean).
  unfold get_enabled_servers. cbn [enabled_txt with_enabled_txt].
  rewrite lines_enabled_header, (lines_write_names _ Hsorted).
  cbn [foldl].
  assert (forall line (enabled : gset string),
             String.eqb (strip line) "" || startswith "#" (strip line) = true ->
             read_enabled_line enabled line = enabled) as Hskip.
  { intros line enabled Hline. unfold read_enabled_line. rewrite Hline. reflexivity. }
  rewrite !Hskip by (vm_compute; reflexivity).
  rewrite (read_clean_lines _ Hsorted), Hset, (left_id_L ∅ (∪)). reflexivity.
Qed.

Lemma save_keeps_writable (names : gset string) (fs : FS) :
  enabled_writable (save_enabled_servers names fs) = enabled_writable fs.
Proof. unfold save_enabled_servers. destruct (enabled_writable fs) eqn:Hw; auto. Qed.

Lemma clean_union (enabled : gset string) (name : string) :
  set_Forall (fun n => clean n = true) enabled ->
  clean name = true ->
  set_Forall (fun n => clean n = true) (enabled ∪ {[ name ]}).
Proof.
  intros Henabled Hname. apply set_Forall_union; [exact Henabled|].
  apply set_Forall_singleton. exact Hname.
Qed.

Lemma clean_difference (enabled removed : gset string) :
  set_Forall (fun n => clean n = true) enabled ->
  set_Forall (fun n => clean n = true) (enabled ∖ removed).
Proof. intros Henabled n Hn. apply Henabled. apply elem_of_difference in Hn as [Hn _]. exact Hn. Qed.

(** [disable_server] on a side file of clean names. *)
Lemma disable_server_removes (name : string) (fs : FS) :
  get_enabled_servers (disable_server name fs).2
  = if enabled_writable fs then get_enabled_servers fs ∖ {[ name ]}
    else get_enabled_servers fs.
Proof.
  unfold disable_server.
  destruct (decide (name ∈ get_enabled_servers fs)) as [Hin|Hout]; simpl.
  - apply get_saved_servers, clean_difference, get_enabled_servers_clean.
  - destruct (enabled_writable fs); [|reflexivity].
    symmetry. apply difference_disjoint_L. apply disjoint_singleton_r. exact Hout.
Qed.

(** C9 (as the code has it): for a name that is not a directory of the
    registry, or is one and is clean, [enable_server] followed by
    [disable_server] leaves the side file with the names it had before
    except this one, when the file can be written, and as it was when it
    cannot; so the pair changes nothing only if the name was not
    enabled before. *)
Theorem enable_then_disable_removes_the_name (fs : FS) (name : string) :
  (isdir fs name = true -> clean name = true) ->
  get_enabled_servers (disable_server name (enable_server name fs).2).2
  = (if enabled_writable fs then get_enabled_servers fs ∖ {[ name ]}
     else get_enabled_servers fs)
  /\ (name ∉ get_enabled_servers fs ->
      get_enabled_servers (disable_server name (enable_server name fs).2).2
      = get_enabled_servers fs).
Proof.
  intros Hname.
  assert (get_enabled_servers (disable_server name (enable_server name fs).2).2
          = (if enabled_writable fs then get_enabled_servers fs ∖ {[ name ]}
             else get_enabled_servers fs)) as Hpair.
  { rewrite disable_server_removes. unfold enable_server.
    destruct (isdir fs name) eqn:Hdir; simpl; [|reflexivity].
    rewrite save_keeps_writable, get_saved_servers
      by (apply clean_union; [apply get_enabled_servers_clean|auto]).
    destruct (enabled_writable fs); [|reflexivity].
    apply set_eq. intros x. rewrite !elem_of_difference, elem_of_union. tauto. }
  split; [exact Hpair|].
  intros Hout. rewrite Hpair. destruct (enabled_writable fs); [|reflexivity].
  apply difference_disjoint_L. apply disjoint_singleton_r. exact Hout.
Qed.

Section SideFileExamples.
Import Scripted.

(** C9, an instance: the server [fetch], enabled before. *)
Lemma enable_then_disable_removes_the_name_witness :
  get_enabled_servers (disable_server "fetch" (enable_server "fetch" fetch_fs).2).2
  = get_enabled_servers fetch_fs ∖ {[ "fetch" ]}.
Proof.
  exact (proj1 (enable_then_disable_removes_the_name fetch_fs "fetch" (fun _ => eq_refl))).
Defined.

(** C9, counterexample: the side file enables [fetch]; enabling it again
    and disabling it leaves no server enabled. *)
Lemma enable_then_disable_drops_an_enabled_server :
  get_enabled_servers fetch_fs = {[ "fetch" ]}
  /\ (enable_server "fetch" fetch_fs).1 = true
  /\ (disable_server "fetch" (enable_server "fetch" fetch_fs).2).1 = true
  /\ get_enabled_servers (disable_server "fetch" (enable_server "fetch" fetch_fs).2).2
     = ∅.
Proof.
  split; [|split; [|split]]; vm_compute; reflexivity.
Qed.
End SideFileExamples.

(* ================================================================= *)
(** * The registry scan and the manager's table *)

(** * The descriptor scan *)

Lemma scan_entry_keeps (P : list (string * ServerInfo) -> Prop)
      (fs : FS) (enabled : gset string) (servers servers' : list (string * ServerInfo))
      (name : string) :
  P servers ->
  (forall info, no_file_unless_stdio info -> P servers -> P (dict_set name info servers)) ->
  scan_entry fs enabled servers name = Ret servers' ->
  P servers'.
Proof.
  intros HP Hset. unfold scan_entry.
  destruct (negb (isdir fs name) || startswith "_" name || startswith "." name);
    [intros [= <-]; exact HP|].
  destruct (config_json fs name) eqn:Hfile; [intros [= <-]; exact HP| |].
  all: destruct (load_config_json fs name) as [config|] eqn:Hload;
    [|intros [= <-]; exact HP].
  all: destruct config as [| | | | | |d]; simpl; try discriminate.
  all: destruct (json_eqb_str (dict_get_or "type" (JStr "stdio") d) "stdio") eqn:Hty; simpl.
  all: try (destruct (server_py fs name); simpl; [|intros [= <-]; exact HP]).
  all: intros [= <-]; apply Hset; [|exact HP].
  all: intros d' [= <-] Hty'; simpl in *; congruence.
Qed.

Lemma scan_entries_keeps (P : list (string * ServerInfo) -> Prop)
      (fs : FS) (enabled : gset string) (names : list string) :
  (forall name info servers,
      no_file_unless_stdio info -> P servers -> P (dict_set name info servers)) ->
  forall servers servers',
    P servers ->
    scan_entries fs enabled servers names = Ret servers' ->
    P servers'.
Proof.
  intros Hset. induction names as [|name rest IH]; simpl; intros servers servers' HP.
  - intros [= <-]. exact HP.
  - destruct (scan_entry fs enabled servers name) as [s1|] eqn:E; simpl; [|discriminate].
    intros Hrest. eapply IH; [|exact Hrest].
    eapply scan_entry_keeps; eauto.
Qed.

Lemma get_available_servers_NoDup (fs : FS) (available : list (string * ServerInfo)) :
  get_available_servers fs = Ret available -> NoDup (dict_keys available).
Proof.
  unfold get_available_servers. intros Hscan.
  eapply (scan_entries_keeps (fun s => NoDup (dict_keys s))); [| |exact Hscan].
  - intros. apply dict_set_NoDup. assumption.
  - constructor.
Qed.

Lemma get_available_servers_files (fs : FS) (available : list (string * ServerInfo)) :
  get_available_servers fs = Ret available ->
  Forall (fun entry => no_file_unless_stdio entry.2) available.
Proof.
  unfold get_available_servers. intros Hscan.
  eapply (scan_entries_keeps
            (fun s => Forall (fun entry => no_file_unless_stdio entry.2) s));
    [| |exact Hscan].
  - intros. apply dict_set_Forall; assumption.
  - constructor.
Qed.

(** * Loading the manager *)

Section Manager.
Context `{Runtime} {W : Type} `{ToolServers W}.

Lemma MCPServerType_of_not_stdio (v : json) :
  MCPServerType_of v = None -> json_eqb_str v "stdio" = false.
Proof.
  destruct v; simpl; try reflexivity.
  destruct (String.eqb s "stdio"); [discriminate|reflexivity].
Qed.

(** The configuration built for a descriptor whose type is not recognised. *)
Lemma server_config_of_unknown_type (name : string) (info : ServerInfo)
      (d : list (string * json)) (extra : list json) :
  info_config info = JObj d ->
  MCPServerType_of (dict_get_or "type" (JStr "stdio") d) = None ->
  dict_get_or "args" (JArr []) d = JArr extra ->
  server_config_of name info
  = Ret {| cfg_name := name; cfg_server_type := STDIO;
           cfg_description := dict_get_or "description" (JStr "") d;
           cfg_enabled := true;
           cfg_command := dict_get_or "command" (JStr "python") d;
           cfg_args := Some (info_server_file info :: extra);
           cfg_env := dict_get_or "env" JNull d;
           cfg_url := JNull; cfg_headers := JNull |}.
Proof.
  intros Hcfg Hty Hargs. unfold server_config_of. rewrite Hcfg. simpl.
  rewrite Hty. simpl. rewrite Hargs. reflexivity.
Qed.

Lemma server_config_of_returns (name : string) (info : ServerInfo) :
  args_listed info = true -> exists config, server_config_of name info = Ret config
                                             /\ cfg_name config = name /\ cfg_enabled config = true.
Proof.
  unfold args_listed, server_config_of.
  destruct (info_config info) as [| | | | | |d]; try discriminate.
  simpl. destruct (dict_get_or "args" (JArr []) d) eqn:Hargs; try discriminate.
  intros _.
  destruct (MCPServerType_of (dict_get_or "type" (JStr "stdio") d)) as [[]|];
    simpl; eauto.
Qed.

Lemma load_servers_returns (items : list (string * ServerInfo)) :
  Forall (fun entry => info_enabled entry.2 = true -> args_listed entry.2 = true) items ->
  forall count table, exists table',
      load_servers items count table
      = (Ret (count + length (List.filter is_enabled items)), table')
      /\ (Forall named_and_enabled table -> Forall named_and_enabled table')
      /\ (NoDup (dict_keys table) -> NoDup (dict_keys table'))
      /\ (forall name, name ∉ dict_keys items -> dict_get name table' = dict_get name table)
      /\ (forall name info,
             NoDup (dict_keys items) -> (name, info) ∈ items -> info_enabled info = true ->
             exists config, server_config_of name info = Ret config
                            /\ dict_get name table' = Some config).
Proof.
  induction items as [|[n i] rest IH]; simpl; intros Hok count table.
  - exists table. rewrite Nat.add_0_r. repeat split; auto.
    intros name info _ Hin. inversion Hin.
  - apply Forall_cons in Hok as [Hhead Hrest]. simpl in Hhead.
    unfold is_enabled at 1. simpl.
    destruct (info_enabled i) eqn:Hen; simpl.
    + destruct (server_config_of_returns n i (Hhead eq_refl)) as (config & Hcfg & Hname & Hena).
      rewrite Hcfg.
      destruct (IH Hrest (S count) (dict_set n config table))
        as (table' & Hload & Hnamed & Hnd & Hframe & Hget).
      exists table'. split; [rewrite Hload; f_equal; f_equal; lia|]. repeat split.
      * intros Ht. apply Hnamed. apply dict_set_Forall; [split; assumption|exact Ht].
      * intros Ht. apply Hnd. apply dict_set_NoDup. exact Ht.
      * intros name Hname'. unfold dict_keys in Hname'. simpl in Hname'.
        apply not_elem_of_cons in Hname' as [Hne Hname'].
        rewrite Hframe by exact Hname'. apply dict_get_set_ne. congruence.
      * intros name info Hnodup Hin Henabled.
        unfold dict_keys in Hnodup. simpl in Hnodup.
        apply NoDup_cons in Hnodup as [Hfresh Hnodup].
        apply elem_of_cons in Hin as [[= -> ->]|Hin].
        -- exists config. split; [exact Hcfg|].
           rewrite Hframe by exact Hfresh. apply dict_get_set_eq.
        -- apply Hget; assumption.
    + destruct (IH Hrest count table) as (table' & Hload & Hnamed & Hnd & Hframe & Hget).
      exists table'. split; [exact Hload|]. repeat split; auto.
      * intros name Hname'. unfold dict_keys in Hname'. simpl in Hname'.
        apply not_elem_of_cons in Hname' as [Hne Hname']. auto.
      * intros name info Hnodup Hin Henabled.
        unfold dict_keys in Hnodup. simpl in Hnodup.
        apply NoDup_cons in Hnodup as [Hfresh Hnodup].
        apply elem_of_cons in Hin as [[= -> ->]|Hin]; [congruence|].
        apply Hget; assumption.
Qed.

Lemma start_server_spec (name : string) (m : MCPManager) (w : W) :
  exists started m',
    result_of (start_server name m w) = Ret (started, m')
    /\ servers m' = servers m
    /\ (forall n, n <> name ->
                  dict_has n (connections m') = dict_has n (connections m))
    /\ (forall config,
           dict_get name (servers m) = Some config ->
           dict_has name (connections m) = false ->
           EvConnStart (cfg_name config) ∈ trace_of (start_server name m w)).
Proof.
  unfold start_server.
  destruct (dict_get name (servers m)) as [config|] eqn:Hcfg.
  2:{ exists false, m. repeat split; auto. discriminate. }
  destruct (dict_has name (connections m)) eqn:Hconn.
  { exists true, m. repeat split; auto. discriminate. }
  assert (create_connection config = Some {| conn_config := config; conn_tools := [] |})
    as -> by (unfold create_connection; destruct (cfg_server_type config); reflexivity).
  unfold connection_start, io_bind, emit, io_ret, result_of, trace_of. cbn.
  destruct (connection_ready config);
    [destruct (handshake config w) as [[tools|] w']|]; cbn;
    eexists _, _; (split; [reflexivity|]); cbn;
    (split; [reflexivity|]); split.
  all: try (intros config' [= <-] _; left).
  - intros n Hne. unfold dict_has. rewrite dict_get_set_ne by congruence. reflexivity.
  - reflexivity.
  - reflexivity.
Qed.

Lemma start_each_spec (items : list (string * MCPServerConfig)) :
  NoDup (dict_keys items) ->
  forall (m : MCPManager) (w : W),
    Forall (fun entry => dict_get entry.1 (servers m) = Some entry.2
                         /\ named_and_enabled entry
                         /\ dict_has entry.1 (connections m) = false) items ->
    exists m',
      result_of (start_each items m w) = Ret m'
      /\ servers m' = servers m
      /\ (forall n, n ∉ dict_keys items ->
                    dict_has n (connections m') = dict_has n (connections m))
      /\ (forall n, n ∈ dict_keys items -> EvConnStart n ∈ trace_of (start_each items m w)).
Proof.
  induction items as [|[name config] rest IH]; intros Hnd m w Hitems.
  - exists m. repeat split; auto. intros n Hn. inversion Hn.
  - unfold dict_keys in Hnd. simpl in Hnd. apply NoDup_cons in Hnd as [Hfresh Hnd].
    apply Forall_cons in Hitems as [(Hget & [Hname Hen] & Hconn) Hitems].
    simpl in Hget, Hname, Hen, Hconn.
    simpl. rewrite Hen.
    destruct (start_server_spec name m w) as (started & m1 & Hres & Hsrv & Hframe & Hev).
    specialize (Hev config Hget Hconn). rewrite Hname in Hev.
    rewrite io_bind_run.
    destruct (start_server name m w) as [[r w1] t1] eqn:Hrun.
    unfold result_of in Hres. simpl in Hres. subst r.
    unfold trace_of in Hev. simpl in Hev.
    destruct (IH Hnd m1 w1) as (m' & Hres' & Hsrv' & Hframe' & Hev').
    { apply Forall_forall. intros [n c] Hin.
      rewrite Forall_forall in Hitems. destruct (Hitems _ Hin) as (Hg & Hn & Hc).
      simpl in *. rewrite Hsrv. split; [exact Hg|]. split; [exact Hn|].
      rewrite Hframe; [exact Hc|].
      intros ->. apply Hfresh. apply list_elem_of_In.
      apply list_elem_of_In in Hin. apply (in_map fst) in Hin. exact Hin. }
    destruct (start_each rest m1 w1) as [[r2 w2] t2] eqn:Hrun2.
    unfold result_of in Hres'. simpl in Hres'. subst r2.
    unfold trace_of in Hev'. simpl in Hev'.
    exists m'. unfold result_of, trace_of. simpl. split; [reflexivity|].
    split; [congruence|]. split.
    + intros n Hn. unfold dict_keys in Hn. simpl in Hn.
      apply not_elem_of_cons in Hn as [Hne Hn].
      rewrite Hframe' by exact Hn. apply Hframe. exact Hne.
    + intros n Hn. unfold dict_keys in Hn. simpl in Hn.
      apply elem_of_cons in Hn as [->|Hn]; apply elem_of_app; [left|right]; auto.
Qed.

(** C10: an enabled server whose descriptor declares a transport type
    that is none of stdio, streamableHttp and sse is not skipped by
    [_load_from_directory]: it is entered into the manager's table as a
    stdio server (command from the descriptor, default python; arguments
    the server file followed by the descriptor's args), the load reports
    success, and [connection.start()] is attempted for it. *)
Theorem unknown_transport_type_loaded_as_stdio
        (fs : FS) (w : W) (available : list (string * ServerInfo))
        (name : string) (info : ServerInfo) (d : list (string * json))
        (extra : list json) :
  get_available_servers fs = Ret available ->
  Forall (fun entry => info_enabled entry.2 = true -> args_listed entry.2 = true)
         available ->
  dict_get name available = Some info ->
  info_enabled info = true ->
  info_config info = JObj d ->
  MCPServerType_of (dict_get_or "type" (JStr "stdio") d) = None ->
  dict_get_or "args" (JArr []) d = JArr extra ->
  exists m',
    result_of (_load_from_directory fs empty_manager w) = Ret (true, m')
    /\ dict_get name (servers m')
       = Some {| cfg_name := name; cfg_server_type := STDIO;
                 cfg_description := dict_get_or "description" (JStr "") d;
                 cfg_enabled := true;
                 cfg_command := dict_get_or "command" (JStr "python") d;
                 cfg_args := Some (JNull :: extra);
                 cfg_env := dict_get_or "env" JNull d;
                 cfg_url := JNull; cfg_headers := JNull |}
    /\ EvConnStart name ∈ trace_of (_load_from_directory fs empty_manager w).
Proof.
  intros Hscan Hargs Hget Hen Hcfg Hty Hextra.
  pose proof (get_available_servers_NoDup _ _ Hscan) as Hnd.
  pose proof (get_available_servers_files _ _ Hscan) as Hfiles.
  pose proof (dict_get_Some_elem _ _ _ Hget) as Hin.
  assert (info_server_file info = JNull) as Hfile.
  { rewrite Forall_forall in Hfiles. apply (Hfiles _ Hin d Hcfg).
    apply MCPServerType_of_not_stdio. exact Hty. }
  destruct (load_servers_returns available Hargs 0 [])
    as (table & Hload & Hnamed & Hnodup & _ & Hloaded).
  destruct (Hloaded name info Hnd Hin Hen) as (config & Hconfig & Htable).
  rewrite (server_config_of_unknown_type _ _ _ _ Hcfg Hty Hextra), Hfile in Hconfig.
  injection Hconfig as <-.
  unfold _load_from_directory. rewrite Hscan. cbn [servers empty_manager].
  rewrite Hload.
  assert ((0 <? (0 + length (List.filter is_enabled available)))%nat = true) as ->.
  { apply Nat.ltb_lt. apply list_elem_of_In in Hin.
    assert (In (name, info) (List.filter is_enabled available)) as Hf
        by (apply filter_In; split; [exact Hin|exact Hen]).
    destruct (List.filter is_enabled available); [destruct Hf|simpl; lia]. }
  unfold start_enabled_servers. cbn [servers with_servers].
  destruct (start_each_spec table (Hnodup (NoDup_nil_2))
                            (with_servers table empty_manager) w)
    as (m' & Hres & Hsrv & _ & Hev).
  { apply Forall_forall. intros [n c] Hin'. simpl.
    split; [apply dict_get_NoDup; [apply Hnodup; constructor|exact Hin']|].
    split; [|reflexivity].
    specialize (Hnamed (Forall_nil_2 _)). rewrite Forall_forall in Hnamed.
    apply (Hnamed _ Hin'). }
  rewrite io_bind_run.
  destruct (start_each table (with_servers table empty_manager) w) as [[r w1] t1].
  unfold result_of, trace_of in *. simpl in *. subst r. simpl.
  exists m'. split; [reflexivity|]. split.
  - rewrite Hsrv. exact Htable.
  - rewrite app_nil_r. apply Hev. apply dict_get_Some_elem in Htable.
    apply list_elem_of_In. apply list_elem_of_In in Htable.
    apply (in_map fst) in Htable. exact Htable.
Qed.
End Manager.

Section ManagerExamples.
Import Scripted.
#[local] Existing Instance runtime.
#[local] Existing Instance tool_servers.

Lemma pigeon_available :
  get_available_servers pigeon_fs = Ret [("pigeon", pigeon_info)].
Proof. vm_compute. reflexivity. Qed.

(** C10, an instance: the server [pigeon]. *)
Lemma unknown_transport_type_loaded_as_stdio_witness :
  exists m',
    result_of (_load_from_directory pigeon_fs empty_manager (world [] [] None))
    = Ret (true, m')
    /\ dict_get "pigeon" (servers m')
       = Some {| cfg_name := "pigeon"; cfg_server_type := STDIO;
                 cfg_description := JStr "by carrier";
                 cfg_enabled := true;
                 cfg_command := JStr "node";
                 cfg_args := Some [JNull; JStr "index.js"];
                 cfg_env := JNull;
                 cfg_url := JNull; cfg_headers := JNull |}
    /\ EvConnStart "pigeon"
       ∈ trace_of (_load_from_directory pigeon_fs empty_manager (world [] [] None)).
Proof.
  apply (unknown_transport_type_loaded_as_stdio
           pigeon_fs (world [] [] None) [("pigeon", pigeon_info)]
           "pigeon" pigeon_info pigeon_descriptor [JStr "index.js"]).
  - vm_compute. reflexivity.
  - repeat constructor.
  - reflexivity.
  - reflexivity.
  - reflexivity.
  - reflexivity.
  - reflexivity.
Defined.
End ManagerExamples.

Section NeverConnected.
Context `{Runtime} {W : Type} `{ToolServers W}.

(** A server whose adapter refuses to start leaves the manager as it
    is. *)
Lemma start_server_unready (name : string) (config : MCPServerConfig)
      (m : MCPManager) (w : W) :
  dict_get name (servers m) = Some config ->
  connection_ready config = false ->
  exists started, result_of (start_server name m w) = Ret (started, m).
Proof.
  intros Hconfig Hready. unfold start_server. rewrite Hconfig.
  destruct (dict_has name (connections m)); [exists true; reflexivity|].
  assert (create_connection config = Some {| conn_config := config; conn_tools := [] |})
    as -> by (unfold create_connection; destruct (cfg_server_type config); reflexivity).
  unfold connection_start, io_bind, emit, io_ret, result_of. cbn.
  rewrite Hready. cbn. exists false. reflexivity.
Qed.

Lemma start_each_never_connects (name : string) (config : MCPServerConfig)
      (items : list (string * MCPServerConfig)) :
  connection_ready config = false ->
  forall (m : MCPManager) (w : W),
    dict_get name (servers m) = Some config ->
    exists m',
      result_of (start_each items m w) = Ret m'
      /\ servers m' = servers m
      /\ dict_has name (connections m') = dict_has name (connections m).
Proof.
  intros Hready. induction items as [|[n c] rest IH]; intros m w Hconfig.
  - exists m. auto.
  - simpl. destruct (cfg_enabled c); [|apply IH; exact Hconfig].
    rewrite io_bind_run.
    destruct (decide (n = name)) as [->|Hne].
    + destruct (start_server_unready name config m w Hconfig Hready) as [started Hres].
      destruct (start_server name m w) as [[r w1] t1].
      unfold result_of in Hres. simpl in Hres. subst r.
      destruct (IH m w1 Hconfig) as (m' & Hres' & Hsrv & Hconn).
      destruct (start_each rest m w1) as [[r2 w2] t2].
      unfold result_of in *. simpl in *. subst r2. exists m'. auto.
    + destruct (start_server_spec n m w) as (started & m1 & Hres & Hsrv1 & Hframe & _).
      destruct (start_server n m w) as [[r w1] t1].
      unfold result_of in Hres. simpl in Hres. subst r.
      destruct (IH m1 w1) as (m' & Hres' & Hsrv & Hconn); [rewrite Hsrv1; exact Hconfig|].
      destruct (start_each rest m1 w1) as [[r2 w2] t2].
      unfold result_of in *. simpl in *. subst r2. exists m'.
      split; [reflexivity|]. split; [congruence|].
      rewrite Hconn. apply Hframe. congruence.
Qed.

(** X1: the start that [_load_from_directory] attempts for an enabled
    server of an unknown transport type never succeeds: the scan stores
    no server file for a type that is not stdio, the stdio configuration
    built for it has [None] as the first argument of its command, and
    the adapter's [start] returns [False]; the server gets no
    connection. *)
Theorem unknown_transport_type_never_connects
        (fs : FS) (w : W) (available : list (string * ServerInfo))
        (name : string) (info : ServerInfo) (d : list (string * json))
        (extra : list json) :
  get_available_servers fs = Ret available ->
  Forall (fun entry => info_enabled entry.2 = true -> args_listed entry.2 = true)
         available ->
  dict_get name available = Some info ->
  info_enabled info = true ->
  info_config info = JObj d ->
  MCPServerType_of (dict_get_or "type" (JStr "stdio") d) = None ->
  dict_get_or "args" (JArr []) d = JArr extra ->
  exists m',
    result_of (_load_from_directory fs empty_manager w) = Ret (true, m')
    /\ dict_has name (servers m') = true
    /\ dict_has name (connections m') = false.
Proof.
  intros Hscan Hargs Hget Hen Hcfg Hty Hextra.
  pose proof (get_available_servers_NoDup _ _ Hscan) as Hnd.
  pose proof (get_available_servers_files _ _ Hscan) as Hfiles.
  pose proof (dict_get_Some_elem _ _ _ Hget) as Hin.
  assert (info_server_file info = JNull) as Hfile.
  { rewrite Forall_forall in Hfiles. apply (Hfiles _ Hin d Hcfg).
    apply MCPServerType_of_not_stdio. exact Hty. }
  destruct (load_servers_returns available Hargs 0 [])
    as (table & Hload & Hnamed & Hnodup & _ & Hloaded).
  destruct (Hloaded name info Hnd Hin Hen) as (config & Hconfig & Htable).
  rewrite (server_config_of_unknown_type _ _ _ _ Hcfg Hty Hextra), Hfile in Hconfig.
  injection Hconfig as <-.
  unfold _load_from_directory. rewrite Hscan. cbn [servers empty_manager].
  rewrite Hload.
  assert ((0 <? (0 + length (List.filter is_enabled available)))%nat = true) as ->.
  { apply Nat.ltb_lt. apply list_elem_of_In in Hin.
    assert (In (name, info) (List.filter is_enabled available)) as Hf
        by (apply filter_In; split; [exact Hin|exact Hen]).
    destruct (List.filter is_enabled available); [destruct Hf|simpl; lia]. }
  unfold start_enabled_servers. cbn [servers with_servers].
  match type of Htable with
  | dict_get name table = Some ?c =>
      destruct (start_each_never_connects name c table) with
        (m := with_servers table empty_manager) (w := w)
        as (m' & Hres & Hsrv & Hconn);
        [unfold connection_ready, popen_accepts; cbn;
         destruct (truthy _), (is_str _); reflexivity
        |exact Htable|]
  end.
  rewrite io_bind_run.
  destruct (start_each table (with_servers table empty_manager) w) as [[r w1] t1].
  unfold result_of in *. simpl in *. subst r. simpl.
  exists m'. split; [reflexivity|]. split.
  - unfold dict_has. rewrite Hsrv. cbn. rewrite Htable. reflexivity.
  - rewrite Hconn. reflexivity.
Qed.
End NeverConnected.

Section NeverConnectedExamples.
Import Scripted.
#[local] Existing Instance runtime.
#[local] Existing Instance tool_servers.

(** X1, an instance: the server [pigeon]. *)
Lemma unknown_transport_type_never_connects_witness :
  exists m',
    result_of (_load_from_directory pigeon_fs empty_manager (world [] [] None))
    = Ret (true, m')
    /\ dict_has "pigeon" (servers m') = true
    /\ dict_has "pigeon" (connections m') = false.
Proof.
  apply (unknown_transport_type_never_connects
           pigeon_fs (world [] [] None) [("pigeon", pigeon_info)] "pigeon"
           pigeon_info pigeon_descriptor [JStr "index.js"]).
  - apply pigeon_available.
  - repeat constructor.
  - reflexivity.
  - reflexivity.
  - reflexivity.
  - reflexivity.
  - reflexivity.
Defined.
End NeverConnectedExamples.

(* ================================================================= *)
(** * The strict decoder and comments *)

(** * The decoder reads no slash outside a string literal *)

Lemma lex_app (st : Lex) (p q : string) :
  lex st (p +:+ q)
  = match lex st p with Some st' => lex st' q | None => None end.
Proof.
  revert st. induction p as [|c p IH]; intros st.
  - rewrite append_nil_l. reflexivity.
  - rewrite append_cons. simpl.
    destruct st; [destruct (Ascii.eqb c "/")|..]; auto.
Qed.

Lemma reads_refl (st : Lex) (s : string) : reads st s s st.
Proof. exists "". rewrite append_nil_l. auto. Qed.

Lemma reads_trans (a b c : Lex) (s r r' : string) :
  reads a s r b -> reads b r r' c -> reads a s r' c.
Proof.
  intros (p & -> & Hp) (q & -> & Hq). exists (p +:+ q).
  rewrite append_assoc, lex_app, Hp. auto.
Qed.

Lemma reads_char (st st' : Lex) (c : ascii) (r : string) :
  lex st (String c "") = Some st' -> reads st (String c r) r st'.
Proof.
  intros Hc. exists (String c ""). rewrite append_cons, append_nil_l. auto.
Qed.

Lemma reads_plain (c : ascii) (r : string) :
  Ascii.eqb c "/" = false -> Ascii.eqb c dquote = false ->
  reads Outside (String c r) r Outside.
Proof.
  intros Hslash Hquote. apply reads_char. simpl. rewrite Hslash, Hquote. reflexivity.
Qed.

Lemma reads_inner (c : ascii) (r : string) :
  Ascii.eqb c dquote = false -> Ascii.eqb c backslash = false ->
  reads Inside (String c r) r Inside.
Proof.
  intros Hquote Hback. apply reads_char. simpl. rewrite Hquote, Hback. reflexivity.
Qed.

Lemma reads_escaped (c e : ascii) (r : string) :
  Ascii.eqb c dquote = false -> Ascii.eqb c backslash = true ->
  reads Inside (String c (String e r)) r Inside.
Proof.
  intros Hquote Hback. exists (String c (String e "")).
  rewrite !append_cons, append_nil_l. simpl. rewrite Hquote, Hback. auto.
Qed.

Lemma reads_literal (p s r : string) :
  lex Outside p = Some Outside -> s = p +:+ r -> reads Outside s r Outside.
Proof. intros Hp ->. exists p. auto. Qed.

(** ** White space, digits, literals *)

(** [c] is not the character [x], the test [H] on [c] failing for [x]. *)
Ltac not_char H :=
  match goal with
  | |- Ascii.eqb ?c ?x = false =>
      destruct (Ascii.eqb_spec c x) as [->|];
      [vm_compute in H; discriminate H|reflexivity]
  end.

Lemma ws_plain (c : ascii) :
  is_ws c = true -> Ascii.eqb c "/" = false /\ Ascii.eqb c dquote = false.
Proof.
  intros Hc. split; not_char Hc.
Qed.

Lemma skip_ws_reads (s : string) : reads Outside s (skip_ws s) Outside.
Proof.
  induction s as [|c s IH]; simpl; [apply reads_refl|].
  destruct (is_ws c) eqn:Hc; [|apply reads_refl].
  destruct (ws_plain c Hc) as [Hslash Hquote].
  eapply reads_trans; [apply reads_plain; assumption|exact IH].
Qed.

Lemma digit_plain (c : ascii) :
  is_digit c = true -> Ascii.eqb c "/" = false /\ Ascii.eqb c dquote = false.
Proof.
  intros Hc. split; not_char Hc.
Qed.

Lemma take_digits_reads (s d r : string) :
  take_digits s = (d, r) -> reads Outside s r Outside.
Proof.
  revert d r. induction s as [|c s IH]; intros d r Hrun; simpl in Hrun.
  - injection Hrun as <- <-. apply reads_refl.
  - destruct (is_digit c) eqn:Hc.
    + destruct (take_digits s) as [d' r'] eqn:Hs. injection Hrun as <- <-.
      destruct (digit_plain c Hc) as [Hslash Hquote].
      eapply reads_trans; [apply reads_plain; assumption|eapply IH; reflexivity].
    + injection Hrun as <- <-. apply reads_refl.
Qed.

Lemma strip_prefix_app (p s r : string) :
  strip_prefix p s = Some r -> s = p +:+ r.
Proof.
  revert s. induction p as [|a p IH]; intros s Hrun; simpl in Hrun.
  - injection Hrun as ->. rewrite append_nil_l. reflexivity.
  - destruct s as [|b s]; [discriminate|].
    destruct (Ascii.eqb_spec a b) as [->|]; [|discriminate].
    rewrite append_cons, (IH s Hrun). reflexivity.
Qed.

(** The scanners of a number, with the tests on their first characters
    written as comparisons. *)
Lemma scan_integer_eq (s : string) :
  scan_integer s
  = match s with
    | String c r =>
        if Ascii.eqb c "-" then
          match r with
          | String c' r' =>
              if Ascii.eqb c' "0" then Some ("-" +:+ "0", r')
              else if is_digit c' then
                     let '(d, r'') := take_digits r in Some ("-" +:+ d, r'')
                   else None
          | EmptyString => None
          end
        else if Ascii.eqb c "0" then Some ("" +:+ "0", r)
        else if is_digit c then
               let '(d, r') := take_digits s in Some ("" +:+ d, r')
             else None
    | EmptyString => None
    end.
Proof.
  unfold scan_integer.
  destruct s as [|[[] [] [] [] [] [] [] []] s]; try reflexivity.
  destruct s as [|[[] [] [] [] [] [] [] []] s]; reflexivity.
Qed.

Lemma scan_integer_reads (s i r : string) :
  scan_integer s = Some (i, r) -> reads Outside s r Outside.
Proof.
  rewrite scan_integer_eq. intros Hrun.
  destruct s as [|c s]; [discriminate|].
  destruct (Ascii.eqb_spec c "-") as [->|_].
  - eapply reads_trans; [apply reads_plain; reflexivity|].
    destruct s as [|c' s']; [discriminate|].
    destruct (Ascii.eqb_spec c' "0") as [->|_].
    + injection Hrun as <- <-. apply reads_plain; reflexivity.
    + destruct (is_digit c'); [|discriminate].
      destruct (take_digits (String c' s')) as [d r''] eqn:Hd.
      injection Hrun as <- <-. eapply take_digits_reads. exact Hd.
  - destruct (Ascii.eqb_spec c "0") as [->|_].
    + injection Hrun as <- <-. apply reads_plain; reflexivity.
    + destruct (is_digit c); [|discriminate].
      destruct (take_digits (String c s)) as [d r'] eqn:Hd.
      injection Hrun as <- <-. eapply take_digits_reads. exact Hd.
Qed.

Lemma scan_frac_reads (s f r : string) :
  scan_frac s = (f, r) -> reads Outside s r Outside.
Proof.
  unfold scan_frac. intros Hrun.
  assert (s = r \/ exists s', s = String "." s'
                              /\ exists d, take_digits s' = (d, r)) as [->|(s' & -> & d & Hd)].
  { destruct s as [|c s']; [injection Hrun as <- <-; auto|].
    destruct (Ascii.eqb_spec c ".") as [->|Hc].
    - destruct (take_digits s') as [[|a d] r'] eqn:Hd; injection Hrun as <- <-; eauto.
    - left. destruct c as [[] [] [] [] [] [] [] []]; try congruence;
        injection Hrun as <- <-; reflexivity. }
  - apply reads_refl.
  - eapply reads_trans; [apply reads_plain; reflexivity|].
    eapply take_digits_reads. exact Hd.
Qed.

Lemma scan_exp_reads (s e r : string) :
  scan_exp s = (e, r) -> reads Outside s r Outside.
Proof.
  unfold scan_exp. intros Hrun.
  destruct s as [|c s']; [injection Hrun as <- <-; apply reads_refl|].
  destruct (Ascii.eqb c "e" || Ascii.eqb c "E") eqn:Hc;
    [|injection Hrun as <- <-; apply reads_refl].
  assert (Ascii.eqb c "/" = false /\ Ascii.eqb c dquote = false) as [Hslash Hquote].
  { split; not_char Hc. }
  assert (exists sg r1,
             (let '(sg, r1) :=
                match s' with
                | String "-" r1 => ("-", r1)
                | String "+" r1 => ("+", r1)
                | _ => ("", s')
                end in
              match take_digits r1 with
              | ("", _) => ("", String c s')
              | (d, r') => (String c "" +:+ sg +:+ d, r')
              end)
             = match take_digits r1 with
               | ("", _) => ("", String c s')
               | (d, r') => (String c "" +:+ sg +:+ d, r')
               end
             /\ reads Outside s' r1 Outside) as (sg & r1 & Heq & Hsign).
  { destruct s' as [|c' r1].
    - exists "", "". split; [reflexivity|apply reads_refl].
    - destruct (Ascii.eqb_spec c' "-") as [->|Hminus];
        [exists "-", r1; split; [reflexivity|apply reads_plain; reflexivity]|].
      destruct (Ascii.eqb_spec c' "+") as [->|Hplus];
        [exists "+", r1; split; [reflexivity|apply reads_plain; reflexivity]|].
      exists "", (String c' r1). split; [|apply reads_refl].
      destruct c' as [[] [] [] [] [] [] [] []]; try congruence; reflexivity. }
  rewrite Heq in Hrun. clear Heq.
  destruct (take_digits r1) as [[|a d] r'] eqn:Hd; injection Hrun as <- <-.
  - apply reads_refl.
  - eapply reads_trans; [apply reads_plain; assumption|].
    eapply reads_trans; [exact Hsign|]. eapply take_digits_reads. exact Hd.
Qed.

Lemma scan_number_reads (s r : string) (v : json) :
  scan_number s = Some (v, r) -> reads Outside s r Outside.
Proof.
  unfold scan_number. intros Hrun.
  destruct (scan_integer s) as [[i r0]|] eqn:Hi; [|discriminate].
  destruct (scan_frac r0) as [f r1] eqn:Hf.
  destruct (scan_exp r1) as [e r2] eqn:He.
  assert (r = r2) as -> by (destruct (String.eqb f "" && String.eqb e ""); congruence).
  eapply reads_trans; [eapply scan_integer_reads; exact Hi|].
  eapply reads_trans; [eapply scan_frac_reads; exact Hf|].
  eapply scan_exp_reads. exact He.
Qed.

Lemma scan_literal_reads (s r : string) (v : json) :
  scan_literal s = Some (v, r) -> reads Outside s r Outside.
Proof.
  unfold scan_literal. intros Hrun.
  destruct (strip_prefix "null" s) as [r'|] eqn:Hnull.
  { injection Hrun as <- <-. apply strip_prefix_app in Hnull.
    exact (reads_literal "null" _ _ eq_refl Hnull). }
  destruct (strip_prefix "true" s) as [r'|] eqn:Htrue.
  { injection Hrun as <- <-. apply strip_prefix_app in Htrue.
    exact (reads_literal "true" _ _ eq_refl Htrue). }
  destruct (strip_prefix "false" s) as [r'|] eqn:Hfalse.
  { injection Hrun as <- <-. apply strip_prefix_app in Hfalse.
    exact (reads_literal "false" _ _ eq_refl Hfalse). }
  destruct (scan_number s) as [[v' r']|] eqn:Hn.
  { injection Hrun as <- <-. eapply scan_number_reads. exact Hn. }
  destruct (strip_prefix "NaN" s) as [r'|] eqn:Hnan.
  { injection Hrun as <- <-. apply strip_prefix_app in Hnan.
    exact (reads_literal "NaN" _ _ eq_refl Hnan). }
  destruct (strip_prefix "Infinity" s) as [r'|] eqn:Hinf.
  { injection Hrun as <- <-. apply strip_prefix_app in Hinf.
    exact (reads_literal "Infinity" _ _ eq_refl Hinf). }
  destruct (strip_prefix "-Infinity" s) as [r'|] eqn:Hneg; [|discriminate].
  injection Hrun as <- <-. apply strip_prefix_app in Hneg.
  exact (reads_literal "-Infinity" _ _ eq_refl Hneg).
Qed.

(** ** String literals *)

Lemma hex_val_inner (c : ascii) (n : N) :
  hex_val c = Some n ->
  Ascii.eqb c dquote = false /\ Ascii.eqb c backslash = false.
Proof.
  intros Hc. split; not_char Hc.
Qed.

Lemma hex4_reads (s r : string) (n : N) :
  hex4 s = Some (n, r) -> reads Inside s r Inside.
Proof.
  unfold hex4. intros Hrun.
  destruct s as [|a [|b [|c [|d s]]]]; try discriminate.
  destruct (hex_val a) eqn:Ha, (hex_val b) eqn:Hb, (hex_val c) eqn:Hc,
           (hex_val d) eqn:Hd; try discriminate.
  injection Hrun as _ <-.
  apply hex_val_inner in Ha as [? ?], Hb as [? ?], Hc as [? ?], Hd as [? ?].
  repeat (eapply reads_trans; [apply reads_inner; assumption|]).
  apply reads_refl.
Qed.

Lemma scan_unicode_reads (s r : string) (cp : N) :
  scan_unicode s = Some (cp, r) -> reads Inside s r Inside.
Proof.
  unfold scan_unicode. intros Hrun.
  destruct (hex4 s) as [[hi r0]|] eqn:Hhi; [|discriminate].
  apply hex4_reads in Hhi.
  assert (r = r0
          \/ exists b r2, r0 = String b (String "u" r2)
                          /\ Ascii.eqb b backslash = true
                          /\ exists lo, hex4 r2 = Some (lo, r)) as [->|Hpair].
  { destruct (is_high_surrogate hi); [|left; congruence].
    destruct r0 as [|b [|u r2]]; try (left; congruence).
    destruct (Ascii.eqb_spec u "u") as [->|Hu].
    - destruct (Ascii.eqb b backslash) eqn:Hb; simpl in Hrun; [|left; congruence].
      destruct (hex4 r2) as [[lo r3]|] eqn:Hlo; [|left; congruence].
      destruct (is_low_surrogate lo); [|left; congruence].
      right. exists b, r2. split; [reflexivity|]. split; [exact Hb|].
      exists lo. congruence.
    - left. destruct u as [[] [] [] [] [] [] [] []]; congruence. }
  - exact Hhi.
  - destruct Hpair as (b & r2 & -> & Hb & lo & Hlo).
    eapply reads_trans; [exact Hhi|].
    assert (Ascii.eqb b dquote = false) as Hquote.
    { destruct (Ascii.eqb_spec b backslash) as [->|]; [reflexivity|discriminate]. }
    eapply reads_trans; [apply (reads_escaped b "u"); assumption|].
    eapply hex4_reads. exact Hlo.
Qed.

Lemma scan_string_reads (fuel : nat) :
  forall (s acc str r : string),
    scan_string fuel s acc = Some (str, r) -> reads Inside s r Outside.
Proof.
  induction fuel as [|fuel IH]; intros s acc str r Hrun; [discriminate|].
  simpl in Hrun. destruct s as [|c s]; [discriminate|].
  destruct (Ascii.eqb c dquote) eqn:Hquote.
  { injection Hrun as <- <-. apply reads_char. simpl. rewrite Hquote. reflexivity. }
  destruct (Ascii.eqb c backslash) eqn:Hback.
  - destruct s as [|e s']; [discriminate|].
    eapply reads_trans; [apply (reads_escaped c e); assumption|].
    destruct (Ascii.eqb e "u") eqn:Hu.
    + repeat match type of Hrun with
             | (if ?b then _ else _) = _ => destruct b
             end; try (eapply IH; exact Hrun).
      destruct (scan_unicode s') as [[cp r2]|] eqn:Hcp; [|discriminate].
      eapply reads_trans; [eapply scan_unicode_reads; exact Hcp|].
      eapply IH. exact Hrun.
    + repeat match type of Hrun with
             | (if ?b then _ else _) = _ => destruct b
             end; try discriminate; eapply IH; exact Hrun.
  - destruct (Nat.ltb (nat_of_ascii c) 32); [discriminate|].
    eapply reads_trans; [apply reads_inner; assumption|].
    eapply IH. exact Hrun.
Qed.

(** ** Values *)

(** A character that is not the one a [match] asks for takes its
    default. *)
Ltac other_char c H :=
  exfalso; destruct c as [[] [] [] [] [] [] [] []];
  solve [discriminate H | congruence].

Lemma opening_quote (s : string) : reads Outside (String dquote s) s Inside.
Proof. apply reads_char. reflexivity. Qed.

Lemma scan_once_eq (fuel : nat) (c : ascii) (r : string) :
  scan_once (S fuel) (String c r)
  = if Ascii.eqb c dquote then
      match scan_string (String.length r + 1) r "" with
      | Some (str, r') => Some (JStr str, r')
      | None => None
      end
    else if Ascii.eqb c "{" then
      match skip_ws r with
      | String c' r' =>
          if Ascii.eqb c' "}" then Some (JObj [], r')
          else scan_members fuel (skip_ws r) []
      | EmptyString => scan_members fuel (skip_ws r) []
      end
    else if Ascii.eqb c "[" then
      match skip_ws r with
      | String c' r' =>
          if Ascii.eqb c' "]" then Some (JArr [], r')
          else scan_elements fuel (skip_ws r) []
      | EmptyString => scan_elements fuel (skip_ws r) []
      end
    else scan_literal (String c r).
Proof.
  cbn [scan_once].
  destruct (skip_ws r) as [|[[] [] [] [] [] [] [] []] r']; reflexivity.
Qed.

Lemma scan_reads (fuel : nat) :
  (forall s v r, scan_once fuel s = Some (v, r) -> reads Outside s r Outside)
  /\ (forall s acc v r,
         scan_members fuel s acc = Some (v, r) -> reads Outside s r Outside)
  /\ (forall s acc v r,
         scan_elements fuel s acc = Some (v, r) -> reads Outside s r Outside).
Proof.
  induction fuel as [|fuel (IHonce & IHmembers & IHelements)];
    [repeat split; intros; discriminate|].
  split; [|split].
  - intros s v r Hrun. destruct s as [|c s]; [discriminate|].
    rewrite scan_once_eq in Hrun.
    destruct (Ascii.eqb_spec c dquote) as [->|_].
    { destruct (scan_string (String.length s + 1) s "") as [[str r']|] eqn:Hstr;
        [|discriminate].
      injection Hrun as <- <-.
      eapply reads_trans; [apply opening_quote|].
      eapply scan_string_reads. exact Hstr. }
    destruct (Ascii.eqb_spec c "{") as [->|_].
    { eapply reads_trans; [apply reads_plain; reflexivity|].
      eapply reads_trans; [apply skip_ws_reads|].
      destruct (skip_ws s) as [|c' r'] eqn:Hws; [eapply IHmembers; exact Hrun|].
      destruct (Ascii.eqb_spec c' "}") as [->|_]; [|eapply IHmembers; exact Hrun].
      injection Hrun as <- <-. apply reads_plain; reflexivity. }
    destruct (Ascii.eqb_spec c "[") as [->|_].
    { eapply reads_trans; [apply reads_plain; reflexivity|].
      eapply reads_trans; [apply skip_ws_reads|].
      destruct (skip_ws s) as [|c' r'] eqn:Hws; [eapply IHelements; exact Hrun|].
      destruct (Ascii.eqb_spec c' "]") as [->|_]; [|eapply IHelements; exact Hrun].
      injection Hrun as <- <-. apply reads_plain; reflexivity. }
    eapply scan_literal_reads. exact Hrun.
  - intros s acc v r Hrun. cbn [scan_members] in Hrun.
    destruct s as [|c s]; [discriminate|].
    destruct (Ascii.eqb_spec c dquote) as [->|_]; [|discriminate]. simpl in Hrun.
    destruct (scan_string (String.length s + 1) s "") as [[key r1]|] eqn:Hkey;
      [|discriminate].
    eapply reads_trans; [apply opening_quote|].
    eapply reads_trans; [eapply scan_string_reads; exact Hkey|].
    eapply reads_trans; [apply skip_ws_reads|].
    destruct (skip_ws r1) as [|colon r2]; [discriminate|].
    destruct (Ascii.eqb_spec colon ":") as [->|?]; [|other_char colon Hrun].
    eapply reads_trans; [apply reads_plain; reflexivity|].
    eapply reads_trans; [apply skip_ws_reads|].
    destruct (scan_once fuel (skip_ws r2)) as [[v' r3]|] eqn:Hvalue; [|discriminate].
    eapply reads_trans; [eapply IHonce; exact Hvalue|].
    eapply reads_trans; [apply skip_ws_reads|].
    destruct (skip_ws r3) as [|sep r4]; [discriminate|].
    destruct (Ascii.eqb_spec sep "}") as [->|?].
    { injection Hrun as <- <-. apply reads_plain; reflexivity. }
    destruct (Ascii.eqb_spec sep ",") as [->|?]; [|other_char sep Hrun].
    eapply reads_trans; [apply reads_plain; reflexivity|].
    eapply reads_trans; [apply skip_ws_reads|].
    eapply IHmembers. exact Hrun.
  - intros s acc v r Hrun. cbn [scan_elements] in Hrun.
    destruct (scan_once fuel s) as [[v' r1]|] eqn:Hvalue; [|discriminate].
    eapply reads_trans; [eapply IHonce; exact Hvalue|].
    eapply reads_trans; [apply skip_ws_reads|].
    destruct (skip_ws r1) as [|sep r2]; [discriminate|].
    destruct (Ascii.eqb_spec sep "]") as [->|?].
    { injection Hrun as <- <-. apply reads_plain; reflexivity. }
    destruct (Ascii.eqb_spec sep ",") as [->|?]; [|other_char sep Hrun].
    eapply reads_trans; [apply reads_plain; reflexivity|].
    eapply reads_trans; [apply skip_ws_reads|].
    eapply IHelements. exact Hrun.
Qed.

(** A text the decoder accepts has no slash outside its string
    literals, and ends outside them. *)
Lemma json_loads_lex (text : string) (v : json) :
  json_loads text = Some v -> lex Outside text = Some Outside.
Proof.
  unfold json_loads. intros Hrun.
  destruct (scan_once _ (skip_ws text)) as [[v' r]|] eqn:Hvalue; [|discriminate].
  apply scan_reads in Hvalue.
  destruct (skip_ws r) as [|c r'] eqn:Hrest; [|discriminate].
  pose proof (skip_ws_reads r) as Htail. rewrite Hrest in Htail.
  destruct (reads_trans _ _ _ _ _ _ (skip_ws_reads text)
                        (reads_trans _ _ _ _ _ _ Hvalue Htail))
    as (p & -> & Hp).
  rewrite append_nil_r. exact Hp.
Qed.

(** Where a comment begins outside the string literals, a slash stands
    outside them. *)
Lemma comment_from_lex (s : string) :
  forall st, comment_from st s = true -> lex st s = None.
Proof.
  induction s as [|c s IH]; intros st Hc; [discriminate|].
  simpl in Hc. simpl.
  destruct st.
  - destruct (Ascii.eqb c "/") eqn:Hslash; [reflexivity|].
    destruct s as [|d s']; [discriminate|].
    rewrite andb_false_l, orb_false_l in Hc. apply IH. exact Hc.
  - apply IH. destruct s; exact Hc.
  - apply IH. destruct s; exact Hc.
Qed.

(** The strict decoder rejects every text that carries a comment
    outside its string literals. *)
Lemma json_loads_rejects_comments (text : string) :
  has_comment text = true -> json_loads text = None.
Proof.
  intros Hc. apply comment_from_lex in Hc.
  destruct (json_loads text) as [v|] eqn:Hrun; [|reflexivity].
  apply json_loads_lex in Hrun. congruence.
Qed.

(** * Descriptors that do not parse *)

(** The decoder has no rule for a text that starts (after white space)
    with a slash: a comment in front of the document is a syntax error. *)
Lemma json_loads_rejects_leading_comment (text rest : string) :
  skip_ws text = String "/" rest -> json_loads text = None.
Proof.
  intros Hws. unfold json_loads. rewrite Hws.
  replace (2 * String.length (String "/" rest) + 2)
    with (S (2 * String.length (String "/" rest) + 1)) by lia.
  reflexivity.
Qed.

Lemma scan_entry_unparsed (fs : FS) (enabled : gset string)
      (servers : list (string * ServerInfo)) (name : string) :
  load_config_json fs name = None ->
  scan_entry fs enabled servers name = Ret servers.
Proof.
  intros Hload. unfold scan_entry.
  destruct (negb (isdir fs name) || startswith "_" name || startswith "." name);
    [reflexivity|].
  destruct (config_json fs name); [reflexivity| |]; rewrite Hload; reflexivity.
Qed.

Lemma scan_entries_listing (fs : FS) (listing : list string)
      (enabled : gset string) (names : list string) :
  forall servers,
    scan_entries (with_listdir listing fs) enabled servers names
    = scan_entries fs enabled servers names.
Proof.
  induction names as [|name rest IH]; intros servers; simpl; [reflexivity|].
  change (scan_entry (with_listdir listing fs) enabled servers name)
    with (scan_entry fs enabled servers name).
  destruct (scan_entry fs enabled servers name); simpl; auto.
Qed.

Lemma scan_entries_unparsed (fs : FS) (enabled : gset string)
      (before after : list string) (name : string) :
  load_config_json fs name = None ->
  forall servers,
    scan_entries fs enabled servers (before ++ name :: after)
    = scan_entries fs enabled servers (before ++ after).
Proof.
  intros Hload. induction before as [|b before IH]; intros servers; simpl.
  - rewrite scan_entry_unparsed by exact Hload. reflexivity.
  - destruct (scan_entry fs enabled servers b); simpl; auto.
Qed.

(** C7 (as the code has it): the descriptor is read by the strict JSON
    decoder, which knows no comment: a descriptor that carries a [//] or
    a [/*] outside its string literals does not parse; a descriptor whose
    parse fails yields no candidate server, and the scan goes on as if
    its subdirectory were not there. *)
Theorem commented_descriptor_yields_no_server_and_only_it_is_skipped
        (fs : FS) (name : string) :
  (forall text,
      config_json fs name = Text text ->
      has_comment text = true ->
      load_config_json fs name = None)
  /\ (load_config_json fs name = None ->
      (forall enabled servers, scan_entry fs enabled servers name = Ret servers)
      /\ (forall before after,
             get_available_servers (with_listdir (before ++ name :: after) fs)
             = get_available_servers (with_listdir (before ++ after) fs))).
Proof.
  split.
  - intros text Hfile Hcomment. unfold load_config_json. rewrite Hfile.
    apply json_loads_rejects_comments. exact Hcomment.
  - intros Hload. split.
    + intros enabled servers. apply scan_entry_unparsed. exact Hload.
    + intros before after. unfold get_available_servers. cbn [listdir with_listdir].
      rewrite !scan_entries_listing.
      change (get_enabled_servers (with_listdir (before ++ name :: after) fs))
        with (get_enabled_servers fs).
      change (get_enabled_servers (with_listdir (before ++ after) fs))
        with (get_enabled_servers fs).
      apply scan_entries_unparsed. exact Hload.
Qed.

Section ScanExamples.
Import Scripted.

(** C7, counterexample: the two descriptors of [commented_fs] that
    carry a comment yield no server; the scan returns [plain] alone. *)
Lemma commented_descriptors_yield_no_server :
  get_available_servers commented_fs = Ret [("plain", sse_info "plain")].
Proof. vm_compute. reflexivity. Qed.

(** C7, an instance: the descriptor of [starred] carries a block
    comment; it does not parse, it yields no server, and the scan of
    [noted], [starred] and [plain] is the scan of [noted] and [plain]. *)
Lemma commented_descriptor_yields_no_server_and_only_it_is_skipped_witness :
  load_config_json commented_fs "starred" = None
  /\ scan_entry commented_fs ∅ [] "starred" = Ret []
  /\ get_available_servers
       (with_listdir (["noted"] ++ "starred" :: ["plain"]) commented_fs)
     = get_available_servers (with_listdir (["noted"] ++ ["plain"]) commented_fs).
Proof.
  refine ((fun Hload => conj Hload _) _).
  - split.
    + apply (proj2 (commented_descriptor_yields_no_server_and_only_it_is_skipped
                      commented_fs "starred") Hload).
    + apply (proj2 (commented_descriptor_yields_no_server_and_only_it_is_skipped
                      commented_fs "starred") Hload).
  - apply (proj1 (commented_descriptor_yields_no_server_and_only_it_is_skipped
                    commented_fs "starred")
                 ("/* the search server */ " +:+ json_dumps true (JObj sse_descriptor))).
    + reflexivity.
    + vm_compute. reflexivity.
Defined.

(** A comment behind the first member of a descriptor is a comment
    outside the string literals, the slashes of a URL are not. *)
Lemma comments_are_told_from_urls :
  has_comment remarked = true
  /\ json_loads remarked = None
  /\ has_comment (json_dumps true (JObj sse_descriptor)) = false.
Proof. split; [|split]; vm_compute; reflexivity. Qed.
End ScanExamples.

(** X2: what [save_enabled_servers] writes, [get_enabled_servers] reads
    back: for a set of clean names and a side file that can be written,
    the set read after saving is the set saved. *)
Theorem saved_names_are_read_back (names : gset string) (fs : FS) :
  set_Forall (fun n => clean n = true) names ->
  enabled_writable fs = true ->
  get_enabled_servers (save_enabled_servers names fs) = names.
Proof.
  intros Hclean Hwritable. rewrite (get_saved_servers _ _ Hclean), Hwritable.
  reflexivity.
Qed.

(** X3: every name [get_enabled_servers] returns is clean: it is one
    line of the side file with its white space stripped, it is not
    blank and it does not start with [#]. *)
Theorem enabled_names_are_clean (fs : FS) (name : string) :
  name ∈ get_enabled_servers fs -> clean name = true.
Proof. intros Hname. apply (get_enabled_servers_clean fs). exact Hname. Qed.

(** X4: a descriptor whose text starts, after white space, with a
    comment is skipped by the scan. *)
Theorem commented_descriptor_is_skipped
        (fs : FS) (enabled : gset string) (servers : list (string * ServerInfo))
        (name text rest : string) :
  config_json fs name = Text text ->
  skip_ws text = String "/" rest ->
  scan_entry fs enabled servers name = Ret servers.
Proof.
  intros Hfile Hcomment. apply scan_entry_unparsed.
  unfold load_config_json. rewrite Hfile.
  eapply json_loads_rejects_leading_comment. exact Hcomment.
Qed.

Section RegistryExamples.
Import Scripted.

(** X2, an instance. *)
Lemma saved_names_are_read_back_witness :
  get_enabled_servers (save_enabled_servers {[ "fetch" ]} fetch_fs) = {[ "fetch" ]}.
Proof.
  apply (saved_names_are_read_back {[ "fetch" ]} fetch_fs).
  - apply set_Forall_singleton. reflexivity.
  - reflexivity.
Defined.

(** X3, an instance. *)
Lemma enabled_names_are_clean_witness : clean "fetch" = true.
Proof.
  apply (enabled_names_are_clean fetch_fs "fetch").
  vm_compute. reflexivity.
Defined.

(** X4, an instance. *)
Lemma commented_descriptor_is_skipped_witness :
  scan_entry commented_fs ∅ [] "starred" = Ret [].
Proof.
  apply (commented_descriptor_is_skipped
           commented_fs ∅ [] "starred"
           ("/* the search server */ " +:+ json_dumps true (JObj sse_descriptor))
           ("* the search server */ " +:+ json_dumps true (JObj sse_descriptor))).
  - reflexivity.
  - reflexivity.
Defined.
End RegistryExamples.

(* ================================================================= *)
(** * The adapters *)

Section AdapterReplies.
Context `{Runtime} {W : Type} `{ToolServers W}.

Lemma collect_text_parts_items (items : list json) :
  forallb content_item items = true ->
  exists parts, collect_text_parts items = Ret parts
                /\ strings_of parts = Ret (text_items items).
Proof.
  induction items as [|item rest IH]; simpl; intros Hwf.
  - exists []. auto.
  - apply andb_true_iff in Hwf as [Hitem Hrest].
    destruct (IH Hrest) as (parts & Hparts & Hstrs).
    destruct item as [| | | | |?|d]; simpl in Hitem; try discriminate.
    simpl. unfold dict_get_or at 1.
    fold (dict_get_or "type" JNull d).
    destruct (json_eqb_str (dict_get_or "type" JNull d) "text") eqn:Hty.
    + simpl. destruct (dict_get_or "text" (JStr "") d) eqn:Htext; simpl in Hitem; try discriminate.
      rewrite Hparts. simpl. eexists. split; [reflexivity|]. simpl. rewrite Hstrs. reflexivity.
    + exists parts. auto.
Qed.

Lemma reply_text_result (reply result : list (string * json)) (items : list json) :
  dict_get "result" reply = Some (JObj result) ->
  dict_get_or "content" (JArr []) result = JArr items ->
  forallb content_item items = true ->
  reply_text (Some (JObj reply))
  = Ret (Some (match text_items items with
               | [] => json_dumps true (JArr items)
               | texts => join nl texts
               end)).
Proof.
  intros Hres Hcontent Hwf.
  unfold reply_text.
  assert (truthy (JObj reply) = true) as -> by (destruct reply; [discriminate|reflexivity]).
  simpl. unfold dict_has. rewrite Hres. simpl. rewrite Hcontent. simpl.
  destruct (collect_text_parts_items items Hwf) as (parts & -> & Hstrs).
  simpl. destruct parts as [|p parts].
  - simpl in Hstrs. injection Hstrs as <-. reflexivity.
  - rewrite Hstrs. simpl. destruct (text_items items) eqn:E; [|reflexivity].
    simpl in Hstrs. destruct p; try discriminate. destruct (strings_of parts); discriminate.
Qed.

Lemma reply_text_error (reply err : list (string * json)) :
  dict_get "result" reply = None ->
  dict_get "error" reply = Some (JObj err) ->
  reply_text (Some (JObj reply))
  = Ret (Some ("错误: " +:+ py_str (dict_get_or "message" (JStr "未知错误") err))).
Proof.
  intros Hres Herr. unfold reply_text.
  assert (truthy (JObj reply) = true) as -> by (destruct reply; [discriminate|reflexivity]).
  simpl. unfold dict_has. rewrite Hres, Herr. reflexivity.
Qed.

Lemma connection_call_tool_reply (c : Connection) (tool : string)
      (arguments : json) (w w' : W) (response : option json) :
  send_request (conn_config c) "tools/call"
               (JObj [("name", JStr tool); ("arguments", arguments)]) w
  = (Ret response, w') ->
  result_of (connection_call_tool c tool arguments w) = reply_text response.
Proof.
  intros Hsend. unfold connection_call_tool.
  destruct (cfg_server_type (conn_config c));
    unfold MCPStdioConnection_call_tool, MCPHttpConnection_call_tool,
           MCPSSEConnection_call_tool, tools_call, io_bind, emit, io_lift, result_of;
    simpl; rewrite Hsend; simpl; reflexivity.
Qed.

(** C8 (as the code has it): whichever the adapter, when the reply to
    [tools/call] carries a result, [call_tool] returns the texts of the
    content items of type text, in order, joined by a line feed, and the
    serialised content when there is no such item; when the reply
    carries no result but an error, it returns the text [错误: ] followed
    by the error's message. *)
Theorem call_tool_joins_text_items (c : Connection) (tool : string)
        (arguments : json) (w w' : W) (reply : list (string * json)) :
  send_request (conn_config c) "tools/call"
               (JObj [("name", JStr tool); ("arguments", arguments)]) w
  = (Ret (Some (JObj reply)), w') ->
  (forall result items,
      dict_get "result" reply = Some (JObj result) ->
      dict_get_or "content" (JArr []) result = JArr items ->
      forallb content_item items = true ->
      result_of (connection_call_tool c tool arguments w)
      = Ret (Some (match text_items items with
                   | [] => json_dumps true (JArr items)
                   | texts => join nl texts
                   end)))
  /\ (forall err,
         dict_get "result" reply = None ->
         dict_get "error" reply = Some (JObj err) ->
         result_of (connection_call_tool c tool arguments w)
         = Ret (Some ("错误: " +:+ py_str (dict_get_or "message" (JStr "未知错误") err)))).
Proof.
  intros Hsend. split.
  - intros result items Hres Hcontent Hwf.
    rewrite (connection_call_tool_reply _ _ _ _ _ _ Hsend).
    eapply reply_text_result; eauto.
  - intros err Hres Herr.
    rewrite (connection_call_tool_reply _ _ _ _ _ _ Hsend).
    apply reply_text_error; auto.
Qed.
End AdapterReplies.

Section AdapterExamples.
Import Scripted.
#[local] Existing Instance runtime.
#[local] Existing Instance tool_servers.

(** C8, counterexample: for a result with the texts [a] and [b] the
    adapter does not return [ab]. *)
Lemma call_tool_two_texts_not_concatenated :
  result_of (MCPHttpConnection_call_tool server_s "t" (JObj [])
               (world [] [] (Some (JObj (text_reply ["a"; "b"])))))
  <> Ret (Some ("a" +:+ "b")).
Proof. vm_compute. discriminate. Qed.

(** C8, an instance: a result with two texts, and an error. *)
Lemma call_tool_joins_text_items_witness :
  result_of (connection_call_tool connection_s "t" (JObj [])
               (world [] [] (Some (JObj (text_reply ["a"; "b"])))))
  = Ret (Some ("a" +:+ nl +:+ "b"))
  /\ result_of (connection_call_tool connection_s "t" (JObj [])
               (world [] [] (Some (JObj (error_reply "boom")))))
  = Ret (Some ("错误: boom")).
Proof.
  split.
  - exact (proj1 (call_tool_joins_text_items connection_s "t" (JObj [])
                    (world [] [] (Some (JObj (text_reply ["a"; "b"])))) 
                    (world [] [] (Some (JObj (text_reply ["a"; "b"]))))
                    (text_reply ["a"; "b"]) eq_refl)
                 (text_result ["a"; "b"]) (text_content ["a"; "b"])
                 eq_refl eq_refl eq_refl).
  - exact (proj2 (call_tool_joins_text_items connection_s "t" (JObj [])
                    (world [] [] (Some (JObj (error_reply "boom"))))
                    (world [] [] (Some (JObj (error_reply "boom"))))
                    (error_reply "boom") eq_refl)
                 (rpc_error "boom") eq_refl eq_refl).
Defined.
End AdapterExamples.

(* ================================================================= *)
(** * The engines: what is sent upstream *)

(** * What the manager's dispatch leaves in the trace *)
Section Dispatch.
Context `{Runtime} {W : Type} `{ToolServers W} (P : event -> Prop).
Hypothesis P_rpc : forall server method params, P (EvRpc server method params).

Lemma tools_call_emits (config : MCPServerConfig) (tool : string) (arguments : json) :
  emits P (tools_call config tool arguments).
Proof.
  unfold tools_call. apply emits_bind; [apply emits_emit, P_rpc|].
  intros _ w. unfold trace_of. destruct (send_request _ _ _ w). constructor.
Qed.

Lemma connection_call_tool_emits (c : Connection) (tool : string) (arguments : json) :
  emits P (connection_call_tool c tool arguments).
Proof.
  unfold connection_call_tool.
  destruct (cfg_server_type (conn_config c));
    unfold MCPStdioConnection_call_tool, MCPHttpConnection_call_tool,
           MCPSSEConnection_call_tool;
    (apply emits_bind; [apply tools_call_emits|intros; apply emits_lift]).
Qed.

Lemma call_tool_emits (tool : string) (arguments : json) (m : MCPManager) :
  emits P (call_tool tool arguments m).
Proof.
  unfold call_tool. emits_auto. apply connection_call_tool_emits.
Qed.
End Dispatch.

(** * The DeepSeek dialect *)
Section DeepSeekTrace.
Import DeepSeek.
Context `{Runtime} {W : Type} `{ToolServers W} `{ChatAPI W} (P : event -> Prop).
Hypothesis P_rpc : forall server method params, P (EvRpc server method params).

Lemma now_emits : emits P now.
Proof. intros w. unfold trace_of, now. destruct (clock w). constructor. Qed.

Lemma completion_emits model message_obj finish_reason total response :
  emits P (completion model message_obj finish_reason total response).
Proof. unfold completion. emits_auto; apply now_emits. Qed.

Lemma execute_calls_emits mcp_manager calls :
  forall messages, emits P (execute_calls mcp_manager calls messages).
Proof.
  induction calls as [|tc rest IH]; intros messages; simpl; [apply emits_ret|].
  apply emits_bind; [emits_auto|]. intros args.
  apply emits_bind; [|intros; apply IH].
  unfold _execute_mcp_tool. emits_auto. apply call_tool_emits. exact P_rpc.
Qed.

Lemma iteration_body_emits model combined_tools execute_mcp_tools mcp_manager st :
  (forall messages, P (EvChatCreate model messages combined_tools)) ->
  emits P (iteration_body model combined_tools execute_mcp_tools mcp_manager st).
Proof.
  intros Hcreate. unfold iteration_body.
  apply emits_bind.
  { intros w. unfold trace_of, create. destruct (chat_create _ _ _ w). simpl.
    repeat constructor. apply Hcreate. }
  intros response. destruct (choices response) as [|choice ?]; [apply emits_raise|].
  apply emits_bind; [apply emits_lift|]. intros total.
  apply emits_bind; [emits_auto|]. intros st'.
  repeat first [ apply completion_emits | apply execute_calls_emits | emits_step ].
Qed.

Lemma while_loop_emits remaining model body :
  (forall n, P (EvIteration n)) ->
  (forall st, emits P (body st)) ->
  forall st, emits P (while_loop remaining model body st).
Proof.
  intros Hit Hbody. induction remaining as [|n IH]; intros st; simpl.
  - unfold max_iterations_reply. emits_auto; apply now_emits.
  - emits_auto; auto.
Qed.

Lemma process_request_emits mcp_manager messages model tools execute_mcp_tools :
  (forall n, P (EvIteration n)) ->
  (forall msgs, P (EvChatCreate model msgs (combine_tools tools mcp_manager))) ->
  emits P (process_request mcp_manager messages model tools execute_mcp_tools).
Proof.
  intros Hit Hcreate. unfold process_request.
  apply emits_bind; [apply emits_lift|]. intros copy.
  apply while_loop_emits; [exact Hit|].
  intros st. apply iteration_body_emits. exact Hcreate.
Qed.
End DeepSeekTrace.

(** * The Gemini dialect *)
Section GeminiTrace.
Import Gemini.
Context `{Runtime} {W : Type} `{ToolServers W} `{Upstream W} (P : event -> Prop).
Variable CONFIG : Config.
Hypothesis P_rpc : forall server method params, P (EvRpc server method params).
Hypothesis P_reply : forall status body, P (EvReply status body).
Hypothesis P_sleep : forall seconds, P (EvSleep seconds).

Lemma make_gemini_request_emits model contents tools generation_config
      system_instruction stream :
  P (EvPost model stream
            (request_payload contents tools generation_config system_instruction)) ->
  emits P (_make_gemini_request model contents tools generation_config
                                system_instruction stream).
Proof.
  intros Hpost w. unfold trace_of, _make_gemini_request.
  destruct (requests_post _ _ _ w) as [o w']. simpl.
  constructor; [exact Hpost|].
  destruct o; simpl; repeat constructor. apply P_reply.
Qed.

Lemma time_sleep_emits seconds : emits P (time_sleep (W := W) seconds).
Proof.
  unfold time_sleep. destruct (Z.ltb seconds 0); [apply emits_raise|].
  apply emits_emit, P_sleep.
Qed.

Lemma retry_loop_emits retries retry_delay (request : io W PostOutcome) :
  emits P request ->
  forall response, emits P (retry_loop retries retry_delay request response).
Proof.
  intros Hreq. induction retries as [|n IH]; intros response; simpl.
  - apply emits_ret.
  - apply emits_bind; [apply time_sleep_emits|]. intros _.
    emits_auto; auto.
Qed.

Lemma make_gemini_request_with_retry_emits model contents tools generation_config
      system_instruction stream is_internal_call :
  P (EvPost model stream
            (request_payload contents tools generation_config system_instruction)) ->
  emits P (_make_gemini_request_with_retry CONFIG model contents tools
             generation_config system_instruction stream is_internal_call).
Proof.
  intros Hpost. unfold _make_gemini_request_with_retry.
  pose proof (make_gemini_request_emits _ _ _ _ _ _ Hpost) as Hreq.
  emits_auto; auto. apply retry_loop_emits. exact Hreq.
Qed.

Lemma gemini_execute_calls_emits mcp_manager calls :
  emits P (execute_calls mcp_manager calls).
Proof.
  induction calls as [|fc rest IH]; simpl; [apply emits_ret|].
  emits_auto; try exact IH.
  unfold _execute_mcp_tool. emits_auto. apply call_tool_emits. exact P_rpc.
Qed.

Lemma gemini_iteration_body_emits model tools generation_config system_instruction
      execute_mcp_tools mcp_manager original_contents_length st :
  (forall contents,
      P (EvPost model false
                (request_payload contents tools generation_config system_instruction))) ->
  emits P (iteration_body CONFIG model tools generation_config system_instruction
                          execute_mcp_tools mcp_manager original_contents_length st).
Proof.
  intros Hpost. unfold iteration_body, execute_and_continue, build_final.
  apply emits_bind; [apply emits_lift|]. intros contents.
  apply emits_bind; [apply make_gemini_request_with_retry_emits, Hpost|].
  intros o.
  repeat first [ apply gemini_execute_calls_emits | emits_step ].
Qed.

Lemma gemini_while_loop_emits remaining (body : Loop -> io W Step) :
  (forall n, P (EvIteration n)) ->
  (forall st, emits P (body st)) ->
  forall st, emits P (while_loop remaining body st).
Proof.
  intros Hit Hbody. induction remaining as [|n IH]; intros st; simpl.
  - apply emits_ret.
  - emits_auto; auto.
Qed.

Lemma gemini_process_request_emits mcp_manager contents model tools
      generation_config system_instruction execute_mcp_tools :
  (forall n, P (EvIteration n)) ->
  (forall sent,
      P (EvPost model false
                (request_payload
                   sent
                   (Gemini.combine_tools tools
                      (_get_mcp_tools_as_gemini_format mcp_manager))
                   generation_config system_instruction))) ->
  emits P (process_request CONFIG mcp_manager contents model tools
                           generation_config system_instruction execute_mcp_tools).
Proof.
  intros Hit Hpost. unfold process_request.
  apply gemini_while_loop_emits; [exact Hit|].
  intros st. apply gemini_iteration_body_emits. exact Hpost.
Qed.
End GeminiTrace.

Lemma deepseek_combine_tools_merged (tools : option (list json))
      (mcp_manager : option MCPManager) :
  DeepSeek.combine_tools tools mcp_manager
  = client_then_manager tools
      (match mcp_manager with Some m => get_openai_tools m | None => [] end).
Proof.
  unfold DeepSeek.combine_tools, client_then_manager.
  generalize (match mcp_manager with Some m => get_openai_tools m | None => [] end).
  intros manager. destruct tools as [[|t ts]|]; destruct manager; reflexivity.
Qed.

Lemma gemini_combine_tools_merged (tools : option (list json)) (mcp_tools : list json) :
  Gemini.combine_tools tools mcp_tools = client_then_manager tools mcp_tools.
Proof.
  unfold Gemini.combine_tools, client_then_manager.
  destruct tools as [[|t ts]|]; destruct mcp_tools; reflexivity.
Qed.

Lemma request_payload_tools (contents : list json) (tools : option (list json))
      (generation_config : json) (system_instruction : option string)
      (payload : list (string * json)) :
  Gemini.request_payload contents tools generation_config system_instruction
  = JObj payload ->
  tools <> Some [] ->
  match dict_get "tools" payload with
  | Some (JArr sent) => Some sent
  | _ => None
  end = tools.
Proof.
  unfold Gemini.request_payload. intros [= <-] Hne.
  assert (forall (d : list (string * json)) k v,
             k <> "tools" -> dict_get "tools" (dict_set k v d) = dict_get "tools" d) as Hframe.
  { intros. apply dict_get_set_ne. assumption. }
  destruct system_instruction as [[|c text]|];
    destruct (truthy generation_config);
    destruct tools as [[|t ts]|]; try congruence;
    repeat (rewrite Hframe by discriminate); reflexivity.
Qed.

Lemma client_then_manager_not_empty (client : option (list json)) (manager : list json) :
  client_then_manager client manager <> Some [].
Proof.
  unfold client_then_manager. destruct (default [] client ++ manager); discriminate.
Qed.

(** C5 (as the code has it): every upstream call of a request carries
    the client's tool declarations followed by the manager's tools (none
    when both are empty); nothing is removed, so a name the client and
    the manager both declare is sent twice. *)
Theorem upstream_tools_are_client_then_manager :
  (forall `{Runtime} (W : Type) `{ToolServers W} `{DeepSeek.ChatAPI W}
          (mcp_manager : option MCPManager) (messages : list json) (model : string)
          (tools : option (list json)) (execute_mcp_tools : bool) (w : W),
      Forall (fun e =>
                forall sent, tools_sent e = Some sent ->
                  sent = client_then_manager tools
                           (match mcp_manager with
                            | Some m => get_openai_tools m
                            | None => []
                            end))
             (trace_of (DeepSeek.process_request mcp_manager messages model tools
                                                 execute_mcp_tools w)))
  /\ (forall `{Runtime} (W : Type) `{ToolServers W} `{Gemini.Upstream W}
             (CONFIG : Gemini.Config)
             (mcp_manager : option MCPManager) (contents : list json) (model : string)
             (tools : option (list json)) (generation_config : json)
             (system_instruction : option string) (execute_mcp_tools : bool) (w : W),
         Forall (fun e =>
                   forall sent, tools_sent e = Some sent ->
                     sent = client_then_manager tools
                              (Gemini._get_mcp_tools_as_gemini_format mcp_manager))
                (trace_of (Gemini.process_request CONFIG mcp_manager contents model
                             tools generation_config system_instruction
                             execute_mcp_tools w))).
Proof.
  split.
  - intros. apply process_request_emits; try (intros; discriminate).
    intros msgs sent [= <-]. apply deepseek_combine_tools_merged.
  - intros. apply gemini_process_request_emits; try (intros; discriminate).
    intros contents' sent. rewrite gemini_combine_tools_merged.
    destruct (Gemini.request_payload contents' _ generation_config system_instruction)
      as [| | | | | |payload] eqn:Hpayload; try discriminate.
    intros [= <-]. eapply request_payload_tools; [exact Hpayload|].
    apply client_then_manager_not_empty.
Qed.

Section ToolListExamples.
Import Scripted.
#[local] Existing Instance runtime.
#[local] Existing Instance tool_servers.
#[local] Existing Instance chat_api.

(** C5, counterexample: when the client declares a tool named like the
    manager's [s_t], the one upstream call of the request carries both
    declarations. *)
Lemma colliding_tool_name_is_sent_twice :
  exists sent,
    omap tools_sent
         (trace_of (DeepSeek.process_request
                      (Some manager) [say "user" "hi"] "deepseek-reasoner"
                      (Some [client_s_t]) true
                      (world [] [answers "hello"] None)))
    = [Some sent]
    /\ omap declared_name sent = ["s_t"; "s_t"].
Proof. eexists. split; vm_compute; reflexivity. Qed.
End ToolListExamples.

(* ================================================================= *)
(** * The engines: the cap on the rounds *)

Section GeminiCap.
Import Gemini.
Context `{Runtime} {W : Type} `{ToolServers W} `{Upstream W}.
Variable CONFIG : Config.


End GeminiCap.

Section DeepSeekCap.
Import DeepSeek.
Context `{Runtime} {W : Type} `{ToolServers W} `{ChatAPI W}.




End DeepSeekCap.

(* ================================================================= *)
(** * The Gemini engine: retries *)

Section Retry.
Import Gemini.
Context `{Runtime} {W : Type} `{ToolServers W} `{Upstream W}.
Variable CONFIG : Config.
Variables (model : string) (stream : bool) (contents : list json)
          (tools : option (list json)) (generation_config : json)
          (system_instruction : option string).

#[local] Abbreviation payload :=
  (request_payload contents tools generation_config system_instruction).
#[local] Abbreviation request :=
  (_make_gemini_request model contents tools generation_config system_instruction
                        stream).

Lemma attempts_app (t1 t2 : list event) :
  attempts (t1 ++ t2) = attempts t1 + attempts t2.
Proof. unfold attempts. rewrite List.filter_app, length_app. reflexivity. Qed.

Lemma attempts_retries (delay : Z) (responses : list Response) :
  attempts (flat_map (fun r => EvSleep delay :: attempt model stream payload r) responses)
  = length responses.
Proof.
  induction responses as [|r rest IH]; [reflexivity|].
  simpl. unfold attempts in *. simpl. rewrite IH. reflexivity.
Qed.

Lemma non_2xx_not_200 (response : Response) :
  non_2xx response -> Z.eqb (status_code response) 200 = false.
Proof. unfold non_2xx. intros Hr. apply Z.eqb_neq. lia. Qed.

Lemma request_run (w : W) :
  request w
  = (Ret (requests_post model stream payload w).1,
     (requests_post model stream payload w).2,
     EvPost model stream payload
     :: outcome_event (requests_post model stream payload w).1).
Proof.
  unfold _make_gemini_request.
  destruct (requests_post model stream payload w) as [o w']. reflexivity.
Qed.

Lemma last_cons_default {A} (l : list A) (x d : A) :
  List.last (x :: l) d = List.last l x.
Proof.
  revert x d. induction l as [|y l IH]; intros x d; [reflexivity|].
  change (List.last (x :: y :: l) d) with (List.last (y :: l) d).
  rewrite !IH. reflexivity.
Qed.

Lemma time_sleep_run (seconds : Z) :
  (0 <= seconds)%Z -> time_sleep (W := W) seconds = emit (EvSleep seconds).
Proof.
  intros Hseconds. unfold time_sleep.
  destruct (Z.ltb_spec seconds 0); [lia|reflexivity].
Qed.

Lemma retry_loop_all_fail (failing : W -> Prop) (delay : Z) :
  (0 <= delay)%Z ->
  always_fails model stream payload failing ->
  forall retries response w,
    failing w ->
    exists responses w',
      length responses = retries
      /\ Forall non_2xx responses
      /\ failing w'
      /\ retry_loop retries delay request response w
         = (Ret (Responded (List.last responses response)), w',
            flat_map (fun r => EvSleep delay :: attempt model stream payload r) responses).
Proof.
  intros Hdelay Hfails. induction retries as [|n IH]; intros response w Hw.
  - exists [], w. repeat split; auto.
  - destruct (Hfails w Hw) as (r1 & w1 & Hpost & Hr1 & Hw1).
    destruct (IH r1 w1 Hw1) as (rs & w' & Hlen & Hrs & Hw' & Hrun).
    exists (r1 :: rs), w'. split; [simpl; congruence|].
    split; [constructor; assumption|]. split; [exact Hw'|].
    simpl retry_loop.
    rewrite (time_sleep_run _ Hdelay), io_bind_emit, io_bind_run, request_run, Hpost.
    cbn [fst snd]. rewrite (non_2xx_not_200 r1 Hr1), Hrun.
    cbn [outcome_event]. rewrite last_cons_default. reflexivity.
Qed.

(** A call that is not internal makes one attempt, whatever comes
    back. *)
Lemma first_call_run (w : W) :
  _make_gemini_request_with_retry CONFIG model contents tools generation_config
                                  system_instruction stream false w
  = (Ret (requests_post model stream payload w).1,
     (requests_post model stream payload w).2,
     EvPost model stream payload
     :: outcome_event (requests_post model stream payload w).1).
Proof.
  unfold _make_gemini_request_with_retry.
  rewrite io_bind_run, request_run. cbn [fst snd].
  destruct (requests_post model stream payload w) as [o w']. cbn [fst snd].
  destruct o; cbn; rewrite ?app_nil_r; reflexivity.
Qed.

(** An internal call whose every attempt fails, under settings that are
    not negative. *)
Lemma internal_call_all_fail (failing : W -> Prop) (w : W) :
  (0 <= default 2 (api_retry_count CONFIG))%Z ->
  (0 <= default 5 (api_retry_delay CONFIG))%Z ->
  always_fails model stream payload failing ->
  failing w ->
  exists first retried w',
    length retried = Z.to_nat (default 2%Z (api_retry_count CONFIG))
    /\ Forall non_2xx (first :: retried)
    /\ _make_gemini_request_with_retry CONFIG model contents tools
         generation_config system_instruction stream true w
       = (Ret (Responded (List.last retried first)), w',
          attempt model stream payload first
          ++ flat_map (fun r => EvSleep (default 5%Z (api_retry_delay CONFIG))
                                :: attempt model stream payload r) retried)
    /\ attempts (attempt model stream payload first
                 ++ flat_map (fun r => EvSleep (default 5%Z (api_retry_delay CONFIG))
                                       :: attempt model stream payload r) retried)
       = Z.to_nat (default 2%Z (api_retry_count CONFIG) + 1).
Proof.
  intros Hcount Hdelay Hfails Hw.
  destruct (Hfails w Hw) as (r0 & w0 & Hpost & Hr0 & Hw0).
  destruct (retry_loop_all_fail failing (default 5%Z (api_retry_delay CONFIG))
              Hdelay Hfails
              (Z.to_nat (default 2%Z (api_retry_count CONFIG))) r0 w0 Hw0)
    as (rs & w' & Hlen & Hrs & _ & Hrun).
  exists r0, rs, w'. split; [exact Hlen|]. split; [constructor; assumption|].
  split.
  - unfold _make_gemini_request_with_retry.
    rewrite io_bind_run, request_run, Hpost. cbn [fst snd].
    rewrite (non_2xx_not_200 r0 Hr0). cbn [andb negb].
    rewrite Hrun. reflexivity.
  - rewrite attempts_app, attempts_retries, Hlen. unfold attempts. simpl. lia.
Qed.



(** X5: with a retry delay below zero, an internal call whose first
    attempt is answered with a status other than 200 makes no second
    attempt: [time.sleep] raises [ValueError], which the wrapper lets
    through. *)
Theorem negative_retry_delay_raises (w w' : W) (response : Response) :
  (default 5 (api_retry_delay CONFIG) < 0)%Z ->
  (0 < default 2 (api_retry_count CONFIG))%Z ->
  requests_post model stream payload w = (Responded response, w') ->
  Z.eqb (status_code response) 200 = false ->
  _make_gemini_request_with_retry CONFIG model contents tools generation_config
                                  system_instruction stream true w
  = (Raise "ValueError", w', attempt model stream payload response).
Proof.
  intros Hdelay Hcount Hpost Hstatus.
  unfold _make_gemini_request_with_retry.
  rewrite io_bind_run, request_run, Hpost. cbn [fst snd].
  rewrite Hstatus. cbn [andb negb].
  destruct (Z.to_nat (default 2%Z (api_retry_count CONFIG))) as [|n] eqn:Hn; [lia|].
  simpl retry_loop. unfold time_sleep.
  destruct (Z.ltb_spec (default 5%Z (api_retry_delay CONFIG)) 0) as [_|Hge]; [|lia].
  unfold io_bind, io_raise. cbn [outcome_event]. rewrite app_nil_r. reflexivity.
Qed.
End Retry.

Section RetryExamples.
Import Scripted.
#[local] Existing Instance runtime.
#[local] Existing Instance tool_servers.
#[local] Existing Instance upstream.

Lemma scripted_failures_keep_failing model stream contents tools generation_config
      system_instruction :
  Gemini.always_fails
    model stream
    (Gemini.request_payload contents tools generation_config system_instruction)
    all_failing.
Proof.
  intros w Hw. unfold all_failing in *. simpl. unfold next_post.
  destruct (posts w) as [|o rest] eqn:Hposts.
  - exists {| Gemini.status_code := 500; Gemini.response_json := None;
              Gemini.response_text := "" |}, w.
    split; [reflexivity|]. split; [unfold Gemini.non_2xx; simpl; lia|].
    rewrite Hposts. constructor.
  - apply Forall_cons in Hw as [(r & -> & Hr) Hrest].
    eexists r, _. split; [reflexivity|]. split; [exact Hr|exact Hrest].
Qed.

(** X5, an instance: a delay of minus one second. *)
Lemma negative_retry_delay_raises_witness :
  Gemini._make_gemini_request_with_retry
    (delayed_by (-1)) "gemini-2.5-flash" [] None JNull None false true
    (world [served 502 None; served 200 None] [] None)
  = (Raise "ValueError", world [served 200 None] [] None,
     Gemini.attempt "gemini-2.5-flash" false
                    (Gemini.request_payload [] None JNull None)
                    {| Gemini.status_code := 502; Gemini.response_json := None;
                       Gemini.response_text := "" |}).
Proof.
  apply (negative_retry_delay_raises
           (delayed_by (-1)) "gemini-2.5-flash" false [] None JNull None
           (world [served 502 None; served 200 None] [] None)).
  - simpl. lia.
  - simpl. lia.
  - reflexivity.
  - reflexivity.
Defined.
End RetryExamples.

(** * The rounds of the engine and the retries *)

Section EngineRetry.
Import Gemini.
Context `{Runtime} {W : Type} `{ToolServers W} `{Upstream W}.
Variable CONFIG : Config.
Variables (model : string) (tools : option (list json)) (generation_config : json)
          (system_instruction : option string) (execute_mcp_tools : bool)
          (mcp_manager : option MCPManager) (original_contents_length : nat).

#[local] Abbreviation body :=
  (iteration_body CONFIG model tools generation_config system_instruction
                  execute_mcp_tools mcp_manager original_contents_length).

#[local] Abbreviation quiet :=
  (fun e : event => is_post e = false /\ forall seconds, e <> EvSleep seconds).

(** What a round leaves in the trace is what its one upstream call
    leaves there, followed by events that are neither attempts nor
    sleeps. *)
Lemma round_trace (st : Loop) (contents : list json) (w : W) :
  _replace_old_tool_results (contents_copy st) original_contents_length = Ret contents ->
  exists rest,
    trace_of (body st w)
    = trace_of (_make_gemini_request_with_retry
                  CONFIG model contents tools generation_config system_instruction
                  false (Nat.ltb 0 (iteration st)) w)
      ++ rest
    /\ Forall quiet rest.
Proof.
  intros Hcontents. unfold iteration_body, execute_and_continue, build_final.
  rewrite Hcontents, io_bind_lift_ret.
  apply trace_bind_rest. intros o.
  repeat first [ apply gemini_execute_calls_emits; split; [reflexivity|discriminate]
               | emits_step
               | split; [reflexivity|discriminate] ].
Qed.

Lemma attempts_quiet (t : list event) : Forall quiet t -> attempts t = 0.
Proof.
  unfold attempts. induction 1 as [|e t [He _] _ IH]; simpl; [reflexivity|].
  rewrite He. exact IH.
Qed.


(** C3 (as the code has it): the round of iteration 0 makes one
    attempt and does not sleep, whatever the upstream answers; a round of
    an iteration [i >= 1] whose every attempt is answered with a status
    outside 200..299 makes [retry_count + 1] attempts, sleeps
    [retry_delay] before each but the first, and returns the last
    response as the error of the request, under settings that are not
    negative.  [iteration st] is the counter of the loop: the flag the
    round passes to the retrying call is [iteration > 0]. *)
Theorem engine_retries_only_after_the_first_iteration
        (st : Loop) (contents : list json) (w : W) :
  _replace_old_tool_results (contents_copy st) original_contents_length = Ret contents ->
  (iteration st = 0 ->
   attempts (trace_of (body st w)) = 1
   /\ (forall seconds, EvSleep seconds ∉ trace_of (body st w)))
  /\ (1 <= iteration st ->
      (0 <= default 2 (api_retry_count CONFIG))%Z ->
      (0 <= default 5 (api_retry_delay CONFIG))%Z ->
      forall failing : W -> Prop,
        always_fails model false
                     (request_payload contents tools generation_config
                                      system_instruction)
                     failing ->
        failing w ->
        exists first retried w',
          length retried = Z.to_nat (default 2%Z (api_retry_count CONFIG))
          /\ Forall non_2xx (first :: retried)
          /\ body st w
             = (Ret (Return (UpstreamError
                  (JObj [("_status_code",
                          JInt (status_code (List.last retried first)));
                         ("_response",
                          match response_json (List.last retried first) with
                          | Some error => error
                          | None =>
                              JObj [("error",
                                     JObj [("message",
                                            JStr (response_text
                                                    (List.last retried first)))])]
                          end)]))),
                w',
                attempt model false
                        (request_payload contents tools generation_config
                                         system_instruction) first
                ++ flat_map
                     (fun r => EvSleep (default 5%Z (api_retry_delay CONFIG))
                               :: attempt model false
                                    (request_payload contents tools generation_config
                                                     system_instruction) r)
                     retried)
          /\ attempts (trace_of (body st w))
             = Z.to_nat (default 2%Z (api_retry_count CONFIG) + 1)).
Proof.
  intros Hcontents. split.
  - intros Hfirst.
    destruct (round_trace st contents w Hcontents) as (rest & -> & Hrest).
    rewrite Hfirst. change (Nat.ltb 0 0) with false. rewrite first_call_run.
    cbn [trace_of snd]. split.
    + rewrite attempts_app, (attempts_quiet rest Hrest). unfold attempts. simpl.
      destruct (requests_post _ _ _ w).1; reflexivity.
    + intros seconds Hin. apply elem_of_app in Hin as [Hin|Hin].
      * apply elem_of_cons in Hin as [Hin|Hin]; [discriminate|].
        destruct (requests_post _ _ _ w).1; simpl in Hin;
          repeat (apply elem_of_cons in Hin as [Hin|Hin]; [discriminate|]);
          inversion Hin.
      * rewrite Forall_forall in Hrest. apply Hrest in Hin as [_ Hne].
        exact (Hne seconds eq_refl).
  - intros Hinternal Hcount Hdelay failing Hfails Hw.
    destruct (internal_call_all_fail CONFIG model false contents tools
                generation_config system_instruction failing w
                Hcount Hdelay Hfails Hw)
      as (first & retried & w' & Hlen & Hall & Hcall & Hattempts).
    exists first, retried, w'. split; [exact Hlen|]. split; [exact Hall|].
    assert (non_2xx (List.last retried first)) as Hlast.
    { rewrite Forall_forall in Hall. apply Hall.
      destruct retried as [|r rs]; [left|right; apply list_elem_of_In, in_eq || idtac].
      clear. revert r. induction rs as [|r' rs IH]; intros r; [left|].
      right. apply IH. }
    assert (body st w
            = (Ret (Return (UpstreamError
                 (JObj [("_status_code",
                         JInt (status_code (List.last retried first)));
                        ("_response",
                         match response_json (List.last retried first) with
                         | Some error => error
                         | None =>
                             JObj [("error",
                                    JObj [("message",
                                           JStr (response_text
                                                   (List.last retried first)))])]
                         end)]))),
               w',
               attempt model false
                       (request_payload contents tools generation_config
                                        system_instruction) first
               ++ flat_map
                    (fun r => EvSleep (default 5%Z (api_retry_delay CONFIG))
                              :: attempt model false
                                   (request_payload contents tools generation_config
                                                    system_instruction) r)
                    retried)) as Hrun.
    { unfold iteration_body. rewrite Hcontents, io_bind_lift_ret, io_bind_run.
      assert (Nat.ltb 0 (iteration st) = true) as -> by (apply Nat.ltb_lt; lia).
      rewrite Hcall. cbn iota beta.
      rewrite (non_2xx_not_200 _ Hlast). cbn. rewrite app_nil_r. reflexivity. }
    split; [exact Hrun|]. rewrite Hrun. exact Hattempts.
Qed.
End EngineRetry.

Section EngineRetryExamples.
Import Scripted.
#[local] Existing Instance runtime.
#[local] Existing Instance tool_servers.
#[local] Existing Instance upstream.

(** C3, an instance: the second round of a request, three failures in
    a row under the default settings. *)
Lemma engine_retries_only_after_the_first_iteration_witness :
  exists contents,
    Gemini._replace_old_tool_results (Gemini.contents_copy second_round) 1
    = Ret contents
    /\ exists first retried,
        length retried = 2
        /\ Forall Gemini.non_2xx (first :: retried)
        /\ result_of (Gemini.iteration_body
                        no_settings "gemini-2.5-flash" manager_tools JNull None true
                        (Some manager) 1 second_round
                        (world [served 502 None; served 503 None; served 504 None]
                               [] None))
           = Ret (Gemini.Return (Gemini.UpstreamError
                    (JObj [("_status_code", JInt 504);
                           ("_response",
                            JObj [("error", JObj [("message", JStr "")])])])))
        /\ attempts (trace_of (Gemini.iteration_body
                                 no_settings "gemini-2.5-flash" manager_tools JNull
                                 None true (Some manager) 1 second_round
                                 (world [served 502 None; served 503 None;
                                         served 504 None] [] None)))
           = 3.
Proof.
  eexists. split; [vm_compute; reflexivity|].
  destruct (proj2 (engine_retries_only_after_the_first_iteration
                     no_settings "gemini-2.5-flash" manager_tools JNull None true
                     (Some manager) 1 second_round _
                     (world [served 502 None; served 503 None; served 504 None] [] None)
                     ltac:(vm_compute; reflexivity))
                  ltac:(simpl; lia) ltac:(simpl; lia) ltac:(simpl; lia)
                  all_failing
                  (scripted_failures_keep_failing _ _ _ _ _ _)
                  ltac:(unfold all_failing; simpl;
                        repeat constructor; eexists; (split; [reflexivity|]);
                        unfold Gemini.non_2xx; simpl; lia))
    as (first & retried & w' & Hlen & Hall & Hrun & Hattempts).
  exists first, retried. split; [exact Hlen|]. split; [exact Hall|].
  split; [vm_compute; reflexivity|exact Hattempts].
Defined.

(** C3, counterexample: a retry delay of minus one second.  The model
    calls the manager's tool in the first round; the one attempt of the
    second round is answered with 502, and the sleep before the retry
    raises: the request ends with [ValueError] after two attempts in
    all, where the settings promise three attempts in the second round
    and the last error as the reply. *)
Lemma negative_delay_ends_the_request_with_an_exception :
  Gemini.api_retry_count (delayed_by (-1)) = None
  /\ result_of (Gemini.process_request
                  (delayed_by (-1)) (Some manager) [user_says "hi"]
                  "gemini-2.5-flash" None JNull None true fails_once_in_second_round)
     = Raise "ValueError"
  /\ iterations (trace_of (Gemini.process_request
                             (delayed_by (-1)) (Some manager) [user_says "hi"]
                             "gemini-2.5-flash" None JNull None true
                             fails_once_in_second_round))
     = 2
  /\ attempts (trace_of (Gemini.process_request
                           (delayed_by (-1)) (Some manager) [user_says "hi"]
                           "gemini-2.5-flash" None JNull None true
                           fails_once_in_second_round))
     = 2.
Proof. split; [|split; [|split]]; vm_compute; reflexivity. Qed.
End EngineRetryExamples.

(* ================================================================= *)
(** * The Gemini engine: rewriting the history *)

Section Rewriting.
Import Gemini.

Lemma dict_set_same {V} (k : string) (v : V) (d : list (string * V)) :
  dict_get k d = Some v -> dict_set k v d = d.
Proof.
  induction d as [|[k' v'] d IH]; simpl; [discriminate|].
  destruct (String.eqb k k') eqn:E.
  - intros [= ->]. reflexivity.
  - intros Hg. rewrite IH by exact Hg. reflexivity.
Qed.




(** ** The second loop *)





End Rewriting.

Section RewritingExamples.
Import Gemini Scripted.

End RewritingExamples.

(* ================================================================= *)
(** * The Gemini engine: one round *)

Section Body.
Import Gemini.
Context `{Runtime} {W : Type} `{ToolServers W} `{Upstream W}.
Variable CONFIG : Config.

(** ** The calls of a reply *)

Lemma function_calls_from_calls (parts : list json) :
  forall i fcs,
    function_calls_from i parts = Ret fcs ->
    Forall2 decorates fcs (calls_of parts).
Proof.
  induction parts as [|part rest IH]; simpl; intros i fcs.
  - intros [= <-]. constructor.
  - destruct part as [| | | | | |d]; try apply IH.
    destruct (dict_get "functionCall" d) as [[| | | | | |fc]|]; try discriminate;
      try apply IH.
    destruct (function_calls_from (S i) rest) as [tail|] eqn:Htail; simpl; [|discriminate].
    intros [= <-]. constructor; [|eapply IH; exact Htail].
    eexists. split; [reflexivity|].
    destruct (dict_get "thoughtSignature" d);
      rewrite ?dict_get_set_ne by discriminate; auto.
Qed.

Lemma tool_call_texts (fcs : list json) (calls : list (list (string * json))) :
  Forall2 decorates fcs calls ->
  py_map tool_call_text fcs
  = Ret (map (fun fc => _format_tool_call_text
                          (call_name fc)
                          (json_dumps false (dict_get_or "args" (JObj []) fc)))
             calls)
  /\ map name_of fcs = map call_name calls.
Proof.
  induction 1 as [|fc' fc fcs calls (d & -> & Hname & Hargs) _ [IH1 IH2]]; [auto|].
  simpl. rewrite IH1, IH2. unfold call_name, dict_get_or. rewrite Hname, Hargs. auto.
Qed.

Lemma is_mcp_tool_registered (mcp_manager : option MCPManager) (name : json) (b : bool) :
  _is_mcp_tool mcp_manager name = Ret b -> b = registered mcp_manager name.
Proof.
  unfold _is_mcp_tool, registered. destruct mcp_manager as [m|]; [|intros [= <-]; reflexivity].
  destruct name; intros [= <-]; reflexivity.
Qed.

Lemma split_calls_registered (mcp_manager : option MCPManager) (fcs : list json) :
  Forall (fun fc => is_dict fc = true) fcs ->
  forall mcp non_mcp,
    split_calls mcp_manager fcs = Ret (mcp, non_mcp) ->
    Forall (fun fc => is_dict fc = true) mcp
    /\ map name_of mcp = List.filter (registered mcp_manager) (map name_of fcs).
Proof.
  induction 1 as [|fc fcs Hfc _ IH]; simpl; intros mcp non_mcp.
  - intros [= <- <-]. auto.
  - destruct fc as [| | | | | |d]; try discriminate. simpl.
    destruct (_is_mcp_tool mcp_manager (dict_get_or "name" (JStr "") d)) as [mine|] eqn:Hmine;
      simpl; [|discriminate].
    apply is_mcp_tool_registered in Hmine. rewrite <- Hmine.
    destruct (split_calls mcp_manager fcs) as [[mcp' non']|]; simpl; [|discriminate].
    destruct (IH mcp' non' eq_refl) as [IHd IHn].
    destruct mine; intros [= <- <-]; simpl; [split; [constructor; auto|]|auto].
    rewrite IHn. reflexivity.
Qed.

Lemma decorates_dicts (fcs : list json) (calls : list (list (string * json))) :
  Forall2 decorates fcs calls -> Forall (fun fc => is_dict fc = true) fcs.
Proof. induction 1 as [|? ? ? ? (d & -> & _)]; constructor; auto. Qed.

(** [execute_calls] appends one [functionResponse] for each call it is
    given, under the call's name, and posts nothing upstream. *)
Lemma execute_calls_responses (mcp_manager : option MCPManager) (calls : list json) :
  Forall (fun fc => is_dict fc = true) calls ->
  forall w w' responses t,
    execute_calls mcp_manager calls w = (Ret responses, w', t) ->
    map response_name responses = map name_of calls
    /\ replies_of t = [].
Proof.
  induction 1 as [|fc calls Hfc _ IH]; simpl; intros w w' responses t.
  - intros Hrun. apply io_ret_inv in Hrun as (-> & _ & ->). auto.
  - destruct fc as [| | | | | |d]; try discriminate. simpl.
    rewrite !io_bind_lift_ret. intros Hrun.
    apply io_bind_Ret_inv in Hrun as (result_data & w1 & t1 & t2 & Hexec & Hrest & ->).
    apply io_bind_Ret_inv in Hrest as (tail & w2 & t3 & t4 & Htail & Hret & ->).
    apply io_ret_inv in Hret as (-> & _ & ->).
    destruct (IH _ _ _ _ Htail) as [IHn IHr].
    simpl. rewrite IHn. split; [reflexivity|].
    rewrite !replies_of_app, IHr. simpl. rewrite app_nil_r.
    assert (emits (fun e => reply_of e = None)
                  (_execute_mcp_tool mcp_manager (dict_get_or "name" (JStr "") d)
                                     (dict_get_or "args" (JObj []) d))) as Hquiet.
    { unfold _execute_mcp_tool. emits_auto. apply call_tool_emits. reflexivity. }
    specialize (Hquiet w). unfold trace_of in Hquiet.
    rewrite Hexec in Hquiet. apply replies_of_none. exact Hquiet.
Qed.
(** ** The replies an upstream call leaves in the trace *)

Lemma request_replies model contents tools generation_config system_instruction stream
      (w w' : W) (o : PostOutcome) (t : list event) :
  _make_gemini_request model contents tools generation_config system_instruction stream w
  = (Ret o, w', t) ->
  replies_of t = consumed o.
Proof.
  rewrite request_run. intros [= <- _ <-].
  destruct (requests_post _ _ _ w) as [o w1]. simpl.
  destruct o as [r| |]; simpl; try reflexivity.
  destruct (response_json r), (Z.eqb (status_code r) 200); reflexivity.
Qed.

Lemma retry_loop_replies (request : io W PostOutcome) (delay : Z) :
  (forall w w' o t, request w = (Ret o, w', t) -> replies_of t = consumed o) ->
  forall retries response w w' o t,
    Z.eqb (status_code response) 200 = false ->
    retry_loop retries delay request response w = (Ret o, w', t) ->
    replies_of t = consumed o.
Proof.
  intros Hreq. induction retries as [|n IH]; intros response w w' o t Hfail; simpl.
  - intros Hrun. apply io_ret_inv in Hrun as (-> & _ & ->). simpl. rewrite Hfail. reflexivity.
  - unfold time_sleep. destruct (Z.ltb delay 0); [discriminate|].
    rewrite io_bind_emit. intros Hrun.
    destruct (io_bind request _ w) as [[r0 w0] t0] eqn:Hbind.
    injection Hrun as -> -> <-.
    apply io_bind_Ret_inv in Hbind as (o1 & w1 & t1 & t2 & Hr & Hk & ->).
    pose proof (Hreq _ _ _ _ Hr) as Ht1.
    change (EvSleep delay :: t1 ++ t2) with ([EvSleep delay] ++ t1 ++ t2).
    rewrite !replies_of_app, Ht1. simpl.
    destruct o1 as [r1| |]; simpl in *.
    + destruct (Z.eqb (status_code r1) 200) eqn:Hs.
      * apply io_ret_inv in Hk as (-> & _ & ->). simpl. rewrite Hs, app_nil_r. reflexivity.
      * rewrite (IH _ _ _ _ _ Hs Hk). reflexivity.
    + apply io_ret_inv in Hk as (-> & _ & ->). reflexivity.
    + apply io_ret_inv in Hk as (-> & _ & ->). reflexivity.
Qed.

Lemma retry_wrapper_replies model contents tools generation_config system_instruction
      stream is_internal_call (w w' : W) (o : PostOutcome) (t : list event) :
  _make_gemini_request_with_retry CONFIG model contents tools generation_config
                                  system_instruction stream is_internal_call w
  = (Ret o, w', t) ->
  replies_of t = consumed o.
Proof.
  unfold _make_gemini_request_with_retry. intros Hrun.
  apply io_bind_Ret_inv in Hrun as (o1 & w1 & t1 & t2 & Hr & Hk & ->).
  pose proof (request_replies _ _ _ _ _ _ _ _ _ _ Hr) as Ht1.
  rewrite replies_of_app, Ht1.
  destruct o1 as [r1| |]; simpl in *.
  - destruct (is_internal_call && negb (Z.eqb (status_code r1) 200)) eqn:Hretry.
    + apply andb_true_iff in Hretry as [_ Hs]. apply negb_true_iff in Hs.
      rewrite Hs. simpl.
      eapply retry_loop_replies; [|exact Hs|exact Hk].
      intros. eapply request_replies. eassumption.
    + apply io_ret_inv in Hk as (-> & _ & ->). simpl. rewrite app_nil_r. reflexivity.
  - apply io_ret_inv in Hk as (-> & _ & ->). reflexivity.
  - apply io_ret_inv in Hk as (-> & _ & ->). reflexivity.
Qed.

(** ** Parts that are not a list *)

Lemma strings_have_no_thoughts {A} (f : A -> string) (l : list A) :
  thought_texts (map (fun x => JStr (f x)) l) = []
  /\ (forall i, function_calls_from i (map (fun x => JStr (f x)) l) = Ret [])
  /\ visible_parts (map (fun x => JStr (f x)) l) = [].
Proof. induction l as [|x l (IH1 & IH2 & IH3)]; simpl; auto. Qed.

Lemma py_iter_as_list (parts : json) (ps : list json) :
  py_iter parts = Ret ps ->
  thought_texts ps = thought_texts (as_list parts)
  /\ function_calls_from 0 ps = function_calls_from 0 (as_list parts)
  /\ visible_parts ps = visible_parts (as_list parts).
Proof.
  destruct parts as [| | | |s|l|d]; simpl; try discriminate; intros [= <-].
  - destruct (strings_have_no_thoughts (fun c => String c "") (list_ascii_of_string s))
      as (-> & -> & ->); auto.
  - auto.
  - destruct (strings_have_no_thoughts fst d) as (-> & -> & ->); auto.
Qed.

(** The path of the engine through a reply, as far as its parts. *)
Lemma reply_parts_path (result : list (string * json))
      (candidate content parts : json) :
  py_first (dict_get_or "candidates" (JArr []) result) = Ret candidate ->
  py_get candidate "content" (JObj []) = Ret content ->
  py_get content "parts" (JArr []) = Ret parts ->
  reply_parts (JObj result) = as_list parts.
Proof.
  unfold reply_parts.
  destruct (dict_get_or "candidates" (JArr []) result) as [| | | |s|l|d]; try discriminate.
  - destruct s; [discriminate|]. intros [= <-]. discriminate.
  - destruct l as [|x l]; [discriminate|]. intros [= <-].
    destruct x as [| | | | | |c]; try discriminate. simpl. intros [= <-].
    destruct (dict_get_or "content" (JObj []) c); try discriminate.
    simpl. intros [= <-]. reflexivity.
Qed.
End Body.

Section Round.
Import Gemini.
Context `{Runtime} {W : Type} `{ToolServers W} `{Upstream W}.
Variable CONFIG : Config.

Lemma build_final_inv (result : list (string * json)) (st : Loop) (w w' : W)
      (step : Step) (t : list event) :
  build_final result st w = (Ret step, w', t) ->
  exists reply,
    step = Return (Final reply) /\ t = []
    /\ _build_final_response_with_accumulated_thoughts
         result (accumulated_thought_texts st) (accumulated_tool_texts st)
       = Ret reply.
Proof.
  unfold build_final. intros Hrun.
  apply io_bind_lift_inv in Hrun as (reply & Hbuild & Hret).
  apply io_ret_inv in Hret as (-> & _ & ->). eauto.
Qed.

Lemma iteration_body_round model tools generation_config system_instruction
      execute_mcp_tools mcp_manager original_contents_length
      (st : Loop) (w w' : W) (step : Step) (t : list event) :
  iteration_body CONFIG model tools generation_config system_instruction
                 execute_mcp_tools mcp_manager original_contents_length st w
  = (Ret step, w', t) ->
  round_spec mcp_manager original_contents_length st step t.
Proof.
  unfold iteration_body, execute_and_continue. intros Hrun.
  apply io_bind_lift_inv in Hrun as (contents & Hcontents & Hrun).
  apply io_bind_Ret_inv in Hrun as (o & w1 & t1 & t2 & Hpost & Hrun & ->).
  apply retry_wrapper_replies in Hpost.
  destruct o as [response|e|e]; simpl in *;
    [|apply io_ret_inv in Hrun as (-> & _ & ->); exact I ..].
  destruct (Z.eqb (status_code response) 200); simpl in *;
    [|apply io_ret_inv in Hrun as (-> & _ & ->); exact I].
  destruct (response_json response) as [[| | | | | |result]|]; try discriminate.
  assert (forall t', replies_of (t1 ++ t') = JObj result :: replies_of t') as Hreplies.
  { intros t'. rewrite replies_of_app, Hpost. reflexivity. }
  clear Hpost.
  set (candidates := dict_get_or "candidates" (JArr []) result) in *.
  destruct (truthy candidates) eqn:Hcand; simpl in Hrun.
  2:{ assert (reply_parts (JObj result) = []) as Hparts.
      { unfold reply_parts. fold candidates.
        destruct candidates as [| | | | |[|? ?]|]; try reflexivity. discriminate. }
      destruct (has_accumulated st) eqn:Hacc.
      - apply build_final_inv in Hrun as (reply & -> & -> & Hbuild).
        exists result. rewrite Hparts, Hreplies. unfold placeholders. simpl.
        rewrite !app_nil_r. auto.
      - apply io_ret_inv in Hrun as (-> & _ & ->). cbn [round_spec].
        rewrite Hparts, Hreplies. auto. }
  apply io_bind_lift_inv in Hrun as (candidate & Hcandidate & Hrun).
  apply io_bind_lift_inv in Hrun as (content & Hcontent & Hrun).
  apply io_bind_lift_inv in Hrun as (reason & _ & Hrun).
  apply io_bind_lift_inv in Hrun as (parts & Hparts & Hrun).
  apply io_bind_lift_inv in Hrun as (ps & Hps & Hrun).
  apply io_bind_lift_inv in Hrun as (function_calls & Hcalls & Hrun).
  pose proof (reply_parts_path _ _ _ _ Hcandidate Hcontent Hparts) as Hpath.
  destruct (py_iter_as_list _ _ Hps) as (Hthoughts & Hfrom & _).
  unfold _get_function_calls in Hcalls. rewrite Hparts in Hcalls. simpl in Hcalls.
  rewrite Hps in Hcalls. simpl in Hcalls.
  rewrite Hfrom, <- Hpath in Hcalls. rewrite Hthoughts, <- Hpath in Hrun.
  pose proof (function_calls_from_calls _ _ _ Hcalls) as Hdec.
  destruct (tool_call_texts _ _ Hdec) as [Htexts Hnames].
  fold (placeholders (reply_parts (JObj result))) in Htexts.
  destruct function_calls as [|fc fcs].
  { assert (calls_of (reply_parts (JObj result)) = []) as Hnil
      by (inversion Hdec; auto).
    match type of Hrun with
    | (if has_accumulated ?s then _ else _) _ = _ => destruct (has_accumulated s) eqn:Hacc
    end.
    - apply build_final_inv in Hrun as (reply & -> & -> & Hbuild). simpl in Hbuild.
      exists result. unfold placeholders. rewrite Hnil, Hreplies. simpl.
      rewrite !app_nil_r. auto.
    - apply io_ret_inv in Hrun as (-> & _ & ->). cbn [round_spec]. rewrite Hreplies.
      unfold has_accumulated in Hacc |- *. cbn [accumulated_thought_texts accumulated_tool_texts] in Hacc.
      rewrite Hnil.
      destruct (accumulated_thought_texts st) as [|? ?]; [|discriminate].
      destruct (thought_texts (reply_parts (JObj result))); [|discriminate].
      destruct (accumulated_tool_texts st); [auto|discriminate]. }
  remember (fc :: fcs) as function_calls eqn:Hfcs.
  assert (calls_of (reply_parts (JObj result)) <> []) as Hsome.
  { intros Hnil. rewrite Hnil in Hdec. inversion Hdec; subst; discriminate. }
  rewrite Hfcs in Hrun. cbv iota in Hrun. rewrite <- Hfcs in Hrun.
  apply io_bind_lift_inv in Hrun as (texts & Htexts' & Hrun).
  rewrite Htexts in Htexts'. injection Htexts' as <-.
  cbn [contents_copy iteration accumulated_thought_texts accumulated_tool_texts] in Hrun.
  destruct (execute_mcp_tools && bool_decide (is_Some mcp_manager)).
  2:{ apply build_final_inv in Hrun as (reply & -> & -> & Hbuild).
      cbn [accumulated_thought_texts accumulated_tool_texts] in Hbuild.
      exists result. rewrite Hreplies. auto. }
  apply io_bind_lift_inv in Hrun as ([mcp non_mcp] & Hsplit & Hrun).
  destruct (split_calls_registered _ _ (decorates_dicts _ _ Hdec) _ _ Hsplit)
    as [Hdicts Hmine].
  destruct mcp as [|c cs].
  { apply build_final_inv in Hrun as (reply & -> & -> & Hbuild).
    cbn [accumulated_thought_texts accumulated_tool_texts] in Hbuild.
    exists result. rewrite Hreplies. auto. }
  apply io_bind_lift_inv in Hrun as (role & Hrole & Hrun).
  apply io_bind_Ret_inv in Hrun as (responses & w2 & t3 & t4 & Hexec & Hret & ->).
  apply io_ret_inv in Hret as (-> & _ & ->).
  destruct (execute_calls_responses _ _ Hdicts _ _ _ _ Hexec) as [Hresp Hquiet].
  cbn [round_spec contents_copy iteration accumulated_thought_texts accumulated_tool_texts].
  exists result, contents, role, responses.
  rewrite Hreplies, app_nil_r, Hquiet.
  split; [reflexivity|]. split; [exact Hcontents|].
  split.
  { rewrite Hpath. destruct parts; try reflexivity.
    all: rewrite Hpath in Hsome; simpl in Hsome; congruence. }
  split; [reflexivity|]. split; [reflexivity|]. split; [reflexivity|].
  split; [rewrite Hresp, Hmine, Hnames; reflexivity|].
  intros ->. discriminate.
Qed.
End Round.

(* ================================================================= *)
(** * The Gemini engine: the final reply *)

Section FinalReply.
Import Gemini.
Context `{Runtime} {W : Type} `{ToolServers W} `{Upstream W}.
Variable CONFIG : Config.

Lemma copy_field_candidates (k : string) (src dst : list (string * json)) :
  k <> "candidates" ->
  dict_get "candidates" (copy_field k src dst) = dict_get "candidates" dst.
Proof.
  intros Hk. unfold copy_field. destruct (dict_get k src); [|reflexivity].
  apply dict_get_set_ne. congruence.
Qed.

(** The builder puts the block first, then the visible parts of the
    last result. *)
Lemma build_final_parts (result : list (string * json)) (thoughts : list json)
      (tool_texts : list string) (reply : json) :
  _build_final_response_with_accumulated_thoughts result thoughts tool_texts = Ret reply ->
  exists kept,
    kept_thoughts thoughts = Ret kept
    /\ reply_parts reply
       = reasoning_block kept tool_texts ++ visible_parts (reply_parts (JObj result)).
Proof.
  unfold _build_final_response_with_accumulated_thoughts. intros Hbuild.
  destruct (kept_thoughts thoughts) as [kept|]; [|discriminate]. simpl in Hbuild.
  fold (reasoning_block kept tool_texts) in Hbuild.
  set (candidates := dict_get_or "candidates" (JArr []) result) in Hbuild.
  exists kept. split; [reflexivity|].
  destruct (truthy candidates) eqn:Hcand.
  - destruct (py_first candidates) as [candidate|] eqn:Hfirst; [|discriminate].
    simpl in Hbuild.
    destruct (py_get candidate "content" (JObj [])) as [content|] eqn:Hcontent;
      [|discriminate]. simpl in Hbuild.
    destruct (py_get content "parts" (JArr [])) as [parts|] eqn:Hparts;
      [|discriminate]. simpl in Hbuild.
    destruct (py_iter parts) as [ps|] eqn:Hps; [|discriminate]. simpl in Hbuild.
    destruct (py_get candidate "finishReason" (JStr "STOP")) as [reason|];
      [|discriminate]. simpl in Hbuild.
    injection Hbuild as <-.
    rewrite (reply_parts_path _ _ _ _ Hfirst Hcontent Hparts).
    destruct (py_iter_as_list _ _ Hps) as (_ & _ & <-).
    unfold reply_parts, dict_get_or.
    rewrite !copy_field_candidates by discriminate. reflexivity.
  - simpl in Hbuild. injection Hbuild as <-.
    assert (reply_parts (JObj result) = []) as ->.
    { unfold reply_parts. fold candidates.
      destruct candidates as [| | | | |[|? ?]|]; try reflexivity. discriminate. }
    unfold reply_parts, dict_get_or.
    rewrite !copy_field_candidates by discriminate. simpl.
    rewrite app_nil_r. reflexivity.
Qed.

Lemma while_loop_spec (body : Loop -> io W Step) mcp_manager original_contents_length :
  (forall st w step w' t,
      body st w = (Ret step, w', t) ->
      round_spec mcp_manager original_contents_length st step t) ->
  forall remaining st w e w' t,
    while_loop remaining body st w = (Ret e, w', t) ->
    loop_spec st e t.
Proof.
  intros Hbody. induction remaining as [|n IH]; intros st w e w' t.
  - simpl. intros Hrun. apply io_ret_inv in Hrun as (-> & _ & ->). exact I.
  - simpl. rewrite io_bind_emit.
    destruct (io_bind (body st) _ w) as [[r0 w0] t0] eqn:Hbind.
    intros [= -> -> <-].
    apply io_bind_Ret_inv in Hbind as (step & w1 & t1 & t2 & Hstep & Hrest & ->).
    apply Hbody in Hstep.
    assert (forall l, replies_of (EvIteration (iteration st) :: l) = replies_of l) as Htick
        by reflexivity.
    destruct step as [e'|st'].
    + apply io_ret_inv in Hrest as (-> & _ & ->). rewrite app_nil_r.
      destruct e' as [r|r|reply|r]; cbn [round_spec loop_spec] in *; try exact I.
      * rewrite Htick. exact Hstep.
      * destruct Hstep as (result & Hreplies & Hbuild).
        exists result. rewrite Htick, Hreplies. unfold all_thoughts, all_placeholders.
        simpl. rewrite !app_nil_r. auto.
    + apply IH in Hrest.
      destruct Hstep as (result & contents & role & responses & Hreplies & _ & _ & _
                         & Hthoughts & Htools & Hnames & Hsome).
      assert (placeholders (reply_parts (JObj result)) <> []) as Hcalled.
      { unfold placeholders. intros Hnil. apply map_eq_nil in Hnil.
        rewrite Hnil in Hnames. simpl in Hnames.
        destruct responses; [congruence|discriminate]. }
      destruct e as [r|r|reply|r]; cbn [loop_spec] in *; try exact I.
      * destruct Hrest as (_ & Hacc & _). exfalso.
        unfold has_accumulated in Hacc. rewrite Htools in Hacc.
        destruct (accumulated_thought_texts st'); [|discriminate].
        destruct (placeholders (reply_parts (JObj result))) as [|p ps]; [congruence|].
        destruct (accumulated_tool_texts st); discriminate.
      * destruct Hrest as (last_result & Hlast & Hbuild).
        exists last_result. rewrite Htick, replies_of_app, Hreplies.
        split.
        { simpl. rewrite last_cons, Hlast. reflexivity. }
        rewrite Hthoughts, Htools in Hbuild.
        unfold all_thoughts, all_placeholders in *. simpl.
        rewrite <- !app_assoc in Hbuild. exact Hbuild.
Qed.
End FinalReply.

Section FinalReplyTheorem.
Import Gemini.
Context `{Runtime} {W : Type} `{ToolServers W} `{Upstream W}.
Variable CONFIG : Config.

(** C1 (as the code has it): the final reply of the buffered engine
    opens with one reasoning block, made of every thought text of every
    reply of the request that is not blank, in order, followed by the
    placeholders of every function call of the request, in order, and
    carries after it the visible parts of the last reply; a request that
    is answered without any thought or call is passed on unchanged. *)
Theorem final_reply_block_is_thoughts_then_placeholders
        mcp_manager contents model tools generation_config system_instruction
        execute_mcp_tools (w w' : W) (e : Exit) (t : list event) :
  process_request CONFIG mcp_manager contents model tools generation_config
                  system_instruction execute_mcp_tools w
  = (Ret e, w', t) ->
  match e with
  | Final reply =>
      exists kept last_result,
        kept_thoughts (all_thoughts (replies_of t)) = Ret kept
        /\ last (replies_of t) = Some last_result
        /\ reply_parts reply
           = reasoning_block kept (all_placeholders (replies_of t))
               ++ visible_parts (reply_parts last_result)
  | Unchanged r =>
      replies_of t = [r]
      /\ thought_texts (reply_parts r) = []
      /\ calls_of (reply_parts r) = []
  | _ => True
  end.
Proof.
  unfold process_request. intros Hrun.
  eapply while_loop_spec in Hrun;
    [|intros; eapply iteration_body_round; eassumption].
  destruct e as [r|r|reply|r]; cbn [loop_spec] in Hrun; try exact I.
  - destruct Hrun as (Hr & _ & Ht & Hc). auto.
  - destruct Hrun as (result & Hlast & Hbuild). simpl in Hbuild.
    apply build_final_parts in Hbuild as (kept & Hkept & Hparts).
    exists kept, (JObj result). auto.
Qed.
End FinalReplyTheorem.

Section FinalReplyExamples.
Import Gemini Scripted.
#[local] Existing Instance runtime.
#[local] Existing Instance tool_servers.
#[local] Existing Instance upstream.

(** C1, an instance: the request of [two_rounds] that calls the
    manager's tool. *)
Lemma final_reply_block_is_thoughts_then_placeholders_witness :
  exists kept last_result,
    kept_thoughts (all_thoughts (replies_of (trace_of (two_rounds_run "s_t")))) = Ret kept
    /\ last (replies_of (trace_of (two_rounds_run "s_t"))) = Some last_result
    /\ reply_parts two_rounds_reply
       = reasoning_block kept (all_placeholders (replies_of (trace_of (two_rounds_run "s_t"))))
           ++ visible_parts (reply_parts last_result).
Proof.
  apply (final_reply_block_is_thoughts_then_placeholders
           no_settings (Some manager) [user_says "hi"] "gemini-2.5-flash" None JNull None
           true (two_rounds "s_t") (world_of (two_rounds_run "s_t"))
           (Final two_rounds_reply) (trace_of (two_rounds_run "s_t"))).
  vm_compute. reflexivity.
Defined.

(** C1, counterexample: the model thinks, calls a tool, thinks again and
    answers; the block of the final reply carries the second thought
    before the placeholder of the call that was issued before it. *)
Lemma second_thought_precedes_first_placeholder :
  result_of (two_rounds_run "s_t") = Ret (Final two_rounds_reply)
  /\ issued (trace_of (two_rounds_run "s_t"))
     = ["look it up"; placeholder_s_t; "now answer"]
  /\ reply_parts two_rounds_reply = [thought_part two_rounds_block; text_part "done"]
  /\ in_order ["look it up"; placeholder_s_t; "now answer"] two_rounds_block = false
  /\ in_order ["look it up"; "now answer"; placeholder_s_t] two_rounds_block = true.
Proof.
  split; [|split; [|split; [|split]]]; vm_compute; reflexivity.
Qed.
End FinalReplyExamples.

Section NoCallForwarded.
Import Gemini.
Context `{Runtime} {W : Type} `{ToolServers W} `{Upstream W}.
Variable CONFIG : Config.

Lemma visible_parts_no_calls (parts : list json) :
  Forall (fun part => dict_with "functionCall" part = false) (visible_parts parts).
Proof.
  induction parts as [|part parts IH]; simpl; [constructor|].
  destruct part as [| | | | | |d]; try exact IH.
  destruct (truthy (dict_get_or "thought" JNull d)); [exact IH|].
  destruct (dict_has "functionCall" d) eqn:Hcall; [exact IH|].
  constructor; [exact Hcall|exact IH].
Qed.

Lemma reasoning_block_no_calls (thoughts tool_texts : list string) :
  Forall (fun part => dict_with "functionCall" part = false)
         (reasoning_block thoughts tool_texts).
Proof.
  unfold reasoning_block.
  destruct (match tool_texts with [] => thoughts | _ => _ end);
    repeat constructor.
Qed.

Lemma calls_of_no_calls (parts : list json) :
  Forall (fun part => dict_with "functionCall" part = false) parts ->
  calls_of parts = [].
Proof.
  induction 1 as [|part parts Hpart _ IH]; [reflexivity|].
  simpl. destruct part as [| | | | | |d]; try exact IH.
  unfold dict_with, dict_has in Hpart.
  destruct (dict_get "functionCall" d); [discriminate|exact IH].
Qed.

(** X6: the reply the buffered engine rebuilds carries no function call:
    the calls of the last upstream reply are left out of it (their
    placeholders alone appear, in the reasoning block), also the calls
    to tools that the manager does not have. *)
Theorem final_reply_forwards_no_function_call
        mcp_manager contents model tools generation_config system_instruction
        execute_mcp_tools (w w' : W) (reply : json) (t : list event) :
  process_request CONFIG mcp_manager contents model tools generation_config
                  system_instruction execute_mcp_tools w
  = (Ret (Final reply), w', t) ->
  calls_of (reply_parts reply) = []
  /\ Forall (fun part => dict_with "functionCall" part = false) (reply_parts reply).
Proof.
  unfold process_request. intros Hrun.
  eapply while_loop_spec in Hrun;
    [|intros; eapply iteration_body_round; eassumption].
  destruct Hrun as (result & _ & Hbuild).
  apply build_final_parts in Hbuild as (kept & _ & ->).
  match goal with
  | |- calls_of ?parts = [] /\ _ =>
      assert (Forall (fun part => dict_with "functionCall" part = false) parts) as Hnone
  end.
  { apply Forall_app. split;
      [apply reasoning_block_no_calls|apply visible_parts_no_calls]. }
  split; [apply calls_of_no_calls|]; exact Hnone.
Qed.
End NoCallForwarded.

Section NoCallForwardedExamples.
Import Gemini Scripted.
#[local] Existing Instance runtime.
#[local] Existing Instance tool_servers.
#[local] Existing Instance upstream.

(** X6, an instance: the request of [two_rounds] that calls [nope], a
    tool the manager does not have. *)
Lemma final_reply_forwards_no_function_call_witness :
  calls_of (reply_parts nope_reply) = []
  /\ Forall (fun part => dict_with "functionCall" part = false) (reply_parts nope_reply).
Proof.
  apply (final_reply_forwards_no_function_call
           no_settings (Some manager) [user_says "hi"] "gemini-2.5-flash" None JNull None
           true (two_rounds "nope") (world_of (two_rounds_run "nope"))
           nope_reply (trace_of (two_rounds_run "nope"))).
  vm_compute. reflexivity.
Defined.
End NoCallForwardedExamples.

(* ================================================================= *)
(** * The Gemini engine: calls to names the manager does not know *)

Section UnknownTool.
Import Gemini.
Context `{Runtime} {W : Type} `{ToolServers W} `{Upstream W}.
Variable CONFIG : Config.

Lemma dict_has_get {V} (k : string) (d : list (string * V)) :
  dict_has k d = false -> dict_get k d = None.
Proof. unfold dict_has. destruct (dict_get k d); [discriminate|reflexivity]. Qed.

Lemma filter_all_false {A} (f : A -> bool) (l : list A) :
  Forall (fun x => f x = false) l -> List.filter f l = [].
Proof. induction 1 as [|x l Hx _ IH]; simpl; [|rewrite Hx]; auto. Qed.

(** C6: for a name the manager has no tool for, the manager's
    [call_tool] returns the text [工具不存在: name]: it does not raise,
    it does not return nothing, and it contacts no server; the engine's
    [_execute_mcp_tool] hands that text on; the loop executing the calls
    puts it in the result slot of the call and goes on with the calls
    that are left; and the branch that executes the calls ends the round
    with [Continue]: the conversation has the reply of the model and the
    results, that text among them, appended, the counter is one up, and
    no error is returned. *)
Theorem unregistered_name_is_answered_with_text_and_the_loop_goes_on
        (m : MCPManager) (name : string) :
  dict_has name (tools m) = false ->
  (forall arguments (w : W),
      call_tool name arguments m w = (Ret (Some ("工具不存在: " +:+ name)), w, []))
  /\ (forall arguments (w : W),
         _execute_mcp_tool (Some m) (JStr name) arguments w
         = (Ret (Some ("工具不存在: " +:+ name)), w, []))
  /\ (forall fc rest (w w' : W) tail t,
         dict_get_or "name" (JStr "") fc = JStr name ->
         execute_calls (Some m) rest w = (Ret tail, w', t) ->
         execute_calls (Some m) (JObj fc :: rest) w
         = (Ret (JObj [("functionResponse",
                        JObj [("name", JStr name);
                              ("response",
                               JObj [("result", JStr ("工具不存在: " +:+ name))])])]
                 :: tail),
            w', t))
  /\ (forall content parts fc rest st (w w' : W) tail t,
         dict_get_or "name" (JStr "") fc = JStr name ->
         execute_calls (Some m) rest w = (Ret tail, w', t) ->
         execute_and_continue (Some m) (JObj content) parts (JObj fc :: rest) st w
         = (Ret (Continue
                   {| contents_copy :=
                        contents_copy st
                        ++ [JObj [("role", dict_get_or "role" (JStr "model") content);
                                  ("parts", parts)];
                            JObj [("role", JStr "user");
                                  ("parts",
                                   JArr (JObj [("functionResponse",
                                                JObj [("name", JStr name);
                                                      ("response",
                                                       JObj [("result",
                                                              JStr ("工具不存在: "
                                                                    +:+ name))])])]
                                         :: tail))]];
                      iteration := S (iteration st);
                      accumulated_thought_texts := accumulated_thought_texts st;
                      accumulated_tool_texts := accumulated_tool_texts st |}),
            w', t)).
Proof.
  intros Hname.
  assert (forall arguments (w : W),
             call_tool name arguments m w
             = (Ret (Some ("工具不存在: " +:+ name)), w, [])) as Hcall.
  { intros arguments w. unfold call_tool. rewrite (dict_has_get _ _ Hname). reflexivity. }
  assert (forall fc rest (w w' : W) tail t,
             dict_get_or "name" (JStr "") fc = JStr name ->
             execute_calls (Some m) rest w = (Ret tail, w', t) ->
             execute_calls (Some m) (JObj fc :: rest) w
             = (Ret (JObj [("functionResponse",
                            JObj [("name", JStr name);
                                  ("response",
                                   JObj [("result",
                                          JStr ("工具不存在: " +:+ name))])])]
                     :: tail),
                w', t)) as Hslot.
  { intros fc rest w w' tail t Hfc Hrest. cbn [execute_calls py_get].
    rewrite Hfc, !io_bind_lift_ret.
    unfold io_bind at 1. cbn [_execute_mcp_tool]. rewrite Hcall.
    unfold io_bind. rewrite Hrest. unfold io_ret. cbv beta iota zeta.
    rewrite app_nil_r. reflexivity. }
  split; [exact Hcall|]. split; [exact Hcall|]. split; [exact Hslot|].
  intros content parts fc rest st w w' tail t Hfc Hrest.
  unfold execute_and_continue. cbn [py_get]. rewrite io_bind_lift_ret.
  unfold io_bind. rewrite (Hslot fc rest w w' tail t Hfc Hrest).
  cbn. rewrite app_nil_r. reflexivity.
Qed.

(** What the rounds of the engine hand to that loop: a round that goes
    on appends results for the calls to registered names only, and a
    reply all of whose calls are to names that are not registered ends
    the loop. *)
Lemma rounds_dispatch_registered_names_only (m : MCPManager) (name : string) :
  dict_has name (tools m) = false ->
  (forall model tools generation_config system_instruction execute_mcp_tools
          original_contents_length st (w w' : W) step t,
      iteration_body CONFIG model tools generation_config system_instruction
                     execute_mcp_tools (Some m) original_contents_length st w
      = (Ret step, w', t) ->
      match step with
      | Continue st' =>
          exists result contents role responses,
            replies_of t = [JObj result]
            /\ contents_copy st'
               = contents
                   ++ [JObj [("role", role);
                             ("parts", JArr (reply_parts (JObj result)))];
                       JObj [("role", JStr "user"); ("parts", JArr responses)]]
            /\ map response_name responses
               = List.filter (registered (Some m))
                             (map call_name (calls_of (reply_parts (JObj result))))
            /\ (JStr name ∉ map response_name responses)
            /\ responses <> []
      | Return _ => True
      end)
  /\ (forall model tools generation_config system_instruction execute_mcp_tools
             original_contents_length st (w w' : W) step t result,
         iteration_body CONFIG model tools generation_config system_instruction
                        execute_mcp_tools (Some m) original_contents_length st w
         = (Ret step, w', t) ->
         replies_of t = [result] ->
         Forall (fun fc => registered (Some m) (call_name fc) = false)
                (calls_of (reply_parts result)) ->
         exists e, step = Return e).
Proof.
  intros Hname. split.
  - intros until t. intros Hrun. apply iteration_body_round in Hrun.
    destruct step as [e|st']; [exact I|].
    destruct Hrun as (result & contents & role & responses & Hreplies & _ & Hcontents
                      & _ & _ & _ & Hnames & Hsome).
    exists result, contents, role, responses.
    repeat (split; [assumption|]). split; [|exact Hsome].
    rewrite Hnames. intros Hin. apply list_elem_of_In, filter_In in Hin as [_ Hreg].
    simpl in Hreg. congruence.
  - intros until result. intros Hrun Hreplies Hnone. apply iteration_body_round in Hrun.
    destruct step as [e|st']; [eauto|]. exfalso.
    destruct Hrun as (result' & contents & role & responses & Hreplies' & _ & _
                      & _ & _ & _ & Hnames & Hsome).
    rewrite Hreplies in Hreplies'. injection Hreplies' as ->.
    rewrite filter_all_false in Hnames.
    + destruct responses; [congruence|discriminate].
    + apply Forall_map. exact Hnone.
Qed.
End UnknownTool.

Section UnknownToolExamples.
Import Gemini Scripted.
#[local] Existing Instance runtime.
#[local] Existing Instance tool_servers.
#[local] Existing Instance upstream.

(** C6, an instance: the manager of the examples has no tool [nope];
    a call to it is answered with the text, and the round goes on. *)
Lemma unregistered_name_is_answered_with_text_and_the_loop_goes_on_witness :
  call_tool "nope" (JObj []) manager (two_rounds "nope")
  = (Ret (Some "工具不存在: nope"), two_rounds "nope", [])
  /\ execute_and_continue
       (Some manager) (JObj [("role", JStr "model")]) (JArr [call_part "nope"])
       [JObj [("name", JStr "nope"); ("args", JObj [])]]
       (entered [user_says "hi"]) (two_rounds "nope")
     = (Ret (Continue
               {| contents_copy :=
                    [user_says "hi"; model_says [call_part "nope"];
                     tool_results [result_part "nope" "工具不存在: nope"]];
                  iteration := 1;
                  accumulated_thought_texts := [];
                  accumulated_tool_texts := [] |}),
        two_rounds "nope", []).
Proof.
  split.
  - exact (proj1 (unregistered_name_is_answered_with_text_and_the_loop_goes_on
                    manager "nope" eq_refl)
                 (JObj []) (two_rounds "nope")).
  - exact (proj2 (proj2 (proj2
             (unregistered_name_is_answered_with_text_and_the_loop_goes_on
                manager "nope" eq_refl)))
             [("role", JStr "model")] (JArr [call_part "nope"])
             [("name", JStr "nope"); ("args", JObj [])] []
             (entered [user_says "hi"]) (two_rounds "nope") (two_rounds "nope")
             [] [] eq_refl eq_refl).
Defined.

(** The engine itself hands the loop no such call: the manager has the
    tool [s_t] and the model calls [nope]; the engine asks no tool
    server and does not call the model again, and the request ends with
    the first reply, rebuilt. *)
Lemma call_to_unregistered_name_ends_the_request :
  registered (Some manager) (JStr "nope") = false
  /\ result_of (two_rounds_run "nope") = Ret (Final nope_reply)
  /\ trace_of (two_rounds_run "nope")
     = [EvIteration 0;
        EvPost "gemini-2.5-flash" false
               (request_payload [user_says "hi"] manager_tools JNull None);
        EvReply 200 (Some (gemini_reply [thought_part "look it up"; call_part "nope"]))].
Proof.
  split; [|split]; vm_compute; reflexivity.
Qed.
End UnknownToolExamples.

(* ================================================================= *)
(** * The manager: starting and stopping servers *)

(** * The manager's tables *)

Section MoreDictFacts.
Context {V : Type}.
Implicit Types (d : list (string * V)) (k : string) (v : V).

Lemma dict_get_del_eq k d : NoDup (dict_keys d) -> dict_get k (dict_del k d) = None.
Proof.
  unfold dict_keys. induction d as [|[k' v'] d IH]; simpl; intros Hnd; [reflexivity|].
  apply NoDup_cons in Hnd as [Hk' Hnd].
  destruct (String.eqb k k') eqn:E.
  - apply String.eqb_eq in E. subst k'. apply dict_get_None_keys. exact Hk'.
  - simpl. rewrite E. auto.
Qed.

Lemma dict_get_del_ne k k' d : k <> k' -> dict_get k' (dict_del k d) = dict_get k' d.
Proof.
  intros Hne. induction d as [|[k0 v0] d IH]; simpl; [reflexivity|].
  destruct (String.eqb k k0) eqn:E.
  - apply String.eqb_eq in E. subst k0.
    destruct (String.eqb k' k) eqn:E'; [|reflexivity].
    apply String.eqb_eq in E'. congruence.
  - simpl. destruct (String.eqb k' k0); auto.
Qed.

Lemma dict_keys_del_sub k d x : x ∈ dict_keys (dict_del k d) -> x ∈ dict_keys d.
Proof.
  unfold dict_keys. induction d as [|[k0 v0] d IH]; simpl; [auto|].
  destruct (String.eqb k k0); simpl.
  - intros Hx. right. exact Hx.
  - intros Hx. apply elem_of_cons in Hx as [->|Hx]; [left|right; auto].
Qed.

Lemma dict_del_NoDup k d : NoDup (dict_keys d) -> NoDup (dict_keys (dict_del k d)).
Proof.
  unfold dict_keys. induction d as [|[k0 v0] d IH]; simpl; intros Hnd; [constructor|].
  apply NoDup_cons in Hnd as [Hk0 Hnd].
  destruct (String.eqb k k0); simpl; [exact Hnd|].
  apply NoDup_cons. split; [|auto].
  intros Hin. apply Hk0. eapply dict_keys_del_sub. exact Hin.
Qed.

Lemma dict_keys_filter_sub (p : string * V -> bool) d x :
  x ∈ dict_keys (List.filter p d) -> x ∈ dict_keys d.
Proof.
  unfold dict_keys. induction d as [|[k0 v0] d IH]; simpl; [auto|].
  destruct (p (k0, v0)); simpl.
  - intros Hx. apply elem_of_cons in Hx as [->|Hx]; [left|right; auto].
  - intros Hx. right. auto.
Qed.

Lemma dict_filter_NoDup (p : string * V -> bool) d :
  NoDup (dict_keys d) -> NoDup (dict_keys (List.filter p d)).
Proof.
  unfold dict_keys. induction d as [|[k0 v0] d IH]; simpl; intros Hnd; [constructor|].
  apply NoDup_cons in Hnd as [Hk0 Hnd].
  destruct (p (k0, v0)); simpl; [|auto].
  apply NoDup_cons. split; [|auto].
  intros Hin. apply Hk0. eapply dict_keys_filter_sub. exact Hin.
Qed.

(** Over a dict, a filter keeps the entries that pass and no other. *)
Lemma dict_get_filter (p : string * V -> bool) k d :
  NoDup (dict_keys d) ->
  dict_get k (List.filter p d)
  = match dict_get k d with
    | Some v => if p (k, v) then Some v else None
    | None => None
    end.
Proof.
  unfold dict_keys. induction d as [|[k0 v0] d IH]; simpl; intros Hnd; [reflexivity|].
  apply NoDup_cons in Hnd as [Hk0 Hnd].
  destruct (String.eqb k k0) eqn:E.
  - apply String.eqb_eq in E. subst k0.
    destruct (p (k, v0)) eqn:Hp; simpl.
    + rewrite String.eqb_refl. reflexivity.
    + apply dict_get_None_keys. intros Hin. apply Hk0.
      eapply dict_keys_filter_sub. exact Hin.
  - destruct (p (k0, v0)); simpl; [rewrite E|]; auto.
Qed.

Lemma dict_has_true k d : dict_has k d = true <-> exists v, dict_get k d = Some v.
Proof.
  unfold dict_has. destruct (dict_get k d); split; eauto; try discriminate.
  intros [v [=]].
Qed.

End MoreDictFacts.

(** * Prefixes *)

Lemma strip_prefix_append (p s : string) : strip_prefix p (p +:+ s) = Some s.
Proof.
  induction p as [|a p IH]; [reflexivity|].
  rewrite append_cons. simpl. rewrite Ascii.eqb_refl. exact IH.
Qed.

Lemma remove_first_prefix (p s : string) : remove_first p (p +:+ s) = s.
Proof.
  destruct p as [|a p].
  - destruct s; reflexivity.
  - rewrite append_cons. unfold remove_first; fold remove_first.
    change (strip_prefix (String a p) (String a (p +:+ s)))
      with (if Ascii.eqb a a then strip_prefix p (p +:+ s) else None).
    rewrite Ascii.eqb_refl, strip_prefix_append. reflexivity.
Qed.

Lemma append_inj_l (p s s' : string) : p +:+ s = p +:+ s' -> s = s'.
Proof.
  induction p as [|a p IH]; [auto|].
  rewrite !append_cons. intros [= E]. auto.
Qed.

(** * Registration *)

Lemma tool_name_qualify (name : string) (t : MCPTool) :
  tool_name (qualify name t) = name +:+ "_" +:+ tool_name t.
Proof. reflexivity. Qed.

Lemma register_tools_snoc (name : string) (new : list MCPTool) (t : MCPTool)
      (registered : list (string * MCPTool)) :
  register_tools name (new ++ [t]) registered
  = dict_set (tool_name (qualify name t)) (qualify name t)
             (register_tools name new registered).
Proof. unfold register_tools. rewrite foldl_app. reflexivity. Qed.

Lemma register_tools_NoDup (name : string) (new : list MCPTool)
      (registered : list (string * MCPTool)) :
  NoDup (dict_keys registered) ->
  NoDup (dict_keys (register_tools name new registered)).
Proof.
  revert registered. induction new as [|t new IH]; intros registered Hnd; [exact Hnd|].
  simpl. apply IH. apply dict_set_NoDup. exact Hnd.
Qed.

(** What a registration leaves under a key: what was there, or one of
    the new tools, qualified. *)
Lemma register_tools_get (name : string) (new : list MCPTool)
      (registered : list (string * MCPTool)) (key : string) (tool : MCPTool) :
  dict_get key (register_tools name new registered) = Some tool ->
  dict_get key registered = Some tool
  \/ exists t, t ∈ new /\ tool = qualify name t
               /\ key = name +:+ "_" +:+ tool_name t.
Proof.
  revert registered. induction new as [|t new IH]; intros registered Hget; [left; exact Hget|].
  simpl in Hget. apply IH in Hget as [Hget|(t' & Hin & -> & ->)].
  - destruct (String.eqb_spec (name +:+ "_" +:+ tool_name t) key) as [<-|Hne].
    + rewrite dict_get_set_eq in Hget. injection Hget as <-.
      right. exists t. split; [left|]. split; reflexivity.
    + rewrite dict_get_set_ne in Hget by exact Hne. left. exact Hget.
  - right. exists t'. split; [right; exact Hin|]. split; reflexivity.
Qed.

(** Every new tool is found under its qualified name, as announced or as
    a later tool of the same name was. *)
Lemma register_tools_finds (name : string) (new : list MCPTool)
      (registered : list (string * MCPTool)) (t : MCPTool) :
  t ∈ new ->
  exists t', t' ∈ new /\ tool_name t' = tool_name t
             /\ dict_get (name +:+ "_" +:+ tool_name t)
                         (register_tools name new registered)
                = Some (qualify name t').
Proof.
  revert registered. induction new as [|t0 new IH] using rev_ind; intros registered Hin.
  - inversion Hin.
  - rewrite register_tools_snoc.
    destruct (String.eqb_spec (tool_name t0) (tool_name t)) as [E|Hne].
    + exists t0. split; [apply elem_of_app; right; left|]. split; [exact E|].
      rewrite tool_name_qualify, E. apply dict_get_set_eq.
    + apply elem_of_app in Hin as [Hin|Hin].
      2:{ apply list_elem_of_singleton in Hin. subst. congruence. }
      destruct (IH registered Hin) as (t' & Hin' & Hname & Hget).
      exists t'. split; [apply elem_of_app; left; exact Hin'|]. split; [exact Hname|].
      rewrite dict_get_set_ne; [exact Hget|].
      rewrite tool_name_qualify. intros E. apply append_inj_l in E.
      apply append_inj_l in E. congruence.
Qed.

(** * The adapters *)

Section Manager.
Context `{Runtime} {W : Type} `{ToolServers W} `{Processes W}.

(** The three adapters share the code of [call_tool]. *)
Lemma connection_call_tool_config (c c' : Connection) (tool : string) (arguments : json) :
  conn_config c = conn_config c' ->
  connection_call_tool c tool arguments = connection_call_tool c' tool arguments.
Proof. unfold connection_call_tool. intros ->. reflexivity. Qed.

Lemma create_connection_new (config : MCPServerConfig) :
  create_connection config = Some {| conn_config := config; conn_tools := [] |}.
Proof. unfold create_connection. destruct (cfg_server_type config); reflexivity. Qed.

(** What a start does, case by case. *)
Lemma start_server_cases (name : string) (m : MCPManager) (w : W) :
  (exists started, start_server name m w = (Ret (started, m), w, []))
  \/ (exists started w', start_server name m w = (Ret (started, m), w', [EvConnStart name])
                         \/ exists config, dict_get name (servers m) = Some config
                              /\ start_server name m w
                                 = (Ret (started, m), w', [EvConnStart (cfg_name config)]))
  \/ exists config announced w',
      dict_get name (servers m) = Some config
      /\ dict_has name (connections m) = false
      /\ connection_ready config = true
      /\ handshake config w = (Some announced, w')
      /\ start_server name m w
         = (Ret (true,
                 {| servers := servers m;
                    connections :=
                      dict_set name {| conn_config := config;
                                       conn_tools := map (qualify name) announced |}
                               (connections m);
                    tools := register_tools name announced (tools m) |}),
            w', [EvConnStart (cfg_name config)]).
Proof.
  unfold start_server.
  destruct (dict_get name (servers m)) as [config|] eqn:Hcfg.
  2:{ left. exists false. reflexivity. }
  destruct (dict_has name (connections m)) eqn:Hconn.
  { left. exists true. reflexivity. }
  rewrite create_connection_new.
  unfold connection_start, io_bind, emit, io_ret. cbn.
  destruct (connection_ready config) eqn:Hready.
  - destruct (handshake config w) as [[announced|] w'] eqn:Hhs; cbn.
    + right. right. exists config, announced, w'. repeat split; auto.
    + right. left. exists false, w'. right. exists config. split; reflexivity.
  - cbn. right. left. exists false, w. right. exists config. split; reflexivity.
Qed.

(** * Consistency *)

Lemma consistent_empty : consistent empty_manager.
Proof.
  split; simpl; try constructor; intros; discriminate.
Qed.

Lemma consistent_with_servers (table : list (string * MCPServerConfig)) (m : MCPManager) :
  NoDup (dict_keys table) ->
  (forall name config, dict_get name table = Some config ->
                       cfg_name config = name /\ cfg_enabled config = true) ->
  consistent m -> consistent (with_servers table m).
Proof.
  intros Hkeys Htable [Hk Hc Ht Hs Hcn Htc]. split; simpl; auto.
Qed.

Lemma server_config_of_named (name : string) (info : ServerInfo) (config : MCPServerConfig) :
  server_config_of name info = Ret config ->
  cfg_name config = name /\ cfg_enabled config = true.
Proof.
  unfold server_config_of.
  destruct (py_get (info_config info) "type" (JStr "stdio")) as [ty|]; [|discriminate].
  simpl.
  destruct (match MCPServerType_of ty with Some t => t | None => STDIO end);
    repeat match goal with
           | |- context [py_get ?a ?b ?c] => destruct (py_get a b c); simpl; [|discriminate]
           | |- context [list_concat ?a ?b] => destruct (list_concat a b); simpl; [|discriminate]
           end;
    intros [= <-]; split; reflexivity.
Qed.

Lemma load_servers_named (items : list (string * ServerInfo)) :
  forall count table,
    NoDup (dict_keys table) ->
    (forall name config, dict_get name table = Some config ->
                         cfg_name config = name /\ cfg_enabled config = true) ->
    NoDup (dict_keys (load_servers items count table).2)
    /\ forall name config,
      dict_get name (load_servers items count table).2 = Some config ->
      cfg_name config = name /\ cfg_enabled config = true.
Proof.
  induction items as [|[n i] rest IH]; simpl; intros count table Hkeys Htable; [auto|].
  destruct (info_enabled i); simpl; [|apply IH; assumption].
  destruct (server_config_of n i) as [config|e] eqn:Hcfg; simpl; [|auto].
  apply IH; [apply dict_set_NoDup; exact Hkeys|]. intros name config'.
  destruct (String.eqb_spec n name) as [<-|Hne].
  - rewrite dict_get_set_eq. intros [= <-]. eapply server_config_of_named. exact Hcfg.
  - rewrite dict_get_set_ne by exact Hne. apply Htable.
Qed.

Section Named.
Hypothesis Hannounced : tools_named_after_server.

Lemma consistent_start_server (name : string) (m : MCPManager) (w : W)
      (started : bool) (m' : MCPManager) (w' : W) (t : list event) :
  consistent m ->
  start_server name m w = (Ret (started, m'), w', t) ->
  consistent m'.
Proof.
  intros Hm Hrun.
  destruct (start_server_cases name m w)
    as [[s E]|[(s & w1 & [E|(c & _ & E)])|(config & announced & w1 & Hcfg & Hconn & _ & Hhs & E)]];
    rewrite E in Hrun; injection Hrun as <- <- <- <-; try exact Hm.
  destruct Hm as [Hk Hc Ht Hs Hcn Htc].
  pose proof (Hs _ _ Hcfg) as [Hname _].
  pose proof (Hannounced _ _ _ _ Hhs) as Hall. rewrite Hname in Hall.
  split; simpl.
  - exact Hk.
  - apply dict_set_NoDup. exact Hc.
  - apply register_tools_NoDup. exact Ht.
  - exact Hs.
  - intros n c. destruct (String.eqb_spec name n) as [<-|Hne].
    + rewrite dict_get_set_eq. intros [= <-]. exact Hname.
    + rewrite dict_get_set_ne by exact Hne. apply Hcn.
  - intros key tool Hget.
    apply register_tools_get in Hget as [Hget|(t0 & Hin & -> & ->)].
    + destruct (Htc _ _ Hget) as [Hhas Horig]. split; [|exact Horig].
      unfold dict_has in *.
      destruct (String.eqb_spec name (tool_server_name tool)) as [<-|Hne].
      * rewrite dict_get_set_eq. reflexivity.
      * rewrite dict_get_set_ne by exact Hne. exact Hhas.
    + rewrite Forall_forall in Hall. specialize (Hall _ Hin).
      simpl. rewrite Hall. split.
      * unfold dict_has. rewrite dict_get_set_eq. reflexivity.
      * exists (tool_name t0). reflexivity.
Qed.

Lemma consistent_start_each (items : list (string * MCPServerConfig)) :
  forall (m : MCPManager) (w : W) (m' : MCPManager) (w' : W) (t : list event),
    consistent m ->
    start_each items m w = (Ret m', w', t) ->
    consistent m'.
Proof.
  induction items as [|[name server] rest IH]; simpl; intros m w m' w' t Hm Hrun.
  - injection Hrun as <- <- <-. exact Hm.
  - destruct (cfg_enabled server); [|eapply IH; eauto].
    apply io_bind_Ret_inv in Hrun as ([started m1] & w1 & t1 & t2 & Hstart & Hrest & ->).
    eapply IH; [|exact Hrest]. eapply consistent_start_server; eauto.
Qed.

Lemma consistent_load (fs : FS) (m : MCPManager) (w : W)
      (loaded : bool) (m' : MCPManager) (w' : W) (t : list event) :
  consistent m ->
  _load_from_directory fs m w = (Ret (loaded, m'), w', t) ->
  consistent m'.
Proof.
  intros Hm. unfold _load_from_directory.
  destruct (get_available_servers fs) as [available|e].
  2:{ intros [= <- <- <- <-]. exact Hm. }
  pose proof (load_servers_named available 0 (servers m)
                                 (servers_keyed m Hm) (servers_named m Hm)) as [Hkeys Hnamed].
  destruct (load_servers available 0 (servers m)) as [[count|e] table];
    simpl in Hkeys, Hnamed.
  2:{ intros [= <- <- <- <-]. apply consistent_with_servers; assumption. }
  destruct (Nat.ltb 0 count).
  - intros Hrun.
    apply io_bind_Ret_inv in Hrun as (m1 & w1 & t1 & t2 & Hstart & Hret & ->).
    apply io_ret_inv in Hret as ([= -> ->] & _).
    unfold start_enabled_servers in Hstart.
    eapply consistent_start_each; [|exact Hstart].
    apply consistent_with_servers; assumption.
  - intros [= <- <- <- <-]. apply consistent_with_servers; assumption.
Qed.

End Named.

(** What a stop does. *)
Lemma stop_server_cases (name : string) (m : MCPManager) (w : W) :
  (dict_has name (connections m) = false /\ stop_server name m w = (Ret m, w, []))
  \/ exists c w',
      dict_get name (connections m) = Some c
      /\ stop_server name m w
         = (Ret {| servers := servers m;
                   connections := dict_del name (connections m);
                   tools := tools_without name (tools m) |}, w', []).
Proof.
  unfold stop_server, dict_has.
  destruct (dict_get name (connections m)) as [c|] eqn:Hc.
  - right. unfold connection_stop, io_bind, io_ret.
    destruct (cfg_server_type (conn_config c)); cbn; eauto.
  - left. split; reflexivity.
Qed.

Lemma tools_without_get (name : string) (registered : list (string * MCPTool))
      (key : string) :
  NoDup (dict_keys registered) ->
  dict_get key (tools_without name registered)
  = match dict_get key registered with
    | Some tool => if String.eqb (tool_server_name tool) name then None else Some tool
    | None => None
    end.
Proof.
  intros Hnd. unfold tools_without. rewrite dict_get_filter by exact Hnd.
  destruct (dict_get key registered) as [tool|]; [|reflexivity].
  simpl. destruct (String.eqb (tool_server_name tool) name); reflexivity.
Qed.

Lemma consistent_stop_server (name : string) (m : MCPManager) (w : W)
      (m' : MCPManager) (w' : W) (t : list event) :
  consistent m ->
  stop_server name m w = (Ret m', w', t) ->
  consistent m'.
Proof.
  intros Hm Hrun.
  destruct (stop_server_cases name m w) as [[_ E]|(c & w1 & Hc & E)];
    rewrite E in Hrun; injection Hrun as <- <- <-; [exact Hm|].
  destruct Hm as [Hk Hcs Ht Hs Hcn Htc]. split; simpl.
  - exact Hk.
  - apply dict_del_NoDup. exact Hcs.
  - apply dict_filter_NoDup. exact Ht.
  - exact Hs.
  - intros n c'. destruct (String.eqb_spec name n) as [<-|Hne].
    + rewrite dict_get_del_eq by exact Hcs. discriminate.
    + rewrite dict_get_del_ne by exact Hne. apply Hcn.
  - intros key tool. rewrite tools_without_get by exact Ht.
    destruct (dict_get key (tools m)) as [tool'|] eqn:Hget; [|discriminate].
    destruct (String.eqb_spec (tool_server_name tool') name) as [E'|Hne]; [discriminate|].
    intros [= <-]. destruct (Htc _ _ Hget) as [Hhas Horig]. split; [|exact Horig].
    unfold dict_has in *. rewrite dict_get_del_ne by congruence. exact Hhas.
Qed.

Lemma consistent_stop_each (names : list string) :
  forall (m : MCPManager) (w : W) (m' : MCPManager) (w' : W) (t : list event),
    consistent m ->
    stop_each names m w = (Ret m', w', t) ->
    consistent m'.
Proof.
  induction names as [|name names IH]; simpl; intros m w m' w' t Hm Hrun.
  - apply io_ret_inv in Hrun as (-> & _). exact Hm.
  - apply io_bind_Ret_inv in Hrun as (m1 & w1 & t1 & t2 & Hstop & Hrest & ->).
    eapply IH; [|exact Hrest]. eapply consistent_stop_server; eauto.
Qed.

Lemma consistent_reload (fs : FS) (m : MCPManager) (w : W)
      (m' : MCPManager) (w' : W) (t : list event) :
  tools_named_after_server ->
  reload_config fs m w = (Ret m', w', t) ->
  consistent m'.
Proof.
  intros Hannounced Hrun. unfold reload_config in Hrun.
  apply io_bind_Ret_inv in Hrun as (m1 & w1 & t1 & t2 & _ & Hrun & ->).
  apply io_bind_Ret_inv in Hrun as ([loaded m2] & w2 & t3 & t4 & Hload & Hret & ->).
  apply io_ret_inv in Hret as (-> & _).
  eapply consistent_load; [exact Hannounced|apply consistent_empty|exact Hload].
Qed.

Lemma built_consistent (m : MCPManager) :
  tools_named_after_server -> built m -> consistent m.
Proof.
  intros Hannounced Hbuilt.
  induction Hbuilt as [ | fs m w loaded m' w' t _ IH Hrun
                        | name m w started m' w' t _ IH Hrun
                        | name m w m' w' t _ IH Hrun
                        | m w m' w' t _ IH Hrun
                        | fs m w m' w' t _ IH Hrun
                        | name fs m w enabled fs' m' w' t _ IH Hrun
                        | name fs m w disabled fs' m' w' t _ IH Hrun ].
  - apply consistent_empty.
  - eapply consistent_load; eauto.
  - eapply consistent_start_server; eauto.
  - eapply consistent_stop_server; eauto.
  - eapply consistent_stop_each; eauto.
  - eapply consistent_reload; eauto.
  - unfold manager_enable_server in Hrun.
    destruct (Registry.enable_server name fs) as [[] fs1].
    + apply io_bind_Ret_inv in Hrun as (m1 & w1 & t1 & t2 & Hreload & Hret & ->).
      apply io_ret_inv in Hret as ([= _ _ ->] & _).
      eapply consistent_reload; eauto.
    + apply io_ret_inv in Hrun as ([= _ _ ->] & _). exact IH.
  - unfold manager_disable_server in Hrun.
    destruct (Registry.disable_server name fs) as [[] fs1].
    + apply io_bind_Ret_inv in Hrun as (m1 & w1 & t1 & t2 & Hstop & Hret & ->).
      apply io_ret_inv in Hret as ([= _ _ ->] & _).
      eapply consistent_stop_server; eauto.
    + apply io_ret_inv in Hrun as ([= _ _ ->] & _). exact IH.
Qed.

(** A call to a registered tool of a consistent manager reaches the
    adapter of the tool's server. *)
Lemma consistent_call_tool (m : MCPManager) (key : string) (tool : MCPTool)
      (arguments : json) :
  consistent m ->
  dict_get key (tools m) = Some tool ->
  exists connection original,
    key = tool_server_name tool +:+ "_" +:+ original
    /\ dict_get (tool_server_name tool) (connections m) = Some connection
    /\ cfg_name (conn_config connection) = tool_server_name tool
    /\ call_tool key arguments m = connection_call_tool connection original arguments.
Proof.
  intros [Hk Hcs Ht Hs Hcn Htc] Hget.
  destruct (Htc _ _ Hget) as [Hhas [original ->]].
  apply dict_has_true in Hhas as [connection Hconn].
  exists connection, original. split; [reflexivity|]. split; [exact Hconn|].
  split; [eapply Hcn; exact Hconn|].
  unfold call_tool. rewrite Hget, Hconn.
  rewrite <- append_assoc.
  rewrite remove_first_prefix. reflexivity.
Qed.

End Manager.

(** * The manager's methods *)

Section Status.
Context `{Runtime} {W : Type} `{ToolServers W} `{Processes W}.

Lemma dict_get_snoc {V} (k n : string) (v : V) (d : list (string * V)) :
  dict_get k (d ++ [(n, v)])
  = match dict_get k d with
    | Some x => Some x
    | None => if String.eqb k n then Some v else None
    end.
Proof.
  induction d as [|[k' v'] d IH]; simpl; [reflexivity|].
  destruct (String.eqb k k'); auto.
Qed.

Lemma get_status_get (m : MCPManager) (name : string) :
  NoDup (dict_keys (servers m)) ->
  dict_get name (get_status m) = option_map (status_of m name) (dict_get name (servers m)).
Proof.
  unfold get_status.
  induction (servers m) as [|[n s] l IH] using rev_ind; intros Hnd; [reflexivity|].
  rewrite foldl_app. simpl. unfold dict_keys in Hnd. rewrite map_app in Hnd.
  apply NoDup_app in Hnd as (Hl & Hfresh & _).
  rewrite dict_get_snoc.
  destruct (String.eqb_spec n name) as [->|Hne].
  - rewrite dict_get_set_eq.
    assert (dict_get name l = None) as ->.
    { apply dict_get_None_keys. intros Hin. apply (Hfresh _ Hin). left. }
    rewrite String.eqb_refl. reflexivity.
  - rewrite dict_get_set_ne by exact Hne. rewrite IH by exact Hl.
    destruct (dict_get name l); [reflexivity|].
    destruct (String.eqb_spec name n); [congruence|reflexivity].
Qed.

Lemma tools_without_count (name : string) (registered : list (string * MCPTool)) :
  List.filter (fun t => String.eqb (tool_server_name t) name)
              (dict_values (tools_without name registered)) = [].
Proof.
  unfold dict_values, tools_without.
  induction registered as [|[k t] l IH]; simpl; [reflexivity|].
  destruct (String.eqb (tool_server_name t) name) eqn:E; simpl; [exact IH|].
  rewrite E. exact IH.
Qed.

Lemma count_without_connection (m : MCPManager) (name : string) :
  consistent m ->
  dict_has name (connections m) = false ->
  List.filter (fun t => String.eqb (tool_server_name t) name) (dict_values (tools m)) = [].
Proof.
  intros Hm Hconn.
  assert (forall key tool, (key, tool) ∈ tools m -> tool_server_name tool <> name) as Hother.
  { intros key tool Hin E.
    apply (dict_get_NoDup _ _ _ (tools_keyed m Hm)) in Hin.
    apply (tools_connected m Hm) in Hin as [Hhas _]. congruence. }
  clear Hm. unfold dict_values. induction (tools m) as [|[k t] l IH]; simpl; [reflexivity|].
  destruct (String.eqb_spec (tool_server_name t) name) as [E|_].
  - exfalso. eapply Hother; [left|exact E].
  - apply IH. intros key tool Hin. eapply Hother. right. exact Hin.
Qed.

End Status.

Section Methods.
Context `{Runtime} {W : Type} `{ToolServers W} `{Processes W}.

Lemma start_server_connects
      (name : string) (m : MCPManager) (config : MCPServerConfig) (w w' : W)
      (announced : list MCPTool) :
  dict_get name (servers m) = Some config ->
  dict_has name (connections m) = false ->
  connection_ready config = true ->
  handshake config w = (Some announced, w') ->
  start_server name m w
  = (Ret (true,
          {| servers := servers m;
             connections :=
               dict_set name {| conn_config := config;
                                conn_tools := map (qualify name) announced |}
                        (connections m);
             tools := register_tools name announced (tools m) |}),
     w', [EvConnStart (cfg_name config)]).
Proof.
  intros Hcfg Hconn Hready Hhs.
  unfold start_server. rewrite Hcfg, Hconn, create_connection_new.
  unfold connection_start, io_bind, emit, io_ret. cbn.
  rewrite Hready, Hhs. reflexivity.
Qed.

(** X7: when [start_server] connects a server whose handshake announces
    tools made out to it, every announced tool is registered under the
    server's name, an underscore and its own name, and a call to the
    manager under that name asks the server's adapter for the tool by
    the name the server announced. *)
Theorem started_tool_is_called_by_its_announced_name
        (name : string) (m : MCPManager) (config : MCPServerConfig) (w w' : W)
        (announced : list MCPTool) (tool : MCPTool) (arguments : json) :
  dict_get name (servers m) = Some config ->
  dict_has name (connections m) = false ->
  connection_ready config = true ->
  handshake config w = (Some announced, w') ->
  Forall (fun t => tool_server_name t = name) announced ->
  tool ∈ announced ->
  exists m' connection,
    start_server name m w = (Ret (true, m'), w', [EvConnStart (cfg_name config)])
    /\ dict_has (name +:+ "_" +:+ tool_name tool) (tools m') = true
    /\ dict_get name (connections m') = Some connection
    /\ conn_config connection = config
    /\ call_tool (name +:+ "_" +:+ tool_name tool) arguments m'
       = connection_call_tool connection (tool_name tool) arguments.
Proof.
  intros Hcfg Hconn Hready Hhs Hall Hin.
  pose proof (start_server_connects name m config w w' announced Hcfg Hconn Hready Hhs) as E.
    destruct (register_tools_finds name announced (tools m) tool Hin)
      as (t' & Hin' & Hname & Hget).
    eexists _, _. split; [exact E|]. simpl.
    split; [unfold dict_has; rewrite Hget; reflexivity|].
    split; [apply dict_get_set_eq|]. split; [reflexivity|].
    unfold call_tool. simpl. rewrite Hget. simpl.
    rewrite Forall_forall in Hall. rewrite (Hall _ Hin').
    rewrite dict_get_set_eq.
    rewrite <- append_assoc, remove_first_prefix. reflexivity.
Qed.

(** X8: once [stop_server] has stopped the server of a registered tool,
    the server is no longer connected, a call to that tool is answered
    with the tool-does-not-exist text without any server being asked,
    and calls to the tools of the other servers go where they went. *)
Theorem stopped_server_tools_are_unknown
        (m : MCPManager) (key : string) (tool : MCPTool) (w : W) (arguments : json) :
  tools_named_after_server ->
  built m ->
  dict_get key (tools m) = Some tool ->
  exists m' w',
    stop_server (tool_server_name tool) m w = (Ret m', w', [])
    /\ servers m' = servers m
    /\ dict_has (tool_server_name tool) (connections m') = false
    /\ call_tool key arguments m' = io_ret (Some ("工具不存在: " +:+ key))
    /\ forall key' tool',
        dict_get key' (tools m) = Some tool' ->
        tool_server_name tool' <> tool_server_name tool ->
        call_tool key' arguments m' = call_tool key' arguments m.
Proof.
  intros Hannounced Hbuilt Hget.
  pose proof (built_consistent m Hannounced Hbuilt) as Hm.
  destruct (tools_connected m Hm _ _ Hget) as [Hhas _].
  destruct (stop_server_cases (tool_server_name tool) m w) as [[Hnone _]|(c & w' & Hc & E)];
    [congruence|].
  eexists _, w'. split; [exact E|]. simpl. split; [reflexivity|].
  split; [unfold dict_has; rewrite dict_get_del_eq by apply (connections_keyed m Hm);
          reflexivity|].
  split.
  - unfold call_tool. simpl. rewrite tools_without_get by apply (tools_keyed m Hm).
    rewrite Hget, String.eqb_refl. reflexivity.
  - intros key' tool' Hget' Hne. unfold call_tool. simpl.
    rewrite tools_without_get by apply (tools_keyed m Hm). rewrite Hget'.
    destruct (String.eqb_spec (tool_server_name tool') (tool_server_name tool));
      [contradiction|].
    rewrite dict_get_del_ne by congruence. reflexivity.
Qed.

(** X9: in a manager made by its own methods, a call to a registered
    tool never meets a server that is not connected: the name called is
    the name of the tool's server, an underscore and a rest, the server
    has a connection, made for a configuration of that name, and its
    adapter is asked for the rest. *)
Theorem registered_tool_call_reaches_its_server
        (m : MCPManager) (key : string) (tool : MCPTool) (arguments : json) :
  tools_named_after_server ->
  built m ->
  dict_get key (tools m) = Some tool ->
  exists connection original,
    key = tool_server_name tool +:+ "_" +:+ original
    /\ dict_get (tool_server_name tool) (connections m) = Some connection
    /\ cfg_name (conn_config connection) = tool_server_name tool
    /\ call_tool key arguments m = connection_call_tool connection original arguments.
Proof.
  intros Hannounced Hbuilt Hget.
  apply consistent_call_tool; [|exact Hget].
  apply built_consistent; assumption.
Qed.

(** X10: after the manager's [disable_server] has switched a loaded
    server off, [get_status] still reports it, as enabled, not running
    and with no tool. *)
Theorem disabled_server_is_still_reported_enabled
        (name : string) (fs fs' : FS) (m m' : MCPManager) (config : MCPServerConfig)
        (w w' : W) (t : list event) :
  tools_named_after_server ->
  built m ->
  dict_get name (servers m) = Some config ->
  manager_disable_server name fs m w = (Ret (true, fs', m'), w', t) ->
  dict_get name (get_status m')
  = Some {| status_type := cfg_server_type config;
            status_enabled := true;
            status_running := false;
            status_description := cfg_description config;
            status_tools_count := 0 |}.
Proof.
  intros Hannounced Hbuilt Hcfg Hrun.
  pose proof (built_consistent m Hannounced Hbuilt) as Hm.
  unfold manager_disable_server in Hrun.
  destruct (Registry.disable_server name fs) as [[] fs1].
  2:{ apply io_ret_inv in Hrun as ([=] & _). }
  apply io_bind_Ret_inv in Hrun as (m1 & w1 & t1 & t2 & Hstop & Hret & ->).
  apply io_ret_inv in Hret as ([= -> ->] & _).
  pose proof (consistent_stop_server _ _ _ _ _ _ Hm Hstop) as Hm1.
  destruct (stop_server_cases name m w) as [[Hnone E]|(c & w2 & Hc & E)];
    rewrite E in Hstop; injection Hstop as <- <- <-.
  - rewrite get_status_get by apply (servers_keyed m Hm). rewrite Hcfg. simpl.
    unfold status_of. rewrite Hnone, count_without_connection by assumption.
    destruct (servers_named m Hm _ _ Hcfg) as [_ ->]. reflexivity.
  - rewrite get_status_get by apply (servers_keyed m Hm). simpl. rewrite Hcfg. simpl.
    unfold status_of. simpl. rewrite tools_without_count.
    unfold dict_has. rewrite dict_get_del_eq by apply (connections_keyed m Hm).
    destruct (servers_named m Hm _ _ Hcfg) as [_ ->]. reflexivity.
Qed.

Lemma stop_each_all (l : list (string * Connection)) :
  forall (m : MCPManager) (w : W),
    connections m = l ->
    consistent m ->
    exists m' w',
      stop_each (dict_keys l) m w = (Ret m', w', [])
      /\ servers m' = servers m /\ connections m' = [] /\ consistent m'.
Proof.
  induction l as [|[name c] l IH]; intros m w Hl Hm.
  - exists m, w. simpl. auto.
  - simpl. rewrite io_bind_run.
    destruct (stop_server_cases name m w) as [[Hnone _]|(c' & w1 & Hc & E)].
    { unfold dict_has in Hnone. rewrite Hl in Hnone. simpl in Hnone.
      rewrite String.eqb_refl in Hnone. discriminate. }
    rewrite E. simpl.
    pose proof (consistent_stop_server _ _ _ _ _ _ Hm E) as Hm1.
    assert (dict_del name (connections m) = l) as Hdel.
    { rewrite Hl. cbn [dict_del]. rewrite String.eqb_refl. reflexivity. }
    destruct (IH {| servers := servers m;
                    connections := dict_del name (connections m);
                    tools := tools_without name (tools m) |} w1 Hdel Hm1)
      as (m' & w' & Hrun & Hs & Hcs & Hm').
    rewrite Hrun. exists m', w'. simpl. auto.
Qed.

(** X11: [stop_all_servers] leaves a manager made by its own methods
    with no connection and no registered tool, and with the table of
    configurations it had. *)
Theorem stop_all_servers_leaves_nothing_running (m : MCPManager) (w : W) :
  tools_named_after_server ->
  built m ->
  exists m' w',
    stop_all_servers m w = (Ret m', w', [])
    /\ servers m' = servers m
    /\ connections m' = []
    /\ tools m' = [].
Proof.
  intros Hannounced Hbuilt.
  pose proof (built_consistent m Hannounced Hbuilt) as Hm.
  destruct (stop_each_all (connections m) m w eq_refl Hm) as (m' & w' & Hrun & Hs & Hcs & Hm').
  exists m', w'. unfold stop_all_servers. split; [exact Hrun|].
  split; [exact Hs|]. split; [exact Hcs|].
  destruct (tools m') as [|[k tool] rest] eqn:Ht; [reflexivity|].
  destruct (tools_connected m' Hm' k tool) as [Hhas _].
  - rewrite Ht. simpl. rewrite String.eqb_refl. reflexivity.
  - rewrite Hcs in Hhas. discriminate.
Qed.

End Methods.

(** * Witnesses *)

Lemma announcing_names_its_tools :
  tools_named_after_server (H0 := Scripted.announcing).
Proof.
  intros config w tools w' [= <- <-]. constructor; [reflexivity|constructor].
Qed.

Lemma searching_built :
  built (H0 := Scripted.announcing) (H1 := Scripted.processes) Scripted.searching.
Proof.
  eapply (built_load (H0 := Scripted.announcing) (H1 := Scripted.processes)
                     Scripted.search_fs empty_manager (Scripted.world [] [] None)).
  - apply built_new.
  - vm_compute. reflexivity.
Qed.

Lemma searching_s_t :
  dict_get "s_t" (tools Scripted.searching) = Some (qualify "s" (Scripted.announced_t Scripted.server_s)).
Proof. vm_compute. reflexivity. Qed.

Lemma started_tool_is_called_by_its_announced_name_witness :
  exists m' connection,
    start_server (H0 := Scripted.announcing) "s"
                 (with_servers [("s", Scripted.server_s)] empty_manager)
                 (Scripted.world [] [] None)
    = (Ret (true, m'), Scripted.world [] [] None, [EvConnStart "s"])
    /\ dict_has "s_t" (tools m') = true
    /\ dict_get "s" (connections m') = Some connection
    /\ conn_config connection = Scripted.server_s
    /\ call_tool (H := Scripted.runtime) (H0 := Scripted.announcing) "s_t" (JObj []) m'
       = connection_call_tool (H := Scripted.runtime) (H0 := Scripted.announcing)
                              connection "t" (JObj []).
Proof.
  apply (started_tool_is_called_by_its_announced_name
           (H := Scripted.runtime) (H0 := Scripted.announcing)
           "s" (with_servers [("s", Scripted.server_s)] empty_manager) Scripted.server_s
           (Scripted.world [] [] None) (Scripted.world [] [] None)
           [Scripted.announced_t Scripted.server_s]
           (Scripted.announced_t Scripted.server_s) (JObj [])).
  - reflexivity.
  - reflexivity.
  - reflexivity.
  - reflexivity.
  - constructor; [reflexivity|constructor].
  - left.
Defined.

Lemma stopped_server_tools_are_unknown_witness :
  exists m' w',
    stop_server (H1 := Scripted.processes) "s" Scripted.searching (Scripted.world [] [] None)
    = (Ret m', w', [])
    /\ servers m' = servers Scripted.searching
    /\ dict_has "s" (connections m') = false
    /\ call_tool (H := Scripted.runtime) (H0 := Scripted.announcing) "s_t" (JObj []) m'
       = io_ret (Some ("工具不存在: " +:+ "s_t"))
    /\ forall key' tool',
        dict_get key' (tools Scripted.searching) = Some tool' ->
        tool_server_name tool' <> "s" ->
        call_tool (H := Scripted.runtime) (H0 := Scripted.announcing) key' (JObj []) m'
        = call_tool (H := Scripted.runtime) (H0 := Scripted.announcing)
                    key' (JObj []) Scripted.searching.
Proof.
  apply (stopped_server_tools_are_unknown
           (H := Scripted.runtime) (H0 := Scripted.announcing) (H1 := Scripted.processes)
           Scripted.searching "s_t" (qualify "s" (Scripted.announced_t Scripted.server_s))
           (Scripted.world [] [] None) (JObj [])).
  - exact announcing_names_its_tools.
  - exact searching_built.
  - exact searching_s_t.
Defined.

Lemma registered_tool_call_reaches_its_server_witness :
  exists connection original,
    "s_t" = "s" +:+ "_" +:+ original
    /\ dict_get "s" (connections Scripted.searching) = Some connection
    /\ cfg_name (conn_config connection) = "s"
    /\ call_tool (H := Scripted.runtime) (H0 := Scripted.announcing)
                 "s_t" (JObj []) Scripted.searching
       = connection_call_tool (H := Scripted.runtime) (H0 := Scripted.announcing)
                              connection original (JObj []).
Proof.
  apply (registered_tool_call_reaches_its_server
           (H := Scripted.runtime) (H0 := Scripted.announcing) (H1 := Scripted.processes)
           Scripted.searching "s_t" (qualify "s" (Scripted.announced_t Scripted.server_s))
           (JObj [])).
  - exact announcing_names_its_tools.
  - exact searching_built.
  - exact searching_s_t.
Defined.

Lemma disabled_server_is_still_reported_enabled_witness :
  dict_get "s"
           (get_status
              {| servers := servers Scripted.searching; connections := []; tools := [] |})
  = Some {| status_type := SSE;
            status_enabled := true;
            status_running := false;
            status_description := JStr "search";
            status_tools_count := 0 |}.
Proof.
  apply (disabled_server_is_still_reported_enabled
           (H0 := Scripted.announcing) (H1 := Scripted.processes)
           "s" Scripted.search_fs
           (Registry.disable_server "s" Scripted.search_fs).2
           Scripted.searching
           {| servers := servers Scripted.searching; connections := []; tools := [] |}
           {| cfg_name := "s"; cfg_server_type := SSE; cfg_description := JStr "search";
              cfg_enabled := true; cfg_command := JNull; cfg_args := None;
              cfg_env := JNull; cfg_url := JStr "http://localhost:9000/sse";
              cfg_headers := JNull |}
           (Scripted.world [] [] None) (Scripted.world [] [] None) []).
  - exact announcing_names_its_tools.
  - exact searching_built.
  - vm_compute. reflexivity.
  - vm_compute. reflexivity.
Defined.

Lemma stop_all_servers_leaves_nothing_running_witness :
  exists m' w',
    stop_all_servers (H1 := Scripted.processes) Scripted.searching (Scripted.world [] [] None)
    = (Ret m', w', [])
    /\ servers m' = servers Scripted.searching
    /\ connections m' = []
    /\ tools m' = [].
Proof.
  apply (stop_all_servers_leaves_nothing_running
           (H0 := Scripted.announcing) (H1 := Scripted.processes)
           Scripted.searching (Scripted.world [] [] None)).
  - exact announcing_names_its_tools.
  - exact searching_built.
Defined.

(* ================================================================= *)
(** * The proxies: settings and access keys *)

(** * The settings files *)

Section Settings.
Import Jsonc.

(** ** Block comments *)

Lemma closes_end (body after : string) :
  closes (body +:+ "*/" +:+ after) = true.
Proof.
  induction body as [|c body IH].
  - reflexivity.
  - rewrite append_cons. cbn [closes].
    destruct (body +:+ "*/" +:+ after) eqn:E.
    + destruct body; discriminate.
    + rewrite IH. apply orb_true_r.
Qed.

Lemma remove_from_inside (body after : string) :
  closes body = false ->
  remove_from true (body +:+ "*/" +:+ after) = remove_from false after.
Proof.
  induction body as [|c body IH]; intros Hbody.
  - rewrite append_nil_l. reflexivity.
  - rewrite append_cons. cbn [remove_from].
    destruct body as [|c' body].
    + rewrite append_nil_l. rewrite append_cons.
      replace (is_chr 47 "*") with false by reflexivity.
      rewrite andb_false_r.
      change ("*/" +:+ after) with (String "*" (String "/" after)) in IH.
      rewrite append_nil_l in IH. apply IH. reflexivity.
    + rewrite append_cons. cbn [closes] in Hbody.
      apply orb_false_elim in Hbody as [Hhere Hbody].
      rewrite Hhere. rewrite append_cons in IH. apply IH. exact Hbody.
Qed.

Lemma remove_from_outside (before rest : string) :
  no_block_start before = true ->
  (before <> "" -> exists c r, rest = String c r /\ is_chr 42 c = false) ->
  remove_from false (before +:+ rest) = before +:+ remove_from false rest.
Proof.
  induction before as [|c before IH]; intros Hbefore Hrest.
  - rewrite !append_nil_l. reflexivity.
  - cbn [no_block_start] in Hbefore.
    apply andb_true_iff in Hbefore as [Hhere Hbefore].
    rewrite (append_cons c before rest), (append_cons c before (remove_from false rest)).
    destruct before as [|c' before].
    + rewrite !append_nil_l in *.
      destruct Hrest as (c0 & r & -> & Hc0); [discriminate|].
      cbn [remove_from]. rewrite Hc0, andb_false_r. simpl. reflexivity.
    + specialize (IH Hbefore ltac:(intros _; apply Hrest; discriminate)).
      rewrite append_cons in IH |- *. cbn [remove_from].
      apply negb_true_iff in Hhere. rewrite Hhere. simpl.
      f_equal. exact IH.
Qed.

(** ** Line comments *)

Lemma substring_prefix (a b : string) : String.substring 0 (String.length a) (a +:+ b) = a.
Proof.
  induction a as [|c a IH].
  - rewrite append_nil_l. destruct b; reflexivity.
  - rewrite append_cons. cbn [String.length String.substring]. rewrite IH. reflexivity.
Qed.

Lemma substring_at (a s b : string) :
  String.substring (String.length a) (String.length s) (a +:+ s +:+ b) = s.
Proof.
  induction a as [|c a IH].
  - rewrite append_nil_l. apply substring_prefix.
  - rewrite append_cons. cbn [String.length String.substring]. exact IH.
Qed.

Lemma has_slashes_here (a b : string) : has_slashes (a +:+ "//" +:+ b) = true.
Proof.
  unfold has_slashes.
  destruct (String.index 0 "//" (a +:+ "//" +:+ b)) eqn:E; [reflexivity|].
  exfalso.
  apply (index_correct3 0 (String.length a) "//" (a +:+ "//" +:+ b) E);
    [discriminate|lia|].
  apply (substring_at a "//" b).
Qed.

(** The scan of a text outside a string that holds no quote and no slash. *)
Lemma find_comment_plain (text rest : string) (i : nat) (previous : option ascii) :
  plain text = true ->
  unescaped previous = true ->
  exists previous',
    unescaped previous' = true
    /\ find_comment i previous false None (text +:+ rest)
       = find_comment (i + String.length text) previous' false None rest.
Proof.
  revert i previous. induction text as [|c text IH]; intros i previous Hplain Hprev.
  - exists previous. rewrite append_nil_l, Nat.add_0_r. auto.
  - cbn [plain] in Hplain.
    apply andb_true_iff in Hplain as [Hc Hplain].
    apply andb_true_iff in Hc as [Hc Hback].
    apply andb_true_iff in Hc as [Hquote Hslash].
    apply negb_true_iff in Hquote, Hslash.
    destruct (IH (S i) (Some c) Hplain Hback) as (previous' & Hprev' & Hscan).
    exists previous'. split; [exact Hprev'|].
    rewrite append_cons. cbn [find_comment]. rewrite Hquote, Hslash. simpl.
    rewrite Hscan. f_equal. simpl. lia.
Qed.

(** The scan of a text inside a double-quoted string. *)
Lemma find_comment_quoted (quoted rest : string) (i : nat) (previous : option ascii) :
  quotable quoted = true ->
  unescaped previous = true ->
  exists previous',
    unescaped previous' = true
    /\ find_comment i previous true (Some (chr 34)) (quoted +:+ rest)
       = find_comment (i + String.length quoted) previous' true (Some (chr 34)) rest.
Proof.
  revert i previous. induction quoted as [|c quoted IH]; intros i previous Hq Hprev.
  - exists previous. rewrite append_nil_l, Nat.add_0_r. auto.
  - cbn [quotable] in Hq.
    apply andb_true_iff in Hq as [Hc Hq].
    apply andb_true_iff in Hc as [Hdouble Hback].
    apply negb_true_iff in Hdouble.
    destruct (IH (S i) (Some c) Hq Hback) as (previous' & Hprev' & Hscan).
    exists previous'. split; [exact Hprev'|].
    rewrite append_cons. cbn [find_comment].
    assert (same_quote (Some (chr 34)) c = false) as Hsame.
    { unfold same_quote. apply Ascii.eqb_neq. intros ->. discriminate. }
    rewrite Hsame, andb_false_r. simpl.
    replace (i + S (String.length quoted)) with (S i + String.length quoted) by lia.
    destruct (is_quote c && unescaped previous); exact Hscan.
Qed.

Lemma find_comment_code (segments : list (string * string)) (last rest : string) :
  forallb code_segment segments = true ->
  plain last = true ->
  forall (i : nat) (previous : option ascii),
    unescaped previous = true ->
    exists previous',
      unescaped previous' = true
      /\ find_comment i previous false None (code_line segments last +:+ rest)
         = find_comment (i + String.length (code_line segments last))
                        previous' false None rest.
Proof.
  intros Hsegs Hlast.
  induction segments as [|[text quoted] segments IH]; intros i previous Hprev.
  - apply find_comment_plain; assumption.
  - cbn [forallb] in Hsegs. apply andb_true_iff in Hsegs as [Hseg Hsegs].
    unfold code_segment in Hseg. simpl in Hseg.
    apply andb_true_iff in Hseg as [Htext Hquoted].
    cbn [code_line]. rewrite !append_assoc.
    destruct (find_comment_plain text
                (double_quote +:+ quoted +:+ double_quote
                              +:+ code_line segments last +:+ rest)
                i previous Htext Hprev) as (p1 & Hp1 & ->).
    unfold double_quote at 1. rewrite append_cons, append_nil_l.
    cbn [find_comment].
    replace (is_quote (chr 34)) with true by reflexivity. rewrite Hp1. simpl.
    destruct (find_comment_quoted quoted
                (double_quote +:+ code_line segments last +:+ rest)
                (S (i + String.length text)) (Some (chr 34)) Hquoted eq_refl)
      as (p2 & Hp2 & ->).
    unfold double_quote at 1. rewrite append_cons, append_nil_l.
    cbn [find_comment].
    replace (is_quote (chr 34)) with true by reflexivity. rewrite Hp2. simpl.
    destruct (IH Hsegs
                (S (S (i + String.length text + String.length quoted)))
                (Some (chr 34)) eq_refl) as (p3 & Hp3 & ->).
    exists p3. split; [exact Hp3|]. f_equal.
    rewrite !length_append. unfold double_quote. simpl. lia.
Qed.

(** ** The merge *)

Lemma merge_defaults_dict (items : list (string * json)) :
  forall settings : list (string * json),
  exists merged,
    merge_defaults items (JObj settings) = Ret (JObj merged)
    /\ forall key,
      dict_get key merged
      = match dict_get key settings with
        | Some value => Some value
        | None => dict_get key items
        end.
Proof.
  induction items as [|[k v] items IH]; intros settings.
  - exists settings. split; [reflexivity|]. intros key. destruct (dict_get key settings); reflexivity.
  - cbn [merge_defaults py_contains py_bind]. unfold dict_has.
    destruct (dict_get k settings) as [present|] eqn:Hk.
    + destruct (IH settings) as (merged & Hrun & Hget).
      exists merged. split; [exact Hrun|]. intros key. rewrite Hget.
      destruct (dict_get key settings) eqn:Hkey; [reflexivity|].
      cbn [dict_get]. destruct (String.eqb_spec key k) as [->|_]; [congruence|reflexivity].
    + cbn [py_setitem py_bind].
      destruct (IH (dict_set k v settings)) as (merged & Hrun & Hget).
      exists merged. split; [exact Hrun|]. intros key. rewrite Hget.
      cbn [dict_get]. destruct (String.eqb_spec key k) as [->|Hne].
      * rewrite dict_get_set_eq, Hk. reflexivity.
      * rewrite dict_get_set_ne by congruence. reflexivity.
Qed.

Lemma shown_dict (key : string) (settings : list (string * json)) :
  shown key (JObj settings) = Ret tt.
Proof.
  unfold shown. cbn [py_contains py_bind]. unfold dict_has.
  destruct (dict_get key settings) eqn:E; [|reflexivity].
  cbn [py_getitem]. rewrite E. reflexivity.
Qed.

Lemma merge_defaults_other (items : list (string * json)) (config : json) :
  is_dict config = false ->
  dict_has "port" items = true ->
  py_contains "port" config = Ret false ->
  exists e, merge_defaults items config = Raise e.
Proof.
  intros Hconfig Hport Habsent.
  induction items as [|[k v] items IH]; [discriminate|].
  cbn [merge_defaults].
  destruct (py_contains k config) as [[]|e] eqn:Hk; cbn [py_bind]; [| |eauto].
  - apply IH. unfold dict_has in *. cbn [dict_get] in Hport.
    destruct (String.eqb_spec "port" k) as [<-|_]; [congruence|exact Hport].
  - destruct config; try discriminate; cbn [py_setitem py_bind]; eauto.
Qed.

Lemma parse_and_merge_other (default_config : list (string * json)) (content : string)
      (config : json) :
  dict_has "port" default_config = true ->
  json_loads (strip_comments content) = Some config ->
  is_dict config = false ->
  exists e, parse_and_merge default_config content = Raise e.
Proof.
  intros Hport Hparse Hconfig. unfold parse_and_merge. rewrite Hparse.
  unfold shown at 1.
  destruct (py_contains "port" config) as [[]|e] eqn:Hcontains; cbn [py_bind]; [| |eauto].
  - destruct config; try discriminate; cbn [py_getitem py_bind]; eauto.
  - destruct (shown "host" config) as [[]|e]; cbn [py_bind]; [|eauto].
    apply merge_defaults_other; assumption.
Qed.

End Settings.

(** X12: when the settings file, its comments removed, is a JSON object,
    [load_config] returns an object in which every key of the file has
    the file's value and every other key its default, if it has one. *)
Theorem settings_file_values_win_over_defaults
        (default_config settings : list (string * json)) (content : string) :
  json_loads (Jsonc.strip_comments content) = Some (JObj settings) ->
  exists merged,
    Jsonc.load_config default_config (Text content) = JObj merged
    /\ forall key,
      dict_get key merged
      = match dict_get key settings with
        | Some value => Some value
        | None => dict_get key default_config
        end.
Proof.
  intros Hparse. unfold Jsonc.load_config, Jsonc.parse_and_merge. rewrite Hparse.
  rewrite !shown_dict. cbn [py_bind].
  destruct (merge_defaults_dict default_config settings) as (merged & -> & Hget).
  exists merged. split; [reflexivity|exact Hget].
Qed.

Lemma settings_file_values_win_over_defaults_witness :
  exists merged,
    Gemini.load_config
      (Text (json_dumps true (JObj [("port", JInt 9000)]) +:+ " // the local port"))
    = JObj merged
    /\ forall key,
      dict_get key merged
      = match dict_get key [("port", JInt 9000)] with
        | Some value => Some value
        | None => dict_get key Gemini.default_config
        end.
Proof.
  apply (settings_file_values_win_over_defaults
           Gemini.default_config [("port", JInt 9000)]
           (json_dumps true (JObj [("port", JInt 9000)]) +:+ " // the local port")).
  vm_compute. reflexivity.
Defined.

(** X13: whatever the settings file is (missing, unreadable, not JSON,
    JSON but no object, or an object), [load_config] with defaults that
    name a port returns an object that has every key of the defaults. *)
Theorem load_config_always_has_the_defaults
        (default_config : list (string * json)) (settings : file) :
  dict_has "port" default_config = true ->
  exists config,
    Jsonc.load_config default_config settings = JObj config
    /\ forall key,
      dict_has key default_config = true -> dict_has key config = true.
Proof.
  intros Hport. unfold Jsonc.load_config.
  destruct settings as [|before|content]; try (exists default_config; split; auto; fail).
  destruct (json_loads (Jsonc.strip_comments content)) as [parsed|] eqn:Hparse.
  2:{ unfold Jsonc.parse_and_merge. rewrite Hparse. exists default_config. split; auto. }
  destruct (is_dict parsed) eqn:Hdict.
  - destruct parsed as [| | | | | |given]; try discriminate.
    unfold Jsonc.parse_and_merge. rewrite Hparse, !shown_dict. cbn [py_bind].
    destruct (merge_defaults_dict default_config given) as (merged & -> & Hget).
    exists merged. split; [reflexivity|]. intros key. unfold dict_has. rewrite Hget.
    destruct (dict_get key given); [reflexivity|auto].
  - destruct (parse_and_merge_other default_config content parsed Hport Hparse Hdict)
      as [e ->].
    exists default_config. split; auto.
Qed.

Lemma load_config_always_has_the_defaults_witness :
  exists config,
    DeepSeek.load_config (Text "[1, 2]") = JObj config
    /\ forall key,
      dict_has key DeepSeek.default_config = true -> dict_has key config = true.
Proof.
  apply (load_config_always_has_the_defaults DeepSeek.default_config (Text "[1, 2]")).
  reflexivity.
Defined.

(** X14: on a line made of texts without quotes, slashes and backslashes
    that alternate with double-quoted texts without double quotes and
    backslashes, the line-comment pass leaves the line as it is, slashes
    inside the quotes included, and cuts a comment appended to it. *)
Theorem line_comment_is_cut_and_quoted_slashes_stay
        (segments : list (string * string)) (last comment : string) :
  forallb Jsonc.code_segment segments = true ->
  Jsonc.plain last = true ->
  Jsonc.strip_line_comment (Jsonc.code_line segments last) = Jsonc.code_line segments last
  /\ Jsonc.strip_line_comment (Jsonc.code_line segments last +:+ "//" +:+ comment)
     = Jsonc.code_line segments last.
Proof.
  intros Hsegs Hlast. split.
  - unfold Jsonc.strip_line_comment.
    destruct (Jsonc.has_slashes (Jsonc.code_line segments last)); [|reflexivity].
    destruct (find_comment_code segments last "" Hsegs Hlast 0 None eq_refl)
      as (p & _ & E).
    rewrite append_nil_r in E. rewrite E. reflexivity.
  - unfold Jsonc.strip_line_comment. rewrite has_slashes_here.
    destruct (find_comment_code segments last ("//" +:+ comment) Hsegs Hlast 0 None eq_refl)
      as (p & _ & E).
    rewrite E. change ("//" +:+ comment) with (String "/" (String "/" comment)).
    cbn [Jsonc.find_comment]. simpl.
    apply substring_prefix.
Qed.

Lemma line_comment_is_cut_and_quoted_slashes_stay_witness :
  Jsonc.strip_line_comment
    (Jsonc.code_line [("  ", "url"); (": ", "https://example.org/v1")] ", ")
  = Jsonc.code_line [("  ", "url"); (": ", "https://example.org/v1")] ", "
  /\ Jsonc.strip_line_comment
       (Jsonc.code_line [("  ", "url"); (": ", "https://example.org/v1")] ", "
                        +:+ "//" +:+ " the upstream")
     = Jsonc.code_line [("  ", "url"); (": ", "https://example.org/v1")] ", ".
Proof.
  apply (line_comment_is_cut_and_quoted_slashes_stay
           [("  ", "url"); (": ", "https://example.org/v1")] ", " " the upstream");
    reflexivity.
Defined.

(** X15: a block comment that follows a text without the start of one
    is removed with its delimiters, over as many lines as it spans, and
    the removal goes on behind it. *)
Theorem block_comment_is_removed (before body after : string) :
  Jsonc.no_block_start before = true ->
  Jsonc.closes body = false ->
  Jsonc.remove_block_comments (before +:+ "/*" +:+ body +:+ "*/" +:+ after)
  = before +:+ Jsonc.remove_block_comments after.
Proof.
  intros Hbefore Hbody. unfold Jsonc.remove_block_comments.
  rewrite remove_from_outside; [|exact Hbefore|].
  2:{ intros _. exists "/"%char, ("*" +:+ body +:+ "*/" +:+ after). split; reflexivity. }
  f_equal.
  change ("/*" +:+ body +:+ "*/" +:+ after)
    with (String "/" (String "*" (body +:+ "*/" +:+ after))).
  cbn [Jsonc.remove_from].
  replace (is_chr 47 "/") with true by reflexivity.
  replace (is_chr 42 "*") with true by reflexivity.
  rewrite closes_end. simpl.
  apply remove_from_inside. exact Hbody.
Qed.

Lemma block_comment_is_removed_witness :
  Jsonc.remove_block_comments
    ("{" +:+ "/*" +:+ (" the port" +:+ nl +:+ " of the proxy ") +:+ "*/" +:+ "}")
  = "{" +:+ Jsonc.remove_block_comments "}".
Proof.
  apply (block_comment_is_removed "{" (" the port" +:+ nl +:+ " of the proxy ") "}");
    reflexivity.
Defined.

(** * Access keys *)

Lemma listed_key (keys : list json) (user_key : string) :
  existsb (fun x => json_eqb_str x user_key) keys = true <-> JStr user_key ∈ keys.
Proof.
  rewrite existsb_exists. split.
  - intros (x & Hin & Heq). destruct x; try discriminate.
    simpl in Heq. apply String.eqb_eq in Heq. subst. apply list_elem_of_In. exact Hin.
  - intros Hin. exists (JStr user_key). split; [apply list_elem_of_In; exact Hin|].
    simpl. apply String.eqb_refl.
Qed.

(** X16: with access keys listed and the callers' own API keys not
    allowed, the Gemini proxy accepts a key only if it is one of the
    listed access keys, and then the key it uses upstream is the
    configured API key, which is set. *)
Theorem closed_proxy_accepts_listed_keys_only
        (CONFIG : list (string * json)) (keys : list json) (user_key : string)
        (api_key : option json) (message : option string) :
  dict_get "access_keys" CONFIG = Some (JArr keys) ->
  keys <> [] ->
  dict_get "allow_user_api_key" CONFIG = Some (JBool false) ->
  Gemini.validate_access_key CONFIG user_key = Ret (true, api_key, message) ->
  JStr user_key ∈ keys
  /\ api_key = dict_get "api_key" CONFIG
  /\ (exists configured, api_key = Some configured /\ truthy configured = true)
  /\ message = None.
Proof.
  intros Hkeys Hsome Hallow. unfold Gemini.validate_access_key, dict_get_or.
  rewrite Hkeys, Hallow.
  destruct keys as [|k keys]; [congruence|]. cbn [truthy negb py_contains py_bind].
  destruct (existsb (fun x => json_eqb_str x user_key) (k :: keys)) eqn:Hlisted.
  - apply listed_key in Hlisted.
    destruct (dict_get "api_key" CONFIG) as [configured|] eqn:Hapi.
    + destruct (truthy configured) eqn:Htruthy; intros [= <- <-]; eauto 10.
    + simpl. discriminate.
  - discriminate.
Qed.

Lemma closed_proxy_accepts_listed_keys_only_witness :
  JStr "door" ∈ [JStr "door"]
  /\ Some (JStr "upstream")
     = dict_get "api_key" [("access_keys", JArr [JStr "door"]);
                           ("allow_user_api_key", JBool false);
                           ("api_key", JStr "upstream")]
  /\ (exists configured, Some (JStr "upstream") = Some configured
                         /\ truthy configured = true)
  /\ @None string = None.
Proof.
  apply (closed_proxy_accepts_listed_keys_only
           [("access_keys", JArr [JStr "door"]);
            ("allow_user_api_key", JBool false);
            ("api_key", JStr "upstream")]
           [JStr "door"] "door" (Some (JStr "upstream")) None).
  - reflexivity.
  - discriminate.
  - reflexivity.
  - reflexivity.
Defined.

(** X17: while the callers' own API keys are allowed, which is the
    default, a list of access keys shuts nobody out of the Gemini proxy:
    a key that is not listed is accepted and used upstream as it is. *)
Theorem open_proxy_accepts_unlisted_keys
        (CONFIG : list (string * json)) (keys : list json) (user_key : string) :
  dict_get "access_keys" CONFIG = Some (JArr keys) ->
  dict_get_or "allow_user_api_key" (JBool true) CONFIG = JBool true ->
  JStr user_key ∉ keys ->
  user_key <> "" ->
  Gemini.validate_access_key CONFIG user_key = Ret (true, Some (JStr user_key), None).
Proof.
  intros Hkeys Hallow Hunlisted Hkey. unfold Gemini.validate_access_key.
  rewrite Hallow.
  replace (dict_get_or "access_keys" (JArr []) CONFIG) with (JArr keys)
    by (unfold dict_get_or; rewrite Hkeys; reflexivity).
  assert (truthy (JStr user_key) = true) as Htruthy.
  { simpl. apply negb_true_iff. apply String.eqb_neq. exact Hkey. }
  rewrite Htruthy.
  destruct keys as [|k keys]; cbn [truthy negb andb py_contains py_bind].
  - reflexivity.
  - destruct (existsb (fun x => json_eqb_str x user_key) (k :: keys)) eqn:Hlisted;
      [|reflexivity].
    apply listed_key in Hlisted. contradiction.
Qed.

Lemma open_proxy_accepts_unlisted_keys_witness :
  Gemini.validate_access_key
    [("access_keys", JArr [JStr "door"]); ("api_key", JStr "upstream")] "guess"
  = Ret (true, Some (JStr "guess"), None).
Proof.
  apply (open_proxy_accepts_unlisted_keys
           [("access_keys", JArr [JStr "door"]); ("api_key", JStr "upstream")]
           [JStr "door"] "guess").
  - reflexivity.
  - reflexivity.
  - intros Hin. apply list_elem_of_singleton in Hin. discriminate.
  - discriminate.
Defined.

Lemma strip_prefix_Some (p s r : string) : strip_prefix p s = Some r -> s = p +:+ r.
Proof.
  revert s. induction p as [|a p IH]; intros s Hs.
  - simpl in Hs. injection Hs as ->. reflexivity.
  - destruct s as [|b s]; [discriminate|]. cbn [strip_prefix] in Hs.
    destruct (Ascii.eqb_spec a b) as [->|]; [|discriminate].
    rewrite append_cons. f_equal. apply IH. exact Hs.
Qed.

(** X18: the DeepSeek proxy refuses every header that does not start
    with the bearer prefix, whatever the settings, and treats the rest
    of one that does as the Gemini proxy treats its key. *)
Theorem deepseek_validates_the_bearer_token
        (CONFIG : list (string * json)) (auth_header : string) :
  match strip_prefix "Bearer " auth_header with
  | None =>
      DeepSeek.validate_access_key CONFIG auth_header
      = Ret (false, None, Some "Missing or invalid Authorization header")
  | Some user_key =>
      auth_header = "Bearer " +:+ user_key
      /\ DeepSeek.validate_access_key CONFIG auth_header
         = Gemini.validate_access_key CONFIG user_key
  end.
Proof.
  unfold DeepSeek.validate_access_key, Gemini.validate_access_key.
  destruct (strip_prefix "Bearer " auth_header) as [user_key|] eqn:Hprefix; [|reflexivity].
  split; [|reflexivity].
  apply strip_prefix_Some. exact Hprefix.
Qed.

(** * The base URL *)

Lemma before_last_short (sep s : string) :
  String.length s < String.length sep -> DeepSeek.before_last sep s = None.
Proof.
  induction s as [|c s IH]; intros Hlen; [reflexivity|].
  cbn [DeepSeek.before_last]. rewrite IH by (simpl in Hlen; lia).
  destruct (String.prefix sep (String c s)) eqn:Hp; [|reflexivity].
  apply prefix_correct in Hp.
  assert (String.length (String.substring 0 (String.length sep) (String c s))
          = String.length sep) as E by (rewrite Hp; reflexivity).
  clear Hp IH. exfalso.
  revert E Hlen. generalize (String c s). intros t. revert sep.
  induction t as [|a t IH]; intros [|b sep]; simpl; intros E Hlen; try lia.
  apply (IH sep); [simpl in E; lia|lia].
Qed.

Lemma prefix_refl (s : string) : String.prefix s s = true.
Proof.
  induction s as [|c s IH]; [reflexivity|].
  simpl. destruct (ascii_dec c c); [exact IH|contradiction].
Qed.

Lemma before_last_append (sep base : string) :
  sep <> "" -> DeepSeek.before_last sep (base +:+ sep) = Some base.
Proof.
  intros Hsep. induction base as [|c base IH].
  - rewrite append_nil_l. destruct sep as [|a sep]; [contradiction|].
    cbn [DeepSeek.before_last]. rewrite before_last_short by (simpl; lia).
    change (if String.prefix (String a sep) (String a sep) then Some "" else None)
      with (if String.prefix (String a sep) (String a sep) then Some "" else @None string).
    rewrite prefix_refl. reflexivity.
  - rewrite append_cons. cbn [DeepSeek.before_last]. rewrite IH. reflexivity.
Qed.

(** X19: of a chat URL that ends with the path of the chat completions,
    [get_base_url_from_chat_url] returns what stands before that path,
    also when the path occurs in it more than once. *)
Theorem base_url_is_what_precedes_the_chat_path (base : string) :
  DeepSeek.get_base_url_from_chat_url (base +:+ "/chat/completions") = base.
Proof.
  unfold DeepSeek.get_base_url_from_chat_url.
  rewrite before_last_append by discriminate. reflexivity.
Qed.

(* ================================================================= *)
(** * The DeepSeek engine: the working conversation *)

(** * The DeepSeek engine: the working conversation *)

Section DeepSeekMerge.
Import DeepSeek.

Lemma pop_tool_messages_app (results rest : list json) :
  Forall (fun m => is_tool_message m = true) results ->
  pop_tool_messages (results ++ rest) = pop_tool_messages rest.
Proof.
  induction 1 as [|m results Hm _ IH]; [reflexivity|].
  simpl. destruct m; try discriminate. simpl in Hm. rewrite Hm. exact IH.
Qed.

Lemma pop_tool_messages_stop (message : json) (rest : list json) :
  is_tool_message message = false ->
  pop_tool_messages (message :: rest) = message :: rest.
Proof.
  intros Hm. simpl. destruct message; try reflexivity.
  simpl in Hm. rewrite Hm. reflexivity.
Qed.

(** The tool messages at the end of the conversation are dropped. *)
Lemma popped_conversation (before results : list json) (message : json) :
  is_tool_message message = false ->
  Forall (fun m => is_tool_message m = true) results ->
  rev (pop_tool_messages (rev (before ++ message :: results))) = before ++ [message].
Proof.
  intros Hm Hresults.
  rewrite rev_app_distr. cbn [rev]. rewrite <- !app_assoc.
  rewrite pop_tool_messages_app by (apply Forall_rev; exact Hresults).
  cbn [app]. rewrite pop_tool_messages_stop by exact Hm.
  change (message :: rev before) with ([message] ++ rev before).
  rewrite rev_app_distr, rev_involutive. reflexivity.
Qed.

Lemma lookup_middle {A} (before : list A) (x : A) (after : list A) :
  (before ++ x :: after) !! length before = Some x.
Proof. induction before; simpl; auto. Qed.

Lemma insert_middle {A} (before : list A) (x y : A) (after : list A) :
  <[length before := y]> (before ++ x :: after) = before ++ y :: after.
Proof. induction before as [|a before IH]; simpl; [reflexivity|]. f_equal. exact IH. Qed.

Lemma dict_get_or_set_ne {V} (k k' : string) (v default : V) (d : list (string * V)) :
  k <> k' -> dict_get_or k' default (dict_set k v d) = dict_get_or k' default d.
Proof. intros Hne. unfold dict_get_or. rewrite dict_get_set_ne by exact Hne. reflexivity. Qed.

Lemma dict_get_or_del_ne {V} (k k' : string) (default : V) (d : list (string * V)) :
  k <> k' -> dict_get_or k' default (dict_del k d) = dict_get_or k' default d.
Proof. intros Hne. unfold dict_get_or. rewrite dict_get_del_ne by exact Hne. reflexivity. Qed.

Lemma dict_get_or_set_eq {V} (k : string) (v default : V) (d : list (string * V)) :
  dict_get_or k default (dict_set k v d) = v.
Proof. unfold dict_get_or. rewrite dict_get_set_eq. reflexivity. Qed.

(** What a merge makes of a conversation that ends with the assistant
    message and the tool messages of the last round. *)
Lemma merge_assistant_shape
      (before results : list json) (previous : list (string * json)) (old : string)
      (new_reasoning new_content : string) (new_tool_calls : option (list ToolCall))
      (merged : list json) :
  is_tool_message (JObj previous) = false ->
  Forall (fun m => is_tool_message m = true) results ->
  reasoning_of (JObj previous) = Some old ->
  _merge_assistant_message (before ++ JObj previous :: results) (Some (length before))
                           new_reasoning new_content new_tool_calls = Ret merged ->
  exists message suffix,
    merged = before ++ [JObj message]
    /\ is_tool_message (JObj message) = false
    /\ reasoning_of (JObj message) = Some (old +:+ suffix).
Proof.
  intros Hrole Hresults Hold. unfold _merge_assistant_message.
  rewrite popped_conversation by assumption.
  rewrite (lookup_middle before (JObj previous) []).
  cbn [py_get py_bind].
  unfold reasoning_of in Hold.
  destruct (dict_get_or "reasoning_content" (JStr "") previous) as [| | | |r| |] eqn:Hr;
    try discriminate.
  injection Hold as ->.
  assert ((if truthy (JStr old) then JStr old else JStr "") = JStr old) as ->.
  { simpl. destruct (String.eqb_spec old ""); [subst|]; reflexivity. }
  set (old_tool_calls := dict_get_or "tool_calls" (JArr []) previous).
  assert (forall carried : string,
             (let! prev :=
                match new_reasoning with
                | String _ _ =>
                    if truthy (JStr (old +:+ carried)) then
                      let! combined :=
                        str_add (JStr (old +:+ carried)) (nl +:+ nl +:+ new_reasoning) in
                      Ret (dict_set "reasoning_content" (JStr combined) previous)
                    else Ret (dict_set "reasoning_content" (JStr new_reasoning) previous)
                | EmptyString => Ret previous
                end in
              let prev :=
                match new_tool_calls with
                | Some (tc :: tcs) =>
                    dict_set "tool_calls" (JArr (tool_call_dicts (tc :: tcs))) prev
                | _ => dict_set "content" (JStr new_content) (dict_del "tool_calls" prev)
                end in
              Ret (<[length before := JObj prev]> (before ++ [JObj previous])))
             = Ret merged ->
             exists message suffix,
               merged = before ++ [JObj message]
               /\ is_tool_message (JObj message) = false
               /\ reasoning_of (JObj message) = Some (old +:+ suffix)) as Hrest.
  { intros carried Hrun.
    assert (exists prev suffix,
               (match new_reasoning with
                | String _ _ =>
                    if truthy (JStr (old +:+ carried)) then
                      let! combined :=
                        str_add (JStr (old +:+ carried)) (nl +:+ nl +:+ new_reasoning) in
                      Ret (dict_set "reasoning_content" (JStr combined) previous)
                    else Ret (dict_set "reasoning_content" (JStr new_reasoning) previous)
                | EmptyString => Ret previous
                end) = Ret prev
               /\ dict_get_or "role" JNull prev = dict_get_or "role" JNull previous
               /\ dict_get_or "reasoning_content" (JStr "") prev = JStr (old +:+ suffix))
      as (prev & suffix & Hprev & Hrole' & Hreason).
    { destruct new_reasoning as [|c rest].
      - exists previous, "". rewrite append_nil_r. auto.
      - destruct (truthy (JStr (old +:+ carried))) eqn:Htruthy.
        + cbn [str_add py_bind].
          eexists _, (carried +:+ nl +:+ nl +:+ String c rest). split; [reflexivity|].
          rewrite dict_get_or_set_ne by discriminate.
          rewrite dict_get_or_set_eq, append_assoc. auto.
        + eexists _, (String c rest). split; [reflexivity|].
          rewrite dict_get_or_set_ne by discriminate.
          rewrite dict_get_or_set_eq.
          simpl in Htruthy. apply negb_false_iff, String.eqb_eq in Htruthy.
          destruct old; [|rewrite append_cons in Htruthy; discriminate].
          rewrite append_nil_l. auto. }
    rewrite Hprev in Hrun. cbn [py_bind] in Hrun. injection Hrun as <-.
    rewrite (insert_middle before (JObj previous) _ []).
    eexists _, suffix. split; [reflexivity|].
    unfold is_tool_message, reasoning_of in *.
    destruct new_tool_calls as [[|tc tcs]|];
      repeat first [ rewrite dict_get_or_set_ne by discriminate
                   | rewrite dict_get_or_del_ne by discriminate ];
      rewrite Hrole', Hreason; auto. }
  destruct (truthy old_tool_calls).
  - destruct (_flatten_tool_calls old_tool_calls) as [flattened|e]; [|discriminate].
    cbn [py_bind].
    destruct (truthy (JStr old)) eqn:Hold.
    + cbn [str_add py_bind]. apply Hrest.
    + simpl in Hold. apply negb_false_iff, String.eqb_eq in Hold. subst old.
      cbn [py_bind]. intros Hrun.
      apply (Hrest (json_dumps false (JObj [("tool_calls", JArr flattened)]))).
      rewrite append_nil_l. exact Hrun.
  - cbn [py_bind]. intros Hrun. apply (Hrest ""). rewrite append_nil_r. exact Hrun.
Qed.

End DeepSeekMerge.

Section DeepSeekRounds.
Import DeepSeek.
Context `{Runtime} {W : Type} `{ToolServers W} `{ChatAPI W}.

Lemma mcp_calls_registered (mcp_manager : option MCPManager) (calls : list ToolCall) :
  filter (fun c => _is_mcp_tool mcp_manager (tc_name c) = true) calls
  = registered_calls mcp_manager calls.
Proof.
  induction calls as [|c calls IH]; [reflexivity|].
  rewrite filter_cons. simpl. rewrite IH. unfold _is_mcp_tool.
  destruct mcp_manager as [m|]; [destruct (dict_has (tc_name c) (tools m))|];
    destruct (decide _); congruence.
Qed.

(** The messages appended for the executed calls. *)
Lemma execute_calls_appends (mcp_manager : option MCPManager) (calls : list ToolCall) :
  forall (messages : list json) (w : W) (messages' : list json) (w' : W) (t : list event),
    execute_calls mcp_manager calls messages w = (Ret messages', w', t) ->
    exists contents,
      length contents = length calls
      /\ Forall (fun content => content <> "") contents
      /\ messages' = messages ++ zip_with tool_message calls contents.
Proof.
  induction calls as [|tc calls IH]; intros messages w messages' w' t Hrun.
  - apply io_ret_inv in Hrun as (-> & _). exists []. rewrite app_nil_r. auto.
  - cbn [execute_calls] in Hrun.
    apply io_bind_Ret_inv in Hrun as (args & w1 & t1 & t2 & _ & Hrun & ->).
    apply io_bind_Ret_inv in Hrun as (result & w2 & t3 & t4 & _ & Hrun & ->).
    apply IH in Hrun as (contents & Hlen & Hfilled & ->).
    eexists (_ :: contents). split; [simpl; rewrite Hlen; reflexivity|].
    split; [constructor; [|exact Hfilled]|].
    2:{ rewrite <- app_assoc. reflexivity. }
    destruct result as [[|c r]|]; discriminate.
Qed.

Lemma unless_stop {A} (reason : option string) (x z : A) (P : A -> Prop) :
  P (match reason with Some "stop" => x | _ => z end) -> P x \/ P z.
Proof.
  intros HP.
  repeat match type of HP with
         | context [match ?v with _ => _ end] => destruct v
         end; auto.
Qed.

(** The step a round takes, read backwards from one that goes on. *)
Lemma continuing_round (model : string) (combined_tools : option (list json))
      (execute_mcp_tools : bool) (mcp_manager : option MCPManager)
      (st st' : Loop) (w w' : W) (t : list event) :
  iteration_body model combined_tools execute_mcp_tools mcp_manager st w
  = (Ret (Continue st'), w', t) ->
  exists reply w1 choice rest calls kept contents,
    chat_create model (messages_copy st) combined_tools w = (Ret reply, w1)
    /\ choices reply = choice :: rest
    /\ msg_tool_calls (choice_message choice) = Some calls
    /\ match iteration st with
       | O => kept = messages_copy st ++ [_message_to_dict (choice_message choice)]
              /\ assistant_msg_index st' = Some (length (messages_copy st))
       | S _ => _merge_assistant_message
                  (messages_copy st) (assistant_msg_index st)
                  (default "" (msg_reasoning_content (choice_message choice)))
                  (default "" (msg_content (choice_message choice)))
                  (Some calls) = Ret kept
                /\ assistant_msg_index st' = assistant_msg_index st
       end
    /\ registered_calls mcp_manager calls <> []
    /\ length contents = length (registered_calls mcp_manager calls)
    /\ Forall (fun content => content <> "") contents
    /\ messages_copy st'
       = kept ++ zip_with tool_message (registered_calls mcp_manager calls) contents
    /\ iteration st' = S (iteration st).
Proof.
  intros Hrun. unfold iteration_body in Hrun.
  apply io_bind_Ret_inv in Hrun as (reply & w1 & t1 & t2 & Hcreate & Hrun & ->).
  unfold create in Hcreate.
  destruct (chat_create model (messages_copy st) combined_tools w) as [r w0] eqn:Hchat.
  injection Hcreate as -> -> _.
  destruct (choices reply) as [|choice rest] eqn:Hchoices; [discriminate|].
  apply io_bind_lift_inv in Hrun as (total & _ & Hrun).
  apply io_bind_Ret_inv in Hrun as (st1 & w2 & t3 & t4 & Hst & Hrun & ->).
  assert (match iteration st with
          | O => messages_copy st1
                 = messages_copy st ++ [_message_to_dict (choice_message choice)]
                 /\ assistant_msg_index st1 = Some (length (messages_copy st))
          | S _ => _merge_assistant_message
                     (messages_copy st) (assistant_msg_index st)
                     (default "" (msg_reasoning_content (choice_message choice)))
                     (default "" (msg_content (choice_message choice)))
                     (msg_tool_calls (choice_message choice)) = Ret (messages_copy st1)
                   /\ assistant_msg_index st1 = assistant_msg_index st
          end /\ iteration st1 = iteration st) as [Hkept Hiter].
  { destruct (iteration st) eqn:Hi.
    - apply io_ret_inv in Hst as (-> & _). simpl. split; [|reflexivity].
      split; [reflexivity|]. rewrite length_app. simpl. f_equal. lia.
    - apply io_bind_lift_inv in Hst as (messages & Hmerge & Hst).
      apply io_ret_inv in Hst as (-> & _). simpl. auto. }
  clear Hst.
  assert (forall (m : io W Step),
             ensures (fun step => forall st0, step <> Continue st0) m ->
             m w2 = (Ret (Continue st'), w', t4) -> False) as Hreturns.
  { intros m Hm Hm'. apply (Hm w2 (Continue st')) with (st0 := st'); [|reflexivity].
    unfold result_of. rewrite Hm'. reflexivity. }
  destruct (msg_tool_calls (choice_message choice)) as [[|tc tcs]|] eqn:Hcalls.
  1,3: exfalso; eapply Hreturns; [|exact Hrun];
       repeat first [ discriminate | ensures_step ].
  apply (unless_stop _ _ _ (fun m : io W Step => m w2 = (Ret (Continue st'), w', t4)))
    in Hrun as [Hrun|Hrun].
  { exfalso. eapply Hreturns; [|exact Hrun].
    repeat first [ discriminate | ensures_step ]. }
  exists reply, w1, choice, rest, (tc :: tcs).
  rewrite mcp_calls_registered in Hrun.
  destruct (execute_mcp_tools && bool_decide (is_Some mcp_manager)) eqn:Hexec,
           (registered_calls mcp_manager (tc :: tcs)) as [|tc0 tcs0] eqn:Hregistered.
  1,3,4: exfalso; eapply Hreturns; [|exact Hrun];
         repeat first [ discriminate | ensures_step ].
  apply io_bind_Ret_inv in Hrun as (messages & w3 & t5 & t6 & Hexecute & Hgo & ->).
  apply io_ret_inv in Hgo as ([= ->] & _).
  apply execute_calls_appends in Hexecute as (contents & Hlen & Hfilled & ->).
  exists (messages_copy st1), contents. simpl.
  split; [reflexivity|]. split; [exact Hchoices|]. split; [exact Hcalls|].
  split.
  { destruct (iteration st); destruct Hkept as [Hk Hi]; split; auto. }
  split; [discriminate|]. split; [exact Hlen|]. split; [exact Hfilled|].
  split; [reflexivity|]. rewrite Hiter. reflexivity.
Qed.

End DeepSeekRounds.

(* ================================================================= *)
(** * The engines: the loops as the source writes them *)

(** * The loops as the source writes them *)

Section GeminiWritten.
Import Gemini.
Context `{Runtime} {W : Type} `{ToolServers W} `{Upstream W}.
Variables (cap : Z) (body : Loop -> io W Step) (k : nat).
Hypothesis body_counts :
  forall st w st' w' t,
    body st w = (Ret (Continue st'), w', t) -> iteration st' = S (iteration st).
Hypothesis body_quiet : forall st, emits (fun e => is_iteration e = false) (body st).
Hypothesis body_not_capped : forall st, ensures not_capped (body st).
Hypothesis body_attempts : forall st w, attempts (trace_of (body st w)) <= k.

#[local] Abbreviation rounds_left st := (Z.to_nat (cap - Z.of_nat (iteration st))).


End GeminiWritten.

Section GeminiRequest.
Import Gemini.
Context `{Runtime} {W : Type} `{ToolServers W} `{Upstream W}.
Variable CONFIG : Config.

End GeminiRequest.

Section DeepSeekWritten.
Import DeepSeek.
Context `{Runtime} {W : Type} `{ToolServers W} `{ChatAPI W}.
Variables (cap : nat) (model : string) (body : Loop -> io W Step).
Hypothesis body_counts :
  forall st w st' w' t,
    body st w = (Ret (Continue st'), w', t) -> iteration st' = S (iteration st).
Hypothesis body_quiet : forall st, emits (fun e => is_iteration e = false) (body st).
Hypothesis body_not_capped : forall st, ensures not_capped (body st).
Hypothesis body_calls : forall st w, chat_calls (trace_of (body st w)) <= 1.



End DeepSeekWritten.

Section DeepSeekRequest.
Import DeepSeek.
Context `{Runtime} {W : Type} `{ToolServers W} `{ChatAPI W}.

End DeepSeekRequest.


Section CapExamples.
Import Scripted.
#[local] Existing Instance runtime.
#[local] Existing Instance tool_servers.
#[local] Existing Instance chat_api.
#[local] Existing Instance upstream.


(** The DeepSeek engine: with an upstream that would ask for the
    manager's tool a hundred times, it returns its max-iterations reply
    after ten rounds and ten calls of the chat API, ninety completions of
    the script unplayed. *)
Lemma deepseek_engine_stops_after_ten_rounds :
  exists reply,
    result_of (DeepSeek.process_request (Some manager) [say "user" "hi"]
                 "deepseek-reasoner" None true
                 (world [] (repeat (asks_for "s_t") 100)
                        (Some (JObj (text_reply ["found"])))))
    = Ret (DeepSeek.MaxIterations reply)
    /\ iterations (trace_of (DeepSeek.process_request (Some manager) [say "user" "hi"]
                              "deepseek-reasoner" None true
                              (world [] (repeat (asks_for "s_t") 100)
                                     (Some (JObj (text_reply ["found"]))))))
       = 10
    /\ DeepSeek.chat_calls
         (trace_of (DeepSeek.process_request (Some manager) [say "user" "hi"]
                      "deepseek-reasoner" None true
                      (world [] (repeat (asks_for "s_t") 100)
                             (Some (JObj (text_reply ["found"]))))))
       = 10
    /\ length (chats (world_of (DeepSeek.process_request (Some manager)
                                 [say "user" "hi"] "deepseek-reasoner" None true
                                 (world [] (repeat (asks_for "s_t") 100)
                                        (Some (JObj (text_reply ["found"])))))))
       = 90.
Proof. eexists. split; [|split; [|split]]; vm_compute; reflexivity. Qed.

(** The Gemini engine with a cap of one round: the model asks for the
    manager's tool, and the request ends with the synthetic reply. *)
Lemma gemini_engine_stops_at_configured_cap :
  result_of (Gemini.process_request (capped_at 1) (Some manager) [user_says "hi"]
               "gemini-2.5-flash" None JNull None true (two_rounds "s_t"))
  = Ret (Gemini.MaxIterations Gemini.max_iterations_reply)
  /\ iterations (trace_of (Gemini.process_request
                             (capped_at 1) (Some manager) [user_says "hi"]
                             "gemini-2.5-flash" None JNull None true
                             (two_rounds "s_t")))
     = 1.
Proof. split; vm_compute; reflexivity. Qed.

(** The cap holds because the rounds count: under a cap of one round, a
    round that goes on without adding to [iteration] is entered as often
    as the loop is unfolded. *)
Lemma a_round_that_does_not_count_outlives_the_cap :
  result_of (Gemini.loop_as_written 5 1 idle (Gemini.entered []) (world [] [] None))
  = Ret None
  /\ iterations (trace_of (Gemini.loop_as_written 5 1 idle (Gemini.entered [])
                                                  (world [] [] None)))
     = 5.
Proof. split; vm_compute; reflexivity. Qed.
End CapExamples.

Section DeepSeekHistory.
Import DeepSeek.
Context `{Runtime} {W : Type} `{ToolServers W} `{ChatAPI W}.

Lemma tool_messages_are_tool_messages (calls : list ToolCall) (contents : list string) :
  Forall (fun m => is_tool_message m = true) (zip_with tool_message calls contents).
Proof.
  revert contents. induction calls as [|tc calls IH]; intros [|c contents]; simpl;
    constructor; auto.
Qed.

(** The dict made of a reply of the API is no tool message and its
    reasoning is a string. *)
Lemma message_to_dict_shape (message : Message) :
  msg_role message <> "tool" ->
  exists d text,
    _message_to_dict message = JObj d
    /\ is_tool_message (JObj d) = false
    /\ reasoning_of (JObj d) = Some text.
Proof.
  intros Hrole. unfold _message_to_dict.
  eexists _, (if nonempty (msg_reasoning_content message)
              then default "" (msg_reasoning_content message) else "").
  split; [reflexivity|].
  assert (json_eqb_str (JStr (msg_role message)) "tool" = false) as Hne
      by (simpl; apply String.eqb_neq; exact Hrole).
  unfold is_tool_message, reasoning_of.
  destruct (nonempty (msg_reasoning_content message)),
           (msg_tool_calls message) as [[|tc tcs]|];
    repeat first [ rewrite dict_get_or_set_ne by discriminate
                 | rewrite dict_get_or_set_eq ];
    split; try exact Hne; reflexivity.
Qed.

(** What the loop keeps of the client's messages. *)
Lemma round_keeps_one_assistant_message
      (model : string) (combined_tools : option (list json))
      (execute_mcp_tools : bool) (mcp_manager : option MCPManager)
      (messages : list json) (st st' : Loop) (w w' : W) (t : list event) :
  answers_as_assistant ->
  match iteration st with
  | O => messages_copy st = messages
  | S _ => one_assistant_message messages st
  end ->
  iteration_body model combined_tools execute_mcp_tools mcp_manager st w
  = (Ret (Continue st'), w', t) ->
  one_assistant_message messages st' /\ iteration st' = S (iteration st).
Proof.
  intros Hassistant Hst Hrun.
  apply continuing_round in Hrun
    as (reply & w1 & choice & rest & calls & kept & contents
        & Hchat & Hchoices & Hcalls & Hkept & _ & _ & _ & Hcopy & Hiter).
  split; [|exact Hiter].
  pose proof (Hassistant _ _ _ _ _ _ _ _ Hchat Hchoices) as Hrole.
  destruct (iteration st).
  - destruct Hkept as [-> Hindex]. subst messages.
    destruct (message_to_dict_shape _ Hrole) as (d & text & Hd & Hrole' & Htext).
    rewrite Hd in Hcopy.
    exists d, (zip_with tool_message (registered_calls mcp_manager calls) contents), text.
    rewrite Hcopy, <- app_assoc. repeat split; auto.
    apply tool_messages_are_tool_messages.
  - destruct Hkept as [Hmerge Hindex].
    destruct Hst as (assistant & results & text & Hmessages & Hidx & Hrole' & Htext & Hresults).
    rewrite Hmessages, Hidx in Hmerge.
    apply (merge_assistant_shape _ _ _ text) in Hmerge
      as (message & suffix & -> & Hmessage & Hreason); try assumption.
    exists message, (zip_with tool_message (registered_calls mcp_manager calls) contents),
           (text +:+ suffix).
    rewrite Hcopy, <- app_assoc. repeat split; auto; [congruence|].
    apply tool_messages_are_tool_messages.
Qed.

Lemma rounds_keep_one_assistant_message
      (model : string) (combined_tools : option (list json))
      (execute_mcp_tools : bool) (mcp_manager : option MCPManager)
      (messages : list json) (n : nat) (st st' : Loop) (w w' : W) (t : list event) :
  answers_as_assistant ->
  continues (iteration_body model combined_tools execute_mcp_tools mcp_manager)
            n st w st' w' t ->
  match iteration st with
  | O => messages_copy st = messages
  | S _ => one_assistant_message messages st
  end ->
  match iteration st' with
  | O => messages_copy st' = messages
  | S _ => one_assistant_message messages st'
  end /\ iteration st' = n + iteration st.
Proof.
  intros Hassistant Hrounds. induction Hrounds as [|n st w st1 w1 t1 st' w' t Hbody _ IH].
  - auto.
  - intros Hst.
    destruct (round_keeps_one_assistant_message
                model combined_tools execute_mcp_tools mcp_manager messages
                st st1 w w1 t1 Hassistant Hst Hbody) as [Hst1 Hiter].
    destruct IH as [Hst' Hiter']; [rewrite Hiter; exact Hst1|].
    split; [exact Hst'|]. lia.
Qed.

(** X20: when the chat API never answers in the role of a tool, the
    working conversation of the DeepSeek engine does not grow with the
    rounds: after any number of rounds that went on, it is the client's
    messages, then one assistant message, whose index the loop holds,
    then tool messages only. *)
Theorem history_keeps_one_assistant_message
        (model : string) (combined_tools : option (list json))
        (execute_mcp_tools : bool) (mcp_manager : option MCPManager)
        (messages : list json) (n : nat) (st' : Loop) (w w' : W) (t : list event) :
  answers_as_assistant ->
  continues (iteration_body model combined_tools execute_mcp_tools mcp_manager)
            (S n) (entered messages) w st' w' t ->
  iteration st' = S n
  /\ exists assistant results,
      messages_copy st' = messages ++ JObj assistant :: results
      /\ assistant_msg_index st' = Some (length messages)
      /\ is_tool_message (JObj assistant) = false
      /\ Forall (fun m => is_tool_message m = true) results.
Proof.
  intros Hassistant Hrounds.
  destruct (rounds_keep_one_assistant_message
              model combined_tools execute_mcp_tools mcp_manager messages
              (S n) (entered messages) st' w w' t Hassistant Hrounds eq_refl)
    as [Hst' Hiter].
  simpl in Hiter. rewrite Nat.add_0_r in Hiter. split; [exact Hiter|].
  rewrite Hiter in Hst'.
  destruct Hst' as (assistant & results & text & Hcopy & Hidx & Hrole & _ & Hresults).
  exists assistant, results. auto.
Qed.

(** X21: a round of the DeepSeek engine that goes on to the next one
    got tool calls from the chat API, at least one of them to a tool of
    the manager; it appends to the conversation (the reply appended in
    the first round, merged into the assistant message later) one tool
    message per call to a tool of the manager, in the order of the
    calls, each with the id of its call and a content that is not
    empty; the calls of the same reply to other names get no message. *)
Theorem continuing_round_answers_registered_calls_only
        (model : string) (combined_tools : option (list json))
        (execute_mcp_tools : bool) (mcp_manager : option MCPManager)
        (st st' : Loop) (w w' : W) (t : list event) :
  iteration_body model combined_tools execute_mcp_tools mcp_manager st w
  = (Ret (Continue st'), w', t) ->
  exists reply w1 choice rest calls kept contents,
    chat_create model (messages_copy st) combined_tools w = (Ret reply, w1)
    /\ choices reply = choice :: rest
    /\ msg_tool_calls (choice_message choice) = Some calls
    /\ match iteration st with
       | O => kept = messages_copy st ++ [_message_to_dict (choice_message choice)]
              /\ assistant_msg_index st' = Some (length (messages_copy st))
       | S _ => _merge_assistant_message
                  (messages_copy st) (assistant_msg_index st)
                  (default "" (msg_reasoning_content (choice_message choice)))
                  (default "" (msg_content (choice_message choice)))
                  (Some calls) = Ret kept
                /\ assistant_msg_index st' = assistant_msg_index st
       end
    /\ registered_calls mcp_manager calls <> []
    /\ length contents = length (registered_calls mcp_manager calls)
    /\ Forall (fun content => content <> "") contents
    /\ messages_copy st'
       = kept ++ zip_with tool_message (registered_calls mcp_manager calls) contents
    /\ iteration st' = S (iteration st).
Proof. apply continuing_round. Qed.

End DeepSeekHistory.

Section DeepSeekReasoning.
Import DeepSeek.

(** X22: a merge of a later round into a conversation that ends with the
    assistant message and the tool messages of the round before drops
    those tool messages and keeps everything before the assistant
    message; the reasoning of the merged assistant message starts with
    the reasoning it had, so that no round takes reasoning away. *)
Theorem merged_reasoning_extends_the_previous
        (before results : list json) (previous : list (string * json)) (old : string)
        (new_reasoning new_content : string) (new_tool_calls : option (list ToolCall))
        (merged : list json) :
  is_tool_message (JObj previous) = false ->
  Forall (fun m => is_tool_message m = true) results ->
  reasoning_of (JObj previous) = Some old ->
  _merge_assistant_message (before ++ JObj previous :: results) (Some (length before))
                           new_reasoning new_content new_tool_calls = Ret merged ->
  exists message suffix,
    merged = before ++ [JObj message]
    /\ is_tool_message (JObj message) = false
    /\ reasoning_of (JObj message) = Some (old +:+ suffix).
Proof. apply merge_assistant_shape. Qed.

End DeepSeekReasoning.

Lemma assistant_api_answers_as_assistant :
  DeepSeek.answers_as_assistant (H := Scripted.assistant_api).
Proof.
  intros model messages tools w completion w' choice rest Hcreate Hchoices.
  simpl in Hcreate.
  destruct (Scripted.next_chat w) as [[c|e] w1]; [|discriminate].
  destruct (Scripted.answers_as_tool c) eqn:Hrole; [discriminate|].
  injection Hcreate as -> ->.
  unfold Scripted.answers_as_tool in Hrole. rewrite Hchoices in Hrole.
  apply String.eqb_neq. exact Hrole.
Qed.

Lemma history_keeps_one_assistant_message_witness :
  exists st' w' t,
    DeepSeek.continues
      (DeepSeek.iteration_body (H := Scripted.runtime) (H0 := Scripted.tool_servers)
                               (H1 := Scripted.assistant_api)
                               "deepseek-reasoner" None true (Some Scripted.manager))
      2 (DeepSeek.entered [Scripted.say "user" "hi"])
      (Scripted.world [] [Scripted.asks_for "s_t"; Scripted.asks_for "s_t"]
                      (Some (JObj (Scripted.text_reply ["found"]))))
      st' w' t
    /\ DeepSeek.iteration st' = 2
    /\ exists assistant results,
        DeepSeek.messages_copy st' = [Scripted.say "user" "hi"] ++ JObj assistant :: results
        /\ DeepSeek.assistant_msg_index st' = Some (length [Scripted.say "user" "hi"])
        /\ DeepSeek.is_tool_message (JObj assistant) = false
        /\ Forall (fun m => DeepSeek.is_tool_message m = true) results.
Proof.
  eexists _, _, _.
  refine ((fun Hrounds =>
             conj Hrounds
                  (history_keeps_one_assistant_message
                     (H := Scripted.runtime) (H0 := Scripted.tool_servers)
                     (H1 := Scripted.assistant_api)
                     "deepseek-reasoner" None true (Some Scripted.manager)
                     [Scripted.say "user" "hi"] 1 _ _ _ _
                     assistant_api_answers_as_assistant Hrounds)) _).
  eapply DeepSeek.continues_S; [vm_compute; reflexivity|].
  eapply DeepSeek.continues_S; [vm_compute; reflexivity|].
  apply DeepSeek.continues_O.
Defined.

Lemma continuing_round_answers_registered_calls_only_witness :
  exists st' w' t,
    DeepSeek.iteration_body (H := Scripted.runtime) (H0 := Scripted.tool_servers)
                            (H1 := Scripted.chat_api)
                            "deepseek-reasoner" None true (Some Scripted.manager)
                            (DeepSeek.entered [Scripted.say "user" "hi"])
                            (Scripted.world [] [Scripted.asks_for "s_t"]
                                            (Some (JObj (Scripted.text_reply ["found"]))))
    = (Ret (DeepSeek.Continue st'), w', t)
    /\ exists reply w1 choice rest calls kept contents,
        DeepSeek.chat_create
          (ChatAPI := Scripted.chat_api) "deepseek-reasoner"
          [Scripted.say "user" "hi"] None
          (Scripted.world [] [Scripted.asks_for "s_t"]
                          (Some (JObj (Scripted.text_reply ["found"]))))
        = (Ret reply, w1)
        /\ DeepSeek.choices reply = choice :: rest
        /\ DeepSeek.msg_tool_calls (DeepSeek.choice_message choice) = Some calls
        /\ (kept = [Scripted.say "user" "hi"]
                     ++ [DeepSeek._message_to_dict (DeepSeek.choice_message choice)]
            /\ DeepSeek.assistant_msg_index st' = Some 1)
        /\ DeepSeek.registered_calls (Some Scripted.manager) calls <> []
        /\ length contents
           = length (DeepSeek.registered_calls (Some Scripted.manager) calls)
        /\ Forall (fun content => content <> "") contents
        /\ DeepSeek.messages_copy st'
           = kept ++ zip_with DeepSeek.tool_message
                              (DeepSeek.registered_calls (Some Scripted.manager) calls)
                              contents
        /\ DeepSeek.iteration st' = 1.
Proof.
  eexists _, _, _.
  refine ((fun Hrun =>
             conj Hrun
                  (continuing_round_answers_registered_calls_only
                     (H := Scripted.runtime) (H0 := Scripted.tool_servers)
                     (H1 := Scripted.chat_api)
                     "deepseek-reasoner" None true (Some Scripted.manager)
                     (DeepSeek.entered [Scripted.say "user" "hi"]) _ _ _ _ Hrun)) _).
  vm_compute. reflexivity.
Defined.

Lemma merged_reasoning_extends_the_previous_witness :
  exists message suffix,
    [Scripted.say "user" "hi";
     JObj [("role", JStr "assistant"); ("content", JStr "done");
           ("reasoning_content",
            JStr ("let me look that up" +:+ nl +:+ nl +:+ "now I know"))]]
    = [Scripted.say "user" "hi"] ++ [JObj message]
    /\ DeepSeek.is_tool_message (JObj message) = false
    /\ DeepSeek.reasoning_of (JObj message)
       = Some ("let me look that up" +:+ suffix).
Proof.
  apply (merged_reasoning_extends_the_previous
           [Scripted.say "user" "hi"] [Scripted.found] Scripted.first_thought
           "let me look that up" "now I know" "done" None).
  - reflexivity.
  - repeat constructor.
  - reflexivity.
  - vm_compute. reflexivity.
Defined.

(** * The Gemini engine: the client's messages *)

Section Lifted.
Context {W : Type}.

Lemma emits_bind_lift {A B} (P : event -> Prop) (m : py A) (k : A -> io W B) :
  (forall a, m = Ret a -> emits P (k a)) -> emits P (io_bind (io_lift m) k).
Proof.
  intros Hk. destruct m as [a|e].
  - intros w. rewrite io_bind_lift_ret. apply (Hk a eq_refl).
  - intros w. constructor.
Qed.

Lemma ensures_bind_lift {A B} (Q : B -> Prop) (m : py A) (k : A -> io W B) :
  (forall a, m = Ret a -> ensures Q (k a)) -> ensures Q (io_bind (io_lift m) k).
Proof.
  intros Hk. destruct m as [a|e].
  - intros w. rewrite io_bind_lift_ret. apply (Hk a eq_refl).
  - intros w b. discriminate.
Qed.

End Lifted.

Section ClientPrefix.
Import Gemini.
Context `{Runtime} {W : Type} `{ToolServers W} `{Upstream W}.
Variable CONFIG : Config.

Lemma replace_keeps_the_prefix (contents rest out : list json) :
  _replace_old_tool_results (contents ++ rest) (length contents) = Ret out ->
  exists rest', out = contents ++ rest'.
Proof.
  unfold _replace_old_tool_results.
  destruct (last_function_response_index _ _ _) as [last|]; [|discriminate].
  cbn [py_bind].
  destruct (replace_from _ _ _) as [tail|]; [|discriminate].
  cbn [py_bind]. intros [= <-]. exists tail.
  rewrite take_app_length. reflexivity.
Qed.

Lemma request_payload_contents (contents : list json) (tools : option (list json))
      (generation_config : json) (system_instruction : option string) :
  exists payload,
    request_payload contents tools generation_config system_instruction = JObj payload
    /\ dict_get "contents" payload = Some (JArr contents).
Proof.
  unfold request_payload. eexists. split; [reflexivity|].
  destruct tools as [[|t ts]|], (truthy generation_config),
           system_instruction as [[|c text]|];
    repeat rewrite dict_get_set_ne by discriminate; reflexivity.
Qed.

Lemma carries_request (contents rest : list json) (model : string) (stream : bool)
      (tools : option (list json)) (generation_config : json)
      (system_instruction : option string) :
  carries contents
          (EvPost model stream
                  (request_payload (contents ++ rest) tools generation_config
                                   system_instruction)).
Proof.
  destruct (request_payload_contents (contents ++ rest) tools generation_config
                                     system_instruction) as (payload & -> & Hget).
  exists rest. exact Hget.
Qed.

Lemma body_carries_the_prefix model tools generation_config system_instruction
      execute_mcp_tools mcp_manager (contents rest : list json) (st : Loop) :
  contents_copy st = contents ++ rest ->
  emits (carries contents)
        (iteration_body CONFIG model tools generation_config system_instruction
                        execute_mcp_tools mcp_manager (length contents) st).
Proof.
  intros Hst. unfold iteration_body, execute_and_continue, build_final. rewrite Hst.
  apply emits_bind_lift. intros out Hout.
  apply replace_keeps_the_prefix in Hout as [rest' ->].
  apply emits_bind.
  { apply make_gemini_request_with_retry_emits; try (intros; exact I).
    apply carries_request. }
  intros o.
  repeat first [ apply gemini_execute_calls_emits; intros; exact I | emits_step ].
Qed.

Lemma body_keeps_the_prefix model tools generation_config system_instruction
      execute_mcp_tools mcp_manager (contents rest : list json) (st : Loop) :
  contents_copy st = contents ++ rest ->
  ensures (fun step => forall st', step = Continue st' ->
                                   exists rest', contents_copy st' = contents ++ rest')
          (iteration_body CONFIG model tools generation_config system_instruction
                          execute_mcp_tools mcp_manager (length contents) st).
Proof.
  intros Hst. unfold iteration_body, execute_and_continue, build_final. rewrite Hst.
  apply ensures_bind_lift. intros out Hout.
  apply replace_keeps_the_prefix in Hout as [rest' ->].
  repeat first [ ensures_step ]; try (intros st' [=]; fail).
  intros st' [= <-]. simpl. rewrite <- app_assoc. eauto.
Qed.

Lemma while_loop_carries_the_prefix (contents : list json) (body : Loop -> io W Step) :
  (forall st rest, contents_copy st = contents ++ rest ->
                   emits (carries contents) (body st)) ->
  (forall st rest, contents_copy st = contents ++ rest ->
                   ensures (fun step => forall st', step = Continue st' ->
                                                    exists rest',
                                                      contents_copy st' = contents ++ rest')
                           (body st)) ->
  forall remaining st rest,
    contents_copy st = contents ++ rest ->
    emits (carries contents) (while_loop remaining body st).
Proof.
  intros Hemits Hkeeps. induction remaining as [|n IH]; intros st rest Hst; simpl.
  - apply emits_ret.
  - apply emits_bind; [apply emits_emit; exact I|]. intros _ w.
    specialize (Hemits st rest Hst w). specialize (Hkeeps st rest Hst w).
    unfold trace_of, result_of in *. rewrite io_bind_run.
    destruct (body st w) as [[[step|e] w1] t1]; simpl in *; [|exact Hemits].
    destruct step as [e|st1].
    + simpl. rewrite app_nil_r. exact Hemits.
    + destruct (Hkeeps (Continue st1) eq_refl st1 eq_refl) as [rest1 Hst1].
      specialize (IH st1 rest1 Hst1 w1). unfold trace_of in IH.
      destruct (while_loop n body st1 w1) as [[r w2] t2]. simpl in *.
      apply Forall_app. split; assumption.
Qed.

(** X23: every request the buffered Gemini engine sends upstream for a
    client request, in whatever round and on whatever retry, carries
    contents that start with the client's own messages, unchanged and in
    their order; what the engine rewrites and appends comes after
    them. *)
Theorem client_messages_lead_every_upstream_request
        (mcp_manager : option MCPManager) (contents : list json) (model : string)
        (tools : option (list json)) (generation_config : json)
        (system_instruction : option string) (execute_mcp_tools : bool) (w : W) :
  Forall (carries contents)
         (trace_of (process_request CONFIG mcp_manager contents model tools
                                    generation_config system_instruction
                                    execute_mcp_tools w)).
Proof.
  unfold process_request.
  apply (while_loop_carries_the_prefix contents) with (rest := []).
  - intros st rest Hst. eapply body_carries_the_prefix. exact Hst.
  - intros st rest Hst. eapply body_keeps_the_prefix. exact Hst.
  - simpl. rewrite app_nil_r. reflexivity.
Qed.

End ClientPrefix.

(** * The Gemini engine: rewriting a rewritten history *)

Section Stable.
Import Gemini.

Lemma dict_set_twice {V} (k : string) (v : V) (d : list (string * V)) :
  dict_set k v (dict_set k v d) = dict_set k v d.
Proof. apply dict_set_same, dict_get_set_eq. Qed.

Lemma dict_has_set {V} (k : string) (v : V) (d : list (string * V)) :
  dict_has k (dict_set k v d) = true.
Proof. unfold dict_has. rewrite dict_get_set_eq. reflexivity. Qed.

Lemma blank_part_stable (part part' : json) :
  blank_part part = Ret part' ->
  blank_part part' = Ret part'
  /\ dict_with "functionResponse" part' = dict_with "functionResponse" part.
Proof.
  destruct part as [| | | | | |d]; try (intros [= <-]; split; reflexivity).
  cbn [blank_part].
  destruct (dict_get "functionResponse" d) as [[| | | | | |fr]|] eqn:Hfr;
    try discriminate; intros [= <-]; cbn [blank_part].
  - rewrite dict_get_set_eq, !dict_set_twice. split; [reflexivity|].
    simpl. rewrite dict_has_set. unfold dict_has. rewrite Hfr. reflexivity.
  - rewrite Hfr. auto.
Qed.

Lemma blank_list_stable (ps ps' : list json) :
  py_map blank_part ps = Ret ps' ->
  py_map blank_part ps' = Ret ps'
  /\ existsb (dict_with "functionResponse") ps'
     = existsb (dict_with "functionResponse") ps.
Proof.
  revert ps'. induction ps as [|p ps IH]; intros ps'; simpl.
  - intros [= <-]. auto.
  - destruct (blank_part p) as [p'|] eqn:Hp; [|discriminate]. simpl.
    destruct (py_map blank_part ps) as [tail|]; [|discriminate]. simpl.
    intros [= <-]. destruct (IH tail eq_refl) as [Htail Hsame].
    apply blank_part_stable in Hp as [Hp' Hwith].
    simpl. rewrite Hp'. simpl. rewrite Htail. simpl. rewrite Hwith, Hsame. auto.
Qed.

Lemma blank_parts_stable (parts parts' : json) :
  blank_parts parts = Ret parts' ->
  blank_parts parts' = Ret parts'
  /\ has_function_response parts' = has_function_response parts.
Proof.
  destruct parts as [| | | |s|ps|d]; try discriminate;
    try (intros [= <-]; split; reflexivity).
  cbn [blank_parts].
  destruct (py_map blank_part ps) as [ps'|] eqn:Hps; [|discriminate]. simpl.
  intros [= <-]. apply blank_list_stable in Hps as [Hps' Hsame].
  cbn [blank_parts]. rewrite Hps'. simpl. split; [reflexivity|].
  unfold has_function_response. simpl. rewrite Hsame. reflexivity.
Qed.

Lemma blank_content_stable (content content' : json) :
  blank_content content = Ret content' ->
  blank_content content' = Ret content'
  /\ is_tool_result content' = is_tool_result content.
Proof.
  destruct content as [| | | | | |d]; try (intros [= <-]; split; reflexivity).
  cbn [blank_content].
  destruct (json_eqb_str (dict_get_or "role" JNull d) "user") eqn:Hrole.
  2:{ intros [= <-]. cbn [blank_content]. rewrite Hrole. auto. }
  destruct (dict_get "parts" d) as [parts|] eqn:Hparts.
  2:{ intros [= <-]. cbn [blank_content]. rewrite Hrole, Hparts. auto. }
  destruct (blank_parts parts) as [parts'|] eqn:Hblank; [|discriminate]. cbn [py_bind].
  intros [= <-]. apply blank_parts_stable in Hblank as [Hblank' Hsame].
  assert (dict_get_or "role" JNull (dict_set "parts" parts' d) = dict_get_or "role" JNull d)
    as Hrole'.
  { unfold dict_get_or. rewrite dict_get_set_ne by discriminate. reflexivity. }
  cbn [blank_content is_tool_result].
  rewrite Hrole', Hrole, dict_get_set_eq, Hblank'. cbn [py_bind].
  rewrite dict_set_twice. split; [reflexivity|].
  unfold dict_get_or. rewrite dict_get_set_eq, Hparts. exact Hsame.
Qed.

Lemma replace_from_stable (last : option nat) (tail : list json) :
  forall (i : nat) (tail' : list json),
    replace_from i last tail = Ret tail' ->
    replace_from i last tail' = Ret tail'
    /\ Forall2 (fun content content' => is_tool_result content' = is_tool_result content)
               tail tail'.
Proof.
  induction tail as [|content tail IH]; intros i tail'; simpl.
  - intros [= <-]. split; [reflexivity|constructor].
  - destruct (if bool_decide (last = Some i) then Ret content else blank_content content)
      as [content'|] eqn:Hcontent; [|discriminate]. simpl.
    destruct (replace_from (S i) last tail) as [rest|] eqn:Hrest; [|discriminate]. simpl.
    intros [= <-]. destruct (IH _ _ Hrest) as [Hrest' Hsame].
    simpl. rewrite Hrest'.
    destruct (bool_decide (last = Some i)).
    + injection Hcontent as <-. split; [reflexivity|constructor; auto].
    + apply blank_content_stable in Hcontent as [Hcontent' Hresult].
      rewrite Hcontent'. split; [reflexivity|constructor; auto].
Qed.

Lemma last_index_same (contents out : list json) (n0 : nat) :
  (forall i, n0 <= i ->
             match contents !! i, out !! i with
             | Some content, Some content' => is_tool_result content' = is_tool_result content
             | None, None => True
             | _, _ => False
             end) ->
  forall k, last_function_response_index out n0 k
            = last_function_response_index contents n0 k.
Proof.
  intros Hsame. induction k as [|k IH]; [reflexivity|].
  cbn [last_function_response_index].
  specialize (Hsame (n0 + k) ltac:(lia)).
  destruct (contents !! (n0 + k)) as [content|], (out !! (n0 + k)) as [content'|];
    try contradiction; [|reflexivity].
  rewrite Hsame, IH. reflexivity.
Qed.

Lemma replace_stable (contents out : list json) (original_contents_length : nat) :
  _replace_old_tool_results contents original_contents_length = Ret out ->
  _replace_old_tool_results out original_contents_length = Ret out.
Proof.
  unfold _replace_old_tool_results.
  set (n0 := original_contents_length).
  destruct (last_function_response_index contents n0 (length contents - n0))
    as [last|] eqn:Hlast; [|discriminate]. cbn [py_bind].
  destruct (replace_from n0 last (drop n0 contents)) as [tail|] eqn:Htail; [|discriminate].
  cbn [py_bind]. intros [= <-].
  destruct (replace_from_stable _ _ _ _ Htail) as [Htail' Hsame].
  pose proof (Forall2_length _ _ _ Hsame) as Hlen. rewrite length_drop in Hlen.
  assert (length (take n0 contents ++ tail) = length contents) as Hlength.
  { rewrite length_app, length_take. lia. }
  assert (drop n0 (take n0 contents ++ tail) = tail) as Hdrop.
  { destruct (le_lt_dec n0 (length contents)) as [Hle|Hgt].
    - rewrite drop_app_length'; [reflexivity|]. rewrite length_take. lia.
    - assert (tail = []) as -> by (destruct tail; [reflexivity|simpl in Hlen; lia]).
      rewrite app_nil_r. apply drop_ge. rewrite length_take. lia. }
  assert (take n0 (take n0 contents ++ tail) = take n0 contents) as Htake.
  { destruct (le_lt_dec n0 (length contents)) as [Hle|Hgt].
    - rewrite take_app_length'; [reflexivity|]. rewrite length_take. lia.
    - assert (tail = []) as -> by (destruct tail; [reflexivity|simpl in Hlen; lia]).
      rewrite app_nil_r. apply take_ge. rewrite length_take. lia. }
  rewrite Hlength, Hdrop, Htake.
  rewrite (last_index_same contents (take n0 contents ++ tail) n0), Hlast.
  - cbn [py_bind]. rewrite Htail'. reflexivity.
  - intros i Hi.
    pose proof (lookup_drop contents n0 (i - n0)) as Hc.
    replace (n0 + (i - n0)) with i in Hc by lia.
    assert ((take n0 contents ++ tail) !! i = tail !! (i - n0)) as Ho.
    { rewrite <- Hdrop at 2. rewrite lookup_drop. f_equal. lia. }
    rewrite Ho, <- Hc.
    clear - Hsame. revert Hsame. generalize (drop n0 contents) as l, (i - n0) as j.
    intros l j Hsame. revert j.
    induction Hsame as [|c c' l l' Hcc _ IH]; intros [|j]; simpl; auto.
    apply IH.
Qed.

End Stable.

(** X26: the rewriting of the history that every round of the Gemini
    engine starts with is stable: applied to a history it has returned,
    with the same number of client messages, it returns that history
    unchanged. *)
Theorem rewriting_a_rewritten_history_changes_nothing
        (contents out : list json) (original_contents_length : nat) :
  Gemini._replace_old_tool_results contents original_contents_length = Ret out ->
  Gemini._replace_old_tool_results out original_contents_length = Ret out.
Proof. apply replace_stable. Qed.

Lemma rewriting_a_rewritten_history_changes_nothing_witness :
  Gemini._replace_old_tool_results
    [Scripted.user_says "hi";
     Scripted.tool_results [Scripted.result_part "own" "kept"];
     Scripted.model_says [Scripted.thought_part "look it up"; Scripted.call_part "s_t"];
     Scripted.tool_results [Scripted.result_part "s_t" "调用完毕"];
     Scripted.model_says [Scripted.call_part "s_t"];
     Scripted.tool_results [Scripted.result_part "s_t" "found again"]] 2
  = Ret [Scripted.user_says "hi";
         Scripted.tool_results [Scripted.result_part "own" "kept"];
         Scripted.model_says [Scripted.thought_part "look it up"; Scripted.call_part "s_t"];
         Scripted.tool_results [Scripted.result_part "s_t" "调用完毕"];
         Scripted.model_says [Scripted.call_part "s_t"];
         Scripted.tool_results [Scripted.result_part "s_t" "found again"]].
Proof.
  apply (rewriting_a_rewritten_history_changes_nothing Scripted.history).
  vm_compute. reflexivity.
Defined.

(** * The adapters: event streams *)

Lemma split_nl_line (line : string) :
  no_breaks line = true -> split_nl line = [line].
Proof.
  induction line as [|c line IH]; [reflexivity|].
  cbn [no_breaks split_nl]. intros Hline.
  apply andb_true_iff in Hline as [Hc Hline].
  apply andb_true_iff in Hc as [Hc _]. apply negb_true_iff in Hc.
  rewrite Hc, IH by exact Hline. reflexivity.
Qed.

Lemma split_nl_cons (line rest : string) :
  no_breaks line = true -> split_nl (line +:+ nl +:+ rest) = line :: split_nl rest.
Proof.
  induction line as [|c line IH]; intros Hline.
  - rewrite append_nil_l. reflexivity.
  - cbn [no_breaks] in Hline.
    apply andb_true_iff in Hline as [Hc Hline].
    apply andb_true_iff in Hc as [Hc _]. apply negb_true_iff in Hc.
    rewrite append_cons. cbn [split_nl]. rewrite Hc, IH by exact Hline. reflexivity.
Qed.

Lemma split_nl_join (lines : list string) :
  lines <> [] ->
  Forall (fun line => no_breaks line = true) lines ->
  split_nl (join nl lines) = lines.
Proof.
  intros Hsome Hlines. induction Hlines as [|line lines Hline Hlines IH]; [contradiction|].
  destruct lines as [|line' lines].
  - apply split_nl_line. exact Hline.
  - change (join nl (line :: line' :: lines))
      with (line +:+ nl +:+ join nl (line' :: lines)).
    rewrite split_nl_cons by exact Hline. f_equal. apply IH. discriminate.
Qed.

Lemma data_of_event (line : string) :
  String.prefix "event:" line = true -> data_of line = None.
Proof.
  destruct line as [|c line]; [discriminate|].
  unfold data_of. cbn [strip_prefix String.prefix].
  destruct (ascii_dec "e" c) as [<-|]; [reflexivity|discriminate].
Qed.

Lemma data_of_some (line data : string) :
  data_of line = Some data ->
  String.eqb line "" = false /\ String.prefix "event:" line = false.
Proof.
  destruct line as [|c line]; [discriminate|].
  unfold data_of. cbn [strip_prefix String.prefix].
  destruct (Ascii.eqb_spec "d" c) as [<-|]; [|discriminate].
  intros _. split; reflexivity.
Qed.

Lemma strip_empty : strip "" = "".
Proof. reflexivity. Qed.

(** On events of one line each the two loops take the same documents. *)
Lemma parsers_agree_from (events : list string) :
  forall (result reply : option json),
    parse_sse_lines (one_line_events events) result = Ret reply ->
    parse_sse_events (map Line (one_line_events events)) [] result = reply.
Proof.
  induction events as [|event events IH]; intros result reply.
  - simpl. intros [= <-]. reflexivity.
  - change (one_line_events (event :: events))
      with (event :: "" :: one_line_events events).
    cbn [parse_sse_lines map parse_sse_events]. rewrite strip_empty.
    change (data_of "") with (@None string).
    destruct (String.eqb (strip event) "") eqn:Hblank.
    { apply String.eqb_eq in Hblank. rewrite Hblank.
      change (data_of "") with (@None string). cbn [flush String.eqb].
      apply IH. }
    destruct (String.prefix "event:" (strip event)) eqn:Hevent.
    { rewrite (data_of_event _ Hevent). cbn [flush String.eqb]. apply IH. }
    destruct (data_of (strip event)) as [[|c data]|] eqn:Hdata;
      cbn [flush String.eqb app]; try apply IH.
    change (join nl [String c data]) with (String c data).
    destruct (take_document (String c data) result) as [result'|e]; [|discriminate].
    cbn [py_bind]. apply IH.
Qed.

(** X24: on an event stream in which every event is one line followed
    by an empty line, the SSE adapter reads the reply that the HTTP
    adapter reads from the same lines, whenever the HTTP adapter's
    parser returns. *)
Theorem sse_adapters_agree_on_one_line_events
        (events : list string) (reply : option json) :
  events <> [] ->
  Forall (fun event => no_breaks event = true) events ->
  _parse_sse_response (join nl (one_line_events events)) = Ret reply ->
  _parse_sse_stream (map Line (one_line_events events)) = reply.
Proof.
  intros Hsome Hevents. unfold _parse_sse_response, _parse_sse_stream.
  rewrite split_nl_join.
  - apply parsers_agree_from.
  - destruct events; [contradiction|discriminate].
  - unfold one_line_events.
    induction Hevents as [|event events Hevent _ IH]; [constructor|].
    cbn [flat_map app]. constructor; [exact Hevent|]. constructor; [reflexivity|].
    destruct events as [|event' events]; [constructor|]. apply IH. discriminate.
Qed.

(** The SSE adapter buffers the data of the lines of an event. *)
Lemma parse_sse_events_buffers (lines datas : list string) :
  Forall2 (fun line data => data_of (strip line) = Some data /\ data <> "") lines datas ->
  forall (rest : list StreamItem) (data_buffer : list string) (result : option json),
    parse_sse_events (map Line lines ++ rest) data_buffer result
    = parse_sse_events rest (data_buffer ++ datas) result.
Proof.
  induction 1 as [|line data lines datas [Hdata Hsome] _ IH]; intros rest data_buffer result.
  - rewrite app_nil_r. reflexivity.
  - cbn [map app parse_sse_events].
    destruct (data_of_some _ _ Hdata) as [-> ->]. rewrite Hdata.
    destruct data as [|c data]; [contradiction|].
    rewrite IH, <- app_assoc. reflexivity.
Qed.

(** The HTTP adapter takes the data of each line by itself. *)
Lemma parse_sse_lines_skips (lines datas : list string) :
  Forall2 (fun line data => data_of (strip line) = Some data /\ data <> "") lines datas ->
  Forall (fun data => json_loads data = None) datas ->
  forall (rest : list string) (result : option json),
    parse_sse_lines (lines ++ rest) result = parse_sse_lines rest result.
Proof.
  induction 1 as [|line data lines datas [Hdata Hsome] _ IH]; intros Hnone rest result.
  - reflexivity.
  - apply Forall_cons in Hnone as [Hnone Hrest].
    cbn [app parse_sse_lines]. rewrite Hdata.
    destruct data as [|c data]; [contradiction|].
    unfold take_document. rewrite Hnone. cbn [py_bind]. apply IH. exact Hrest.
Qed.

(** X25: a reply that is spread over the data lines of one event, none
    of which is a JSON document by itself while their join by line
    feeds is an object with a result, is read by the SSE adapter and
    lost by the HTTP adapter, which finds no reply in the same lines. *)
Theorem only_sse_adapter_joins_data_lines
        (lines datas : list string) (reply : list (string * json)) :
  lines <> [] ->
  Forall (fun line => no_breaks line = true) lines ->
  Forall2 (fun line data => data_of (strip line) = Some data /\ data <> "") lines datas ->
  Forall (fun data => json_loads data = None) datas ->
  json_loads (join nl datas) = Some (JObj reply) ->
  dict_has "result" reply = true ->
  _parse_sse_stream (map Line lines ++ [Line ""]) = Some (JObj reply)
  /\ _parse_sse_response (join nl (lines ++ [""])) = Ret None.
Proof.
  intros Hsome Hlines Hdatas Hnone Hjoin Hresult. split.
  - unfold _parse_sse_stream. rewrite (parse_sse_events_buffers lines datas Hdatas).
    cbn [app parse_sse_events]. rewrite strip_empty. cbn [String.eqb].
    assert (datas <> []) as Hsome'.
    { destruct Hdatas; [contradiction|discriminate]. }
    unfold flush. destruct datas as [|d datas]; [contradiction|].
    unfold take_document. rewrite Hjoin. unfold keep_reply.
    cbn [py_contains py_bind]. rewrite Hresult. reflexivity.
  - unfold _parse_sse_response. rewrite split_nl_join.
    + rewrite (parse_sse_lines_skips lines datas Hdatas Hnone). reflexivity.
    + destruct lines; discriminate.
    + apply Forall_app. split; [exact Hlines|repeat constructor].
Qed.

Lemma sse_adapters_agree_on_one_line_events_witness :
  _parse_sse_stream
    (map Line (one_line_events
                 ["event: message";
                  "data: " +:+ json_dumps true (JObj [("result", JInt 1)])]))
  = Some (JObj [("result", JInt 1)]).
Proof.
  apply (sse_adapters_agree_on_one_line_events
           ["event: message";
            "data: " +:+ json_dumps true (JObj [("result", JInt 1)])]
           (Some (JObj [("result", JInt 1)]))).
  - discriminate.
  - repeat constructor.
  - vm_compute. reflexivity.
Defined.

Lemma only_sse_adapter_joins_data_lines_witness :
  _parse_sse_stream
    (map Line ["data: {";
               "data: " +:+ Jsonc.double_quote +:+ "result" +:+ Jsonc.double_quote
                        +:+ ": 1}"]
         ++ [Line ""])
  = Some (JObj [("result", JInt 1)])
  /\ _parse_sse_response
       (join nl (["data: {";
                  "data: " +:+ Jsonc.double_quote +:+ "result" +:+ Jsonc.double_quote
                           +:+ ": 1}"] ++ [""]))
     = Ret None.
Proof.
  apply (only_sse_adapter_joins_data_lines
           ["data: {";
            "data: " +:+ Jsonc.double_quote +:+ "result" +:+ Jsonc.double_quote +:+ ": 1}"]
           ["{"; Jsonc.double_quote +:+ "result" +:+ Jsonc.double_quote +:+ ": 1}"]
           [("result", JInt 1)]).
  - discriminate.
  - repeat constructor.
  - repeat constructor; try discriminate; vm_compute; reflexivity.
  - repeat constructor.
  - vm_compute. reflexivity.
  - reflexivity.
Defined.

(** * The DeepSeek engine: tool calls without ids, token counts *)

Section Flatten.
Import DeepSeek.

Lemma imap_shift {A B} (f : nat -> A -> B) (i : nat) (l : list A) :
  imap ((fun j => f (i + j)) ∘ S) l = imap (fun j => f (S i + j)) l.
Proof.
  apply imap_ext. intros j x _. simpl. replace (i + S j) with (S (i + j)) by lia.
  reflexivity.
Qed.

Lemma flatten_from_dicts (calls : list ToolCall) :
  forall i,
    flatten_from i (imap (fun j => tool_call_dict (i + j)) calls)
    = Ret (imap (fun j => flattened_call (i + j)) calls).
Proof.
  induction calls as [|tc calls IH]; intros i; [reflexivity|].
  rewrite !imap_cons, !imap_shift, Nat.add_0_r.
  unfold tool_call_dict at 1. cbn [flatten_from].
  change (py_getitem (JObj ?d) "function") with (py_getitem (JObj d) "function").
  simpl. rewrite IH. reflexivity.
Qed.

(** X27: flattening the tool calls that the DeepSeek engine has stored
    in its assistant message never fails and gives, in the same order,
    the name, the arguments, the type and the index of every call,
    without its id. *)
Theorem stored_tool_calls_are_flattened_without_ids (calls : list ToolCall) :
  _flatten_tool_calls (JArr (tool_call_dicts calls)) = Ret (imap flattened_call calls).
Proof.
  unfold _flatten_tool_calls, tool_call_dicts.
  destruct calls as [|tc calls]; [reflexivity|].
  change (negb (truthy (JArr (imap tool_call_dict (tc :: calls))))) with false.
  cbn [py_iter py_bind]. apply (flatten_from_dicts (tc :: calls) 0).
Qed.

End Flatten.

Section Usage.
Import DeepSeek.

Lemma add_to_runs (k : string) (n m : Z) (d : list (string * json)) :
  dict_get k d = Some (JInt m) ->
  add_to k n d = Ret (dict_set k (JInt (m + n)) d).
Proof. unfold add_to. intros ->. reflexivity. Qed.

Lemma add_optional_runs (k : string) (n : option Z) (d : list (string * json)) :
  optional_counter k d ->
  exists d',
    add_optional k n d = Ret d'
    /\ optional_counter k d'
    /\ forall k', k' <> k -> dict_get k' d' = dict_get k' d.
Proof.
  intros Hk. unfold add_optional. destruct n as [n|]; [|eauto].
  unfold dict_has. destruct Hk as [Hnone|[m Hsome]].
  - rewrite Hnone. rewrite (add_to_runs k n 0) by apply dict_get_set_eq.
    eexists. split; [reflexivity|]. split.
    + right. eexists. apply dict_get_set_eq.
    + intros k' Hne. rewrite !dict_get_set_ne by congruence. reflexivity.
  - rewrite Hsome. rewrite (add_to_runs k n m d Hsome).
    eexists. split; [reflexivity|]. split.
    + right. eexists. apply dict_get_set_eq.
    + intros k' Hne. rewrite dict_get_set_ne by congruence. reflexivity.
Qed.

Lemma add_detail_runs (k inner : string) (n : option Z) (d : list (string * json)) :
  optional_detail k inner d ->
  exists d',
    add_detail k inner n d = Ret d'
    /\ optional_detail k inner d'
    /\ forall k', k' <> k -> dict_get k' d' = dict_get k' d.
Proof.
  intros Hk. unfold add_detail. destruct n as [n|]; [|eauto].
  unfold dict_has. cbv zeta. destruct Hk as [Hnone|(details & m & Hsome & Hinner)].
  - rewrite Hnone, dict_get_set_eq.
    rewrite (add_to_runs inner n 0) by (simpl; rewrite String.eqb_refl; reflexivity).
    cbn [py_bind]. eexists. split; [reflexivity|]. split.
    + right. eexists _, _. split; [apply dict_get_set_eq|apply dict_get_set_eq].
    + intros k' Hne. rewrite !dict_get_set_ne by congruence. reflexivity.
  - rewrite !Hsome. rewrite (add_to_runs inner n m details Hinner).
    cbn [py_bind]. eexists. split; [reflexivity|]. split.
    + right. eexists _, _. split; [apply dict_get_set_eq|apply dict_get_set_eq].
    + intros k' Hne. rewrite dict_get_set_ne by congruence. reflexivity.
Qed.

Lemma optional_counter_frame (k : string) (d d' : list (string * json)) :
  dict_get k d' = dict_get k d -> optional_counter k d -> optional_counter k d'.
Proof. unfold optional_counter. intros ->. auto. Qed.

Lemma optional_detail_frame (k inner : string) (d d' : list (string * json)) :
  dict_get k d' = dict_get k d -> optional_detail k inner d -> optional_detail k inner d'.
Proof. unfold optional_detail. intros ->. auto. Qed.

Lemma counter_set (k k' : string) (n : Z) (d : list (string * json)) :
  counter k' (dict_set k (JInt n) d) = if String.eqb k k' then Some n else counter k' d.
Proof.
  unfold counter. destruct (String.eqb_spec k k') as [<-|Hne].
  - rewrite dict_get_set_eq. reflexivity.
  - rewrite dict_get_set_ne by exact Hne. reflexivity.
Qed.

(** What the accounting of one reply does to the usage dict. *)
Lemma add_usage_runs (u : Usage) (total : list (string * json)) (p c t : Z) :
  usage_counters total ->
  dict_get "prompt_tokens" total = Some (JInt p) ->
  dict_get "completion_tokens" total = Some (JInt c) ->
  dict_get "total_tokens" total = Some (JInt t) ->
  exists total',
    add_usage (Some u) total = Ret total'
    /\ usage_counters total'
    /\ dict_get "prompt_tokens" total' = Some (JInt (p + prompt_tokens u))
    /\ dict_get "completion_tokens" total' = Some (JInt (c + completion_tokens u))
    /\ dict_get "total_tokens" total' = Some (JInt (t + total_tokens u)).
Proof.
  intros [_ _ _ Hcached Hreasoning Hhit Hmiss] Hp Hc Ht.
  unfold add_usage.
  rewrite (add_to_runs _ _ p) by exact Hp. cbn [py_bind].
  set (t1 := dict_set "prompt_tokens" (JInt (p + prompt_tokens u)) total).
  assert (forall k, k <> "prompt_tokens" -> dict_get k t1 = dict_get k total) as F1
      by (intros k Hk; unfold t1; rewrite dict_get_set_ne by congruence; reflexivity).
  rewrite (add_to_runs _ _ c) by (rewrite F1 by discriminate; exact Hc). cbn [py_bind].
  set (t2 := dict_set "completion_tokens" (JInt (c + completion_tokens u)) t1).
  assert (forall k, k <> "completion_tokens" -> dict_get k t2 = dict_get k t1) as F2
      by (intros k Hk; unfold t2; rewrite dict_get_set_ne by congruence; reflexivity).
  rewrite (add_to_runs _ _ t) by (rewrite F2, F1 by discriminate; exact Ht). cbn [py_bind].
  set (t3 := dict_set "total_tokens" (JInt (t + total_tokens u)) t2).
  assert (forall k, k <> "total_tokens" -> dict_get k t3 = dict_get k t2) as F3
      by (intros k Hk; unfold t3; rewrite dict_get_set_ne by congruence; reflexivity).
  destruct (add_detail_runs "prompt_tokens_details" "cached_tokens" (cached_tokens u) t3)
    as (t4 & -> & Hcached4 & F4).
  { eapply optional_detail_frame; [|exact Hcached].
    rewrite F3, F2, F1 by discriminate. reflexivity. }
  cbn [py_bind].
  destruct (add_detail_runs "completion_tokens_details" "reasoning_tokens"
                            (reasoning_tokens u) t4) as (t5 & -> & Hreasoning5 & F5).
  { eapply optional_detail_frame; [|exact Hreasoning].
    rewrite F4, F3, F2, F1 by discriminate. reflexivity. }
  cbn [py_bind].
  destruct (add_optional_runs "prompt_cache_hit_tokens" (prompt_cache_hit_tokens u) t5)
    as (t6 & -> & Hhit6 & F6).
  { eapply optional_counter_frame; [|exact Hhit].
    rewrite F5, F4, F3, F2, F1 by discriminate. reflexivity. }
  cbn [py_bind].
  destruct (add_optional_runs "prompt_cache_miss_tokens" (prompt_cache_miss_tokens u) t6)
    as (t7 & -> & Hmiss7 & F7).
  { eapply optional_counter_frame; [|exact Hmiss].
    rewrite F6, F5, F4, F3, F2, F1 by discriminate. reflexivity. }
  exists t7. split; [reflexivity|].
  assert (dict_get "prompt_tokens" t7 = Some (JInt (p + prompt_tokens u))) as Hp7.
  { rewrite F7, F6, F5, F4, F3, F2 by discriminate. apply dict_get_set_eq. }
  assert (dict_get "completion_tokens" t7 = Some (JInt (c + completion_tokens u))) as Hc7.
  { rewrite F7, F6, F5, F4, F3 by discriminate. apply dict_get_set_eq. }
  assert (dict_get "total_tokens" t7 = Some (JInt (t + total_tokens u))) as Ht7.
  { rewrite F7, F6, F5, F4 by discriminate. apply dict_get_set_eq. }
  split; [|auto].
  split; eauto.
  - eapply optional_detail_frame; [|exact Hcached4].
    rewrite F7, F6, F5 by discriminate. reflexivity.
  - eapply optional_detail_frame; [|exact Hreasoning5].
    rewrite F7, F6 by discriminate. reflexivity.
  - eapply optional_counter_frame; [|exact Hhit6].
    rewrite F7 by discriminate. reflexivity.
Qed.

(** X28: the token accounting of the DeepSeek engine cannot fail on the
    usage dict the loop keeps: for whatever usage a reply reports it
    returns a usage dict of the same shape in which the prompt, the
    completion and the total count have each grown by the count
    reported. *)
Theorem usage_accounting_adds_up (u : Usage) (total : list (string * json)) :
  usage_counters total ->
  exists total' p c t,
    add_usage (Some u) total = Ret total'
    /\ usage_counters total'
    /\ counter "prompt_tokens" total = Some p
    /\ counter "completion_tokens" total = Some c
    /\ counter "total_tokens" total = Some t
    /\ counter "prompt_tokens" total' = Some (p + prompt_tokens u)%Z
    /\ counter "completion_tokens" total' = Some (c + completion_tokens u)%Z
    /\ counter "total_tokens" total' = Some (t + total_tokens u)%Z.
Proof.
  intros Htotal.
  destruct (counts_prompt total Htotal) as [p Hp].
  destruct (counts_completion total Htotal) as [c Hc].
  destruct (counts_total total Htotal) as [t Ht].
  destruct (add_usage_runs u total p c t Htotal Hp Hc Ht)
    as (total' & Hrun & Hshape & Hp' & Hc' & Ht').
  exists total', p, c, t. unfold counter.
  rewrite Hp, Hc, Ht, Hp', Hc', Ht'. auto 10.
Qed.

Lemma entered_usage_counters (messages : list json) :
  usage_counters (total_usage (entered messages)).
Proof.
  split; simpl; try (eexists; reflexivity); left; reflexivity.
Qed.

End Usage.

Lemma usage_accounting_adds_up_witness :
  exists total' p c t,
    DeepSeek.add_usage
      (Some {| DeepSeek.prompt_tokens := 12%Z; DeepSeek.completion_tokens := 30%Z;
               DeepSeek.total_tokens := 42%Z; DeepSeek.cached_tokens := Some 8%Z;
               DeepSeek.reasoning_tokens := None;
               DeepSeek.prompt_cache_hit_tokens := Some 8%Z;
               DeepSeek.prompt_cache_miss_tokens := Some 4%Z |})
      (DeepSeek.total_usage (DeepSeek.entered [])) = Ret total'
    /\ DeepSeek.usage_counters total'
    /\ DeepSeek.counter "prompt_tokens" (DeepSeek.total_usage (DeepSeek.entered [])) = Some p
    /\ DeepSeek.counter "completion_tokens" (DeepSeek.total_usage (DeepSeek.entered []))
       = Some c
    /\ DeepSeek.counter "total_tokens" (DeepSeek.total_usage (DeepSeek.entered [])) = Some t
    /\ DeepSeek.counter "prompt_tokens" total' = Some (p + 12)%Z
    /\ DeepSeek.counter "completion_tokens" total' = Some (c + 30)%Z
    /\ DeepSeek.counter "total_tokens" total' = Some (t + 42)%Z.
Proof.
  apply (usage_accounting_adds_up
           {| DeepSeek.prompt_tokens := 12%Z; DeepSeek.completion_tokens := 30%Z;
              DeepSeek.total_tokens := 42%Z; DeepSeek.cached_tokens := Some 8%Z;
              DeepSeek.reasoning_tokens := None;
              DeepSeek.prompt_cache_hit_tokens := Some 8%Z;
              DeepSeek.prompt_cache_miss_tokens := Some 4%Z |}
           (DeepSeek.total_usage (DeepSeek.entered []))).
  split; simpl; try (eexists; reflexivity); left; reflexivity.
Defined.

